(* ===== verification/_CoqProject ===== *)
-Q . S2P
Prelude.v
Prog.v
Mmio.v
UserMem.v
AddrSpace.v
AccnetRegs.v
IocacheRegs.v
SkbRing.v
AccnetDriver.v
AccnetDriverSpec.v
AccnetDriverSafety.v
AccnetRefine.v
AccnetMisc.v
AccnetProbe.v
IocacheDriver.v
IocacheDriverSpec.v
IocacheMisc.v
LibHeaders.v
IocacheOwners.v
IocacheWait.v
IocacheBoot.v
Common.v
CLib.v
CommonRegs.v
IocacheLib.v
AccnetLib.v
UdpExp.v
UdpExpSpec.v
UdpMain.v
UdpMainSpec.v
UdpSession.v
InterruptExp.v
InterruptExpSpec.v
Qsort.v
QsortSpec.v
QsortUtil.v
Barrier.v
BareLib.v
BareLibSpec.v
Sockets.v
UdpApps.v
UdpClients.v
UdpAppsSpec.v
FileTransfer.v
Rdma.v
RdmaSpec.v
