(* ===== verification/Prelude.v ===== *)
(** * FireMarshal: drivers, user libraries and workloads

    A model of the C programs of the repository: two Linux drivers for FPGA
    devices, the user-space libraries over them, and the benchmark programs, with
    the theorems that make each of them correct.

    ** The program

    The AccNIC is a network card with an Ethernet data path and UDP engines; the
    I/O cache is a table of 64 connection rows that wakes the process of a row
    when a packet arrives.  Each has a driver ([boards/default/drivers/]) and a
    character device through which a process maps registers and rings; the
    libraries in [boards/default/lib/] open these devices, set up a connection and
    sleep until data arrives; [lib/udp_exp.c] runs experiments over both.  The
    programs in [boards/default/app/] and [lib/*_kernel.c] measure the same over
    sockets and RDMA for comparison; [lib/interrupt_exp.c] times one packet from
    ring to interrupt.  [example-workloads/] holds a quicksort benchmark, and
    [test/bare/] the runtime of the programs that run without an operating system.

    ** Where each part is modelled

    - [Prelude], [Prog]: integers of a given width ([u w], [i w]), lists, and the
      state-and-error monad [prog S A] into which the C code is translated.
    - [Mmio], [UserMem], [AddrSpace]: the boundaries to the hardware, to the memory
      of a calling process and to its mappings.
    - [AccnetRegs], [IocacheRegs]: the register maps of [accnet.h], [iocache.h].
    - [SkbRing], [AccnetDriver], [AccnetProbe]: [accnet.c]; the state is
      [struct accnet_device] with the device, the rings, the live buffers, the
      buffers freed and handed up so far, and the kernel flags.  [AccnetDriverSpec], [AccnetDriverSafety]: its properties;
      [AccnetRefine]: the network interface it implements.
      [AccnetMisc]: [accnet_misc.c].
    - [IocacheDriver], [IocacheDriverSpec]: [iocache.c] and [iocache_plic.c], with
      the calls into the kernel as a trace.  [IocacheMisc]: [iocache_misc.c].
      [IocacheOwners]: the table of row owners that both files implement.
      [IocacheWait]: the actions of the wait ioctl, of any number of tasks, interleaved
      with the interrupt handler, the timers and the other calls of the driver, as a
      step relation over the driver's state.  [IocacheBoot]: from probe to the empty
      table.
    - [LibHeaders]: the register maps and ioctl numbers of the headers in [lib/].
    - [Common], [CommonRegs]: [lib/common.h].  [CLib]: the C library, with the
      doubles that [udp_mt_client.c] prints.
    - [IocacheLib], [AccnetLib]: [lib/iocache_lib.c], [lib/accnet_lib.c]; their
      system calls are the driver models, over one shared device.
    - [UdpExp], [UdpMain]: [lib/udp_exp.c]; [UdpExpSpec], [UdpMainSpec]: their
      properties.  [UdpSession]: a whole run of it, through both libraries and both
      drivers.
    - [InterruptExp], [InterruptExpSpec]: [lib/interrupt_exp.c], its threads as a
      step relation.
    - [Qsort], [QsortSpec]: [qsort_main.c].  [QsortUtil], [Barrier]: [util.h].
    - [BareLib], [BareLibSpec]: [test/bare/syscalls.c].
    - [Sockets]: the socket calls as an interface.  [UdpApps], [UdpClients],
      [UdpAppsSpec]: [app/udp_*.c], [lib/udp_client_kernel.c],
      [lib/udp_server_kernel.c].
    - [FileTransfer]: [file_sender.c] and [file_receiver.c] (of [lib/] and [app/]).
    - [Rdma], [RdmaSpec]: [app/rdma/].

    A C function is a definition of the same name; the branches of a long [main] or
    of a switch are definitions of their own, composed the way the code composes
    them.  Early returns are values, [exit] is the outcome [Exit], undefined
    behaviour is a [Fault].

    ** What is a parameter

    Hardware and system services outside the repository are type classes or
    arguments: [Mmio] (a device may change on every access), [Kernel] (buffer
    allocation), [Platform] and [IocPlatform] (device tree, mapping, interrupts, DMA),
    [MiscKernel] (scheduling), [Os] and [AccOs] (descriptors, addresses chosen by mmap,
    the CPU on which each call runs), [Sockets], [verbs] (completions, clock, posting),
    [NetLib] and [System] (the earlier libraries and the system calls of the interrupt
    experiment), [can_alloc], [rand] and [malloc].  Each class has an executable
    instance, on which the witnesses evaluate the theorems.

    What is assumed of them is what their headers and manuals say:
    - [PlainMmio]: a register keeps what was written to it only where it is [storage],
      that is not one of the counters, interrupt, schedule or read-only registers
      ([volatile]), and only values that fit; a read leaves storage alone and changes
      nothing at all unless the register [consumes] (SCHED_READ advances the round
      robin).  The receive pointers of UDP ring 32 are the interrupt registers and are
      not storage.  [LittleMmio]: byte order of storage.  [OwnerTable]: the owner fields
      of the I/O cache.  [NicDevice]: the counters of the NIC.
    - [KernelLaws]: a buffer that the allocator returns is fresh, large enough and
      starts on a cache line; it may return none.
    - [QuietLaws]: a wait on a device without a packet does not succeed (it may
      time out).
    - The network of [UdpAppsSpec] answers a datagram of any size at once or loses it;
      late replies are not modelled.
    - The barrier of [util.h] is modelled on sequentially consistent memory: the code
      has no fence between the writes of lines 101 and 102.
    - The handlers of the AccNIC driver run one at a time (its locks are modelled, and
      no handler takes one twice); a file is released when its last reference is gone,
      mappings included.
    - The variables of the file receiver start with arbitrary contents ([locals]).

    ** What the theorems show

    - Driver safety: the invariant of the AccNIC driver holds in every state reached
      by any interleaving of handlers and device steps, and a handler returns in it,
      except that open and poll dereference a buffer that could not be allocated and
      that a refused buffer is gone when it is requeued ([accnet_reachable_safe]);
      poll consumes, delivers and refills exactly what it should ([accnet_poll_spec]);
      probe and remove are balanced
      ([iocache_probe_remove_balanced]); mappings stay inside their windows
      ([accnet_mmap_confined], [iocache_mmap_rings]).
    - Refinement: seen from the network stack and the wire the AccNIC driver with
      its device is an abstract interface of two queues, whose actions the state and
      the returned values determine ([accnet_refines_iface]); seen from its tasks
      the I/O cache driver is a table of row owners, whose interrupts wake the owners
      of the kicked rows, and whose kernel calls are legal exactly when its callers
      set up their timers and outlive their rows ([iocache_refines_owners]), from the
      moment a probe succeeds ([iocache_probe_success]); the headers of process and
      kernel agree ([library_abi]), and only ring 32 overlaps other registers
      ([library_registers]); the buffer ring and the stamp queue are
      FIFO queues
      ([sk_buff_cq_refines_fifo], [rxq_refines_fifo]); the wait ioctl performs the
      actions of the wait program ([wait_ready_actions]).
    - Concurrency: however waits, interrupts, timeouts and other calls interleave, no
      wake-up is lost ([wait_no_lost_wakeup]); the barrier keeps its threads together and lets them go
      ([barrier_synchronises], [barrier_completes]); the interrupt experiment ends
      ([interrupt_exp_ends]), reports the time between two readings of the clock, not
      negative for one sender if the wait succeeded ([one_shot_latency]), and advances the ring by one to [n] payloads ([tail_advance]).
    - Behaviour of every handler and library function on its branches, composed up
      to opening a connection through library, driver and device
      ([iocache_open_spec], [accnet_open_spec]), and further to a whole run of the UDP
      experiments, which gives back what it took ([udp_exp_session]).
    - The programs: ring arithmetic never overruns ([try_fill_tx_spec],
      [tx_worker_no_overrun]), statistics are those of the samples
      ([client_stats_exact], [udp_client_measures], [client_ts_measures]), logs pair
      the right stamps ([server_log_pairs]), clients and servers work together
      ([udp_client_measures], [udp_mt_client_rows]), files arrive
      ([file_transfer_roundtrip]) and are stored until a peer ends the server
      ([receiver_serves]), arrays are sorted ([sort_correct],
      [sorts_equivalent]).
    - The runtime: word and byte loops agree ([memcpy_spec], [memset_spec]), printing
      to console and memory is one function ([printf_sprintf_agree]), numbers are read
      back ([sprintf_atol_roundtrip]), buffers suffice ([init_report_fits]), the string
      functions end ([strlen_spec]).
    - Errors: what the code does not survive ([reserve_ring_unchecked],
      [free_takes_foreign_row], [close_keeps_owners], [wait_starts_unset_timer],
      [alloc_recv_unchecked], [split_name_misfiled], [try_fill_over_quarter],
      [rxq_capacity_doubles] and others).

    ** Fuel and bounds

    A loop that always ends gets a number of rounds computed from its data, and its
    theorem shows that it is enough: [2 n + 2] segments for [sort] of [n] elements
    ([n < 11 * 2^24] keeps the stack of 50 entries from overflowing), [ntest + 1]
    rounds for the transmit worker, one more than the bytes for a file, one more than
    the characters of a format, one more than the bytes of memory for a string.  A loop that
    the device or the user ends (servers, polls) takes a number of rounds as an
    argument and reports [OutOfFuel] when it is used up; its theorems say what any
    number of rounds does, or how many are enough.

    ** Not modelled

    Text output, result files beyond their rows, and floating-point summaries (the
    one conversion of a result file is modelled, rounding included);
    socket options; [print_skb_data] and code behind switches that are off; the
    test programs under [test/] themselves, which print a line or use an accelerator
    instruction; and the Python builder [marshal], which runs external tools. *)

From Stdlib Require Export ZArith Lia.
From stdpp Require Export base numbers list gmap option.

#[export] Set Default Goal Selector "!".
Open Scope Z_scope.

(** ** Tactics and hint databases *)

Create HintDb word discriminated.
Create HintDb prog discriminated.

(** Linear arithmetic after [mod] and [/] have been replaced by their
    quotient and remainder equations. *)
Ltac zdm := Z.div_mod_to_equations; lia.

(** A property of every element of an explicit list. *)
Ltac forall_list :=
  repeat first [apply List.Forall_nil | apply list.Forall_cons; split].

(** Case analysis on every boolean integer test of the goal. *)
Ltac case_bool :=
  match goal with
  | |- context [Z.eqb ?a ?b] => destruct (Z.eqb_spec a b)
  | |- context [Z.ltb ?a ?b] => destruct (Z.ltb_spec a b)
  | |- context [Z.leb ?a ?b] => destruct (Z.leb_spec a b)
  end.

(** ** Fixed-width integers

    A C integer of width [w] is a [Z]; unsigned arithmetic is reduced modulo
    [2^w], conversion to a signed type is two's complement. *)

Module Word.
Definition u (w x : Z) : Z := x mod 2 ^ w.
Definition i (w x : Z) : Z := (x + 2 ^ (w - 1)) mod 2 ^ w - 2 ^ (w - 1).
End Word.

Abbreviation u8 := (Word.u 8).
Abbreviation u16 := (Word.u 16).
Abbreviation u32 := (Word.u 32).
Abbreviation u64 := (Word.u 64).
Abbreviation i32 := (Word.i 32).
Abbreviation i64 := (Word.i 64).

Lemma u_range w x : 0 <= w -> 0 <= Word.u w x < 2 ^ w.
Proof. intros Hw. unfold Word.u. apply Z.mod_pos_bound. lia. Qed.

Lemma u_small w x : 0 <= x < 2 ^ w -> Word.u w x = x.
Proof. apply Z.mod_small. Qed.

Lemma i_small w x : 0 < w -> - 2 ^ (w - 1) <= x < 2 ^ (w - 1) -> Word.i w x = x.
Proof.
  intros Hw Hx. unfold Word.i.
  assert (2 ^ w = 2 * 2 ^ (w - 1)) as Hp
      by (rewrite <- Z.pow_succ_r by lia; f_equal; lia).
  rewrite Z.mod_small; lia.
Qed.

Lemma u_u w1 w2 x : 0 <= w1 <= w2 -> Word.u w2 (Word.u w1 x) = Word.u w1 x.
Proof.
  intros Hw. apply u_small. pose proof (u_range w1 x ltac:(lia)).
  assert (2 ^ w1 <= 2 ^ w2) by (apply Z.pow_le_mono_r; lia). lia.
Qed.

Lemma u_add_l w x y : Word.u w (Word.u w x + y) = Word.u w (x + y).
Proof. apply Zplus_mod_idemp_l. Qed.

Lemma u_sub_r w x y : Word.u w (x - Word.u w y) = Word.u w (x - y).
Proof. apply Zminus_mod_idemp_r. Qed.

Lemma u_land_ones w x : 0 <= w -> Word.u w x = Z.land x (Z.ones w).
Proof. intros. unfold Word.u. by rewrite Z.land_ones. Qed.

#[export] Hint Resolve u_range : word.

(** Evaluate the powers of two that machine arithmetic mentions. *)
Ltac pow2 :=
  change (2 ^ 8) with 256 in *; change (2 ^ 16) with 65536 in *;
  change (2 ^ 31) with 2147483648 in *; change (2 ^ 32) with 4294967296 in *;
  change (2 ^ 63) with 9223372036854775808 in *;
  change (2 ^ 64) with 18446744073709551616 in *.

(** Remove the wrap-arounds that provably do nothing. *)
Ltac unwrap :=
  repeat match goal with
  | |- context [Word.u ?w ?x] => rewrite (u_small w x) by (pow2; lia)
  | |- context [Word.i ?w ?x] => rewrite (i_small w x) by (simpl; lia)
  end.

(** ** Bit fields *)

(** A value below [2^n] and a multiple of [2^n] do not share a bit. *)
Lemma lor_shiftl_add n hi lo :
  0 <= n -> 0 <= lo < 2 ^ n -> Z.lor (Z.shiftl hi n) lo = hi * 2 ^ n + lo.
Proof.
  intros Hn Hlo. rewrite <- Z.shiftl_mul_pow2 by done.
  rewrite <- Z.lxor_lor, <- Z.add_nocarry_lxor; [done|..];
    apply Z.bits_inj_0; intros k; rewrite Z.land_spec;
    destruct (Z.ltb_spec k 0);
    try (rewrite Z.testbit_neg_r by done; done);
    rewrite Z.shiftl_spec by done;
    destruct (Z.ltb_spec k n);
    try (rewrite (Z.testbit_neg_r hi) by lia; done);
    rewrite <- (Z.mod_small lo (2 ^ n)) by done;
    rewrite Z.mod_pow2_bits_high by lia; apply andb_false_r.
Qed.

(** A power-of-two mask is a remainder. *)
Lemma land_pow2_mask n x : 0 <= n -> Z.land x (2 ^ n - 1) = x mod 2 ^ n.
Proof.
  intros Hn. rewrite <- Z.land_ones by done. by rewrite Z.ones_equiv, Z.sub_1_r.
Qed.

(** ** Lists indexed by machine integers *)

Definition zlookup {A} (l : list A) (k : Z) : option A :=
  if 0 <=? k then l !! Z.to_nat k else None.

Definition zlen {A} (l : list A) : Z := Z.of_nat (length l).

Lemma zlookup_Some {A} (l : list A) k x :
  zlookup l k = Some x -> 0 <= k < zlen l.
Proof.
  unfold zlookup, zlen. destruct (Z.leb_spec 0 k); [|done].
  intros ?%lookup_lt_Some. lia.
Qed.

Lemma zlookup_lt {A} (l : list A) k : 0 <= k < zlen l -> is_Some (zlookup l k).
Proof.
  unfold zlookup, zlen. intros Hk. destruct (Z.leb_spec 0 k); [|lia].
  apply lookup_lt_is_Some. lia.
Qed.

(** Replacing an element changes a count by what the two elements contribute. *)
Lemma length_filter_insert {A} (P : A -> Prop) `{!∀ x, Decision (P x)} (l : list A) i x y :
  l !! i = Some x ->
  (length (filter P (<[i := y]> l)) + (if decide (P x) then 1 else 0)
   = length (filter P l) + (if decide (P y) then 1 else 0))%nat.
Proof.
  intros Hi. rewrite insert_take_drop by by eapply lookup_lt_Some.
  rewrite <- (take_drop_middle l i x Hi) at 3.
  rewrite !list.filter_app, !length_app, !filter_cons.
  repeat case_decide; cbn [length]; lia.
Qed.
