(* ===== verification/Prog.v ===== *)
(** * Programs: state, early exit and faults

    The C code is translated into [prog S A]: a function of the state [S] that
    either returns a value, terminates the process with [exit], faults (what C
    leaves undefined: a null or freed pointer, an index out of bounds, a
    deadlock on a spinlock) or, for a loop whose exit the environment decides,
    runs out of the rounds it was given.  The state reached so far is kept in
    every case. *)

From S2P Require Import Prelude.

Create HintDb frame discriminated.
#[export] Hint Constants Opaque : frame.

Inductive fault :=
| NullDeref
| UseAfterFree
| OutOfBounds
| DivByZero
| Deadlock
| BugOn            (* BUG() / skb_over_panic() *)
| Uninitialised.   (* an indeterminate value is used *)

#[export] Instance fault_eq_dec : EqDecision fault.
Proof. solve_decision. Defined.

Inductive outcome (A : Type) : Type :=
| Ret (a : A)
| Exit (code : Z)
| Fault (f : fault)
| OutOfFuel.
Arguments Ret {A} a.
Arguments Exit {A} code.
Arguments Fault {A} f.
Arguments OutOfFuel {A}.

Definition prog (S A : Type) : Type := S -> outcome A * S.

#[export] Instance prog_ret S : MRet (prog S) := λ A a s, (Ret a, s).

Definition bind {S A B} (m : prog S A) (k : A -> prog S B) : prog S B := λ s,
  match m s with
  | (Ret a, s') => k a s'
  | (Exit c, s') => (Exit c, s')
  | (Fault f, s') => (Fault f, s')
  | (OutOfFuel, s') => (OutOfFuel, s')
  end.

Declare Scope prog_scope.
Delimit Scope prog_scope with prog.
Notation "x ← y ; z" := (bind y (λ x : _, z))
  (at level 20, y at level 100, z at level 200, only parsing) : prog_scope.
Notation "' x ← y ; z" := (bind y (λ x : _, z))
  (at level 20, x pattern, y at level 100, z at level 200, only parsing) : prog_scope.
Notation "x ;; z" := (bind x (λ _, z)) : prog_scope.
Open Scope prog_scope.

Section ops.
Context {S : Type}.
Definition get : prog S S := λ s, (Ret s, s).
Definition gets {A} (f : S -> A) : prog S A := λ s, (Ret (f s), s).
Definition modify (f : S -> S) : prog S unit := λ s, (Ret tt, f s).
Definition fail {A} (f : fault) : prog S A := λ s, (Fault f, s).
Definition exit {A} (code : Z) : prog S A := λ s, (Exit code, s).
Definition diverge {A} : prog S A := λ s, (OutOfFuel, s).

(** A pointer dereference. *)
Definition deref {A} (o : option A) (f : fault) : prog S A :=
  match o with Some a => mret a | None => fail f end.

(** [if (b) { m }] *)
Definition when (b : bool) (m : prog S unit) : prog S unit :=
  if b then m else mret tt.

(** [for (j = i; n rounds; j++) body(j);] *)
Fixpoint for_loop (n : nat) (i : Z) (body : Z -> prog S unit) : prog S unit :=
  match n with
  | O => mret tt
  | Datatypes.S n' => body i;; for_loop n' (i + 1) body
  end.

(** The same loop with [return r] in its body: [Some r] leaves the loop. *)
Fixpoint for_return {R} (n : nat) (i : Z) (body : Z -> prog S (option R))
  : prog S (option R) :=
  match n with
  | O => mret None
  | Datatypes.S n' =>
      r ← body i;
      match r with
      | Some v => mret (Some v)
      | None => for_return n' (i + 1) body
      end
  end.
End ops.

(** ** Computation rules *)

Section rules.
Context {S : Type}.
Implicit Types s : S.

Lemma run_ret {A} (a : A) s : (mret a : prog S A) s = (Ret a, s).
Proof. done. Qed.

Lemma run_bind {A B} (m : prog S A) (k : A -> prog S B) s a s' :
  m s = (Ret a, s') -> bind m k s = k a s'.
Proof. intros Hm. unfold bind. by rewrite Hm. Qed.

Lemma run_modify {B} f (k : unit -> prog S B) s : bind (modify f) k s = k tt (f s).
Proof. done. Qed.

Lemma run_get {B} (k : S -> prog S B) s : bind get k s = k s s.
Proof. done. Qed.

Lemma run_bind_fault {A B} (m : prog S A) (k : A -> prog S B) s f s' :
  m s = (Fault f, s') -> bind m k s = (Fault f, s').
Proof. intros Hm. unfold bind. by rewrite Hm. Qed.

(** A run that returned went through both parts of a sequence. *)
Lemma bind_Ret_inv {A B} (m : prog S A) (k : A -> prog S B) s b s2 :
  bind m k s = (Ret b, s2) -> exists a s1, m s = (Ret a, s1) /\ k a s1 = (Ret b, s2).
Proof.
  unfold bind. destruct (m s) as [[a| | |] s1] eqn:E; try done. eauto.
Qed.

Lemma bind_assoc {A B C} (m : prog S A) (k : A -> prog S B) (h : B -> prog S C) s :
  bind (bind m k) h s = bind m (λ x, bind (k x) h) s.
Proof. unfold bind. by destruct (m s) as [[] ?]. Qed.

(** One round of a loop with [return] in its body that is not taken. *)
Lemma run_for_return {R} (body : Z -> prog S (option R)) n i s s' :
  body i s = (Ret None, s') ->
  for_return (Datatypes.S n) i body s = for_return n (i + 1) body s'.
Proof. intros E. cbn [for_return]. by rewrite (run_bind _ _ _ _ _ E). Qed.

(** A loop whose body never fails and acts on the state as [f i] is the
    fold of those state functions. *)
Lemma for_loop_total (body : Z -> prog S unit) (f : Z -> S -> S) :
  (forall j s, body j s = (Ret tt, f j s)) ->
  forall n i s,
    for_loop n i body s
    = (Ret tt, foldl (λ s k, f (i + Z.of_nat k) s) s (seq 0 n)).
Proof.
  intros Hb n. induction n as [|n IH]; intros i s; [done|].
  cbn [for_loop]. rewrite (run_bind _ _ _ _ _ (Hb i s)), IH.
  cbn [seq foldl]. rewrite Z.add_0_r, <- fmap_S_seq. f_equal.
  generalize (f i s). generalize (seq 0 n). intros l.
  induction l as [|k l IHl]; intros s0; [done|]. cbn.
  rewrite IHl. do 2 f_equal. lia.
Qed.

(** Invariant rule for a loop that returns. *)
Lemma for_loop_inv (body : Z -> prog S unit) (I : Z -> S -> Prop) n i s :
  (forall j s, i <= j < i + Z.of_nat n -> I j s ->
     exists s', body j s = (Ret tt, s') /\ I (j + 1) s') ->
  I i s ->
  exists s', for_loop n i body s = (Ret tt, s') /\ I (i + Z.of_nat n) s'.
Proof.
  revert i s. induction n as [|n IH]; intros i s Hb Hi.
  - exists s. split; [done|]. by rewrite Z.add_0_r.
  - destruct (Hb i s ltac:(lia) Hi) as (s1 & E & H1).
    destruct (IH (i + 1) s1) as (s2 & E2 & H2); [|done|].
    + intros j s' Hj. apply Hb. lia.
    + exists s2. cbn [for_loop]. rewrite (run_bind _ _ _ _ _ E), E2.
      split; [done|]. by replace (i + Z.of_nat (Datatypes.S n))
        with (i + 1 + Z.of_nat n) by lia.
Qed.
End rules.

(** ** Total correctness

    [returns m s Q]: from [s], [m] terminates normally (it neither faults nor
    exits nor runs out of rounds) with a value and a state that satisfy [Q]. *)

Definition returns {S A} (m : prog S A) (s : S) (Q : A -> S -> Prop) : Prop :=
  exists a s', m s = (Ret a, s') /\ Q a s'.

Section hoare.
Context {S : Type}.
Implicit Types s : S.

Lemma returns_ret {A} (a : A) s (Q : A -> S -> Prop) : Q a s -> returns (mret a) s Q.
Proof. intros HQ. by exists a, s. Qed.

Lemma returns_bind {A B} (m : prog S A) (k : A -> prog S B) s P Q :
  returns m s P -> (forall a s', P a s' -> returns (k a) s' Q) -> returns (bind m k) s Q.
Proof.
  intros (a & s1 & E & HP) Hk. destruct (Hk a s1 HP) as (b & s2 & E2 & HQ).
  exists b, s2. by rewrite (run_bind _ _ _ _ _ E).
Qed.

(** The form for a first instruction whose result is known. *)
Lemma returns_bind_eq {A B} (m : prog S A) (k : A -> prog S B) s a s' Q :
  m s = (Ret a, s') -> returns (k a) s' Q -> returns (bind m k) s Q.
Proof.
  intros E (b & s2 & E2 & HQ). exists b, s2. by rewrite (run_bind _ _ _ _ _ E).
Qed.

Lemma returns_conseq {A} (m : prog S A) s (P Q : A -> S -> Prop) :
  returns m s P -> (forall a s', P a s' -> Q a s') -> returns m s Q.
Proof. intros (a & s1 & E & HP) HPQ. exists a, s1. eauto. Qed.

Lemma returns_get s (Q : S -> S -> Prop) : Q s s -> returns get s Q.
Proof. intros HQ. by exists s, s. Qed.

Lemma returns_modify f s (Q : unit -> S -> Prop) : Q tt (f s) -> returns (modify f) s Q.
Proof. intros HQ. by exists tt, (f s). Qed.

Lemma returns_when b m s (Q : unit -> S -> Prop) :
  (b = true -> returns m s Q) -> (b = false -> Q tt s) -> returns (when b m) s Q.
Proof. destruct b; intros Ht Hf; [by apply Ht|]. by apply returns_ret, Hf. Qed.

Lemma returns_eq {A} (m : prog S A) s a s' (Q : A -> S -> Prop) :
  m s = (Ret a, s') -> Q a s' -> returns m s Q.
Proof. intros E HQ. by exists a, s'. Qed.

(** [faults m s f Q]: from [s], [m] runs into the fault [f], in a state that
    satisfies [Q]. *)
Definition faults {A} (m : prog S A) s (f : fault) (Q : S -> Prop) : Prop :=
  exists s', m s = (Fault f, s') /\ Q s'.

Lemma faults_bind {A B} (m : prog S A) (k : A -> prog S B) s f Q :
  faults m s f Q -> faults (bind m k) s f Q.
Proof. intros (s' & E & HQ). exists s'. split; [|done]. by apply run_bind_fault. Qed.

Lemma faults_after {A B} (m : prog S A) (k : A -> prog S B) s f P Q :
  returns m s P -> (forall a s', P a s' -> faults (k a) s' f Q) -> faults (bind m k) s f Q.
Proof.
  intros (a & s1 & E & HP) Hk. destruct (Hk a s1 HP) as (s2 & E2 & HQ).
  exists s2. by rewrite (run_bind _ _ _ _ _ E).
Qed.

Lemma faults_after_eq {A B} (m : prog S A) (k : A -> prog S B) s a s' f Q :
  m s = (Ret a, s') -> faults (k a) s' f Q -> faults (bind m k) s f Q.
Proof. intros E (s2 & E2 & HQ). exists s2. by rewrite (run_bind _ _ _ _ _ E). Qed.

(** Invariant rule for counting loops. *)
Lemma returns_for_loop (body : Z -> prog S unit) (I : Z -> S -> Prop) n i s
    (Q : unit -> S -> Prop) :
  I i s ->
  (forall j s, i <= j < i + Z.of_nat n -> I j s -> returns (body j) s (λ _, I (j + 1))) ->
  (forall s, I (i + Z.of_nat n) s -> Q tt s) ->
  returns (for_loop n i body) s Q.
Proof.
  intros Hi Hb HQ. destruct (for_loop_inv body I n i s) as (s' & E & H').
  - intros j s0 Hj Hj'. destruct (Hb j s0 Hj Hj') as ([] & s1 & E & H1). eauto.
  - done.
  - exists tt, s'. eauto.
Qed.

(** The same for a loop with [return] in its body that is not taken. *)
Lemma returns_for_return {R} (body : Z -> prog S (option R)) (I : Z -> S -> Prop) n : forall i s
    (Q : option R -> S -> Prop),
  I i s ->
  (forall j s, i <= j < i + Z.of_nat n -> I j s ->
     returns (body j) s (λ r s', r = None /\ I (j + 1) s')) ->
  (forall s, I (i + Z.of_nat n) s -> Q None s) ->
  returns (for_return n i body) s Q.
Proof.
  induction n as [|n IH]; intros i s Q Hi Hb HQ; cbn [for_return].
  - apply returns_ret, HQ. by rewrite Z.add_0_r.
  - eapply returns_bind; [apply (Hb i s); [lia|done]|].
    intros r s1 [-> H1]. apply IH; [done|intros; apply Hb; [lia|done]|].
    intros s2 H2. apply HQ.
    by replace (i + Z.of_nat (Datatypes.S n)) with (i + 1 + Z.of_nat n) by lia.
Qed.
End hoare.

#[export] Hint Resolve returns_ret returns_get returns_modify : prog.

(** ** Frames

    [preserves R m]: however [m] ends, the state it leaves is related to the one it
    started from. *)

Definition preserves {S A} (R : S -> S -> Prop) (m : prog S A) : Prop := forall s, R s (m s).2.

Section frames.
Context {S : Type} (R : S -> S -> Prop) `{!PreOrder R}.

Lemma preserves_ret {A} (a : A) : preserves R (mret a).
Proof. by intros s. Qed.

Lemma preserves_get : preserves R get.
Proof. by intros s. Qed.

Lemma preserves_fail {A} f : preserves R (fail (A := A) f).
Proof. by intros s. Qed.

Lemma preserves_diverge {A} : preserves R (diverge (A := A)).
Proof. by intros s. Qed.

Lemma preserves_modify f : (forall s, R s (f s)) -> preserves R (modify f).
Proof. intros Hf s. apply Hf. Qed.

Lemma preserves_bind {A B} (m : prog S A) (k : A -> prog S B) :
  preserves R m -> (forall a, preserves R (k a)) -> preserves R (bind m k).
Proof.
  intros Hm Hk s. specialize (Hm s). unfold bind. destruct (m s) as [[a| | |] s1]; cbn in *; try done.
  etrans; [exact Hm|apply Hk].
Qed.

Lemma preserves_when b m : preserves R m -> preserves R (when b m).
Proof. destruct b; [done|]. intros _. apply preserves_ret. Qed.
End frames.

#[export] Hint Resolve preserves_ret preserves_get preserves_fail preserves_diverge : frame.

(** Walk through a program: branch where it branches, split where it sequences. *)
Ltac frame :=
  repeat lazymatch goal with
    | |- preserves _ (bind _ _) => apply preserves_bind; [typeclasses eauto| |intros ?]
    | |- preserves _ (when _ _) => apply preserves_when; [typeclasses eauto|]
    | |- _ => first [ solve [typeclasses eauto with frame typeclass_instances] | case_match ]
    end.

(** Split a sequence at its first instruction. *)
Ltac seq_with P := eapply (returns_bind _ _ _ P).
Ltac seq := eapply returns_bind.

(** Execute the first instruction of a sequence: by computation, or with an
    equation for it. *)
Ltac exec := eapply returns_bind_eq; [reflexivity|].
Tactic Notation "exec_with" uconstr(E) := eapply returns_bind_eq; [eapply E|].

(** The same for a sequence that faults later on. *)
Ltac fexec := eapply faults_after_eq; [reflexivity|].
Tactic Notation "fexec_with" uconstr(E) := eapply faults_after_eq; [eapply E|].

(** Run the head of a program whose result is known. *)
Ltac step H := rewrite (run_bind _ _ _ _ _ H).

Ltac unfold_prog :=
  unfold bind, mret, prog_ret, get, gets, modify, when, deref, fail,
    exit, diverge in *.

(** ** Finite executions of a step relation *)

Inductive star {S} (R : S -> S -> Prop) : S -> S -> Prop :=
| star_refl s : star R s s
| star_step s1 s2 s3 : R s1 s2 -> star R s2 s3 -> star R s1 s3.

Lemma star_trans {S} (R : S -> S -> Prop) s1 s2 s3 :
  star R s1 s2 -> star R s2 s3 -> star R s1 s3.
Proof. induction 1; [done|]. intros. econstructor; eauto. Qed.

Lemma star_invariant {S} (R : S -> S -> Prop) (I : S -> Prop) :
  (forall s s', I s -> R s s' -> I s') ->
  forall s s', star R s s' -> I s -> I s'.
Proof. intros HR s s' H. induction H; eauto. Qed.
