(* ===== verification/Mmio.v ===== *)
(** * Memory-mapped registers

    A device is seen through reads and writes of 1, 2, 4 or 8 bytes at an
    offset of one of its register windows.  What the hardware does on an
    access is not in the repository, so the device is a parameter: the class
    [Mmio].  Code that relies on a register keeping the value last written is
    proved against [PlainMmio], whose laws speak of the registers that the headers
    do not document otherwise: read-only and write-only registers, interrupt
    registers, counters and queues may behave in any way.  [regfile], a
    byte-addressed little-endian memory, satisfies them and those of [LittleMmio];
    [livefile] satisfies them with registers that are anything but storage. *)

From S2P Require Import Prelude Prog.

Inductive width := W8 | W16 | W32 | W64.

Definition wbytes (w : width) : nat :=
  match w with W8 => 1 | W16 => 2 | W32 => 4 | W64 => 8 end%nat.

Definition wbits (w : width) : Z := 8 * Z.of_nat (wbytes w).

#[export] Instance width_eq_dec : EqDecision width.
Proof. solve_decision. Defined.

(** The register windows of the system. *)
Inductive region :=
| ACCNET_CTRL | ACCNET_TX | ACCNET_RX | ACCNET_UDP_TX | ACCNET_UDP_RX
| IOCACHE | PLIC.

#[export] Instance region_eq_dec : EqDecision region.
Proof. solve_decision. Defined.
#[export] Instance region_countable : Countable region.
Proof.
  refine (inj_countable'
    (λ r, match r with
          | ACCNET_CTRL => 0 | ACCNET_TX => 1 | ACCNET_RX => 2
          | ACCNET_UDP_TX => 3 | ACCNET_UDP_RX => 4 | IOCACHE => 5
          | PLIC => 6 end%N)
    (λ n, match n with
          | 0 => ACCNET_CTRL | 1 => ACCNET_TX | 2 => ACCNET_RX
          | 3 => ACCNET_UDP_TX | 4 => ACCNET_UDP_RX | 5 => IOCACHE
          | _ => PLIC end%N) _).
  by intros [].
Defined.

Class Mmio (D : Type) := {
  io_read : width -> region -> Z -> D -> Z * D;
  io_write : width -> region -> Z -> Z -> D -> D
}.

(** The bytes of two accesses do not overlap. *)
Definition disjoint_acc (w : width) (r : region) (a : Z)
    (w' : width) (r' : region) (a' : Z) : Prop :=
  r <> r' \/ a + Z.of_nat (wbytes w) <= a' \/ a' + Z.of_nat (wbytes w') <= a.

#[export] Instance disjoint_acc_dec w r a w' r' a' :
  Decision (disjoint_acc w r a w' r' a').
Proof. unfold disjoint_acc. apply _. Defined.

(** ** What the headers document ([accnet.h], [iocache.h]) *)

(** Is [a] one of the [n] bytes at [lo]? *)
Definition within (lo n a : Z) : bool := (lo <=? a) && (a <? lo + n).

Lemma within_spec lo n a : BoolSpec (lo <= a < lo + n) (~ (lo <= a < lo + n)) (within lo n a).
Proof.
  unfold within. destruct (Z.leb_spec lo a), (Z.ltb_spec a (lo + n)); constructor; lia.
Qed.

(** The bytes that are not storage. *)
Definition volatile (r : region) (a : Z) : bool :=
  match r with
  | ACCNET_CTRL => within 0x10 8 a                     (* TIMESTAMP *)
  | ACCNET_TX | ACCNET_RX => true                      (* requests and completions *)
  | ACCNET_UDP_TX =>
      if a <? 0x400 then 8 <=? a mod 0x10              (* LAST_TIMESTAMP, RO *)
      else within 0x430 8 a                            (* IRQ_PENDING, IRQ_CLEAR *)
  | ACCNET_UDP_RX =>
      (8 <=? a mod 0x20)                               (* DROP, LAST_TIMESTAMP, RO *)
      || within 0x400 8 a                              (* IRQ_PENDING, IRQ_CLEAR *)
  | IOCACHE =>
      within 0x80 8 a                                  (* FIRST_EMPTY_ROW, RO *)
      || within 0x100 0x18 a                           (* RX_KICK_ALL, WO and RO *)
      || within 0x200 0x40 a                           (* SCHED_READ, SCHED_PEEK *)
      || ((0x300 <=? a) && within 0x50 8 ((a - 0x300) mod 0x100))   (* FLAGS_RO *)
  | PLIC => true                                       (* priorities may be clamped *)
  end.

(** An access that touches storage only. *)
Definition storage (w : width) (r : region) (a : Z) : bool :=
  forallb (λ k, negb (volatile r (a + Z.of_nat k))) (seq 0 (wbytes w)).

Lemma storage_spec w r a :
  (forall k, 0 <= k < Z.of_nat (wbytes w) -> volatile r (a + k) = false) -> storage w r a = true.
Proof.
  intros Hv. apply forallb_forall. intros k Hk%in_seq. by rewrite Hv by lia.
Qed.

(** Reads that change the device: SCHED_READ advances the scheduler, RX_COMP_LOG and
    TX_COMP_READ take a completion. *)
Definition consumes (w : width) (r : region) (a : Z) : bool :=
  existsb (λ k, let b := a + Z.of_nat k in
    match r with
    | IOCACHE => within 0x200 0x40 b && (b mod 0x10 <? 8)
    | ACCNET_RX => within 0x10 8 b
    | ACCNET_TX => within 0x12 2 b
    | _ => false
    end) (seq 0 (wbytes w)).

Lemma consumes_none w r a :
  r <> IOCACHE -> r <> ACCNET_RX -> r <> ACCNET_TX -> consumes w r a = false.
Proof. by destruct w, r. Qed.

(** Registers with fewer bits than the access: the value fits. *)
Definition fits (r : region) (a v : Z) : bool :=
  match r with
  | IOCACHE => if within 0 0x40 a then within 0 2 v else true       (* int_mask, 1 bit *)
  | ACCNET_UDP_TX =>
      if a =? 0x400 then within 0 (2 ^ 16) v                        (* MTU *)
      else if (a =? 0x408) || (a =? 0x410) then within 0 (2 ^ 48) v (* MAC_DST, MAC_SRC *)
      else if (a =? 0x420) || (a =? 0x424) then within 0 (2 ^ 8) v  (* IP_TOS, IP_TTL *)
      else if a =? 0x428 then within 0 (2 ^ 16) v                   (* IP_ID *)
      else if a =? 0x42C then within 0 2 v                          (* UDP_CSUM0_OK *)
      else true
  | _ => true
  end.

(** The row of the I/O cache's table an address belongs to, if any. *)
Definition row_at (a : Z) : option Z := if 0x300 <=? a then Some ((a - 0x300) / 0x100) else None.

Class PlainMmio (D : Type) `{Mmio D} := {
  read_pure w r a d : consumes w r a = false -> snd (io_read w r a d) = d;
  read_storage w r a w' r' a' d :
    storage w' r' a' = true -> fst (io_read w' r' a' (snd (io_read w r a d))) = fst (io_read w' r' a' d);
  read_write_same w r a v d :
    storage w r a = true -> fits r a v = true ->
    fst (io_read w r a (io_write w r a v d)) = Word.u (wbits w) v;
  read_write_other w r a w' r' a' v d :
    storage w r a = true -> disjoint_acc w r a w' r' a' ->
    fst (io_read w r a (io_write w' r' a' v d)) = fst (io_read w r a d);
  (** FLAGS_RO, too, does not depend on other rows. *)
  read_write_row w a w' a' v d :
    disjoint_acc w IOCACHE a w' IOCACHE a' ->
    is_Some (row_at a) -> is_Some (row_at a') -> row_at a <> row_at a' ->
    fst (io_read w IOCACHE a (io_write w' IOCACHE a' v d)) = fst (io_read w IOCACHE a d)
}.

(** Little-endian storage: a narrow read gives the low bytes of a wide one. *)
Class LittleMmio (D : Type) `{PlainMmio D} := {
  read_low w w' r a d :
    storage w' r a = true -> (wbytes w <= wbytes w')%nat ->
    fst (io_read w r a d) = Word.u (wbits w) (fst (io_read w' r a d))
}.

(** The value of a register. *)
Definition reg_val `{Mmio D} (w : width) (r : region) (a : Z) (d : D) : Z :=
  fst (io_read w r a d).

(** ** Accesses of a program whose state holds the device *)

Class HasDev (S D : Type) := {
  the_dev : S -> D;
  set_dev : D -> S -> S;
  the_set_dev s d : the_dev (set_dev d s) = d;
  set_the_dev s : set_dev (the_dev s) s = s;
  set_set_dev s d d' : set_dev d (set_dev d' s) = set_dev d s
}.

Section access.
Context {S D : Type} `{Mmio D} `{HasDev S D}.

Definition ioread (w : width) (r : region) (a : Z) : prog S Z := λ s,
  let '(v, d) := io_read w r a (the_dev s) in (Ret v, set_dev d s).

Definition iowrite (w : width) (r : region) (a v : Z) : prog S unit := λ s,
  (Ret tt, set_dev (io_write w r a v (the_dev s)) s).

(** A sequence of writes. *)
Fixpoint iowrites (l : list (width * region * Z * Z)) : prog S unit :=
  match l with
  | [] => mret tt
  | (w, r, a, v) :: l' => iowrite w r a v;; iowrites l'
  end.

Lemma ioread_plain `{!PlainMmio D} w r a s :
  consumes w r a = false -> ioread w r a s = (Ret (reg_val w r a (the_dev s)), s).
Proof.
  intros Hc. unfold ioread, reg_val. destruct (io_read w r a (the_dev s)) as [v d] eqn:E.
  pose proof (read_pure w r a (the_dev s) Hc) as Hp. rewrite E in Hp. simpl in Hp.
  subst d. simpl. by rewrite set_the_dev.
Qed.

Lemma iowrite_run w r a v s :
  iowrite w r a v s = (Ret tt, set_dev (io_write w r a v (the_dev s)) s).
Proof. done. Qed.

(** A relation that does not look at the device. *)
Class IgnoresDev (R : S -> S -> Prop) := ignores_dev d s : R s (set_dev d s).

Lemma preserves_ioread (R : S -> S -> Prop) `{!IgnoresDev R} w r a : preserves R (ioread w r a).
Proof. intros s. unfold ioread. destruct (io_read w r a (the_dev s)). apply ignores_dev. Qed.

Lemma preserves_set_dev (R : S -> S -> Prop) `{!IgnoresDev R} f :
  preserves R (modify (λ s, set_dev (f s) s)).
Proof. intros s. apply ignores_dev. Qed.

Lemma preserves_iowrite (R : S -> S -> Prop) `{!IgnoresDev R} w r a v :
  preserves R (iowrite w r a v).
Proof. intros s. apply ignores_dev. Qed.
End access.

#[export] Hint Resolve preserves_ioread preserves_iowrite preserves_set_dev : frame.

Definition do_write `{Mmio D} (d : D) (x : width * region * Z * Z) : D :=
  let '(w, r, a, v) := x in io_write w r a v d.

Definition do_writes `{Mmio D} (l : list (width * region * Z * Z)) (d : D) : D :=
  foldl do_write d l.

Lemma iowrites_run {S D} `{Mmio D} `{HasDev S D} l (s : S) :
  iowrites l s = (Ret tt, set_dev (do_writes l (the_dev s)) s).
Proof.
  revert s. induction l as [|[[[w r] a] v] l IH]; intros s.
  - unfold do_writes. simpl. by rewrite set_the_dev.
  - cbn [iowrites]. rewrite (run_bind _ _ _ _ _ (iowrite_run w r a v s)), IH.
    by rewrite the_set_dev, set_set_dev.
Qed.

(** A register that no later write of a sequence overlaps keeps its value. *)
Lemma reg_val_do_writes_other `{PlainMmio D} w r a l (d : D) :
  storage w r a = true ->
  Forall (λ x, let '(w', r', a', _) := x in disjoint_acc w r a w' r' a') l ->
  reg_val w r a (do_writes l d) = reg_val w r a d.
Proof.
  intros Hst Hl. revert d. unfold do_writes.
  induction Hl as [|[[[w' r'] a'] v] l Hx Hl IH]; intros d; [done|].
  cbn [foldl do_write]. rewrite IH. by apply read_write_other.
Qed.

(** The same for a register of one row and writes to others. *)
Lemma reg_val_do_writes_row `{PlainMmio D} w a l (d : D) :
  is_Some (row_at a) ->
  Forall (λ x, let '(w', r', a', _) := x in r' = IOCACHE /\ disjoint_acc w IOCACHE a w' IOCACHE a' /\
                 is_Some (row_at a') /\ row_at a <> row_at a') l ->
  reg_val w IOCACHE a (do_writes l d) = reg_val w IOCACHE a d.
Proof.
  intros Ha Hl. revert d. unfold do_writes.
  induction Hl as [|[[[w' r'] a'] v] l (-> & Hx & Ha' & Hne) Hl IH]; intros d; [done|].
  cbn [foldl do_write]. rewrite IH. by apply read_write_row.
Qed.

(** The last write to a register decides its value. *)
Lemma reg_val_do_writes_last `{PlainMmio D} w r a v l1 l2 (d : D) :
  storage w r a = true -> fits r a v = true ->
  Forall (λ x, let '(w', r', a', _) := x in disjoint_acc w r a w' r' a') l2 ->
  reg_val w r a (do_writes (l1 ++ (w, r, a, v) :: l2) d) = Word.u (wbits w) v.
Proof.
  intros Hst Hf Hl. unfold do_writes. rewrite foldl_app. cbn [foldl do_write].
  etrans; [by apply reg_val_do_writes_other|]. by apply read_write_same.
Qed.

(** The value a sequence of writes leaves in a register, when it determines it. *)
Fixpoint final_value (l : list (width * region * Z * Z)) (w : width) (r : region) (a : Z)
    (acc : option Z) : option Z :=
  match l with
  | [] => acc
  | (w', r', a', v) :: l' =>
      final_value l' w r a
        (if decide ((w', r', a') = (w, r, a)) then if fits r a v then Some v else None
         else if decide (disjoint_acc w r a w' r' a') then acc else None)
  end.

Lemma final_value_spec `{PlainMmio D} l w r a : storage w r a = true -> forall acc v (d : D),
  (forall v0, acc = Some v0 -> reg_val w r a d = Word.u (wbits w) v0) ->
  final_value l w r a acc = Some v ->
  reg_val w r a (do_writes l d) = Word.u (wbits w) v.
Proof.
  intros Hst. induction l as [|[[[w' r'] a'] x] l IH]; intros acc v d Hacc Hv; [by apply Hacc|].
  cbn [final_value] in Hv. eapply (IH _ v (io_write w' r' a' x d)); [|exact Hv].
  intros v0. destruct (decide ((w', r', a') = (w, r, a))) as [[= -> -> ->]|].
  - destruct (fits r a x) eqn:Hf; intros [= ->]. by apply read_write_same.
  - destruct (decide (disjoint_acc w r a w' r' a')); [|done]. intros E.
    unfold reg_val. rewrite read_write_other by done. by apply Hacc.
Qed.

Lemma do_writes_app `{Mmio D} l l' (d : D) :
  do_writes (l ++ l') d = do_writes l' (do_writes l d).
Proof. apply foldl_app. Qed.

(** A loop whose body is a sequence of writes. *)
Definition loop_writes {A} (f : Z -> list A) (n : nat) (i : Z) : list A :=
  concat (map (λ k, f (i + Z.of_nat k)) (seq 0 n)).

(** [P] is what the body relies on besides the device. *)
Lemma for_loop_writes_inv {S D} `{Mmio D} `{HasDev S D} (P : S -> Prop)
    (body : Z -> prog S unit) (f : Z -> list (width * region * Z * Z)) :
  (forall s d, P s -> P (set_dev d s)) ->
  (forall j s, P s -> body j s = (Ret tt, set_dev (do_writes (f j) (the_dev s)) s)) ->
  forall n i s, P s ->
    for_loop n i body s
    = (Ret tt, set_dev (do_writes (loop_writes f n i) (the_dev s)) s).
Proof.
  intros HP Hb n. induction n as [|n IH]; intros i s Hs.
  - unfold do_writes. simpl. by rewrite set_the_dev.
  - cbn [for_loop]. rewrite (run_bind _ _ _ _ _ (Hb i s Hs)), IH by by apply HP.
    rewrite the_set_dev, set_set_dev, <- do_writes_app. do 3 f_equal.
    unfold loop_writes. cbn [seq map concat]. rewrite Z.add_0_r. f_equal.
    rewrite <- seq_shift, map_map. f_equal. apply map_ext. intros k. f_equal. lia.
Qed.

Lemma for_loop_writes {S D} `{Mmio D} `{HasDev S D} (body : Z -> prog S unit)
    (f : Z -> list (width * region * Z * Z)) :
  (forall j s, body j s = (Ret tt, set_dev (do_writes (f j) (the_dev s)) s)) ->
  forall n i s,
    for_loop n i body s
    = (Ret tt, set_dev (do_writes (loop_writes f n i) (the_dev s)) s).
Proof. intros Hb n i s. by apply (for_loop_writes_inv (λ _, True)); auto. Qed.

Lemma loop_writes_split {A} (f : Z -> list A) n i k :
  (k < n)%nat ->
  loop_writes f n i
  = loop_writes f k i ++ f (i + Z.of_nat k)
      ++ loop_writes f (n - k - 1) (i + Z.of_nat k + 1).
Proof.
  intros Hk. unfold loop_writes.
  replace n with (k + S (n - k - 1))%nat at 1 by lia.
  rewrite seq_app, map_app, concat_app. f_equal. cbn [Nat.add seq map concat]. f_equal.
  rewrite <- (Nat.add_0_r (S k)), <- (fmap_add_seq (S k) 0).
  change (Nat.add (S k) <$> seq 0 (n - k - 1)) with (map (Nat.add (S k)) (seq 0 (n - k - 1))).
  rewrite map_map. f_equal. apply map_ext. intros j. f_equal. lia.
Qed.

Lemma Forall_loop_writes {A} (P : A -> Prop) (f : Z -> list A) n i :
  (forall j, i <= j < i + Z.of_nat n -> Forall P (f j)) -> Forall P (loop_writes f n i).
Proof.
  intros Hf. unfold loop_writes. apply Forall_concat, Forall_map, Forall_forall.
  intros k Hk%in_seq. apply Hf. lia.
Qed.

(** ** Plain storage *)

Module RegFile.
Abbreviation regfile := (gmap (region * Z) Z).

Definition byte_at (d : regfile) (r : region) (a : Z) : Z := default 0 (d !! (r, a)) mod 256.

Lemma byte_at_range d r a : 0 <= byte_at d r a < 256.
Proof. unfold byte_at. apply Z.mod_pos_bound. lia. Qed.

Fixpoint load (n : nat) (r : region) (a : Z) (d : regfile) : Z :=
  match n with
  | O => 0
  | S n' => byte_at d r a + 256 * load n' r (a + 1) d
  end.

Fixpoint store (n : nat) (r : region) (a v : Z) (d : regfile) : regfile :=
  match n with
  | O => d
  | S n' => <[(r, a) := v mod 256]> (store n' r (a + 1) (v / 256) d)
  end.

Lemma load_empty n r a : load n r a ∅ = 0.
Proof.
  revert a. induction n as [|n IH]; intros a; [done|]. cbn [load]. rewrite IH.
  unfold byte_at. by rewrite lookup_empty.
Qed.

Lemma store_lookup_other n r a v d r' a' :
  r <> r' \/ ~ (a <= a' < a + Z.of_nat n) ->
  store n r a v d !! (r', a') = d !! (r', a').
Proof.
  revert a v. induction n as [|n IH]; intros a v Hb; [done|]. cbn [store].
  rewrite lookup_insert_ne.
  - apply IH. destruct Hb; [by left|right; lia].
  - intros [=-> ->]. destruct Hb; [done|lia].
Qed.

Lemma load_store_other n r a n' r' a' v d :
  r <> r' \/ a + Z.of_nat n <= a' \/ a' + Z.of_nat n' <= a ->
  load n r a (store n' r' a' v d) = load n r a d.
Proof.
  revert a. induction n as [|n IH]; intros a Hd; [done|]. cbn [load].
  rewrite IH by (destruct Hd; [by left|right; lia]).
  unfold byte_at. rewrite store_lookup_other; [done|].
  destruct Hd; [by left|right; lia].
Qed.

Lemma load_store_same n r a v d : load n r a (store n r a v d) = v mod 256 ^ Z.of_nat n.
Proof.
  revert a v. induction n as [|n IH]; intros a v; [by rewrite Z.mod_1_r|].
  cbn [load store]. unfold byte_at at 1. rewrite lookup_insert_eq. cbn [from_option id]. rewrite Z.mod_mod by lia.
  replace (load n r (a + 1) (<[(r, a):=v mod 256]> (store n r (a + 1) (v / 256) d)))
    with (load n r (a + 1) (store n r (a + 1) (v / 256) d)).
  - rewrite IH, Nat2Z.inj_succ, Z.pow_succ_r by lia.
    by rewrite Z.rem_mul_r by lia.
  - symmetry. apply (load_store_other n r (a + 1) 1 r a v). right. lia.
Qed.

#[export] Instance regfile_mmio : Mmio regfile := {
  io_read w r a d := (load (wbytes w) r a d, d);
  io_write w r a v d := store (wbytes w) r a v d
}.

#[export] Instance regfile_plain : PlainMmio regfile.
Proof.
  split.
  - done.
  - done.
  - intros w r a v d _ _. simpl. rewrite load_store_same. unfold Word.u, wbits.
    f_equal. by rewrite Z.pow_mul_r by lia.
  - intros w r a w' r' a' v d _ Hd. simpl. apply load_store_other.
    unfold disjoint_acc in Hd. tauto.
  - intros w a w' a' v d Hd _ _ _. simpl. apply load_store_other.
    unfold disjoint_acc in Hd. tauto.
Qed.

Lemma load_low n m r a d : (n <= m)%nat -> load n r a d = load m r a d mod 256 ^ Z.of_nat n.
Proof.
  revert m a. induction n as [|n IH]; intros [|m] a Hn; try lia; [by rewrite Z.mod_1_r..|].
  cbn [load]. rewrite (IH m) by lia. rewrite Nat2Z.inj_succ, Z.pow_succ_r, Z.rem_mul_r by lia.
  pose proof (byte_at_range d r a) as Hb. f_equal; [|f_equal; f_equal]; zdm.
Qed.

#[export] Instance regfile_little : LittleMmio regfile.
Proof.
  split. intros w w' r a d _ Hw. cbn [fst io_read regfile_mmio].
  rewrite (load_low _ _ _ _ _ Hw). unfold Word.u, wbits. f_equal. by rewrite Z.pow_mul_r by lia.
Qed.
End RegFile.

(** ** Storage and live registers

    The registers that are not storage answer with a counter, which the reads that
    consume something advance. *)

Module LiveFile.
Import RegFile.

Record livefile := mk_live { cells : regfile; count : Z }.

#[export] Instance livefile_mmio : Mmio livefile := {
  io_read w r a d :=
    (if storage w r a then load (wbytes w) r a (cells d) else Word.u (wbits w) (count d),
     if consumes w r a then mk_live (cells d) (count d + 1) else d);
  io_write w r a v d := mk_live (store (wbytes w) r a v (cells d)) (count d)
}.

#[export] Instance livefile_plain : PlainMmio livefile.
Proof.
  split; cbn [io_read io_write livefile_mmio fst snd cells count].
  - by intros w r a d ->.
  - intros w r a w' r' a' d ->. by destruct (consumes w r a).
  - intros w r a v d Hs Hf. rewrite Hs. exact (read_write_same w r a v (cells d) Hs Hf).
  - intros w r a w' r' a' v d Hs Hd. rewrite Hs.
    exact (read_write_other w r a w' r' a' v (cells d) Hs Hd).
  - intros w a w' a' v d Hd _ _ _. destruct (storage w IOCACHE a) eqn:E; [|done].
    exact (read_write_other w IOCACHE a w' IOCACHE a' v (cells d) E Hd).
Qed.
End LiveFile.
