(* ===== verification/UserMem.v ===== *)
(** * The user/kernel boundary

    What the two character devices ([accnet-misc] and [iocache-misc]) use of the
    kernel: error numbers, ioctl command words, little-endian structures in the
    memory of the calling process ([copy_from_user], [copy_to_user]), and the
    decoding of an [mmap] request.  The information structures of
    [accnet_ioctl.h] and [iocache_ioctl.h] have the same fields. *)

From S2P Require Import Prelude.

(** ** Error numbers *)

Definition ENOMEM : Z := 12.
Definition EFAULT : Z := 14.
Definition ENODEV : Z := 19.
Definition EINVAL : Z := 22.

(** ** Command words

    [_IOC(dir, type, nr, size)] of the generic Linux ABI. *)
Definition IOC (dir type nr size : Z) : Z :=
  Z.lor (Z.shiftl dir 30) (Z.lor (Z.shiftl size 16) (Z.lor (Z.shiftl type 8) nr)).
Definition IO (type nr : Z) : Z := IOC 0 type nr 0.
Definition IOW (type nr size : Z) : Z := IOC 1 type nr size.
Definition IOR (type nr size : Z) : Z := IOC 2 type nr size.

(** ** Little-endian fields *)

Fixpoint le_split (n : nat) (v : Z) : list Z :=
  match n with O => [] | S n' => v mod 256 :: le_split n' (v / 256) end.

Fixpoint le_combine (l : list Z) : Z :=
  match l with [] => 0 | b :: l' => b + 256 * le_combine l' end.

Lemma length_le_split n v : length (le_split n v) = n.
Proof. revert v. induction n as [|n IH]; intros v; simpl; [done|by rewrite IH]. Qed.

Lemma le_combine_split n v : le_combine (le_split n v) = v mod 256 ^ Z.of_nat n.
Proof.
  revert v. induction n as [|n IH]; intros v; [by rewrite Z.mod_1_r|].
  cbn [le_split le_combine]. rewrite IH, Nat2Z.inj_succ, Z.pow_succ_r by lia.
  by rewrite Z.rem_mul_r by lia.
Qed.

Definition is_byte (b : Z) : Prop := 0 <= b < 256.

Lemma le_split_combine l : Forall is_byte l -> le_split (length l) (le_combine l) = l.
Proof.
  unfold is_byte. induction 1 as [|b l Hb Hl IH]; [done|]. cbn [le_combine length le_split].
  f_equal; [zdm|].
  by replace ((b + 256 * le_combine l) / 256) with (le_combine l) by zdm.
Qed.

Lemma le_split_bytes n v : Forall is_byte (le_split n v).
Proof.
  revert v. induction n as [|n IH]; intros v; simpl; [constructor|].
  constructor; [unfold is_byte; zdm|done].
Qed.

(** A field of [n] bytes at offset [off] of a structure. *)
Definition field (off n : nat) (l : list Z) : list Z := take n (drop off l).

Definition field_val (off n : nat) (l : list Z) : Z := le_combine (field off n l).

(** ** The memory of the calling process *)

(** Mapped bytes by address. *)
Abbreviation umem := (gmap Z Z).

Fixpoint load_bytes (n : nat) (a : Z) (m : umem) : option (list Z) :=
  match n with
  | O => Some []
  | S n' => b ← m !! a; l ← load_bytes n' (a + 1) m; Some (b :: l)
  end.

(** [copy_from_user(&x, a, n)]; [None] when some byte could not be read. *)
Definition copy_from_user (m : umem) (a n : Z) : option (list Z) :=
  load_bytes (Z.to_nat n) a m.

(** [copy_to_user(a, &x, sizeof x)]: copies up to the first unmapped byte; the
    flag says whether everything was copied. *)
Fixpoint copy_to_user (m : umem) (a : Z) (l : list Z) : bool * umem :=
  match l with
  | [] => (true, m)
  | b :: l' =>
      match m !! a with
      | None => (false, m)
      | Some _ => copy_to_user (<[a := b]> m) (a + 1) l'
      end
  end.

(** A process's buffer: [n] mapped bytes at [a]. *)
Definition mapped (m : umem) (a : Z) (n : nat) : Prop :=
  forall k, a <= k < a + Z.of_nat n -> is_Some (m !! k).

Lemma load_bytes_length n a m l : load_bytes n a m = Some l -> length l = n.
Proof.
  revert a l. induction n as [|n IH]; intros a l; simpl; [by intros [= <-]|].
  destruct (m !! a); [|done]. simpl. destruct (load_bytes n (a + 1) m) eqn:E; [|done].
  simpl. intros [= <-]. simpl. by rewrite (IH _ _ E).
Qed.

Lemma load_bytes_mapped n a m : mapped m a n -> is_Some (load_bytes n a m).
Proof.
  revert a. induction n as [|n IH]; intros a Hm; [by eexists|]. simpl.
  destruct (Hm a ltac:(lia)) as [b ->]. simpl.
  destruct (IH (a + 1)) as [l ->]; [intros k Hk; apply Hm; lia|]. by eexists.
Qed.

Lemma load_bytes_frame n a m a' b :
  ~ (a <= a' < a + Z.of_nat n) -> load_bytes n a (<[a' := b]> m) = load_bytes n a m.
Proof.
  revert a. induction n as [|n IH]; intros a Hk; [done|]. simpl.
  rewrite lookup_insert_ne by lia. by rewrite IH by lia.
Qed.

Lemma copy_to_user_ok l : forall m a,
  mapped m a (length l) ->
  exists m', copy_to_user m a l = (true, m') /\
    load_bytes (length l) a m' = Some l /\
    (forall k, ~ (a <= k < a + Z.of_nat (length l)) -> m' !! k = m !! k).
Proof.
  induction l as [|b l IH]; intros m a Hm; [by exists m|]. simpl in *.
  destruct (Hm a ltac:(lia)) as [b0 ->].
  destruct (IH (<[a := b]> m) (a + 1)) as (m' & -> & Hl & Hf).
  { intros k Hk. rewrite lookup_insert_ne by lia. apply Hm. lia. }
  exists m'. split; [done|]. split.
  - rewrite Hf by lia. rewrite lookup_insert_eq. simpl. by rewrite Hl.
  - intros k Hk. rewrite Hf by lia. apply lookup_insert_ne. lia.
Qed.

(** Copying out never unmaps anything. *)
Lemma copy_to_user_mapped l : forall m a b n,
  mapped m b n -> mapped (copy_to_user m a l).2 b n.
Proof.
  induction l as [|x l IH]; intros m a b n Hm; [done|]. simpl.
  destruct (m !! a); [|done]. apply IH. intros k Hk.
  destruct (decide (k = a)) as [->|]; [rewrite lookup_insert_eq; by eexists|].
  rewrite lookup_insert_ne by done. by apply Hm.
Qed.

Lemma mapped_le m a n n' : (n' <= n)%nat -> mapped m a n -> mapped m a n'.
Proof. intros Hn Hm k Hk. apply Hm. lia. Qed.

(** ** Information structures *)

(** [struct accnet_ioctl_device_info], [struct iocache_ioctl_device_info] *)
Record device_info := mk_device_info {
  di_argsz : Z; di_flags : Z; fw_id : Z; fw_ver : Z; board_id : Z; board_ver : Z;
  build_date : Z; git_hash : Z; rel_info : Z; num_regions : Z; num_irqs : Z
}.

(** [struct accnet_ioctl_region_info], [struct iocache_ioctl_region_info] *)
Record region_info := mk_region_info {
  ri_argsz : Z; ri_flags : Z; ri_index : Z; ri_type : Z; ri_next : Z; ri_child : Z;
  ri_size : Z; ri_offset : Z; ri_name : list Z
}.

Definition sizeof_device_info : Z := 44.
Definition sizeof_region_info : Z := 72.

Definition device_info_of (l : list Z) : device_info :=
  let f k := field_val k 4 l in
  mk_device_info (f 0%nat) (f 4%nat) (f 8%nat) (f 12%nat) (f 16%nat) (f 20%nat)
    (f 24%nat) (f 28%nat) (f 32%nat) (f 36%nat) (f 40%nat).

Definition device_info_bytes (i : device_info) : list Z :=
  concat (map (le_split 4)
    [di_argsz i; di_flags i; fw_id i; fw_ver i; board_id i; board_ver i;
     build_date i; git_hash i; rel_info i; num_regions i; num_irqs i]).

Definition region_info_of (l : list Z) : region_info :=
  mk_region_info (field_val 0 4 l) (field_val 4 4 l) (field_val 8 4 l) (field_val 12 4 l)
    (field_val 16 4 l) (field_val 20 4 l) (field_val 24 8 l) (field_val 32 8 l)
    (field 40 32 l).

Definition region_info_bytes (i : region_info) : list Z :=
  concat (map (le_split 4)
    [ri_argsz i; ri_flags i; ri_index i; ri_type i; ri_next i; ri_child i])
  ++ le_split 8 (ri_size i) ++ le_split 8 (ri_offset i) ++ ri_name i.

Definition u32_field (x : Z) : Prop := 0 <= x < 2 ^ 32.

(** What the kernel writes is what the process reads back. *)
Lemma le_combine_split_small n v :
  0 <= v < 256 ^ Z.of_nat n -> le_combine (le_split n v) = v.
Proof. intros Hv. rewrite le_combine_split. by apply Z.mod_small. Qed.

Lemma region_info_of_bytes i :
  Forall u32_field [ri_argsz i; ri_flags i; ri_index i; ri_type i; ri_next i; ri_child i] ->
  0 <= ri_size i < 2 ^ 64 -> 0 <= ri_offset i < 2 ^ 64 -> length (ri_name i) = 32%nat ->
  region_info_of (region_info_bytes i) = i.
Proof.
  destruct i as [a f x t n c sz off nm]. cbn [ri_argsz ri_flags ri_index ri_type ri_next
    ri_child ri_size ri_offset ri_name]. unfold u32_field. intros H Hs Ho Hn.
  repeat (apply list.Forall_cons in H as [? H]).
  unfold region_info_of, field_val, field.
  change (region_info_bytes _) with
    (le_split 4 a ++ le_split 4 f ++ le_split 4 x ++ le_split 4 t ++ le_split 4 n ++
     le_split 4 c ++ [] ++ le_split 8 sz ++ le_split 8 off ++ nm).
  cbn [le_split app drop]. f_equal.
  7: by apply (le_combine_split_small 8).
  7: by apply (le_combine_split_small 8).
  7: by rewrite drop_0, firstn_all2 by lia.
  all: by apply (le_combine_split_small 4).
Qed.

(** [strlcpy(name, src, 32)]: the string and its terminator overwrite the front
    of the buffer, the rest keeps what was there. *)
Definition strlcpy (dst src : list Z) : list Z :=
  let n := (length dst - 1)%nat in
  take n src ++ [0] ++ drop (S (length (take n src))) dst.

Lemma length_strlcpy dst src : (0 < length dst)%nat -> length (strlcpy dst src) = length dst.
Proof.
  intros Hd. unfold strlcpy. rewrite !length_app, length_drop, length_take. simpl. lia.
Qed.

(** ** Mapping requests *)

Definition PAGE_SHIFT : Z := 12.

Record vm_area := mk_vma { vm_start : Z; vm_end : Z; vm_pgoff : Z; vm_shared : bool }.

(** [vm_pgoff >> (40 - PAGE_SHIFT)], stored in an [int]. *)
Definition mmap_index (vma : vm_area) : Z :=
  i32 (Z.shiftr (vm_pgoff vma) (40 - PAGE_SHIFT)).
Definition mmap_pgoff (vma : vm_area) : Z :=
  Z.land (vm_pgoff vma) (u32 (Z.shiftl 1 (40 - PAGE_SHIFT)) - 1).
Definition mmap_req_len (vma : vm_area) : Z := u64 (vm_end vma - vm_start vma).
Definition mmap_req_start (vma : vm_area) : Z := u64 (Z.shiftl (mmap_pgoff vma) PAGE_SHIFT).

(** What an [mmap] handler asks the kernel for: an error, device pages
    ([io_remap_pfn_range]) or a coherent DMA buffer ([dma_mmap_coherent]). *)
Inductive mmap_result :=
| MmapErr (e : Z)
| MmapIo (start pfn len : Z)
| MmapDma (cpu_addr dma_addr len : Z).

(** A request for [len] bytes at offset [off] of region [i], as [mmap(2)] hands
    it to the driver. *)
Definition mmap_request (i off start len : Z) : vm_area :=
  mk_vma start (start + len) (Z.shiftr (Z.shiftl i 40 + off) PAGE_SHIFT) true.

Lemma mmap_request_decode i off start len :
  0 <= i < 2 ^ 24 -> 0 <= off < 2 ^ 40 -> off mod 4096 = 0 ->
  0 <= start -> 0 <= len -> start + len < 2 ^ 63 ->
  mmap_index (mmap_request i off start len) = i /\
  mmap_pgoff (mmap_request i off start len) = off / 4096 /\
  mmap_req_len (mmap_request i off start len) = len /\
  mmap_req_start (mmap_request i off start len) = off.
Proof.
  intros Hi Ho Ha Hs Hl Hb.
  unfold mmap_req_start, mmap_index, mmap_pgoff, mmap_req_len, mmap_request, PAGE_SHIFT.
  cbn [vm_pgoff vm_start vm_end].
  change (u32 (Z.shiftl 1 (40 - 12)) - 1) with (2 ^ 28 - 1). rewrite land_pow2_mask by lia.
  rewrite Z.shiftl_mul_pow2, !Z.shiftr_div_pow2, Z.shiftl_mul_pow2 by lia.
  assert ((i * 2 ^ 40 + off) / 2 ^ 12 = i * 2 ^ 28 + off / 4096) as ->.
  { replace (i * 2 ^ 40 + off) with (i * 2 ^ 28 * 2 ^ 12 + off) by lia.
    by rewrite Z.div_add_l by lia. }
  assert (0 <= off / 4096 < 2 ^ 28) as Hq by zdm.
  change (40 - 12) with 28. rewrite Z.div_add_l, (Z.div_small (off / 4096)), Z.add_0_r by lia.
  replace (i * 2 ^ 28 + off / 4096) with (off / 4096 + i * 2 ^ 28) by lia.
  rewrite Z.mod_add, (Z.mod_small (off / 4096)) by lia.
  split; [apply i_small; lia|]. split; [done|].
  split; rewrite u_small; try lia; zdm.
Qed.
