(* ===== verification/AddrSpace.v ===== *)
(** * The address space of a process: [mmap(2)] and [munmap(2)]

    A process sees the mappings the drivers granted, each at the address the
    kernel chose.  [munmap] takes whole pages out of that list: a mapping may
    disappear, shrink at either end or split in two. *)

From S2P Require Import Prelude UserMem.

(** Lengths are rounded up to whole pages. *)
Definition page_align (n : Z) : Z := (n + 4095) / 4096 * 4096.

Lemma page_align_exact n : n mod 4096 = 0 -> page_align n = n.
Proof. unfold page_align. intros. zdm. Qed.

Definition map_len (r : mmap_result) : Z :=
  match r with MmapErr _ => 0 | MmapIo _ _ n => n | MmapDma _ _ n => n end.

(** The [n] bytes at offset [off] of a mapping. *)
Definition sub_map (off n : Z) (r : mmap_result) : mmap_result :=
  match r with
  | MmapErr e => MmapErr e
  | MmapIo start pfn _ => MmapIo (start + off) (pfn + off / 4096) n
  | MmapDma c d _ => MmapDma (c + off) (d + off) n
  end.

(** What is left of one mapping when [[a, a + n)] is unmapped. *)
Definition cut (a n : Z) (x : Z * mmap_result) : list (Z * mmap_result) :=
  let '(b, r) := x in
  let e := b + map_len r in
  if (e <=? a) || (a + n <=? b) then [x]
  else (if b <? a then [(b, sub_map 0 (a - b) r)] else [])
       ++ (if a + n <? e then [(a + n, sub_map (a + n - b) (e - (a + n)) r)] else []).

Definition unmap (a n : Z) (l : list (Z * mmap_result)) : list (Z * mmap_result) :=
  flat_map (cut a (page_align n)) l.

Definition apart (a n : Z) (x : Z * mmap_result) : Prop :=
  x.1 + map_len x.2 <= a \/ a + n <= x.1.

Lemma cut_apart a n x : apart a n x -> cut a n x = [x].
Proof.
  destruct x as [b r]. unfold apart. cbn. intros Hx.
  by destruct (Z.leb_spec (b + map_len r) a), (Z.leb_spec (a + n) b); try lia.
Qed.

(** Unmapping at least the whole of a mapping removes it. *)
Lemma cut_whole a n r : 0 < map_len r <= n -> cut a n (a, r) = [].
Proof.
  intros Hn. cbn. destruct (Z.leb_spec (a + map_len r) a), (Z.leb_spec (a + n) a); try lia.
  cbn. destruct (Z.ltb_spec a a), (Z.ltb_spec (a + n) (a + map_len r)); by try lia.
Qed.

(** Unmapping less than that leaves the tail. *)
Lemma cut_front a n r :
  0 < n < map_len r -> cut a n (a, r) = [(a + n, sub_map n (map_len r - n) r)].
Proof.
  intros Hn. cbn. destruct (Z.leb_spec (a + map_len r) a), (Z.leb_spec (a + n) a); try lia.
  cbn. destruct (Z.ltb_spec a a), (Z.ltb_spec (a + n) (a + map_len r)); try lia. cbn.
  replace (a + n - a) with n by lia.
  by replace (a + map_len r - (a + n)) with (map_len r - n) by lia.
Qed.

Lemma unmap_apart a n l : Forall (apart a (page_align n)) l -> unmap a n l = l.
Proof.
  unfold unmap. induction 1 as [|x l Hx _ IH]; [done|]. cbn. by rewrite cut_apart, IH.
Qed.

Lemma unmap_cons a n x l : unmap a n (x :: l) = cut a (page_align n) x ++ unmap a n l.
Proof. done. Qed.
