(* ===== verification/AccnetRegs.v ===== *)
(** * Register map of the AccNIC ([drivers/accnet-driver/accnet.h])

    The control, RX, TX and UDP-engine registers as byte offsets of their
    windows, and the size and alignment macros of the header.  The theorems
    say which registers overlap: the TX engine's ring bank and its global
    registers are pairwise disjoint for all 64 rings, whereas the RX ring bank
    runs into the IRQ registers from ring 32 on. *)

From S2P Require Import Prelude Prog Mmio.

(** ** Driver constants *)

Definition CONFIG_ACCNET_MTU : Z := 1500.
Definition CONFIG_ACCNET_RING_SIZE : Z := 1280.
Definition CONFIG_ACCNET_TX_THRESHOLD : Z := 16.

Definition ACCNET_INTMASK_TX : Z := 1.
Definition ACCNET_INTMASK_RX : Z := 2.
Definition ACCNET_INTMASK_BOTH : Z := 3.

Definition ACCNET_BASE : Z := 0x0.
Definition ACCNET_CTRL_OFFSET : Z := 0x0000.
Definition ACCNET_CTRL_BASE : Z := ACCNET_BASE + ACCNET_CTRL_OFFSET.

Definition ACCNET_INTR_MASK : Z := ACCNET_CTRL_BASE + 0x00.
Definition ACCNET_CTRL_TIMESTAMP : Z := ACCNET_CTRL_BASE + 0x10.

Definition ACCNET_RX_DMA_ADDR_COUNT : Z := 0x04.
Definition ACCNET_RX_DMA_ADDR : Z := 0x08.
Definition ACCNET_RX_COMP_LOG : Z := 0x10.
Definition ACCNET_RX_COMP_COUNT : Z := 0x18.
Definition ACCNET_RX_INTR_PEND : Z := 0x20.
Definition ACCNET_RX_INTR_CLEAR : Z := 0x24.

Definition ACCNET_TX_REQ_COUNT : Z := 0x00.
Definition ACCNET_TX_REQ : Z := 0x08.
Definition ACCNET_TX_COUNT : Z := 0x10.
Definition ACCNET_TX_COMP_READ : Z := 0x12.
Definition ACCNET_TX_INTR_PEND : Z := 0x18.
Definition ACCNET_TX_INTR_CLEAR : Z := 0x1C.

(** ** UDP engines *)

Definition ACCNET_UDP_RING_SIZE : Z := 32 * 1024.
Definition ACCNET_UDP_RING_COUNT : Z := 64.

Definition ACCNET_UDP_RX_RING_STRIDE : Z := 0x20.
Definition ACCNET_UDP_RX_RING_HEAD_OFF : Z := 0x00.
Definition ACCNET_UDP_RX_RING_TAIL_OFF : Z := 0x04.
Definition ACCNET_UDP_RX_RING_DROP_OFF : Z := 0x08.
Definition ACCNET_UDP_RX_RING_LAST_TIMESTAMP_OFF : Z := 0x10.

Definition ACCNET_UDP_RX_RING_REG (r off : Z) : Z :=
  u64 (u64 r * ACCNET_UDP_RX_RING_STRIDE + off).
Definition ACCNET_UDP_RX_RING_HEAD (r : Z) : Z :=
  ACCNET_UDP_RX_RING_REG r ACCNET_UDP_RX_RING_HEAD_OFF.
Definition ACCNET_UDP_RX_RING_TAIL (r : Z) : Z :=
  ACCNET_UDP_RX_RING_REG r ACCNET_UDP_RX_RING_TAIL_OFF.
Definition ACCNET_UDP_RX_RING_DROP (r : Z) : Z :=
  ACCNET_UDP_RX_RING_REG r ACCNET_UDP_RX_RING_DROP_OFF.
Definition ACCNET_UDP_RX_RING_LAST_TIMESTAMP (r : Z) : Z :=
  ACCNET_UDP_RX_RING_REG r ACCNET_UDP_RX_RING_LAST_TIMESTAMP_OFF.

Definition ACCNET_UDP_RX_IRQ_PENDING : Z := 0x400.
Definition ACCNET_UDP_RX_IRQ_CLEAR : Z := 0x404.

Definition ACCNET_UDP_TX_RING_STRIDE : Z := 0x10.
Definition ACCNET_UDP_TX_RING_HEAD_OFF : Z := 0x00.
Definition ACCNET_UDP_TX_RING_TAIL_OFF : Z := 0x04.
Definition ACCNET_UDP_TX_RING_LAST_TIMESTAMP_OFF : Z := 0x08.

Definition ACCNET_UDP_TX_RING_REG (r off : Z) : Z :=
  u64 (u64 r * ACCNET_UDP_TX_RING_STRIDE + off).
Definition ACCNET_UDP_TX_RING_HEAD (r : Z) : Z :=
  ACCNET_UDP_TX_RING_REG r ACCNET_UDP_TX_RING_HEAD_OFF.
Definition ACCNET_UDP_TX_RING_TAIL (r : Z) : Z :=
  ACCNET_UDP_TX_RING_REG r ACCNET_UDP_TX_RING_TAIL_OFF.
Definition ACCNET_UDP_TX_RING_LAST_TIMESTAMP (r : Z) : Z :=
  ACCNET_UDP_TX_RING_REG r ACCNET_UDP_TX_RING_LAST_TIMESTAMP_OFF.

Definition ACCNET_UDP_TX_MTU : Z := 0x400.
Definition ACCNET_UDP_TX_HDR_MAC_DST : Z := 0x408.
Definition ACCNET_UDP_TX_HDR_MAC_SRC : Z := 0x410.
Definition ACCNET_UDP_TX_HDR_IP_TOS : Z := 0x420.
Definition ACCNET_UDP_TX_HDR_IP_TTL : Z := 0x424.
Definition ACCNET_UDP_TX_HDR_IP_ID : Z := 0x428.
Definition ACCNET_UDP_TX_HDR_UDP_CSUM0_OK : Z := 0x42C.
Definition ACCNET_UDP_TX_IRQ_PENDING : Z := 0x430.
Definition ACCNET_UDP_TX_IRQ_CLEAR : Z := 0x434.

(** ** Sizes and alignment *)

Definition ETH_HEADER_BYTES : Z := 14.
Definition ALIGN_BYTES : Z := 64.
Definition ALIGN_SHIFT : Z := 6.
Definition MACADDR_BYTES : Z := 6.
Definition MAGIC_CHAR : Z := 0xCCCCCCCC.

(** [NET_IP_ALIGN] is a constant of the kernel configuration. *)
Definition MAX_FRAME_SIZE (NET_IP_ALIGN : Z) : Z :=
  CONFIG_ACCNET_MTU + ETH_HEADER_BYTES + NET_IP_ALIGN.

(** [__ALIGN_KERNEL(x, 64)]: add 63, then clear the low six bits. *)
Definition DMA_PTR_ALIGN (p : Z) : Z :=
  u64 (Z.land (p + (ALIGN_BYTES - 1)) (Z.lnot (ALIGN_BYTES - 1))).

Definition DMA_LEN_ALIGN (n : Z) : Z :=
  Z.shiftl (Z.shiftr (n - 1) ALIGN_SHIFT + 1) ALIGN_SHIFT.

(** ** Overlap *)

Inductive rx_field := RX_HEAD | RX_TAIL | RX_DROP | RX_LAST_TIMESTAMP.
Inductive tx_field := TX_HEAD | TX_TAIL | TX_LAST_TIMESTAMP.

#[export] Instance rx_field_eq_dec : EqDecision rx_field.
Proof. solve_decision. Defined.
#[export] Instance tx_field_eq_dec : EqDecision tx_field.
Proof. solve_decision. Defined.

Definition rx_reg (r : Z) (f : rx_field) : Z :=
  match f with
  | RX_HEAD => ACCNET_UDP_RX_RING_HEAD r
  | RX_TAIL => ACCNET_UDP_RX_RING_TAIL r
  | RX_DROP => ACCNET_UDP_RX_RING_DROP r
  | RX_LAST_TIMESTAMP => ACCNET_UDP_RX_RING_LAST_TIMESTAMP r
  end.

Definition rx_width (f : rx_field) : width :=
  match f with RX_LAST_TIMESTAMP => W64 | _ => W32 end.

Definition tx_reg (r : Z) (f : tx_field) : Z :=
  match f with
  | TX_HEAD => ACCNET_UDP_TX_RING_HEAD r
  | TX_TAIL => ACCNET_UDP_TX_RING_TAIL r
  | TX_LAST_TIMESTAMP => ACCNET_UDP_TX_RING_LAST_TIMESTAMP r
  end.

Definition tx_width (f : tx_field) : width :=
  match f with TX_LAST_TIMESTAMP => W64 | _ => W32 end.

(** The registers of the TX engine that belong to no ring. *)
Definition tx_globals : list (width * Z) :=
  [(W16, ACCNET_UDP_TX_MTU); (W64, ACCNET_UDP_TX_HDR_MAC_DST);
   (W64, ACCNET_UDP_TX_HDR_MAC_SRC); (W8, ACCNET_UDP_TX_HDR_IP_TOS);
   (W8, ACCNET_UDP_TX_HDR_IP_TTL); (W16, ACCNET_UDP_TX_HDR_IP_ID);
   (W8, ACCNET_UDP_TX_HDR_UDP_CSUM0_OK); (W32, ACCNET_UDP_TX_IRQ_PENDING);
   (W32, ACCNET_UDP_TX_IRQ_CLEAR)].

Lemma tx_reg_val r f :
  0 <= r < 64 ->
  tx_reg r f = r * 16 + match f with TX_HEAD => 0 | TX_TAIL => 4 | _ => 8 end.
Proof.
  intros Hr. destruct f; unfold tx_reg, ACCNET_UDP_TX_RING_HEAD,
    ACCNET_UDP_TX_RING_TAIL, ACCNET_UDP_TX_RING_LAST_TIMESTAMP,
    ACCNET_UDP_TX_RING_REG, ACCNET_UDP_TX_RING_STRIDE,
    ACCNET_UDP_TX_RING_HEAD_OFF, ACCNET_UDP_TX_RING_TAIL_OFF,
    ACCNET_UDP_TX_RING_LAST_TIMESTAMP_OFF; unwrap; lia.
Qed.

Lemma rx_reg_val r f :
  0 <= r < 64 ->
  rx_reg r f = r * 32 + match f with
                        | RX_HEAD => 0 | RX_TAIL => 4 | RX_DROP => 8 | _ => 16 end.
Proof.
  intros Hr. destruct f; unfold rx_reg, ACCNET_UDP_RX_RING_HEAD,
    ACCNET_UDP_RX_RING_TAIL, ACCNET_UDP_RX_RING_DROP,
    ACCNET_UDP_RX_RING_LAST_TIMESTAMP,
    ACCNET_UDP_RX_RING_REG, ACCNET_UDP_RX_RING_STRIDE,
    ACCNET_UDP_RX_RING_HEAD_OFF, ACCNET_UDP_RX_RING_TAIL_OFF,
    ACCNET_UDP_RX_RING_DROP_OFF, ACCNET_UDP_RX_RING_LAST_TIMESTAMP_OFF;
    unwrap; lia.
Qed.

(** Two different registers of the TX ring bank share no byte. *)
Lemma tx_ring_regs_disjoint r f r' f' :
  0 <= r < 64 -> 0 <= r' < 64 -> (r, f) <> (r', f') ->
  disjoint_acc (tx_width f) ACCNET_UDP_TX (tx_reg r f)
               (tx_width f') ACCNET_UDP_TX (tx_reg r' f').
Proof.
  intros Hr Hr' Hne. right. rewrite !tx_reg_val by done.
  assert (r <> r' \/ f <> f') as Hd
    by (destruct (decide (r = r')), (decide (f = f')); subst; auto; congruence).
  destruct f, f'; simpl; destruct Hd; try congruence; lia.
Qed.

Lemma rx_ring_regs_disjoint r f r' f' :
  0 <= r < 64 -> 0 <= r' < 64 -> (r, f) <> (r', f') ->
  disjoint_acc (rx_width f) ACCNET_UDP_RX (rx_reg r f)
               (rx_width f') ACCNET_UDP_RX (rx_reg r' f').
Proof.
  intros Hr Hr' Hne. right. rewrite !rx_reg_val by done.
  assert (r <> r' \/ f <> f') as Hd
    by (destruct (decide (r = r')), (decide (f = f')); subst; auto; congruence).
  destruct f, f'; simpl; destruct Hd; try congruence; lia.
Qed.

(** ** Which registers are storage

    The pointers of the rings are, except those of receive ring 32, whose addresses
    are those of the interrupt registers. *)

Definition tx_pointer (f : tx_field) : bool := match f with TX_HEAD | TX_TAIL => true | _ => false end.
Definition rx_pointer (f : rx_field) : bool := match f with RX_HEAD | RX_TAIL => true | _ => false end.

Lemma storage_tx r f :
  0 <= r < 64 -> tx_pointer f = true -> storage (tx_width f) ACCNET_UDP_TX (tx_reg r f) = true.
Proof.
  intros Hr Hf. apply storage_spec. intros k Hk. rewrite tx_reg_val by done. unfold volatile.
  destruct (Z.ltb_spec (r * 16 + match f with TX_HEAD => 0 | TX_TAIL => 4 | _ => 8 end + k) 0x400);
    destruct f; cbn in *; try done; [| |lia..]; apply Z.leb_gt; zdm.
Qed.

Lemma fits_tx r f v : 0 <= r < 64 -> fits ACCNET_UDP_TX (tx_reg r f) v = true.
Proof.
  intros Hr. unfold fits. rewrite tx_reg_val by done.
  repeat match goal with |- context [?a =? ?b] => destruct (Z.eqb_spec a b); [destruct f; lia|] end.
  done.
Qed.

Lemma storage_rx r f :
  0 <= r < 64 -> r <> 32 -> rx_pointer f = true -> storage (rx_width f) ACCNET_UDP_RX (rx_reg r f) = true.
Proof.
  intros Hr Hne Hf. apply storage_spec. intros k Hk. rewrite rx_reg_val by done. unfold volatile.
  destruct (within_spec 0x400 8 (r * 32 + match f with RX_HEAD => 0 | RX_TAIL => 4 | RX_DROP => 8 | _ => 16 end + k));
    destruct f; cbn in *; try done; try lia; rewrite orb_false_r; apply Z.leb_gt; zdm.
Qed.

(** The TX engine's register window is consistent: ring registers are pairwise
    disjoint for the 64 rings, and none overlaps a global register. *)
Theorem udp_tx_registers_disjoint r f :
  0 <= r < ACCNET_UDP_RING_COUNT ->
  (forall r' f', 0 <= r' < ACCNET_UDP_RING_COUNT -> (r, f) <> (r', f') ->
     disjoint_acc (tx_width f) ACCNET_UDP_TX (tx_reg r f)
                  (tx_width f') ACCNET_UDP_TX (tx_reg r' f')) /\
  Forall (λ g, disjoint_acc (tx_width f) ACCNET_UDP_TX (tx_reg r f)
                            g.1 ACCNET_UDP_TX g.2) tx_globals.
Proof.
  unfold ACCNET_UDP_RING_COUNT. intros Hr. split.
  - intros. by apply tx_ring_regs_disjoint.
  - assert (Forall (λ g : width * Z, 0x400 <= g.2) tx_globals) as Hg
      by (repeat constructor; by vm_compute).
    eapply Forall_impl; [|exact Hg]. intros [w a] Ha. right; left.
    rewrite tx_reg_val by done. simpl in *. destruct f; simpl; lia.
Qed.

Lemma udp_tx_registers_disjoint_witness :
  Forall (λ g, disjoint_acc W32 ACCNET_UDP_TX (tx_reg 63 TX_TAIL)
                            g.1 ACCNET_UDP_TX g.2) tx_globals.
Proof.
  apply (udp_tx_registers_disjoint 63 TX_TAIL). unfold ACCNET_UDP_RING_COUNT. lia.
Defined.

(** The RX engine's window is not: its ring bank is disjoint from the IRQ
    registers for exactly the rings below 32; from ring 32 on, the ring's
    registers lie at or above [0x400], and ring 32's HEAD and TAIL are the
    IRQ-pending and IRQ-clear registers themselves. *)
Theorem udp_rx_ring_irq_overlap :
  (forall r f, 0 <= r < 32 ->
     disjoint_acc (rx_width f) ACCNET_UDP_RX (rx_reg r f)
                  W32 ACCNET_UDP_RX ACCNET_UDP_RX_IRQ_PENDING /\
     disjoint_acc (rx_width f) ACCNET_UDP_RX (rx_reg r f)
                  W32 ACCNET_UDP_RX ACCNET_UDP_RX_IRQ_CLEAR) /\
  rx_reg 32 RX_HEAD = ACCNET_UDP_RX_IRQ_PENDING /\
  rx_reg 32 RX_TAIL = ACCNET_UDP_RX_IRQ_CLEAR /\
  32 < ACCNET_UDP_RING_COUNT.
Proof.
  split; [|by repeat split; vm_compute].
  intros r f Hr. unfold disjoint_acc. rewrite !rx_reg_val by lia.
  unfold ACCNET_UDP_RX_IRQ_PENDING, ACCNET_UDP_RX_IRQ_CLEAR.
  destruct f; simpl; lia.
Qed.

(** ** Alignment arithmetic shared by the drivers *)

Lemma land_lnot_mask n x : 0 <= n -> Z.land x (Z.lnot (2 ^ n - 1)) = x - x mod 2 ^ n.
Proof.
  intros Hn. rewrite <- Z.ldiff_land.
  pose proof (Z.ones_equiv n) as Ho.
  replace (2 ^ n - 1) with (Z.ones n) by lia.
  rewrite Z.ldiff_ones_r, Z.shiftl_mul_pow2, Z.shiftr_div_pow2 by done.
  pose proof (Z.div_mod x (2 ^ n)). lia.
Qed.

(** [DMA_PTR_ALIGN] rounds a pointer up to the next multiple of 64. *)
Lemma DMA_PTR_ALIGN_spec p :
  0 <= p <= 2 ^ 64 - 64 ->
  DMA_PTR_ALIGN p mod 64 = 0 /\ p <= DMA_PTR_ALIGN p < p + 64.
Proof.
  intros Hp. unfold DMA_PTR_ALIGN, ALIGN_BYTES.
  change (64 - 1) with (2 ^ 6 - 1). rewrite land_lnot_mask by lia.
  change (2 ^ 6) with 64. rewrite u_small; zdm.
Qed.

(** [DMA_LEN_ALIGN] rounds a positive length up to a multiple of 64. *)
Lemma DMA_LEN_ALIGN_spec n :
  DMA_LEN_ALIGN n mod 64 = 0 /\ n <= DMA_LEN_ALIGN n < n + 64.
Proof.
  unfold DMA_LEN_ALIGN, ALIGN_SHIFT.
  rewrite Z.shiftl_mul_pow2, Z.shiftr_div_pow2 by lia.
  change (2 ^ 6) with 64. zdm.
Qed.
