(* ===== verification/IocacheRegs.v ===== *)
(** * Register map of the I/O cache ([drivers/iocache-driver/iocache.h])

    Per-CPU interrupt masks and scheduler ports, the RX kick block, the
    allocator and the table of 64 connection rows.  [reg_addr_disjoint]
    shows that all of them occupy distinct 8-byte beats as long as the row is
    one of the 64 rows and the CPU one of the four; row arithmetic is done at
    64 bits, as in the source, so that a row out of range is visible. *)

From S2P Require Import Prelude Prog Mmio.

Definition NUM_CPUS : Z := 4.
Definition IOCACHE_CACHE_ENTRY_COUNT : Z := 64.
Definition IOCACHE_UDP_RING_SIZE : Z := 32 * 1024.

Definition IOCACHE_INT_BASE : Z := 0x000.
Definition IOCACHE_ALLOC_BASE : Z := 0x080.
Definition IOCACHE_KICK_BASE : Z := 0x100.
Definition IOCACHE_SCHED_BASE : Z := 0x200.
Definition IOCACHE_TABLE_BASE : Z := 0x300.

Definition IOCACHE_BEAT_BYTES : Z := 8.
Definition IOCACHE_ROW_STRIDE : Z := 0x100.

Definition IOCACHE_REG_INTMASK_RX (c : Z) : Z :=
  u64 (IOCACHE_INT_BASE + 0x10 * u64 c + 0x00).
Definition IOCACHE_REG_INTMASK_TXCOMP (c : Z) : Z :=
  u64 (IOCACHE_INT_BASE + 0x10 * u64 c + 0x08).
Definition IOCACHE_REG_SCHED_READ (c : Z) : Z :=
  u64 (IOCACHE_SCHED_BASE + 0x10 * u64 c + 0x00).
Definition IOCACHE_REG_SCHED_PEEK (c : Z) : Z :=
  u64 (IOCACHE_SCHED_BASE + 0x10 * u64 c + 0x08).

Definition IOCACHE_REG_RX_KICK_ALL_CPU : Z := IOCACHE_KICK_BASE + 0x00.
Definition IOCACHE_REG_RX_KICK_ALL_COUNT : Z := IOCACHE_KICK_BASE + 0x08.
Definition IOCACHE_REG_RX_KICK_ALL_MASK : Z := IOCACHE_KICK_BASE + 0x10.
Definition IOCACHE_REG_ALLOC_FIRST_EMPTY : Z := IOCACHE_ALLOC_BASE + 0x00.

Definition IOCACHE_ENABLED_OFF : Z := 0x00.
Definition IOCACHE_PROTOCOL_OFF : Z := 0x08.
Definition IOCACHE_SRC_IP_OFF : Z := 0x10.
Definition IOCACHE_SRC_PORT_OFF : Z := 0x18.
Definition IOCACHE_DST_IP_OFF : Z := 0x20.
Definition IOCACHE_DST_PORT_OFF : Z := 0x28.
Definition IOCACHE_RX_AVAILABLE_OFF : Z := 0x30.
Definition IOCACHE_RX_SUSPENDED_OFF : Z := 0x38.
Definition IOCACHE_TXCOMP_AVAILABLE_OFF : Z := 0x40.
Definition IOCACHE_TXCOMP_SUSPENDED_OFF : Z := 0x48.
Definition IOCACHE_FLAGS_RO_OFF : Z := 0x50.
Definition IOCACHE_CONN_ID_OFF : Z := 0x58.
Definition IOCACHE_PROC_PTR_OFF : Z := 0x60.
Definition IOCACHE_PROC_CPU_OFF : Z := 0x68.
Definition IOCACHE_RX_RING_ADDR_OFF : Z := 0x70.
Definition IOCACHE_RX_RING_SIZE_OFF : Z := 0x78.
Definition IOCACHE_TX_RING_ADDR_OFF : Z := 0x80.
Definition IOCACHE_TX_RING_SIZE_OFF : Z := 0x88.

(** [(row)] is an [int] or a [uint32_t]: it is converted to [unsigned long]
    before the multiplication. *)
Definition IOCACHE_REG (row off : Z) : Z :=
  u64 (IOCACHE_TABLE_BASE + u64 row * IOCACHE_ROW_STRIDE + off).

Definition IOCACHE_REG_ENABLED (row : Z) : Z := IOCACHE_REG row IOCACHE_ENABLED_OFF.
Definition IOCACHE_REG_PROTOCOL (row : Z) : Z := IOCACHE_REG row IOCACHE_PROTOCOL_OFF.
Definition IOCACHE_REG_SRC_IP (row : Z) : Z := IOCACHE_REG row IOCACHE_SRC_IP_OFF.
Definition IOCACHE_REG_SRC_PORT (row : Z) : Z := IOCACHE_REG row IOCACHE_SRC_PORT_OFF.
Definition IOCACHE_REG_DST_IP (row : Z) : Z := IOCACHE_REG row IOCACHE_DST_IP_OFF.
Definition IOCACHE_REG_DST_PORT (row : Z) : Z := IOCACHE_REG row IOCACHE_DST_PORT_OFF.
Definition IOCACHE_REG_RX_AVAILABLE (row : Z) : Z := IOCACHE_REG row IOCACHE_RX_AVAILABLE_OFF.
Definition IOCACHE_REG_RX_SUSPENDED (row : Z) : Z := IOCACHE_REG row IOCACHE_RX_SUSPENDED_OFF.
Definition IOCACHE_REG_TXCOMP_AVAILABLE (row : Z) : Z :=
  IOCACHE_REG row IOCACHE_TXCOMP_AVAILABLE_OFF.
Definition IOCACHE_REG_TXCOMP_SUSPENDED (row : Z) : Z :=
  IOCACHE_REG row IOCACHE_TXCOMP_SUSPENDED_OFF.
Definition IOCACHE_REG_FLAGS_RO (row : Z) : Z := IOCACHE_REG row IOCACHE_FLAGS_RO_OFF.
Definition IOCACHE_REG_CONN_ID (row : Z) : Z := IOCACHE_REG row IOCACHE_CONN_ID_OFF.
Definition IOCACHE_REG_PROC_CPU (row : Z) : Z := IOCACHE_REG row IOCACHE_PROC_CPU_OFF.
Definition IOCACHE_REG_PROC_PTR (row : Z) : Z := IOCACHE_REG row IOCACHE_PROC_PTR_OFF.
Definition IOCACHE_REG_RX_RING_ADDR (row : Z) : Z := IOCACHE_REG row IOCACHE_RX_RING_ADDR_OFF.
Definition IOCACHE_REG_RX_RING_SIZE (row : Z) : Z := IOCACHE_REG row IOCACHE_RX_RING_SIZE_OFF.
Definition IOCACHE_REG_TX_RING_ADDR (row : Z) : Z := IOCACHE_REG row IOCACHE_TX_RING_ADDR_OFF.
Definition IOCACHE_REG_TX_RING_SIZE (row : Z) : Z := IOCACHE_REG row IOCACHE_TX_RING_SIZE_OFF.

Definition MAGIC_CHAR : Z := 0xCCCCCCCC.
Definition ALIGN_BYTES : Z := 64.

(** ** All registers, and their addresses *)

Inductive row_field :=
| ENABLED | PROTOCOL | SRC_IP | SRC_PORT | DST_IP | DST_PORT
| RX_AVAILABLE | RX_SUSPENDED | TXCOMP_AVAILABLE | TXCOMP_SUSPENDED | FLAGS_RO
| CONN_ID | PROC_PTR | PROC_CPU | RX_RING_ADDR | RX_RING_SIZE
| TX_RING_ADDR | TX_RING_SIZE.

#[export] Instance row_field_eq_dec : EqDecision row_field.
Proof. solve_decision. Defined.

Definition field_off (f : row_field) : Z :=
  match f with
  | ENABLED => IOCACHE_ENABLED_OFF | PROTOCOL => IOCACHE_PROTOCOL_OFF
  | SRC_IP => IOCACHE_SRC_IP_OFF | SRC_PORT => IOCACHE_SRC_PORT_OFF
  | DST_IP => IOCACHE_DST_IP_OFF | DST_PORT => IOCACHE_DST_PORT_OFF
  | RX_AVAILABLE => IOCACHE_RX_AVAILABLE_OFF
  | RX_SUSPENDED => IOCACHE_RX_SUSPENDED_OFF
  | TXCOMP_AVAILABLE => IOCACHE_TXCOMP_AVAILABLE_OFF
  | TXCOMP_SUSPENDED => IOCACHE_TXCOMP_SUSPENDED_OFF
  | FLAGS_RO => IOCACHE_FLAGS_RO_OFF | CONN_ID => IOCACHE_CONN_ID_OFF
  | PROC_PTR => IOCACHE_PROC_PTR_OFF | PROC_CPU => IOCACHE_PROC_CPU_OFF
  | RX_RING_ADDR => IOCACHE_RX_RING_ADDR_OFF
  | RX_RING_SIZE => IOCACHE_RX_RING_SIZE_OFF
  | TX_RING_ADDR => IOCACHE_TX_RING_ADDR_OFF
  | TX_RING_SIZE => IOCACHE_TX_RING_SIZE_OFF
  end.

Inductive iocache_reg :=
| INTMASK_RX (c : Z) | INTMASK_TXCOMP (c : Z)
| SCHED_READ (c : Z) | SCHED_PEEK (c : Z)
| KICK_CPU | KICK_COUNT | KICK_MASK | FIRST_EMPTY
| ROW (row : Z) (f : row_field).

Definition reg_addr (g : iocache_reg) : Z :=
  match g with
  | INTMASK_RX c => IOCACHE_REG_INTMASK_RX c
  | INTMASK_TXCOMP c => IOCACHE_REG_INTMASK_TXCOMP c
  | SCHED_READ c => IOCACHE_REG_SCHED_READ c
  | SCHED_PEEK c => IOCACHE_REG_SCHED_PEEK c
  | KICK_CPU => IOCACHE_REG_RX_KICK_ALL_CPU
  | KICK_COUNT => IOCACHE_REG_RX_KICK_ALL_COUNT
  | KICK_MASK => IOCACHE_REG_RX_KICK_ALL_MASK
  | FIRST_EMPTY => IOCACHE_REG_ALLOC_FIRST_EMPTY
  | ROW row f => IOCACHE_REG row (field_off f)
  end.

Definition reg_valid (g : iocache_reg) : Prop :=
  match g with
  | INTMASK_RX c | INTMASK_TXCOMP c | SCHED_READ c | SCHED_PEEK c => 0 <= c < NUM_CPUS
  | ROW row _ => 0 <= row < IOCACHE_CACHE_ENTRY_COUNT
  | _ => True
  end.

Definition field_beat (f : row_field) : Z :=
  match f with
  | ENABLED => 0 | PROTOCOL => 1 | SRC_IP => 2 | SRC_PORT => 3 | DST_IP => 4
  | DST_PORT => 5 | RX_AVAILABLE => 6 | RX_SUSPENDED => 7 | TXCOMP_AVAILABLE => 8
  | TXCOMP_SUSPENDED => 9 | FLAGS_RO => 10 | CONN_ID => 11 | PROC_PTR => 12
  | PROC_CPU => 13 | RX_RING_ADDR => 14 | RX_RING_SIZE => 15 | TX_RING_ADDR => 16
  | TX_RING_SIZE => 17
  end.

Lemma field_off_beat f : field_off f = IOCACHE_BEAT_BYTES * field_beat f.
Proof. by destruct f. Qed.

Lemma field_beat_range f : 0 <= field_beat f < 18.
Proof. destruct f; simpl; lia. Qed.

Lemma field_beat_inj f f' : field_beat f = field_beat f' -> f = f'.
Proof. destruct f, f'; simpl; done. Qed.

Lemma IOCACHE_REG_val row off :
  0 <= row < IOCACHE_CACHE_ENTRY_COUNT -> 0 <= off < IOCACHE_ROW_STRIDE ->
  IOCACHE_REG row off = 0x300 + row * 0x100 + off.
Proof.
  unfold IOCACHE_CACHE_ENTRY_COUNT, IOCACHE_REG, IOCACHE_TABLE_BASE,
    IOCACHE_ROW_STRIDE. intros. by unwrap.
Qed.

(** The beat (8-byte slot) of a register of the map. *)
Definition reg_beat (g : iocache_reg) : Z :=
  match g with
  | INTMASK_RX c => 2 * c | INTMASK_TXCOMP c => 2 * c + 1
  | SCHED_READ c => 64 + 2 * c | SCHED_PEEK c => 64 + 2 * c + 1
  | KICK_CPU => 32 | KICK_COUNT => 33 | KICK_MASK => 34 | FIRST_EMPTY => 16
  | ROW row f => 96 + 32 * row + field_beat f
  end.

Lemma reg_addr_beat g : reg_valid g -> reg_addr g = 8 * reg_beat g.
Proof.
  destruct g as [c|c|c|c| | | | |row f]; simpl; try done;
    try (unfold NUM_CPUS, IOCACHE_REG_INTMASK_RX, IOCACHE_REG_INTMASK_TXCOMP,
           IOCACHE_REG_SCHED_READ, IOCACHE_REG_SCHED_PEEK, IOCACHE_INT_BASE,
           IOCACHE_SCHED_BASE; intros Hc; unwrap; lia).
  intros Hr. pose proof (field_beat_range f).
  rewrite field_off_beat. unfold IOCACHE_BEAT_BYTES.
  rewrite IOCACHE_REG_val; [lia|done|unfold IOCACHE_ROW_STRIDE; lia].
Qed.

Lemma reg_beat_inj g g' :
  reg_valid g -> reg_valid g' -> reg_beat g = reg_beat g' -> g = g'.
Proof.
  intros Hg Hg'.
  destruct g as [c|c|c|c| | | | |row f], g' as [c'|c'|c'|c'| | | | |row' f'];
    simpl in *; unfold NUM_CPUS, IOCACHE_CACHE_ENTRY_COUNT in *;
    try pose proof (field_beat_range f); try pose proof (field_beat_range f');
    intros Hb; try lia; try done; try (f_equal; lia).
  assert (row = row') as -> by lia. f_equal. apply field_beat_inj. lia.
Qed.

(** Two different registers of the I/O cache never share a byte, whatever the
    access widths: writing one connection's row leaves the interrupt masks, the
    kick block, the scheduler ports and the other 63 rows alone. *)
Lemma reg_addr_disjoint g g' w w' :
  reg_valid g -> reg_valid g' -> g <> g' ->
  disjoint_acc w IOCACHE (reg_addr g) w' IOCACHE (reg_addr g').
Proof.
  intros Hg Hg' Hne. right. rewrite !reg_addr_beat by done.
  assert (reg_beat g <> reg_beat g') by (intros ?; by apply Hne, reg_beat_inj).
  destruct w, w'; simpl; lia.
Qed.

(** The same fact in the form the clients of the map use. *)
Lemma row_regs_disjoint row f row' f' w w' :
  0 <= row < IOCACHE_CACHE_ENTRY_COUNT -> 0 <= row' < IOCACHE_CACHE_ENTRY_COUNT ->
  (row, f) <> (row', f') ->
  disjoint_acc w IOCACHE (IOCACHE_REG row (field_off f))
               w' IOCACHE (IOCACHE_REG row' (field_off f')).
Proof.
  intros Hr Hr' Hne. apply (reg_addr_disjoint (ROW row f) (ROW row' f')); [done|done|congruence].
Qed.

(** ** Which registers are storage *)

Lemma row_at_val row f :
  0 <= row < IOCACHE_CACHE_ENTRY_COUNT -> row_at (IOCACHE_REG row (field_off f)) = Some row.
Proof.
  intros Hr. pose proof (field_beat_range f). rewrite field_off_beat. unfold IOCACHE_BEAT_BYTES.
  rewrite IOCACHE_REG_val by (done || (unfold IOCACHE_ROW_STRIDE; lia)). unfold row_at.
  destruct (Z.leb_spec 0x300 (0x300 + row * 0x100 + 8 * field_beat f)); [|lia]. f_equal. zdm.
Qed.

Lemma storage_row w row f :
  0 <= row < IOCACHE_CACHE_ENTRY_COUNT -> f <> FLAGS_RO ->
  storage w IOCACHE (IOCACHE_REG row (field_off f)) = true.
Proof.
  intros Hr Hf. pose proof (field_beat_range f). rewrite field_off_beat. unfold IOCACHE_BEAT_BYTES.
  rewrite IOCACHE_REG_val by (done || (unfold IOCACHE_ROW_STRIDE; lia)).
  assert (field_beat f <> 10) as Hb by by destruct f.
  apply storage_spec. intros k Hk. assert (k < 8) by (destruct w; cbn in Hk; lia).
  unfold volatile. set (a := 0x300 + row * 0x100 + 8 * field_beat f + k).
  assert ((a - 0x300) mod 0x100 = 8 * field_beat f + k) as ->.
  { unfold a. zdm. }
  destruct (within_spec 0x80 8 a), (within_spec 0x100 0x18 a), (within_spec 0x200 0x40 a),
    (within_spec 0x50 8 (8 * field_beat f + k)); lia.
Qed.

Lemma fits_row row f v : 0 <= row < IOCACHE_CACHE_ENTRY_COUNT -> fits IOCACHE (IOCACHE_REG row (field_off f)) v = true.
Proof.
  intros Hr. pose proof (field_beat_range f). rewrite field_off_beat. unfold IOCACHE_BEAT_BYTES.
  rewrite IOCACHE_REG_val by (done || (unfold IOCACHE_ROW_STRIDE; lia)). unfold fits.
  destruct (within_spec 0 0x40 (0x300 + row * 0x100 + 8 * field_beat f)); [lia|done].
Qed.

Lemma storage_mask c :
  0 <= c < NUM_CPUS ->
  storage W8 IOCACHE (IOCACHE_REG_INTMASK_RX c) = true /\
  storage W8 IOCACHE (IOCACHE_REG_INTMASK_TXCOMP c) = true.
Proof.
  unfold NUM_CPUS. intros Hc.
  assert (c = 0 \/ c = 1 \/ c = 2 \/ c = 3) as [-> |[-> |[-> | ->]]] by lia; by split; vm_compute.
Qed.

(** Only reading SCHED_READ has an effect. *)
Lemma consumes_reg w g :
  reg_valid g -> (forall c, g <> SCHED_READ c) -> consumes w IOCACHE (reg_addr g) = false.
Proof.
  intros Hg Hs. rewrite reg_addr_beat by done. unfold consumes.
  apply not_true_iff_false. intros (k & Hk%in_seq & Hc)%existsb_exists.
  assert (k < 8)%nat by (destruct w; cbn in Hk; lia). cbv zeta in Hc.
  apply andb_true_iff in Hc as [Hw Hm%Z.ltb_lt].
  destruct (within_spec 0x200 0x40 (8 * reg_beat g + Z.of_nat k)); [|done].
  assert (exists c, reg_beat g = 64 + 2 * c /\ 0 <= c < NUM_CPUS) as (c & Hb & Hc).
  { exists ((reg_beat g - 64) / 2). unfold NUM_CPUS. zdm. }
  apply (Hs c), reg_beat_inj; [done|exact Hc|]. exact Hb.
Qed.

(** ** Writing the fields of a row *)

Definition row_write (i : Z) (x : width * row_field * Z) : width * region * Z * Z :=
  let '(w, f, v) := x in (w, IOCACHE, IOCACHE_REG i (field_off f), v).

(** A write to another row, or to another field, leaves a register alone. *)
Lemma row_write_disjoint i w f j l :
  0 <= i < IOCACHE_CACHE_ENTRY_COUNT -> 0 <= j < IOCACHE_CACHE_ENTRY_COUNT -> Forall (λ x, i <> j \/ x.1.2 <> f) l ->
  Forall (λ x, let '(w', r', a', _) := x in
            disjoint_acc w IOCACHE (IOCACHE_REG i (field_off f)) w' r' a')
         (map (row_write j) l).
Proof.
  intros Hi Hj HF. induction HF as [|[[w' f'] v] l Hx HF IH]; [constructor|].
  constructor; [|done]. apply row_regs_disjoint; [done|done|].
  simpl in Hx. intros [= -> ->]. tauto.
Qed.

(** The last value written to a field is the one the register holds. *)
Lemma row_written `{PlainMmio D} i w f v l1 l2 (d : D) :
  0 <= i < IOCACHE_CACHE_ENTRY_COUNT -> f <> FLAGS_RO -> Forall (λ x, x.1.2 <> f) l2 ->
  reg_val w IOCACHE (IOCACHE_REG i (field_off f))
    (do_writes (map (row_write i) (l1 ++ (w, f, v) :: l2)) d) = Word.u (wbits w) v.
Proof.
  intros Hi Hf Hl2. rewrite map_app. cbn [map row_write].
  apply reg_val_do_writes_last; [by apply storage_row|by apply fits_row|].
  apply row_write_disjoint; [done|done|]. eapply Forall_impl; [|exact Hl2]. auto.
Qed.

(** Other rows keep their registers. *)
Lemma row_untouched `{PlainMmio D} i f w j l (d : D) :
  0 <= i < IOCACHE_CACHE_ENTRY_COUNT -> 0 <= j < IOCACHE_CACHE_ENTRY_COUNT -> i <> j ->
  reg_val w IOCACHE (IOCACHE_REG i (field_off f)) (do_writes (map (row_write j) l) d)
  = reg_val w IOCACHE (IOCACHE_REG i (field_off f)) d.
Proof.
  intros Hi Hj Hne. apply reg_val_do_writes_row; [rewrite row_at_val by done; by eexists|].
  induction l as [|[[w' f'] v] l IH]; constructor; [|done]. cbn [row_write].
  split; [done|]. split; [apply row_regs_disjoint; [done|done|congruence]|].
  rewrite !row_at_val by done. split; [by eexists|congruence].
Qed.
