(* ===== verification/SkbRing.v ===== *)
(** * The socket-buffer ring ([struct sk_buff_cq] of the AccNIC driver)

    A circular queue of buffer pointers with 1280 slots whose indices are
    advanced by [(i + 1) & (CONFIG_ACCNET_RING_SIZE - 1)].  1280 is not a power
    of two, so the mask [0x4FF] lacks bit 8 and the indices return to 0 after
    255: the ring is a FIFO queue over 256 of its slots, with room for 255
    buffers.  [cq_repr] is the abstraction relation to a list; push and pop
    refine the list operations and keep the index invariant. *)

From S2P Require Import Prelude Prog AccnetRegs.

(** A slot holds a [struct sk_buff *]; 0 is the null pointer. *)
Record sk_buff_cq := mk_cq { entries : list Z; head : Z; tail : Z }.

Definition advance (i : Z) : Z := Z.land (i + 1) (CONFIG_ACCNET_RING_SIZE - 1).

Definition sk_buff_cq_init (cq : sk_buff_cq) : sk_buff_cq :=
  mk_cq (entries cq) 0 0.

(** [false]: the overflow message was printed and the buffer dropped. *)
Definition sk_buff_cq_push (cq : sk_buff_cq) (skb : Z) : bool * sk_buff_cq :=
  if Z.land (head cq + 1) (CONFIG_ACCNET_RING_SIZE - 1) =? tail cq then (false, cq)
  else (true, mk_cq (<[Z.to_nat (head cq) := skb]> (entries cq))
                    (Z.land (head cq + 1) (CONFIG_ACCNET_RING_SIZE - 1)) (tail cq)).

(** 0 (NULL) on an empty ring. *)
Definition sk_buff_cq_pop (cq : sk_buff_cq) : Z * sk_buff_cq :=
  if head cq =? tail cq then (0, cq)
  else (nth (Z.to_nat (tail cq)) (entries cq) 0,
        mk_cq (entries cq) (head cq)
              (Z.land (tail cq + 1) (CONFIG_ACCNET_RING_SIZE - 1))).

(** The slot that [sk_buff_cq_tail_nsegments] and [sk_buff_cq_pop] read. *)
Definition cq_tail_entry (cq : sk_buff_cq) : Z :=
  nth (Z.to_nat (tail cq)) (entries cq) 0.

(** [CIRC_CNT] and [CIRC_SPACE] of the kernel's [circ_buf.h], as the header
    instantiates them. *)
Definition SK_BUFF_CQ_COUNT (cq : sk_buff_cq) : Z :=
  Z.land (head cq - tail cq) (CONFIG_ACCNET_RING_SIZE - 1).
Definition SK_BUFF_CQ_SPACE (cq : sk_buff_cq) : Z :=
  Z.land (tail cq - (head cq + 1)) (CONFIG_ACCNET_RING_SIZE - 1).

(** ** Index arithmetic *)

(** The number of slots the masked index can reach from 0. *)
Definition ring_slots : Z := 256.

Lemma advance_mod i : 0 <= i < ring_slots -> advance i = (i + 1) mod ring_slots.
Proof.
  unfold ring_slots, advance, CONFIG_ACCNET_RING_SIZE. intros Hi.
  assert (i = 255 \/ i + 1 < 256) as [->|Hi'] by lia; [done|].
  change (1280 - 1) with (Z.lor (2 ^ 10) (2 ^ 8 - 1)).
  rewrite Z.land_lor_distr_r.
  rewrite (land_pow2_mask 8) by lia. change (2 ^ 8) with 256.
  enough (Z.land (i + 1) (2 ^ 10) = 0) as -> by done.
  apply Z.bits_inj_0. intros n. rewrite Z.land_spec.
  destruct (Z.eqb_spec n 10) as [->|Hn].
  - rewrite <- (Z.mod_small (i + 1) (2 ^ 8)) by lia.
    by rewrite Z.mod_pow2_bits_high by lia.
  - destruct (Z.ltb_spec n 0); [by rewrite Z.testbit_neg_r|].
    rewrite Z.pow2_bits_false by lia. apply andb_false_r.
Qed.

(** [k] steps of [advance] from [i]. *)
Definition slot (i : Z) (k : nat) : Z := (i + Z.of_nat k) mod ring_slots.

Lemma slot_range i k : 0 <= slot i k < ring_slots.
Proof. apply Z.mod_pos_bound. done. Qed.

Lemma slot_0 i : 0 <= i < ring_slots -> slot i 0 = i.
Proof. intros. unfold slot. rewrite Z.add_0_r. by apply Z.mod_small. Qed.

Lemma advance_slot i k : advance (slot i k) = slot i (S k).
Proof.
  rewrite advance_mod by apply slot_range. unfold slot.
  rewrite Zplus_mod_idemp_l. f_equal. lia.
Qed.

Lemma slot_advance i k : 0 <= i < ring_slots -> slot (advance i) k = slot i (S k).
Proof.
  intros Hi. rewrite advance_mod by done. unfold slot.
  rewrite Zplus_mod_idemp_l. f_equal. lia.
Qed.

Lemma slot_inj i k k' :
  (k < 256)%nat -> (k' < 256)%nat -> slot i k = slot i k' -> k = k'.
Proof. unfold slot, ring_slots. intros. zdm. Qed.

(** ** Refinement of a bounded FIFO queue *)

(** [cq_repr cq q]: the ring holds exactly the pointers [q], oldest first. *)
Record cq_repr (cq : sk_buff_cq) (q : list Z) : Prop := {
  repr_len : length (entries cq) = Z.to_nat CONFIG_ACCNET_RING_SIZE;
  repr_tail : 0 <= tail cq < ring_slots;
  repr_head : head cq = slot (tail cq) (length q);
  repr_room : (length q < 256)%nat;
  repr_slots k p : q !! k = Some p -> entries cq !! Z.to_nat (slot (tail cq) k) = Some p
}.

Lemma cq_repr_init cq :
  length (entries cq) = Z.to_nat CONFIG_ACCNET_RING_SIZE ->
  cq_repr (sk_buff_cq_init cq) [].
Proof.
  intros Hl. split; simpl; try done; unfold ring_slots; lia.
Qed.

Lemma slot_entry cq q k :
  cq_repr cq q -> (Z.to_nat (slot (tail cq) k) < length (entries cq))%nat.
Proof.
  intros R. rewrite (repr_len _ _ R). pose proof (slot_range (tail cq) k).
  unfold ring_slots, CONFIG_ACCNET_RING_SIZE in *. lia.
Qed.

Lemma push_full cq q skb :
  cq_repr cq q -> (length q = 255)%nat -> sk_buff_cq_push cq skb = (false, cq).
Proof.
  intros R Hq. unfold sk_buff_cq_push. change (Z.land (head cq + 1) _)
    with (advance (head cq)).
  rewrite (repr_head _ _ R), advance_slot, Hq.
  pose proof (repr_tail _ _ R). unfold slot, ring_slots in *.
  rewrite (proj2 (Z.eqb_eq _ _)); [done|zdm].
Qed.

Lemma push_room cq q skb :
  cq_repr cq q -> (length q < 255)%nat ->
  exists cq', sk_buff_cq_push cq skb = (true, cq') /\ cq_repr cq' (q ++ [skb]).
Proof.
  intros R Hq. unfold sk_buff_cq_push. change (Z.land (head cq + 1) _)
    with (advance (head cq)).
  pose proof (repr_tail _ _ R) as Ht.
  rewrite (repr_head _ _ R), advance_slot.
  destruct (Z.eqb_spec (slot (tail cq) (S (length q))) (tail cq)) as [E|_].
  { rewrite <- (slot_0 (tail cq)) in E at 2 by done.
    apply slot_inj in E; lia. }
  eexists. split; [done|]. split; simpl.
  - by rewrite length_insert, (repr_len _ _ R).
  - done.
  - rewrite length_app. simpl. f_equal. lia.
  - rewrite length_app. simpl. lia.
  - intros k p [Hk|[Hk1 Hk2]]%lookup_app_Some.
    + rewrite list_lookup_insert_ne; [by apply (repr_slots _ _ R)|].
      apply lookup_lt_Some in Hk. intros E.
      apply Z2Nat.inj in E; [|apply slot_range..].
      apply slot_inj in E; lia.
    + apply list_lookup_singleton_Some in Hk2 as [Hk2 <-].
      replace k with (length q) by lia.
      apply list_lookup_insert_eq. by eapply slot_entry.
Qed.

Lemma pop_empty cq : cq_repr cq [] -> sk_buff_cq_pop cq = (0, cq).
Proof.
  intros R. unfold sk_buff_cq_pop.
  rewrite (repr_head _ _ R), slot_0 by apply (repr_tail _ _ R).
  by rewrite Z.eqb_refl.
Qed.

Lemma tail_entry cq p q : cq_repr cq (p :: q) -> cq_tail_entry cq = p.
Proof.
  intros R. pose proof (repr_slots _ _ R 0%nat p eq_refl) as Hp.
  rewrite slot_0 in Hp by apply (repr_tail _ _ R).
  unfold cq_tail_entry. by apply nth_lookup_Some.
Qed.

Lemma pop_cons cq p q :
  cq_repr cq (p :: q) ->
  exists cq', sk_buff_cq_pop cq = (p, cq') /\ cq_repr cq' q.
Proof.
  intros R. unfold sk_buff_cq_pop.
  change (Z.land (tail cq + 1) _) with (advance (tail cq)).
  pose proof (repr_tail _ _ R) as Ht. pose proof (repr_room _ _ R) as Hr.
  rewrite (repr_head _ _ R). simpl in Hr |- *.
  destruct (Z.eqb_spec (slot (tail cq) (S (length q))) (tail cq)) as [E|_].
  { rewrite <- (slot_0 (tail cq)) in E at 2 by done.
    apply slot_inj in E; lia. }
  eexists. split; [by rewrite <- (tail_entry _ _ _ R)|]. split; simpl.
  - apply (repr_len _ _ R).
  - rewrite advance_mod by done. by apply Z.mod_pos_bound.
  - by rewrite slot_advance.
  - lia.
  - intros k p' Hk. rewrite slot_advance by done. by apply (repr_slots _ _ R).
Qed.

#[export] Hint Resolve cq_repr_init : prog.

(** ** Sequences of operations *)

Inductive cq_op := Push (skb : Z) | Pop.

Definition cq_step (cq : sk_buff_cq) (o : cq_op) : Z * sk_buff_cq :=
  match o with
  | Push skb => let '(_, cq') := sk_buff_cq_push cq skb in (0, cq')
  | Pop => sk_buff_cq_pop cq
  end.

(** The queue the ring implements: at most 255 pointers; a push beyond that is
    dropped and a pop of the empty queue yields NULL. *)
Definition fifo_step (q : list Z) (o : cq_op) : Z * list Z :=
  match o, q with
  | Push skb, _ => (0, if (length q <? 255)%nat then q ++ [skb] else q)
  | Pop, [] => (0, [])
  | Pop, p :: q' => (p, q')
  end.

Fixpoint run_ops {S} (f : S -> cq_op -> Z * S) (s : S) (l : list cq_op) : list Z * S :=
  match l with
  | [] => ([], s)
  | o :: l' => let '(v, s1) := f s o in
               let '(vs, s2) := run_ops f s1 l' in (v :: vs, s2)
  end.

Lemma cq_step_refines cq q o :
  cq_repr cq q ->
  (cq_step cq o).1 = (fifo_step q o).1 /\ cq_repr (cq_step cq o).2 (fifo_step q o).2.
Proof.
  intros R. destruct o as [skb|]; simpl.
  - destruct (Nat.ltb_spec (length q) 255) as [Hl|Hl].
    + destruct (push_room _ _ skb R Hl) as (cq' & -> & R'). done.
    + pose proof (repr_room _ _ R). rewrite (push_full cq q skb R) by lia. done.
  - destruct q as [|p q].
    + rewrite pop_empty by done. done.
    + destruct (pop_cons _ _ _ R) as (cq' & -> & R'). done.
Qed.

Lemma run_ops_refines l : forall cq q,
  cq_repr cq q ->
  (run_ops cq_step cq l).1 = (run_ops fifo_step q l).1 /\
  cq_repr (run_ops cq_step cq l).2 (run_ops fifo_step q l).2.
Proof.
  induction l as [|o l IH]; intros cq q R; [done|].
  destruct (cq_step_refines cq q o R) as [E R']. cbn [run_ops].
  destruct (cq_step cq o) as [v cq1], (fifo_step q o) as [v' q1]; simpl in *.
  destruct (IH cq1 q1 R') as [E2 R2].
  destruct (run_ops cq_step cq1 l), (run_ops fifo_step q1 l); simpl in *.
  by subst.
Qed.

(** C4: From an initialised ring, every sequence of pushes and pops returns exactly
    what the bounded FIFO queue returns: buffers come out in the order they went
    in, none is lost or duplicated while fewer than 255 are queued, a push onto
    a full ring drops the new buffer only, and a pop of an empty ring gives NULL. *)
Theorem sk_buff_cq_refines_fifo cq l :
  length (entries cq) = Z.to_nat CONFIG_ACCNET_RING_SIZE ->
  (run_ops cq_step (sk_buff_cq_init cq) l).1 = (run_ops fifo_step [] l).1 /\
  cq_repr (run_ops cq_step (sk_buff_cq_init cq) l).2 (run_ops fifo_step [] l).2.
Proof. intros Hl. by apply run_ops_refines, cq_repr_init. Qed.

Lemma sk_buff_cq_refines_fifo_witness :
  (run_ops cq_step (sk_buff_cq_init (mk_cq (replicate 1280 0) 7 9))
           [Push 11; Push 12; Pop; Push 13; Pop; Pop; Pop]).1
  = [0; 0; 11; 0; 12; 13; 0].
Proof.
  rewrite (proj1 (sk_buff_cq_refines_fifo (mk_cq (replicate 1280 0) 7 9)
    [Push 11; Push 12; Pop; Push 13; Pop; Pop; Pop] eq_refl)). reflexivity.
Defined.

(** The ring has 1280 slots but, whatever is pushed and popped, only the first
    256 are ever used: head and tail stay below 256, and after 255 pushes in a
    row the next one is refused. *)
Theorem sk_buff_cq_capacity cq l skb :
  length (entries cq) = Z.to_nat CONFIG_ACCNET_RING_SIZE ->
  let cq' := (run_ops cq_step (sk_buff_cq_init cq) l).2 in
  0 <= head cq' < 256 /\ 0 <= tail cq' < 256 /\
  ((length (run_ops fifo_step [] l).2 = 255)%nat <->
   (sk_buff_cq_push cq' skb).1 = false).
Proof.
  intros Hl cq'.
  assert (cq_repr cq' (run_ops fifo_step [] l).2) as R
    by (by apply run_ops_refines, cq_repr_init).
  rewrite (repr_head _ _ R). pose proof (repr_room _ _ R).
  split; [apply slot_range|]. split; [apply (repr_tail _ _ R)|]. split.
  - intros Hf. by rewrite (push_full _ _ skb R Hf).
  - intros Hp. destruct (decide (length (run_ops fifo_step [] l).2 < 255)%nat) as [Hr|];
      [|lia].
    destruct (push_room _ _ skb R Hr) as (cq2 & E & _). rewrite E in Hp. done.
Qed.

Lemma sk_buff_cq_capacity_witness :
  (length (run_ops fifo_step [] (replicate 300 (Push 5))).2 = 255)%nat <->
  (sk_buff_cq_push
     (run_ops cq_step (sk_buff_cq_init (mk_cq (replicate 1280 0) 0 0))
              (replicate 300 (Push 5))).2 6).1 = false.
Proof.
  exact (proj2 (proj2 (sk_buff_cq_capacity (mk_cq (replicate 1280 0) 0 0)
                 (replicate 300 (Push 5)) 6 eq_refl))).
Defined.
