(* ===== verification/AccnetDriver.v ===== *)
(** * The AccNIC network driver: data path ([drivers/accnet-driver/accnet.c])

    Transmission ([accnet_start_xmit], [post_send], [complete_send]), reception
    ([post_recv], [alloc_recv], [complete_recv]), the two interrupt handlers,
    the NAPI poll function and [accnet_open]/[accnet_stop], over a state that
    holds the device, the two buffer rings, the live socket buffers, the two
    spinlocks, the NAPI and queue flags and the interface statistics. *)

From S2P Require Import Prelude Prog Mmio AccnetRegs SkbRing.

(** ** Socket buffers and the kernel functions that handle them *)

Record skb_frag := mk_frag { bv_page : Z; bv_offset : Z; bv_len : Z }.

(** [skb_len] is [skb->len], [skb_headlen] the length of the linear part,
    [tailroom] the bytes left behind it. *)
Record sk_buff := mk_skb {
  data : Z; skb_len : Z; skb_headlen : Z; frags : list skb_frag;
  tailroom : Z; protocol : Z
}.

Definition nr_frags (skb : sk_buff) : Z := zlen (frags skb).

Class Kernel := {
  virt_to_phys : Z -> Z;
  page_to_phys : Z -> Z;
  MAX_SKB_FRAGS : Z;
  NET_IP_ALIGN : Z;
  (** Buffers in use -> requested size -> a new buffer and its address, or NULL. *)
  netdev_alloc_skb : gmap Z sk_buff -> Z -> option (Z * sk_buff);
  (** The protocol of a received frame, and the buffer with its header pulled. *)
  eth_type_trans : sk_buff -> Z * sk_buff
}.

(** What the driver relies on when an allocation succeeds, which it need not:
    the buffer is new, empty, of at least the requested size, and its data start
    on a cache line ([NET_SKB_PAD] and [SKB_DATA_ALIGN] with 64-byte lines). *)
Class KernelLaws `{Kernel} := {
  alloc_spec h n p skb :
    netdev_alloc_skb h n = Some (p, skb) ->
    p <> 0 /\ h !! p = None /\ frags skb = [] /\
    0 <= data skb <= 2 ^ 64 - 64 /\ data skb mod 64 = 0 /\ n <= tailroom skb
}.

Definition NETDEV_TX_OK : Z := 0x00.
Definition NETDEV_TX_BUSY : Z := 0x10.
Definition IRQ_NONE : Z := 0.
Definition IRQ_HANDLED : Z := 1.

(** ** State *)

Record net_stats := mk_stats {
  tx_packets : Z; tx_bytes : Z; tx_dropped : Z; rx_packets : Z; rx_bytes : Z
}.

(** The flags and counters of [struct net_device], NAPI and the spinlocks. *)
Record soft_state := mk_soft {
  tx_lock : bool; rx_lock : bool; queue_stopped : bool;
  napi_disabled : bool; napi_sched : bool; poll_list : Z;
  stats : net_stats
}.

(** How a buffer was given back: after its transmission, or dropped. *)
Inductive freeing := Consumed (p : Z) | Dropped (p : Z).

#[export] Instance freeing_eq_dec : EqDecision freeing.
Proof. solve_decision. Defined.

Record nic_state (D : Type) := mk_nic {
  nic_dev : D;
  send_cq : sk_buff_cq;
  recv_cq : sk_buff_cq;
  tx_irq : Z;
  rx_irq : Z;
  skbs : gmap Z sk_buff;          (* live buffers, by address *)
  received : list (Z * sk_buff);  (* handed to netif_receive_skb, newest last *)
  freed : list freeing;           (* freed, newest last *)
  soft : soft_state
}.
Arguments mk_nic {D}.
Arguments nic_dev {D}.
Arguments send_cq {D}.
Arguments recv_cq {D}.
Arguments tx_irq {D}.
Arguments rx_irq {D}.
Arguments skbs {D}.
Arguments received {D}.
Arguments freed {D}.
Arguments soft {D}.

Section setters.
Context {D : Type}.
Definition nic_set_dev (d : D) (s : nic_state D) : nic_state D :=
  mk_nic d (send_cq s) (recv_cq s) (tx_irq s) (rx_irq s) (skbs s) (received s) (freed s) (soft s).
Definition set_send_cq (c : sk_buff_cq) (s : nic_state D) : nic_state D :=
  mk_nic (nic_dev s) c (recv_cq s) (tx_irq s) (rx_irq s) (skbs s) (received s) (freed s) (soft s).
Definition set_recv_cq (c : sk_buff_cq) (s : nic_state D) : nic_state D :=
  mk_nic (nic_dev s) (send_cq s) c (tx_irq s) (rx_irq s) (skbs s) (received s) (freed s) (soft s).
Definition set_skbs (h : gmap Z sk_buff) (s : nic_state D) : nic_state D :=
  mk_nic (nic_dev s) (send_cq s) (recv_cq s) (tx_irq s) (rx_irq s) h (received s) (freed s) (soft s).
Definition set_received (l : list (Z * sk_buff)) (s : nic_state D) : nic_state D :=
  mk_nic (nic_dev s) (send_cq s) (recv_cq s) (tx_irq s) (rx_irq s) (skbs s) l (freed s) (soft s).
Definition set_freed (l : list freeing) (s : nic_state D) : nic_state D :=
  mk_nic (nic_dev s) (send_cq s) (recv_cq s) (tx_irq s) (rx_irq s) (skbs s) (received s) l (soft s).
Definition set_soft (x : soft_state) (s : nic_state D) : nic_state D :=
  mk_nic (nic_dev s) (send_cq s) (recv_cq s) (tx_irq s) (rx_irq s) (skbs s) (received s) (freed s) x.
End setters.

Definition soft_tx_lock (b : bool) (x : soft_state) : soft_state :=
  mk_soft b (rx_lock x) (queue_stopped x) (napi_disabled x) (napi_sched x) (poll_list x) (stats x).
Definition soft_rx_lock (b : bool) (x : soft_state) : soft_state :=
  mk_soft (tx_lock x) b (queue_stopped x) (napi_disabled x) (napi_sched x) (poll_list x) (stats x).
Definition soft_stopped (b : bool) (x : soft_state) : soft_state :=
  mk_soft (tx_lock x) (rx_lock x) b (napi_disabled x) (napi_sched x) (poll_list x) (stats x).
Definition soft_napi (dis sch : bool) (n : Z) (x : soft_state) : soft_state :=
  mk_soft (tx_lock x) (rx_lock x) (queue_stopped x) dis sch n (stats x).
Definition soft_stats (f : net_stats -> net_stats) (x : soft_state) : soft_state :=
  mk_soft (tx_lock x) (rx_lock x) (queue_stopped x) (napi_disabled x) (napi_sched x)
          (poll_list x) (f (stats x)).

#[export] Instance nic_has_dev D : HasDev (nic_state D) D.
Proof. refine {| the_dev := nic_dev; set_dev := nic_set_dev |}; by intros []. Defined.

(** ** Kernel services *)

Section driver.
Context {D : Type} `{Mmio D} `{Kernel}.
Abbreviation state := (nic_state D).
Abbreviation M := (prog (nic_state D)).

Definition update_soft (f : soft_state -> soft_state) : M unit :=
  modify (λ s, set_soft (f (soft s)) s).

Definition spin_lock_tx : M unit :=
  s ← get; if tx_lock (soft s) then fail Deadlock else update_soft (soft_tx_lock true).
Definition spin_unlock_tx : M unit := update_soft (soft_tx_lock false).
Definition spin_lock_rx : M unit :=
  s ← get; if rx_lock (soft s) then fail Deadlock else update_soft (soft_rx_lock true).
Definition spin_unlock_rx : M unit := update_soft (soft_rx_lock false).

(** The buffer a pointer refers to. *)
Definition load_skb (p : Z) : M sk_buff :=
  if p =? 0 then fail NullDeref
  else s ← get; deref (skbs s !! p) UseAfterFree.

Definition store_skb (p : Z) (skb : sk_buff) : M unit :=
  modify (λ s, set_skbs (<[p := skb]> (skbs s)) s).

(** [dev_consume_skb_irq] and [dev_kfree_skb_any] ignore a null pointer; they
    differ in what they report. *)
Definition free_skb (how : Z -> freeing) (p : Z) : M unit :=
  if p =? 0 then mret tt
  else s ← get;
       match skbs s !! p with
       | Some _ => modify (λ s, set_freed (freed s ++ [how p]) (set_skbs (delete p (skbs s)) s))
       | None => fail UseAfterFree
       end.

Definition dev_consume_skb_irq : Z -> M unit := free_skb Consumed.
Definition dev_kfree_skb_any : Z -> M unit := free_skb Dropped.

Definition skb_reserve (skb : sk_buff) (n : Z) : sk_buff :=
  mk_skb (data skb + n) (skb_len skb) (skb_headlen skb) (frags skb)
         (tailroom skb - n) (protocol skb).

(** [skb_put] panics when the tail passes the end of the buffer. *)
Definition skb_put (p n : Z) : M unit :=
  skb ← load_skb p;
  if tailroom skb <? n then fail BugOn
  else store_skb p (mk_skb (data skb) (skb_len skb + n) (skb_headlen skb + n)
                           (frags skb) (tailroom skb - n) (protocol skb)).

(** [napi_schedule_prep] claims NAPI unless it is disabled or already claimed. *)
Definition napi_schedule_prep : M bool :=
  s ← get;
  if napi_disabled (soft s) then mret false
  else if napi_sched (soft s) then mret false
  else update_soft (soft_napi false true (poll_list (soft s)));; mret true.

Definition napi_schedule_enqueue : M unit :=
  s ← get;
  update_soft (soft_napi (napi_disabled (soft s)) (napi_sched (soft s))
                         (poll_list (soft s) + 1)).

(** ** Register helpers *)

Definition send_req_avail : M Z :=
  c ← ioread W16 ACCNET_TX ACCNET_TX_REQ_COUNT;
  mret (64 - Z.land c 0xffff).

Definition recv_req_avail : M Z :=
  c ← ioread W16 ACCNET_RX ACCNET_RX_DMA_ADDR_COUNT;
  mret (64 - Z.land c 0xffff).

Definition send_comp_avail : M Z :=
  c ← ioread W16 ACCNET_TX ACCNET_TX_COUNT; mret (Z.land c 0xffff).

Definition recv_comp_avail : M Z :=
  c ← ioread W16 ACCNET_RX ACCNET_RX_COMP_COUNT; mret (Z.land c 0xffff).

(** [atomic_fetch_or] and [atomic_fetch_and] on the mask register. *)
Definition set_intmask (mask : Z) : M unit :=
  old ← ioread W32 ACCNET_CTRL ACCNET_INTR_MASK;
  iowrite W32 ACCNET_CTRL ACCNET_INTR_MASK (Z.lor mask old).

Definition clear_intmask (mask : Z) : M unit :=
  old ← ioread W32 ACCNET_CTRL ACCNET_INTR_MASK;
  iowrite W32 ACCNET_CTRL ACCNET_INTR_MASK (Z.land (u32 (Z.lnot mask)) old).

(** ** Transmission *)

(** The 64-bit transmit descriptor. *)
Definition tx_packet (partial len addr : Z) : Z :=
  Z.lor (Z.lor (u64 (Z.shiftl partial 63)) (u64 (Z.shiftl len 48)))
        (Z.land addr 0xffffffffffff).

Definition post_send_frag (frag : skb_frag) (last : bool) : M unit :=
  let addr := u64 (page_to_phys (bv_page frag) + bv_offset frag) in
  let partial := if last then 0 else 1 in
  iowrite W64 ACCNET_TX ACCNET_TX_REQ (tx_packet partial (bv_len frag) addr).

(** The loop over the fragments from index [i]. *)
Fixpoint post_send_frags (l : list skb_frag) (i n : Z) : M unit :=
  match l with
  | [] => mret tt
  | frag :: l' => post_send_frag frag (i =? n - 1);; post_send_frags l' (i + 1) n
  end.

Definition push_send (p : Z) : M unit :=
  modify (λ s, set_send_cq (sk_buff_cq_push (send_cq s) p).2 s).

Definition push_recv (p : Z) : M unit :=
  modify (λ s, set_recv_cq (sk_buff_cq_push (recv_cq s) p).2 s).

Definition post_send (p : Z) : M unit :=
  skb ← load_skb p;
  let addr := virt_to_phys (data skb) in
  let '(len, partial) :=
    if 0 <? nr_frags skb then (skb_headlen skb, 1) else (skb_len skb, 0) in
  iowrite W64 ACCNET_TX ACCNET_TX_REQ (tx_packet partial len addr);;
  post_send_frags (frags skb) 0 (nr_frags skb);;
  push_send p.

Definition send_space (nfrags : Z) : M bool :=
  a ← send_req_avail; mret (nfrags <=? a).

Definition sk_buff_cq_tail_nsegments (cq : sk_buff_cq) : M Z :=
  skb ← load_skb (cq_tail_entry cq); mret (nr_frags skb + 1).

Definition pop_send : M Z :=
  s ← get;
  let '(p, c) := sk_buff_cq_pop (send_cq s) in
  modify (set_send_cq c);; mret p.

Definition pop_recv : M Z :=
  s ← get;
  let '(p, c) := sk_buff_cq_pop (recv_cq s) in
  modify (set_recv_cq c);; mret p.

(** [for (; n > 0; n -= nsegs)]: a round consumes at least one completion, so
    [n] rounds are enough. *)
Fixpoint complete_send_loop (fuel : nat) (n : Z) : M unit :=
  if 0 <? n then
    match fuel with
    | O => diverge
    | S fuel' =>
        s ← get;
        nsegs ← sk_buff_cq_tail_nsegments (send_cq s);
        if n <? nsegs then mret tt
        else
          for_loop (Z.to_nat nsegs) 0
            (λ _, _ ← ioread W16 ACCNET_TX ACCNET_TX_COMP_READ; mret tt);;
          p ← pop_send;
          dev_consume_skb_irq p;;
          complete_send_loop fuel' (n - nsegs)
    end
  else mret tt.

Definition complete_send : M unit :=
  n ← send_comp_avail;
  complete_send_loop (Z.to_nat n) n;;
  room ← send_space MAX_SKB_FRAGS;
  if room then
    s ← get; when (queue_stopped (soft s)) (update_soft (soft_stopped false))
  else mret tt.

(** ** Reception *)

Definition post_recv (p : Z) : M unit :=
  skb ← load_skb p;
  let align := i32 (DMA_PTR_ALIGN (data skb) - data skb) in
  let skb' := skb_reserve skb align in
  store_skb p skb';;
  let addr := virt_to_phys (data skb') in
  iowrite W64 ACCNET_RX ACCNET_RX_DMA_ADDR addr;;
  push_recv p.

(** [netdev_alloc_skb] yields NULL when it fails. *)
Definition alloc_skb (n : Z) : M Z :=
  s ← get;
  match netdev_alloc_skb (skbs s) n with
  | Some (p, skb) => store_skb p skb;; mret p
  | None => mret 0
  end.

Definition alloc_recv : M unit :=
  recv_cnt ← recv_req_avail;
  for_loop (Z.to_nat recv_cnt) 0
    (λ _, p ← alloc_skb (DMA_LEN_ALIGN (MAX_FRAME_SIZE NET_IP_ALIGN)); post_recv p).

(** The protocol is set from the frame, the buffer is handed to the stack. *)
Definition deliver (p len : Z) : M unit :=
  skb ← load_skb p;
  let '(proto, skb') := eth_type_trans skb in
  let skb'' := mk_skb (data skb') (skb_len skb') (skb_headlen skb') (frags skb')
                      (tailroom skb') proto in
  update_soft (soft_stats (λ t, mk_stats (tx_packets t) (tx_bytes t) (tx_dropped t)
                                         (u64 (rx_packets t + 1)) (u64 (rx_bytes t + len))));;
  modify (λ s, set_received (received s ++ [(p, skb'')])
                            (set_skbs (delete p (skbs s)) s)).

Definition complete_recv_one : M unit :=
  res ← ioread W64 ACCNET_RX ACCNET_RX_COMP_LOG;
  let len := Z.land res 0xffff in
  p ← pop_recv;
  skb_put p len;;
  deliver p len.

Definition complete_recv (budget : Z) : M Z :=
  n0 ← recv_comp_avail;
  let n := if budget <? n0 then budget else n0 in
  for_loop (Z.to_nat n) 0 (λ _, complete_recv_one);;
  mret n.

(** ** Interrupts, NAPI and the net_device operations *)

Definition accnet_schedule : M unit :=
  b ← napi_schedule_prep; when b napi_schedule_enqueue.

Definition accnet_tx_isr (irq : Z) : M Z :=
  s ← get;
  if negb (irq =? tx_irq s) then mret IRQ_NONE
  else
    spin_lock_tx;;
    clear_intmask ACCNET_INTMASK_TX;;
    iowrite W8 ACCNET_TX ACCNET_TX_INTR_CLEAR 0x1;;
    spin_unlock_tx;;
    accnet_schedule;;
    mret IRQ_HANDLED.

Definition accnet_rx_isr (irq : Z) : M Z :=
  s ← get;
  if negb (irq =? rx_irq s) then mret IRQ_NONE
  else
    spin_lock_rx;;
    clear_intmask ACCNET_INTMASK_RX;;
    iowrite W8 ACCNET_RX ACCNET_RX_INTR_CLEAR 0x1;;
    spin_unlock_rx;;
    accnet_schedule;;
    mret IRQ_HANDLED.

(** [napi_complete_done] releases NAPI. *)
Definition napi_complete_done : M unit :=
  s ← get; update_soft (soft_napi (napi_disabled (soft s)) false (poll_list (soft s))).

Definition accnet_poll (budget : Z) : M Z :=
  spin_lock_tx;;
  complete_send;;
  spin_unlock_tx;;
  work_done ← complete_recv budget;
  alloc_recv;;
  when (work_done <? budget)
    (napi_complete_done;; set_intmask ACCNET_INTMASK_BOTH);;
  mret work_done.

(** [napi_enable] clears, [napi_disable] sets, both the disabled and the
    scheduled bit. *)
Definition accnet_open : M Z :=
  s ← get;
  update_soft (soft_napi false false (poll_list (soft s)));;
  alloc_recv;;
  update_soft (soft_stopped false);;
  spin_lock_rx;; set_intmask ACCNET_INTMASK_RX;; spin_unlock_rx;;
  spin_lock_tx;; set_intmask ACCNET_INTMASK_TX;; spin_unlock_tx;;
  mret 0.

Definition accnet_stop : M Z :=
  s ← get;
  update_soft (soft_napi true true (poll_list (soft s)));;
  clear_intmask ACCNET_INTMASK_BOTH;;
  update_soft (soft_stopped true);;
  mret 0.

Definition accnet_start_xmit (p : Z) : M Z :=
  spin_lock_tx;;
  skb ← load_skb p;
  room ← send_space (nr_frags skb + 1);
  if negb room then
    update_soft (soft_stopped true);;
    dev_kfree_skb_any p;;
    update_soft (soft_stats (λ t, mk_stats (tx_packets t) (tx_bytes t)
                                    (u64 (tx_dropped t + 1)) (rx_packets t) (rx_bytes t)));;
    spin_unlock_tx;;
    mret NETDEV_TX_BUSY
  else
    post_send p;;
    update_soft (soft_stats (λ t, mk_stats (u64 (tx_packets t + 1))
                                    (u64 (tx_bytes t + skb_len skb)) (tx_dropped t) (rx_packets t) (rx_bytes t)));;
    c ← send_comp_avail;
    when (CONFIG_ACCNET_TX_THRESHOLD <? c) accnet_schedule;;
    room2 ← send_space MAX_SKB_FRAGS;
    when (negb room2) (update_soft (soft_stopped true);; accnet_schedule);;
    spin_unlock_tx;;
    mret NETDEV_TX_OK.
End driver.
