(* ===== verification/AccnetDriverSpec.v ===== *)
(** * The AccNIC network driver: correctness of the data path

    - transmit descriptors: what [post_send] hands to the NIC describes the
      segments of the buffer, in order, with the "more" flag on all but the last;
    - the behaviour of [accnet_start_xmit] on its two branches;
    - the interplay with the NIC: with a device that counts requests and
      completions ([NicDevice]), the number of outstanding descriptors always
      equals the number of segments queued in the driver; [complete_send] consumes
      exactly the leading buffers that are [finished]; [alloc_recv] posts what
      [refill] gets from the allocator, or dereferences the first failure. *)

From S2P Require Import Prelude Prog Mmio AccnetRegs SkbRing AccnetDriver.

(** ** Transmit descriptors *)

Definition packet_partial (p : Z) : bool := Z.testbit p 63.
Definition packet_len (p : Z) : Z := Z.land (Z.shiftr p 48) (2 ^ 15 - 1).
Definition packet_addr (p : Z) : Z := Z.land p (2 ^ 48 - 1).

Lemma tx_packet_val partial len addr :
  partial = 0 \/ partial = 1 -> 0 <= len < 2 ^ 15 -> 0 <= addr < 2 ^ 48 ->
  tx_packet partial len addr = (partial * 2 ^ 15 + len) * 2 ^ 48 + addr.
Proof.
  intros Hp Hl Ha. unfold tx_packet.
  assert (Z.land addr 0xffffffffffff = addr) as ->.
  { change 0xffffffffffff with (2 ^ 48 - 1). rewrite land_pow2_mask by lia.
    by apply Z.mod_small. }
  rewrite !Z.shiftl_mul_pow2, !u_small by lia.
  replace (partial * 2 ^ 63) with (Z.shiftl (Z.shiftl partial 15) 48)
    by (rewrite !Z.shiftl_mul_pow2; lia).
  rewrite <- (Z.shiftl_mul_pow2 len), <- Z.shiftl_lor by lia.
  rewrite (lor_shiftl_add 15) by lia. by rewrite lor_shiftl_add by lia.
Qed.

(** Encoding and decoding of a descriptor for segments shorter than 32 KiB. *)
Lemma tx_packet_decode partial len addr :
  partial = 0 \/ partial = 1 -> 0 <= len < 2 ^ 15 -> 0 <= addr < 2 ^ 48 ->
  packet_partial (tx_packet partial len addr) = (partial =? 1) /\
  packet_len (tx_packet partial len addr) = len /\
  packet_addr (tx_packet partial len addr) = addr.
Proof.
  intros Hp Hl Ha. rewrite tx_packet_val by done.
  unfold packet_partial, packet_len, packet_addr.
  rewrite !land_pow2_mask, Z.shiftr_div_pow2 by lia.
  rewrite Z.div_add_l, (Z.div_small addr), Z.add_0_r by lia.
  repeat split.
  - replace ((partial * 2 ^ 15 + len) * 2 ^ 48 + addr)
      with (partial * 2 ^ 63 + (len * 2 ^ 48 + addr)) by lia.
    rewrite Z.testbit_odd, Z.shiftr_div_pow2, Z.div_add_l, (Z.div_small (_ + addr)) by lia.
    destruct Hp as [-> | ->]; done.
  - rewrite Z.add_comm, Z.mod_add by lia. by apply Z.mod_small.
  - rewrite Z.add_comm, Z.mod_add by lia. by apply Z.mod_small.
Qed.

Section descriptors.
Context {D : Type} `{Mmio D} `{Kernel}.
Implicit Types (s : nic_state D) (skb : sk_buff).

(** The pieces of memory a buffer consists of: its linear part and its pages. *)
Definition segments skb : list (Z * Z) :=
  (virt_to_phys (data skb), if 0 <? nr_frags skb then skb_headlen skb else skb_len skb)
  :: map (λ f, (u64 (page_to_phys (bv_page f) + bv_offset f), bv_len f)) (frags skb).

Fixpoint descriptors (l : list (Z * Z)) : list Z :=
  match l with
  | [] => []
  | (a, n) :: l' =>
      tx_packet (match l' with [] => 0 | _ => 1 end) n a :: descriptors l'
  end.

Definition tx_req_writes (l : list Z) : list (width * region * Z * Z) :=
  map (λ p, (W64, ACCNET_TX, ACCNET_TX_REQ, p)) l.

Lemma post_send_frags_run l i n s :
  n - i = zlen l ->
  post_send_frags l i n s
  = (Ret tt, nic_set_dev
       (do_writes (tx_req_writes (descriptors
          (map (λ f, (u64 (page_to_phys (bv_page f) + bv_offset f), bv_len f)) l)))
          (nic_dev s)) s).
Proof.
  revert i s. induction l as [|f l IH]; intros i s Hn; [by destruct s|].
  unfold zlen in Hn. cbn [length] in Hn.
  cbn [post_send_frags]. unfold post_send_frag.
  rewrite (run_bind _ _ _ _ _ (iowrite_run _ _ _ _ s)).
  rewrite IH by (unfold zlen; lia).
  assert ((i =? n - 1) = match l with [] => true | _ => false end) as ->
    by (destruct l; simpl in Hn; case_bool; try done; lia).
  unfold do_writes. destruct l; by destruct s.
Qed.

Lemma load_skb_run p skb s :
  p <> 0 -> skbs s !! p = Some skb -> load_skb p s = (Ret skb, s).
Proof.
  intros Hp Hs. unfold load_skb. rewrite (proj2 (Z.eqb_neq p 0)) by done.
  unfold bind, get, deref. by rewrite Hs.
Qed.

Lemma post_send_run p skb s :
  p <> 0 -> skbs s !! p = Some skb ->
  post_send p s
  = (Ret tt, set_send_cq (sk_buff_cq_push (send_cq s) p).2
       (nic_set_dev (do_writes (tx_req_writes (descriptors (segments skb))) (nic_dev s)) s)).
Proof.
  intros Hp Hs. unfold post_send. step (load_skb_run p skb s Hp Hs).
  assert (nr_frags skb = 0 /\ frags skb = [] \/ 0 < nr_frags skb) as Hf
    by (unfold nr_frags, zlen; destruct (frags skb); [by left|right; simpl; lia]).
  unfold segments.
  destruct Hf as [[Hn Hf]|Hf].
  - rewrite Hn, Hf. simpl. by destruct s.
  - rewrite (proj2 (Z.ltb_lt 0 _)) by done.
    rewrite (run_bind _ _ _ _ _ (iowrite_run _ _ _ _ s)).
    rewrite (run_bind _ _ _ _ _ (post_send_frags_run _ 0 (nr_frags skb) _ ltac:(by rewrite Z.sub_0_r))).
    unfold nr_frags, zlen in Hf. destruct (frags skb); [done|]. by destruct s.
Qed.
End descriptors.

(** [decoded l]: what the NIC reads out of a list of descriptor words. *)
Definition decoded (l : list Z) : list (Z * Z * bool) :=
  map (λ p, (packet_addr p, packet_len p, packet_partial p)) l.

(** Segments with the flag that another one follows. *)
Fixpoint chained (l : list (Z * Z)) : list (Z * Z * bool) :=
  match l with
  | [] => []
  | (a, n) :: l' => (a, n, match l' with [] => false | _ => true end) :: chained l'
  end.

Lemma decoded_descriptors l :
  Forall (λ x, 0 <= x.1 < 2 ^ 48 /\ 0 <= x.2 < 2 ^ 15) l ->
  decoded (descriptors l) = chained l.
Proof.
  induction 1 as [|[a n] l [Ha Hn] Hl IH]; [done|]. simpl in Ha, Hn.
  unfold decoded in *. cbn [descriptors chained map]. rewrite IH. f_equal.
  destruct l.
  - by destruct (tx_packet_decode 0 n a ltac:(lia) Hn Ha) as (-> & -> & ->).
  - by destruct (tx_packet_decode 1 n a ltac:(lia) Hn Ha) as (-> & -> & ->).
Qed.

(** [post_send] writes one descriptor per segment of the buffer to the TX
    request register, in order; decoding them gives back every segment's
    48-bit address and length, flagged "partial" on all but the last; the
    buffer is queued once behind those already waiting for completion. *)
Theorem post_send_descriptors {D} `{Mmio D} `{Kernel} p skb (s : nic_state D) q :
  p <> 0 -> skbs s !! p = Some skb ->
  Forall (λ x, 0 <= x.1 < 2 ^ 48 /\ 0 <= x.2 < 2 ^ 15) (segments skb) ->
  cq_repr (send_cq s) q -> (length q < 255)%nat ->
  exists s' words,
    post_send p s = (Ret tt, s') /\
    nic_dev s' = do_writes (tx_req_writes words) (nic_dev s) /\
    decoded words = chained (segments skb) /\
    cq_repr (send_cq s') (q ++ [p]).
Proof.
  intros Hp Hs Hseg R Hq. rewrite (post_send_run p skb s Hp Hs).
  destruct (push_room _ _ p R Hq) as (cq' & E & R').
  eexists _, (descriptors (segments skb)). split; [done|].
  cbn [nic_dev send_cq set_send_cq nic_set_dev].
  split; [done|]. rewrite E. split; [by apply decoded_descriptors|done].
Qed.

(** ** The NIC behind the registers

    What the hardware shows of itself: pending transmit requests, transmit
    completions not yet read, posted receive addresses and the log of received
    frames.  The depth 64 is the one [send_req_avail] and [recv_req_avail]
    compute with. *)

Record nic_obs := mk_obs { o_req : Z; o_comp : Z; o_addr : Z; o_log : list Z }.

Definition rx_capacity `{Kernel} : Z := DMA_LEN_ALIGN (MAX_FRAME_SIZE NET_IP_ALIGN).

Definition obs_ok `{Kernel} (o : nic_obs) : Prop :=
  0 <= o_req o <= 64 /\ 0 <= o_comp o <= 64 /\ 0 <= o_addr o <= 64 /\
  zlen (o_log o) <= 64 /\ Forall (λ w, Z.land w 0xffff <= rx_capacity) (o_log o).

Class NicDevice (D : Type) `{Mmio D} `{Kernel} := {
  obs : D -> nic_obs;
  rd_req d : io_read W16 ACCNET_TX ACCNET_TX_REQ_COUNT d = (o_req (obs d), d);
  rd_comp d : io_read W16 ACCNET_TX ACCNET_TX_COUNT d = (o_comp (obs d), d);
  rd_addr d : io_read W16 ACCNET_RX ACCNET_RX_DMA_ADDR_COUNT d = (o_addr (obs d), d);
  rd_log_count d :
    io_read W16 ACCNET_RX ACCNET_RX_COMP_COUNT d = (zlen (o_log (obs d)), d);
  rd_comp_read d :
    0 < o_comp (obs d) ->
    obs (io_read W16 ACCNET_TX ACCNET_TX_COMP_READ d).2
    = mk_obs (o_req (obs d)) (o_comp (obs d) - 1) (o_addr (obs d)) (o_log (obs d));
  rd_log d w l :
    o_log (obs d) = w :: l ->
    (io_read W64 ACCNET_RX ACCNET_RX_COMP_LOG d).1 = w /\
    obs (io_read W64 ACCNET_RX ACCNET_RX_COMP_LOG d).2
    = mk_obs (o_req (obs d)) (o_comp (obs d)) (o_addr (obs d)) l;
  wr_req d v :
    o_req (obs d) < 64 ->
    obs (io_write W64 ACCNET_TX ACCNET_TX_REQ v d)
    = mk_obs (o_req (obs d) + 1) (o_comp (obs d)) (o_addr (obs d)) (o_log (obs d));
  wr_addr d v :
    o_addr (obs d) < 64 ->
    obs (io_write W64 ACCNET_RX ACCNET_RX_DMA_ADDR v d)
    = mk_obs (o_req (obs d)) (o_comp (obs d)) (o_addr (obs d) + 1) (o_log (obs d));
  rd_ctrl d a : obs (io_read W32 ACCNET_CTRL a d).2 = obs d;
  wr_ctrl d a v : obs (io_write W32 ACCNET_CTRL a v d) = obs d;
  wr_clear_tx d v : obs (io_write W8 ACCNET_TX ACCNET_TX_INTR_CLEAR v d) = obs d;
  wr_clear_rx d v : obs (io_write W8 ACCNET_RX ACCNET_RX_INTR_CLEAR v d) = obs d;
  (** What the hardware does on its own: complete requests, fill buffers. *)
  hw_step : D -> D -> Prop;
  hw_step_spec d d' :
    hw_step d d' -> obs_ok (obs d) ->
    obs_ok (obs d') /\
    o_req (obs d') + o_comp (obs d') = o_req (obs d) + o_comp (obs d) /\
    o_addr (obs d') + zlen (o_log (obs d')) = o_addr (obs d) + zlen (o_log (obs d))
}.

(** ** The driver invariant *)

Definition nsegs (h : gmap Z sk_buff) (p : Z) : Z :=
  match h !! p with Some skb => nr_frags skb + 1 | None => 0 end.

Definition segs (h : gmap Z sk_buff) (q : list Z) : Z :=
  foldr (λ p n, nsegs h p + n) 0 q.

(** The number of buffers at the head of [q] whose segments are all among the
    first [n] completions. *)
Fixpoint finished (h : gmap Z sk_buff) (n : Z) (q : list Z) : nat :=
  match q with
  | [] => 0
  | p :: q' => if nsegs h p <=? n then S (finished h (n - nsegs h p) q') else 0
  end.

Definition delete_all (h : gmap Z sk_buff) (l : list Z) : gmap Z sk_buff :=
  foldl (λ h p, delete p h) h l.

(** [n] receive buffers allocated one after the other; nothing if one of the
    allocations fails. *)
Fixpoint refill `{Kernel} (n : nat) (h : gmap Z sk_buff) : option (list Z * gmap Z sk_buff) :=
  match n with
  | O => Some ([], h)
  | S n' =>
      match netdev_alloc_skb h rx_capacity with
      | Some (p, skb) =>
          match refill n' (<[p := skb]> h) with
          | Some (l, h') => Some (p :: l, h')
          | None => None
          end
      | None => None
      end
  end.

Section invariant.
Context {D : Type} `{NicDevice D} `{!KernelLaws}.
Implicit Types (s : nic_state D).

(** [qt] are the buffers being transmitted, [qr] the ones posted for reception:
    they are live and distinct, every segment of [qt] is known to the NIC as a
    request or a completion, and every buffer of [qr] as an address or a
    received frame. *)
Record nic_core (qt qr : list Z) (d : D) (sc rc : sk_buff_cq) (h : gmap Z sk_buff)
  : Prop := {
  c_tx : cq_repr sc qt;
  c_rx : cq_repr rc qr;
  c_ok : obs_ok (obs d);
  c_live p : p ∈ (qt ++ qr) -> p <> 0 /\ is_Some (h !! p);
  c_nodup : NoDup (qt ++ qr);
  c_segs : segs h qt = o_req (obs d) + o_comp (obs d);
  c_posted : zlen qr = o_addr (obs d) + zlen (o_log (obs d));
  c_room p skb : p ∈ qr -> h !! p = Some skb -> rx_capacity <= tailroom skb
}.

Definition core s : Prop :=
  exists qt qr, nic_core qt qr (nic_dev s) (send_cq s) (recv_cq s) (skbs s).

Definition nic_inv s : Prop :=
  core s /\ tx_lock (soft s) = false /\ rx_lock (soft s) = false.

(** *** Segment counts *)

Lemma nsegs_nonneg h p : 0 <= nsegs h p.
Proof. unfold nsegs, nr_frags, zlen. destruct (h !! p); lia. Qed.

Lemma segs_nonneg h q : 0 <= segs h q.
Proof.
  induction q as [|p q IH]; simpl; [done|]. pose proof (nsegs_nonneg h p). lia.
Qed.

Lemma segs_ext h h' q :
  (forall p, p ∈ q -> h' !! p = h !! p) -> segs h' q = segs h q.
Proof.
  induction q as [|p q IH]; intros E; [done|]. simpl. f_equal.
  - unfold nsegs. by rewrite E by set_solver.
  - apply IH. intros ? ?. apply E. set_solver.
Qed.

Lemma segs_app h q q' : segs h (q ++ q') = segs h q + segs h q'.
Proof. induction q as [|p q IH]; simpl; lia. Qed.

Lemma segs_length h q :
  (forall p, p ∈ q -> is_Some (h !! p)) -> zlen q <= segs h q.
Proof.
  unfold zlen. induction q as [|p q IH]; intros Hl; [done|]. simpl.
  assert (1 <= nsegs h p).
  { destruct (Hl p) as [skb E]; [set_solver|]. unfold nsegs. rewrite E.
    unfold nr_frags, zlen. lia. }
  specialize (IH ltac:(set_solver)). lia.
Qed.

Lemma finished_ext h h' q : forall n,
  (forall p, p ∈ q -> h' !! p = h !! p) -> finished h' n q = finished h n q.
Proof.
  induction q as [|p q IH]; intros n E; [done|]. cbn [finished].
  assert (nsegs h' p = nsegs h p) as -> by (unfold nsegs; by rewrite E by set_solver).
  case_match; [|done]. f_equal. apply IH. set_solver.
Qed.

(** [finished] is the largest number of leading buffers that [n] completions pay
    for. *)
Lemma finished_spec h q : forall n, 0 <= n ->
  (finished h n q <= length q)%nat /\ segs h (take (finished h n q) q) <= n /\
  forall k, (finished h n q < k <= length q)%nat -> n < segs h (take k q).
Proof.
  induction q as [|p q IH]; intros n Hn; cbn [finished length].
  { split; [done|]. split; [done|]. intros k Hk. lia. }
  destruct (Z.leb_spec (nsegs h p) n) as [Hle|Hgt].
  - destruct (IH (n - nsegs h p) ltac:(lia)) as (Hl & Hs & Hk'). split; [lia|].
    cbn [take segs foldr]. fold (segs h (take (finished h (n - nsegs h p) q) q)).
    split; [lia|]. intros [|k] Hk; [lia|]. cbn [take segs foldr]. fold (segs h (take k q)).
    specialize (Hk' k ltac:(lia)). lia.
  - split; [lia|]. split; [done|]. intros [|k] Hk; [lia|]. cbn [take segs foldr].
    fold (segs h (take k q)). pose proof (segs_nonneg h (take k q)). lia.
Qed.

Lemma core_tx_length qt qr d sc rc h :
  nic_core qt qr d sc rc h -> (length qt <= 128)%nat.
Proof.
  intros C. destruct (c_ok _ _ _ _ _ _ C) as (? & ? & _).
  pose proof (c_segs _ _ _ _ _ _ C).
  assert (zlen qt <= segs h qt).
  { apply segs_length. intros p Hp. apply (c_live _ _ _ _ _ _ C). set_solver. }
  unfold zlen in *. lia.
Qed.

Lemma core_rx_length qt qr d sc rc h :
  nic_core qt qr d sc rc h -> (length qr <= 128)%nat.
Proof.
  intros C. destruct (c_ok _ _ _ _ _ _ C) as (? & ? & ? & ? & _).
  pose proof (c_posted _ _ _ _ _ _ C). unfold zlen in *. lia.
Qed.

(** A change of the device that the observation does not see keeps the core. *)
Lemma core_obs qt qr d d' sc rc h :
  obs d' = obs d -> nic_core qt qr d sc rc h -> nic_core qt qr d' sc rc h.
Proof. intros E []. split; rewrite ?E; done. Qed.

(** *** Counters *)

Lemma land_16 x : 0 <= x <= 64 -> Z.land x 0xffff = x.
Proof.
  intros Hx. change 0xffff with (2 ^ 16 - 1). rewrite land_pow2_mask by lia.
  apply Z.mod_small. lia.
Qed.

Lemma send_comp_avail_run s :
  obs_ok (obs (nic_dev s)) ->
  send_comp_avail s = (Ret (o_comp (obs (nic_dev s))), s).
Proof.
  intros (? & ? & _). unfold send_comp_avail, bind, ioread. cbn.
  rewrite rd_comp. cbn. rewrite land_16 by lia. by destruct s.
Qed.

Lemma send_req_avail_run s :
  obs_ok (obs (nic_dev s)) ->
  send_req_avail s = (Ret (64 - o_req (obs (nic_dev s))), s).
Proof.
  intros (? & ? & _). unfold send_req_avail, bind, ioread. cbn.
  rewrite rd_req. cbn. rewrite land_16 by lia. by destruct s.
Qed.

Lemma recv_req_avail_run s :
  obs_ok (obs (nic_dev s)) ->
  recv_req_avail s = (Ret (64 - o_addr (obs (nic_dev s))), s).
Proof.
  intros (? & ? & ? & _). unfold recv_req_avail, bind, ioread. cbn.
  rewrite rd_addr. cbn. rewrite land_16 by lia. by destruct s.
Qed.

Lemma recv_comp_avail_run s :
  obs_ok (obs (nic_dev s)) ->
  recv_comp_avail s = (Ret (zlen (o_log (obs (nic_dev s)))), s).
Proof.
  intros (? & ? & ? & ? & _). unfold recv_comp_avail, bind, ioread. cbn.
  rewrite rd_log_count. cbn. rewrite land_16 by (unfold zlen in *; lia). by destruct s.
Qed.

Lemma send_space_run n s :
  obs_ok (obs (nic_dev s)) ->
  send_space n s = (Ret (n <=? 64 - o_req (obs (nic_dev s))), s).
Proof. intros Hok. unfold send_space. by step (send_req_avail_run s Hok). Qed.

(** *** Completion of transmissions *)

(** What a handler keeps besides the core: interrupt numbers and locks. *)
Definition framed s s' : Prop :=
  tx_irq s' = tx_irq s /\ rx_irq s' = rx_irq s /\
  tx_lock (soft s') = tx_lock (soft s) /\ rx_lock (soft s') = rx_lock (soft s).

Lemma framed_refl s : framed s s.
Proof. done. Qed.

Lemma framed_trans s1 s2 s3 : framed s1 s2 -> framed s2 s3 -> framed s1 s3.
Proof. unfold framed. intuition congruence. Qed.

(** Reading [k] completions out of the NIC. *)
Lemma read_completions k s :
  Z.of_nat k <= o_comp (obs (nic_dev s)) ->
  returns (for_loop k 0 (λ _, _ ← ioread W16 ACCNET_TX ACCNET_TX_COMP_READ; mret tt)) s
    (λ _ s', exists d', s' = nic_set_dev d' s /\
       obs d' = mk_obs (o_req (obs (nic_dev s))) (o_comp (obs (nic_dev s)) - Z.of_nat k)
                       (o_addr (obs (nic_dev s))) (o_log (obs (nic_dev s)))).
Proof.
  intros Hk.
  eapply (returns_for_loop _ (λ j s', exists d', s' = nic_set_dev d' s /\
    obs d' = mk_obs (o_req (obs (nic_dev s))) (o_comp (obs (nic_dev s)) - j)
                    (o_addr (obs (nic_dev s))) (o_log (obs (nic_dev s))))).
  - exists (nic_dev s). split; [by destruct s|]. rewrite Z.sub_0_r.
    by destruct (obs (nic_dev s)).
  - intros j s1 Hj (d1 & -> & Hd1). unfold bind, ioread, returns. cbn.
    pose proof (rd_comp_read d1) as Hr. rewrite Hd1 in Hr.
    specialize (Hr ltac:(simpl; lia)). simpl in Hr.
    destruct (io_read W16 ACCNET_TX ACCNET_TX_COMP_READ d1) as [v d2]. simpl in Hr.
    eexists _, _. split; [done|]. exists d2. split; [done|].
    rewrite Hr. f_equal. lia.
  - done.
Qed.

Lemma pop_send_run p q s :
  cq_repr (send_cq s) (p :: q) ->
  exists c', pop_send s = (Ret p, set_send_cq c' s) /\ cq_repr c' q.
Proof.
  intros R. destruct (pop_cons _ _ _ R) as (c' & E & R').
  exists c'. split; [|done]. unfold pop_send, bind, get. by rewrite E.
Qed.

Lemma pop_recv_run p q s :
  cq_repr (recv_cq s) (p :: q) ->
  exists c', pop_recv s = (Ret p, set_recv_cq c' s) /\ cq_repr c' q.
Proof.
  intros R. destruct (pop_cons _ _ _ R) as (c' & E & R').
  exists c'. split; [|done]. unfold pop_recv, bind, get. by rewrite E.
Qed.

Lemma free_skb_run how p s :
  p <> 0 -> is_Some (skbs s !! p) ->
  free_skb how p s
  = (Ret tt, set_freed (freed s ++ [how p]) (set_skbs (delete p (skbs s)) s)).
Proof.
  intros Hp [skb E]. unfold free_skb. rewrite (proj2 (Z.eqb_neq p 0)) by done.
  unfold bind, get. by rewrite E.
Qed.

Lemma tail_nsegments_run p q s :
  cq_repr (send_cq s) (p :: q) -> p <> 0 -> is_Some (skbs s !! p) ->
  sk_buff_cq_tail_nsegments (send_cq s) s = (Ret (nsegs (skbs s) p), s).
Proof.
  intros R Hp [skb E]. unfold sk_buff_cq_tail_nsegments, nsegs.
  rewrite (tail_entry _ _ _ R), E. by step (load_skb_run p skb s Hp E).
Qed.

(** Dropping the oldest transmit buffer once its completions have been read. *)
Lemma core_pop_tx p qt qr d d' sc sc' rc h :
  nic_core (p :: qt) qr d sc rc h -> cq_repr sc' qt ->
  nsegs h p <= o_comp (obs d) ->
  obs d' = mk_obs (o_req (obs d)) (o_comp (obs d) - nsegs h p)
                  (o_addr (obs d)) (o_log (obs d)) ->
  nic_core qt qr d' sc' rc (delete p h).
Proof.
  intros C R Hn E. pose proof (c_nodup _ _ _ _ _ _ C) as Hd.
  simpl in Hd. apply list.NoDup_cons in Hd as [Hp Hd].
  assert (forall x, x ∈ (qt ++ qr) -> delete p h !! x = h !! x) as Hx.
  { intros x Hx. apply lookup_delete_ne. intros ->. done. }
  pose proof (c_segs _ _ _ _ _ _ C) as Hs. simpl in Hs.
  split; rewrite ?E; simpl.
  - done.
  - apply (c_rx _ _ _ _ _ _ C).
  - pose proof (nsegs_nonneg h p). destruct (c_ok _ _ _ _ _ _ C) as (? & ? & ?).
    repeat split; simpl; try lia; tauto.
  - intros x Hin. rewrite Hx by done. apply (c_live _ _ _ _ _ _ C). set_solver.
  - done.
  - rewrite (segs_ext h); [lia|]. intros x Hin. apply Hx. set_solver.
  - apply (c_posted _ _ _ _ _ _ C).
  - intros x skb Hin. rewrite Hx by set_solver. by apply (c_room _ _ _ _ _ _ C).
Qed.

(** What completing transmissions leaves alone: the receive side. *)
Definition rx_same s s' : Prop :=
  recv_cq s' = recv_cq s /\ received s' = received s /\
  o_addr (obs (nic_dev s')) = o_addr (obs (nic_dev s)) /\
  o_log (obs (nic_dev s')) = o_log (obs (nic_dev s)).

(** The oldest buffer still queued has segments the NIC has not completed. *)
Definition head_incomplete (h : gmap Z sk_buff) (d : D) (q : list Z) : Prop :=
  match q with [] => True | p :: _ => o_comp (obs d) < nsegs h p end.

Lemma head_incomplete_0 h d qt qr sc rc :
  nic_core qt qr d sc rc h -> o_comp (obs d) <= 0 -> head_incomplete h d qt.
Proof.
  intros C Hc. destruct qt as [|p qt]; [done|]. simpl.
  destruct (c_live _ _ _ _ _ _ C p) as [_ [skb Es]]; [set_solver|].
  unfold nsegs. rewrite Es. unfold nr_frags, zlen. lia.
Qed.

(** [sent qt s s']: the finished prefix of the transmit queue [qt], and nothing
    else, has been taken off and consumed. *)
Definition sent qt qr s s' : Prop :=
  let k := finished (skbs s) (o_comp (obs (nic_dev s))) qt in
  nic_core (drop k qt) qr (nic_dev s') (send_cq s') (recv_cq s') (skbs s') /\
  skbs s' = delete_all (skbs s) (take k qt) /\
  freed s' = freed s ++ map Consumed (take k qt) /\
  o_req (obs (nic_dev s')) = o_req (obs (nic_dev s)) /\
  o_comp (obs (nic_dev s')) = o_comp (obs (nic_dev s)) - segs (skbs s) (take k qt) /\
  head_incomplete (skbs s') (nic_dev s') (drop k qt).

Lemma sent_none qt qr s :
  nic_core qt qr (nic_dev s) (send_cq s) (recv_cq s) (skbs s) ->
  finished (skbs s) (o_comp (obs (nic_dev s))) qt = 0%nat ->
  head_incomplete (skbs s) (nic_dev s) qt -> sent qt qr s s.
Proof.
  intros C E Hh. unfold sent. rewrite E. cbn [take drop map segs foldr].
  rewrite app_nil_r, Z.sub_0_r. done.
Qed.

Lemma finished_incomplete h d q :
  head_incomplete h d q -> finished h (o_comp (obs d)) q = 0%nat.
Proof.
  destruct q as [|p q]; [done|]. simpl. intros Hh. by rewrite (proj2 (Z.leb_gt _ _)) by lia.
Qed.

(** One more buffer consumed in front of those that follow. *)
Lemma sent_cons p qt qr s d' c' s' :
  nic_core (p :: qt) qr (nic_dev s) (send_cq s) (recv_cq s) (skbs s) ->
  nsegs (skbs s) p <= o_comp (obs (nic_dev s)) ->
  obs d' = mk_obs (o_req (obs (nic_dev s))) (o_comp (obs (nic_dev s)) - nsegs (skbs s) p)
                  (o_addr (obs (nic_dev s))) (o_log (obs (nic_dev s))) ->
  sent qt qr (set_freed (freed s ++ [Consumed p])
                (set_skbs (delete p (skbs s)) (set_send_cq c' (nic_set_dev d' s)))) s' ->
  sent (p :: qt) qr s s'.
Proof.
  intros C Hle Ed. unfold sent. cbn [skbs freed nic_dev set_freed set_skbs set_send_cq nic_set_dev].
  rewrite Ed. cbn [o_req o_comp].
  assert (p ∉ qt) as Hp.
  { pose proof (c_nodup _ _ _ _ _ _ C) as Hd. apply list.NoDup_cons in Hd as [Hd _]. set_solver. }
  assert (forall x, x ∈ qt -> delete p (skbs s) !! x = skbs s !! x) as Hx.
  { intros x Hx. apply lookup_delete_ne. intros ->. done. }
  rewrite (finished_ext (skbs s)) by done. cbn [finished].
  rewrite (proj2 (Z.leb_le _ _)) by done. set (k := finished _ _ qt).
  intros (C' & Hk & Hf & Hq & Hc & Hh). cbn [take drop map segs foldr].
  fold (segs (skbs s) (take k qt)).
  rewrite (segs_ext (skbs s)) in Hc by (intros x Hin; apply Hx; by eapply subseteq_take).
  split; [done|]. split; [done|]. split; [by rewrite Hf, <- app_assoc|]. split; [done|].
  split; [lia|done].
Qed.

Lemma complete_send_loop_core fuel : forall n s qt qr,
  nic_core qt qr (nic_dev s) (send_cq s) (recv_cq s) (skbs s) ->
  n = o_comp (obs (nic_dev s)) -> n <= Z.of_nat fuel ->
  returns (complete_send_loop fuel n) s
    (λ _ s', sent qt qr s s' /\ soft s' = soft s /\ framed s s' /\ rx_same s s').
Proof.
  induction fuel as [|fuel IH]; intros n s qt qr C Hn Hf; cbn [complete_send_loop];
    destruct (c_ok _ _ _ _ _ _ C) as (? & ? & _);
    pose proof (c_segs _ _ _ _ _ _ C) as Hseg.
  { rewrite (proj2 (Z.ltb_ge 0 n)) by lia. apply returns_ret. split; [|by split].
    pose proof (head_incomplete_0 _ _ _ _ _ _ C ltac:(lia)).
    apply sent_none; try done. by apply finished_incomplete. }
  destruct (Z.ltb_spec 0 n) as [Hpos|]; cycle 1.
  { apply returns_ret. split; [|by split].
    pose proof (head_incomplete_0 _ _ _ _ _ _ C ltac:(lia)).
    apply sent_none; try done. by apply finished_incomplete. }
  destruct qt as [|p qt]; [simpl in Hseg; lia|].
  destruct (c_live _ _ _ _ _ _ C p) as [Hp [skb Es]]; [set_solver|].
  exec. exec_with (tail_nsegments_run p qt s (c_tx _ _ _ _ _ _ C) Hp ltac:(by exists skb)).
  assert (nsegs (skbs s) p = nr_frags skb + 1) as En by (unfold nsegs; by rewrite Es).
  destruct (Z.ltb_spec n (nsegs (skbs s) p)) as [Hlt|Hge].
  { apply returns_ret. split; [|by split].
    assert (head_incomplete (skbs s) (nic_dev s) (p :: qt)) by (simpl; lia).
    apply sent_none; try done. by apply finished_incomplete. }
  pose proof (nsegs_nonneg (skbs s) p) as Hnn.
  seq; [apply (read_completions (Z.to_nat (nsegs (skbs s) p))); lia|].
  intros _ ? (d' & -> & Ed). rewrite Z2Nat.id in Ed by done.
  destruct (pop_send_run p qt (nic_set_dev d' s)) as (c' & Ep & R'); [apply (c_tx _ _ _ _ _ _ C)|].
  exec_with Ep. exec_with free_skb_run; [done|by exists skb|].
  eapply returns_conseq; [apply (IH _ _ qt qr)|].
  - eapply core_pop_tx; [exact C|done|cbn [skbs set_send_cq nic_set_dev]; lia|done].
  - cbn. rewrite Ed. simpl. lia.
  - assert (1 <= nsegs (skbs s) p) by (rewrite En; unfold nr_frags, zlen; lia). lia.
  - intros _ s' (Hsent & Hs & Hfr & Hrx).
    split; [apply (sent_cons p qt qr s d' c'); [done|lia|done|exact Hsent]|].
    split; [by rewrite Hs|]. split.
    + eapply framed_trans; [|exact Hfr]. done.
    + destruct Hrx as (? & ? & Ha & Hl). cbn in Ha, Hl. rewrite Ed in Ha, Hl. by repeat split.
Qed.

Lemma complete_send_core qt qr s :
  nic_core qt qr (nic_dev s) (send_cq s) (recv_cq s) (skbs s) ->
  returns complete_send s (λ _ s', sent qt qr s s' /\ framed s s' /\ rx_same s s').
Proof.
  intros C. pose proof (c_ok _ _ _ _ _ _ C) as Hok.
  unfold complete_send. exec_with (send_comp_avail_run s Hok).
  seq; [apply complete_send_loop_core; [exact C|done|destruct Hok as (? & ? & _); lia]|].
  intros _ s1 (Hsent & _ & Hf1 & Hr1).
  pose proof (c_ok _ _ _ _ _ _ (proj1 Hsent)) as Hok1.
  exec_with (send_space_run MAX_SKB_FRAGS s1 Hok1). case_bool; [|by apply returns_ret].
  exec. apply returns_when; intros _; [|done]. by apply returns_modify.
Qed.

(** [complete_send] consumes the oldest queued buffers, and exactly as many of
    them as the completions the NIC reported pay for: it stops at the first
    buffer that still has unsent segments; the receive side is not touched. *)
Theorem complete_send_spec qt qr s :
  nic_core qt qr (nic_dev s) (send_cq s) (recv_cq s) (skbs s) ->
  exists s', complete_send s = (Ret tt, s') /\ sent qt qr s s' /\
    recv_cq s' = recv_cq s /\ received s' = received s.
Proof.
  intros C. destruct (complete_send_core qt qr s C)
    as ([] & s' & E & Hs & _ & Hrc & Hrv & _). by exists s'.
Qed.

(** *** Reception *)

Lemma core_pop_rx p w l qt qr d d' sc rc rc' h :
  nic_core qt (p :: qr) d sc rc h -> cq_repr rc' qr ->
  o_log (obs d) = w :: l ->
  obs d' = mk_obs (o_req (obs d)) (o_comp (obs d)) (o_addr (obs d)) l ->
  nic_core qt qr d' sc rc' (delete p h).
Proof.
  intros C R El E. pose proof (c_nodup _ _ _ _ _ _ C) as Hd.
  assert (p ∉ (qt ++ qr) /\ NoDup (qt ++ qr)) as [Hp Hnd].
  { rewrite <- list.NoDup_cons. by rewrite (Permutation_middle qt qr p). }
  assert (forall x, x ∈ (qt ++ qr) -> delete p h !! x = h !! x) as Hx.
  { intros x Hx. apply lookup_delete_ne. intros ->. done. }
  destruct (c_ok _ _ _ _ _ _ C) as (? & ? & ? & Hl & HF). rewrite El in Hl, HF.
  apply list.Forall_cons in HF as [_ HF]. unfold zlen in Hl. simpl in Hl.
  pose proof (c_posted _ _ _ _ _ _ C) as Hpo. rewrite El in Hpo.
  unfold zlen in Hpo. simpl in Hpo.
  split; rewrite ?E; simpl.
  - apply (c_tx _ _ _ _ _ _ C).
  - done.
  - split; [done|]. split; [done|]. split; [done|]. split; [unfold zlen; simpl; lia|done].
  - intros x Hin. rewrite Hx by done. apply (c_live _ _ _ _ _ _ C). set_solver.
  - done.
  - rewrite (segs_ext h); [apply (c_segs _ _ _ _ _ _ C)|].
    intros x Hin. apply Hx. set_solver.
  - unfold zlen. lia.
  - intros x skb Hin. rewrite Hx by set_solver. apply (c_room _ _ _ _ _ _ C). set_solver.
Qed.

(** One received frame: the oldest posted buffer goes to the stack. *)
Lemma complete_recv_one_core p w l qt qr s :
  nic_core qt (p :: qr) (nic_dev s) (send_cq s) (recv_cq s) (skbs s) ->
  o_log (obs (nic_dev s)) = w :: l ->
  returns complete_recv_one s (λ _ s',
    nic_core qt qr (nic_dev s') (send_cq s') (recv_cq s') (skbs s') /\
    o_log (obs (nic_dev s')) = l /\
    (received s').*1 = (received s).*1 ++ [p] /\
    skbs s' = delete p (skbs s) /\ freed s' = freed s /\
    o_addr (obs (nic_dev s')) = o_addr (obs (nic_dev s)) /\
    rx_bytes (stats (soft s')) = u64 (rx_bytes (stats (soft s)) + Z.land w 0xffff) /\
    framed s s').
Proof.
  intros C El. destruct (c_live _ _ _ _ _ _ C p) as [Hp [skb Es]]; [set_solver|].
  destruct (rd_log (nic_dev s) w l El) as [Ev Eo].
  unfold complete_recv_one. destruct (io_read W64 ACCNET_RX ACCNET_RX_COMP_LOG (nic_dev s))
    as [v d'] eqn:Er. simpl in Ev, Eo. subst v.
  assert (ioread W64 ACCNET_RX ACCNET_RX_COMP_LOG s = (Ret w, nic_set_dev d' s)) as E1
    by (unfold ioread; cbn; by rewrite Er).
  exec_with E1.
  destruct (pop_recv_run p qr (nic_set_dev d' s)) as (c' & Ep & R');
    [apply (c_rx _ _ _ _ _ _ C)|].
  exec_with Ep.
  assert (Z.land w 0xffff <= tailroom skb) as Hroom.
  { destruct (c_ok _ _ _ _ _ _ C) as (_ & _ & _ & _ & HF).
    rewrite El in HF. apply list.Forall_cons in HF as [Hw _].
    pose proof (c_room _ _ _ _ _ _ C p skb ltac:(set_solver) Es). lia. }
  seq.
  { unfold skb_put. exec_with (load_skb_run p skb); [done|done|].
    rewrite (proj2 (Z.ltb_ge _ _)) by done. apply returns_modify.
    instantiate (1 := λ _ s1, s1 = set_skbs (<[p := _]> (skbs s)) (set_recv_cq c' (nic_set_dev d' s))).
    reflexivity. }
  intros [] ? ->. unfold deliver.
  exec_with load_skb_run; [done|apply lookup_insert_eq|].
  destruct (eth_type_trans _) as [proto skb'].
  exec. apply returns_modify. cbn. rewrite delete_insert_eq.
  split; [by eapply core_pop_rx|]. rewrite Eo. split; [done|].
  split; [by rewrite fmap_app|]. done.
Qed.

Lemma complete_recv_core budget qt qr s :
  0 <= budget ->
  nic_core qt qr (nic_dev s) (send_cq s) (recv_cq s) (skbs s) ->
  returns (complete_recv budget) s (λ n s',
    n = Z.min budget (zlen (o_log (obs (nic_dev s)))) /\
    nic_core qt (drop (Z.to_nat n) qr) (nic_dev s') (send_cq s') (recv_cq s') (skbs s') /\
    (received s').*1 = (received s).*1 ++ take (Z.to_nat n) qr /\
    skbs s' = delete_all (skbs s) (take (Z.to_nat n) qr) /\ freed s' = freed s /\
    o_addr (obs (nic_dev s')) = o_addr (obs (nic_dev s)) /\
    framed s s').
Proof.
  intros Hb C. pose proof (c_ok _ _ _ _ _ _ C) as Hok.
  unfold complete_recv. exec_with (recv_comp_avail_run s Hok).
  set (log := o_log (obs (nic_dev s))).
  assert ((if budget <? zlen log then budget else zlen log) = Z.min budget (zlen log)) as ->
    by (case_bool; lia).
  set (n := Z.min budget (zlen log)).
  assert (0 <= n <= zlen log) as Hn by (unfold n, zlen; lia).
  pose proof (c_posted _ _ _ _ _ _ C) as Hpo. fold log in Hpo.
  destruct Hok as (_ & _ & Ha & _ & _).
  match goal with |- returns _ _ ?Q => seq_with (λ (_ : unit) s', Q n s') end;
    [|intros _ s' HI; by apply returns_ret].
  eapply (returns_for_loop _ (λ j s',
    n = n /\
    nic_core qt (drop (Z.to_nat j) qr) (nic_dev s') (send_cq s') (recv_cq s') (skbs s') /\
    o_log (obs (nic_dev s')) = drop (Z.to_nat j) log /\
    (received s').*1 = (received s).*1 ++ take (Z.to_nat j) qr /\
    skbs s' = delete_all (skbs s) (take (Z.to_nat j) qr) /\ freed s' = freed s /\
    o_addr (obs (nic_dev s')) = o_addr (obs (nic_dev s)) /\ framed s s')).
  - split; [done|]. rewrite app_nil_r. by repeat (split; [done|]).
  - intros j s1 Hj (_ & C1 & L1 & R1 & K1 & G1 & A1 & F1).
    assert (Z.to_nat j < length qr)%nat as Hjq by (unfold zlen in *; lia).
    assert (Z.to_nat j < length log)%nat as Hjl by (unfold zlen in *; lia).
    destruct (lookup_lt_is_Some_2 qr _ Hjq) as [p Ep].
    destruct (lookup_lt_is_Some_2 log _ Hjl) as [w Ew].
    rewrite (drop_S _ _ _ Ep) in C1. rewrite (drop_S _ _ _ Ew) in L1.
    replace (Z.to_nat (j + 1)) with (S (Z.to_nat j)) by lia.
    eapply returns_conseq; [by apply (complete_recv_one_core p w)|].
    intros _ s2 (C2 & L2 & R2 & K2 & G2 & A2 & _ & F2).
    split; [done|]. split; [done|]. split; [done|].
    rewrite R2, R1, K2, K1, G2, A2, (take_S_r _ _ _ Ep), app_assoc.
    unfold delete_all. rewrite foldl_snoc. repeat (split; [done|]).
    by eapply framed_trans.
  - intros s' (_ & C' & _ & R' & F'). rewrite Z.add_0_l, Z2Nat.id in * by lia. done.
Qed.

Lemma core_push_rx p skb qt qr d d' sc rc rc' h :
  nic_core qt qr d sc rc h -> cq_repr rc' (qr ++ [p]) ->
  p <> 0 -> h !! p = None -> rx_capacity <= tailroom skb -> o_addr (obs d) < 64 ->
  obs d' = mk_obs (o_req (obs d)) (o_comp (obs d)) (o_addr (obs d) + 1) (o_log (obs d)) ->
  nic_core qt (qr ++ [p]) d' sc rc' (<[p := skb]> h).
Proof.
  intros C R Hp Hfresh Hcap Ha E.
  assert (p ∉ (qt ++ qr)) as Hnin.
  { intros Hin. destruct (c_live _ _ _ _ _ _ C p Hin) as [_ [? ?]]. congruence. }
  assert (forall x, x ∈ (qt ++ qr) -> <[p := skb]> h !! x = h !! x) as Hx.
  { intros x Hx. apply lookup_insert_ne. intros ->. done. }
  destruct (c_ok _ _ _ _ _ _ C) as (? & ? & ? & ? & HF).
  split; rewrite ?E; simpl.
  - apply (c_tx _ _ _ _ _ _ C).
  - done.
  - split; [done|]. split; [done|]. split; [simpl; lia|done].
  - intros x. rewrite app_assoc. intros [Hin|Hin]%elem_of_app.
    + rewrite Hx by done. by apply (c_live _ _ _ _ _ _ C).
    + apply list_elem_of_singleton in Hin as ->. rewrite lookup_insert_eq. by split.
  - rewrite app_assoc. apply list.NoDup_app. split; [apply (c_nodup _ _ _ _ _ _ C)|].
    split; [|apply NoDup_singleton]. intros x Hin Hs.
    apply list_elem_of_singleton in Hs as ->. done.
  - rewrite (segs_ext h); [apply (c_segs _ _ _ _ _ _ C)|].
    intros x Hin. apply Hx. set_solver.
  - pose proof (c_posted _ _ _ _ _ _ C). unfold zlen in *. rewrite length_app. simpl. lia.
  - intros x b Hin. destruct (decide (x = p)) as [->|Hne].
    + rewrite lookup_insert_eq. by intros [= <-].
    + rewrite lookup_insert_ne by done. apply (c_room _ _ _ _ _ _ C). set_solver.
Qed.

(** The first instruction of a round of [alloc_recv]. *)
Lemma alloc_skb_run s :
  alloc_skb rx_capacity s
  = match netdev_alloc_skb (skbs s) rx_capacity with
    | Some (p, skb) => (Ret p, set_skbs (<[p := skb]> (skbs s)) s)
    | None => (Ret 0, s)
    end.
Proof. unfold alloc_skb, bind, get. by destruct (netdev_alloc_skb _ _) as [[p skb]|]. Qed.

(** Allocating and posting one receive buffer. *)
Lemma alloc_post_core p skb qt qr s :
  nic_core qt qr (nic_dev s) (send_cq s) (recv_cq s) (skbs s) ->
  o_addr (obs (nic_dev s)) < 64 ->
  netdev_alloc_skb (skbs s) rx_capacity = Some (p, skb) ->
  returns (p ← alloc_skb rx_capacity; post_recv p) s
    (λ _ s',
      nic_core qt (qr ++ [p]) (nic_dev s') (send_cq s') (recv_cq s') (skbs s') /\
      o_addr (obs (nic_dev s')) = o_addr (obs (nic_dev s)) + 1 /\
      skbs s' = <[p := skb]> (skbs s) /\
      received s' = received s /\ freed s' = freed s /\ framed s s').
Proof.
  intros C Ha Eal. destruct (alloc_spec _ _ _ _ Eal) as (Hp & Hfresh & Hfr & Hd & Hal & Hroom).
  pose proof (alloc_skb_run s) as E1. rewrite Eal in E1.
  exec_with E1. unfold post_recv.
  exec_with load_skb_run; [done|apply lookup_insert_eq|].
  assert (DMA_PTR_ALIGN (data skb) - data skb = 0) as ->
    by (pose proof (DMA_PTR_ALIGN_spec (data skb) Hd); zdm).
  assert (skb_reserve skb (i32 0) = skb) as ->
    by (destruct skb; unfold skb_reserve; cbn; by rewrite Z.add_0_r, Z.sub_0_r).
  exec. exec. apply returns_modify. cbn.
  pose proof (core_rx_length _ _ _ _ _ _ C).
  destruct (push_room _ _ p (c_rx _ _ _ _ _ _ C)) as (c' & Epush & R'); [lia|].
  rewrite Epush, insert_insert_eq. simpl.
  split; [|by rewrite (wr_addr _ _ Ha)].
  eapply core_push_rx; try done; by apply wr_addr.
Qed.

(** An allocation that fails is dereferenced all the same. *)
Lemma alloc_post_null s :
  netdev_alloc_skb (skbs s) rx_capacity = None ->
  (p ← alloc_skb rx_capacity; post_recv p) s = (Fault NullDeref, s).
Proof.
  intros Eal. pose proof (alloc_skb_run s) as E1. rewrite Eal in E1. by step E1.
Qed.

(** The state after [refill] gave [new] and [h]; a failed allocation. *)
Definition refilled qt qr (new : list Z) h s s' : Prop :=
  nic_core qt (qr ++ new) (nic_dev s') (send_cq s') (recv_cq s') (skbs s') /\
  o_addr (obs (nic_dev s')) = o_addr (obs (nic_dev s)) + zlen new /\
  skbs s' = h /\ received s' = received s /\ freed s' = freed s /\ framed s s'.

Definition no_memory s : Prop := netdev_alloc_skb (skbs s) rx_capacity = None.

Lemma refill_loop n : forall i qt qr s,
  nic_core qt qr (nic_dev s) (send_cq s) (recv_cq s) (skbs s) ->
  o_addr (obs (nic_dev s)) + Z.of_nat n <= 64 ->
  let body := λ _, p ← alloc_skb rx_capacity; post_recv p in
  match refill n (skbs s) with
  | Some (new, h) => length new = n /\
      returns (for_loop n i body) s (λ _, refilled qt qr new h s)
  | None => faults (for_loop n i body) s NullDeref
      (λ s', no_memory s' /\ received s' = received s /\ freed s' = freed s)
  end.
Proof.
  induction n as [|n IH]; intros i qt qr s C Ha body; cbn [refill for_loop].
  { split; [done|]. apply returns_ret. unfold refilled. rewrite app_nil_r, Z.add_0_r.
    by repeat (split; [done|]). }
  destruct (netdev_alloc_skb (skbs s) rx_capacity) as [[p skb]|] eqn:Eal; cycle 1.
  { apply faults_bind. exists s. split; [by apply alloc_post_null|by repeat split]. }
  destruct (alloc_post_core p skb qt qr s C ltac:(lia) Eal)
    as ([] & s1 & E1 & C1 & Ha1 & Hs1 & Hv1 & Hf1 & F1).
  specialize (IH (i + 1) qt (qr ++ [p]) s1 C1 ltac:(lia)). cbn zeta in IH. rewrite Hs1 in IH.
  destruct (refill n (<[p := skb]> (skbs s))) as [[new h]|].
  - destruct IH as (Hl & Hr). split; [simpl; lia|]. exec_with E1.
    eapply returns_conseq; [exact Hr|]. unfold refilled. rewrite <- app_assoc.
    intros _ s2 (C2 & Ha2 & Hs2 & Hv2 & Hf2 & F2). split; [exact C2|].
    split; [unfold zlen in *; simpl; lia|]. split; [done|]. split; [congruence|].
    split; [congruence|by eapply framed_trans].
  - fexec_with E1. destruct IH as (s2 & E2 & Hm & Hv2 & Hf2). exists s2.
    split; [done|]. split; [done|]. split; congruence.
Qed.

(** [alloc_recv] refills the receive queue to its depth, or dereferences the
    first failed allocation. *)
Lemma alloc_recv_core qt qr s :
  nic_core qt qr (nic_dev s) (send_cq s) (recv_cq s) (skbs s) ->
  match refill (Z.to_nat (64 - o_addr (obs (nic_dev s)))) (skbs s) with
  | Some (new, h) => zlen new = 64 - o_addr (obs (nic_dev s)) /\
      returns alloc_recv s (λ _, refilled qt qr new h s)
  | None => faults alloc_recv s NullDeref
      (λ s', no_memory s' /\ received s' = received s /\ freed s' = freed s)
  end.
Proof.
  intros C. pose proof (c_ok _ _ _ _ _ _ C) as Hok.
  pose proof (recv_req_avail_run s Hok) as E. destruct Hok as (_ & _ & Ha & _).
  pose proof (refill_loop (Z.to_nat (64 - o_addr (obs (nic_dev s)))) 0 qt qr s C ltac:(lia)) as Hl.
  unfold alloc_recv. fold rx_capacity.
  destruct (refill _ _) as [[new h]|].
  - destruct Hl as [Hl Hr]. split; [unfold zlen; lia|]. by exec_with E.
  - by fexec_with E.
Qed.

(** *** Transmission *)

Lemma length_descriptors l : length (descriptors l) = length l.
Proof. induction l as [|[a n] l IH]; simpl; congruence. Qed.

Lemma obs_reqs ws : forall d,
  o_req (obs d) + zlen ws <= 64 ->
  obs (do_writes (tx_req_writes ws) d)
  = mk_obs (o_req (obs d) + zlen ws) (o_comp (obs d)) (o_addr (obs d)) (o_log (obs d)).
Proof.
  unfold zlen. induction ws as [|w ws IH]; intros d Hd; simpl in *.
  - unfold do_writes. simpl. rewrite Z.add_0_r. by destruct (obs d).
  - unfold do_writes in *. simpl. rewrite IH; rewrite wr_req by lia; simpl; [|lia].
    f_equal. lia.
Qed.

Lemma core_push_tx p skb qt qr d d' sc sc' rc h :
  nic_core qt qr d sc rc h -> cq_repr sc' (qt ++ [p]) ->
  p <> 0 -> h !! p = Some skb -> p ∉ (qt ++ qr) ->
  o_req (obs d) + nsegs h p <= 64 ->
  obs d' = mk_obs (o_req (obs d) + nsegs h p) (o_comp (obs d)) (o_addr (obs d)) (o_log (obs d)) ->
  nic_core (qt ++ [p]) qr d' sc' rc h.
Proof.
  intros C R Hp Es Hnin Hreq E. pose proof (nsegs_nonneg h p).
  destruct (c_ok _ _ _ _ _ _ C) as (? & ? & ?).
  assert (forall x, x ∈ ((qt ++ [p]) ++ qr) <-> x = p \/ x ∈ (qt ++ qr)) as Hin by set_solver.
  split; rewrite ?E; simpl.
  - done.
  - apply (c_rx _ _ _ _ _ _ C).
  - split; [simpl; lia|done].
  - intros x [->|Hx]%Hin; [split; [done|by exists skb]|]. by apply (c_live _ _ _ _ _ _ C).
  - rewrite <- app_assoc. simpl. rewrite <- Permutation_middle. apply list.NoDup_cons.
    split; [done|apply (c_nodup _ _ _ _ _ _ C)].
  - rewrite segs_app, (c_segs _ _ _ _ _ _ C). simpl. lia.
  - apply (c_posted _ _ _ _ _ _ C).
  - apply (c_room _ _ _ _ _ _ C).
Qed.

(** Scheduling NAPI changes nothing but its flags. *)
Definition schedule_soft (x : soft_state) : soft_state :=
  if napi_disabled x then x else if napi_sched x then x
  else soft_napi false true (poll_list x + 1) x.

Lemma schedule_run s : accnet_schedule s = (Ret tt, set_soft (schedule_soft (soft s)) s).
Proof.
  unfold accnet_schedule, napi_schedule_prep, napi_schedule_enqueue, schedule_soft,
    bind, get, update_soft, modify, when, mret, prog_ret.
  destruct s as [? ? ? ? ? ? ? ? x]; cbn.
  destruct (napi_disabled x) eqn:E1, (napi_sched x) eqn:E2; cbn; try done;
    rewrite ?E1, ?E2; done.
Qed.

Lemma when_schedule_run (b : bool) s :
  when b accnet_schedule s
  = (Ret tt, set_soft (if b then schedule_soft (soft s) else soft s) s).
Proof. destruct b; [apply schedule_run|]. by destruct s. Qed.

Lemma schedule_soft_frame x :
  stats (schedule_soft x) = stats x /\ tx_lock (schedule_soft x) = tx_lock x /\
  rx_lock (schedule_soft x) = rx_lock x.
Proof. unfold schedule_soft. by destruct (napi_disabled x), (napi_sched x). Qed.

Lemma spin_lock_tx_run s :
  tx_lock (soft s) = false ->
  spin_lock_tx s = (Ret tt, set_soft (soft_tx_lock true (soft s)) s).
Proof. intros E. unfold spin_lock_tx, bind, get. by rewrite E. Qed.

Lemma spin_lock_rx_run s :
  rx_lock (soft s) = false ->
  spin_lock_rx s = (Ret tt, set_soft (soft_rx_lock true (soft s)) s).
Proof. intros E. unfold spin_lock_rx, bind, get. by rewrite E. Qed.

(** No room in the request queue: the buffer is freed, the packet counted as
    dropped, the queue stopped, and the NIC not touched. *)
Lemma start_xmit_busy p skb s :
  obs_ok (obs (nic_dev s)) -> p <> 0 -> skbs s !! p = Some skb ->
  tx_lock (soft s) = false -> 64 - o_req (obs (nic_dev s)) < nr_frags skb + 1 ->
  returns (accnet_start_xmit p) s (λ r s', exists x,
    r = NETDEV_TX_BUSY /\
    s' = set_soft x (set_freed (freed s ++ [Dropped p]) (set_skbs (delete p (skbs s)) s)) /\
    tx_lock x = false /\ rx_lock x = rx_lock (soft s) /\ queue_stopped x = true /\
    tx_dropped (stats x) = u64 (tx_dropped (stats (soft s)) + 1)).
Proof.
  intros Hok Hp Es Hlock Hfull. unfold accnet_start_xmit.
  exec_with spin_lock_tx_run; [done|]. exec_with (load_skb_run p skb); [done|done|].
  exec_with send_space_run; [done|]. cbn [nic_dev set_soft].
  rewrite (proj2 (Z.leb_gt _ _)) by lia. cbn [negb].
  exec. exec_with free_skb_run; [done|by exists skb|]. exec. exec. apply returns_ret.
  eexists. split; [done|]. by split.
Qed.

(** Room: the descriptors of all segments are posted and the buffer queued. *)
Lemma start_xmit_ok p skb qt s :
  cq_repr (send_cq s) qt -> (length qt < 255)%nat ->
  obs_ok (obs (nic_dev s)) -> p <> 0 -> skbs s !! p = Some skb ->
  tx_lock (soft s) = false -> nr_frags skb + 1 <= 64 - o_req (obs (nic_dev s)) ->
  returns (accnet_start_xmit p) s (λ r s', exists x c' d',
    r = NETDEV_TX_OK /\ s' = set_soft x (set_send_cq c' (nic_set_dev d' s)) /\
    cq_repr c' (qt ++ [p]) /\
    d' = do_writes (tx_req_writes (descriptors (segments skb))) (nic_dev s) /\
    obs d' = mk_obs (o_req (obs (nic_dev s)) + (nr_frags skb + 1)) (o_comp (obs (nic_dev s)))
                    (o_addr (obs (nic_dev s))) (o_log (obs (nic_dev s))) /\
    tx_lock x = false /\ rx_lock x = rx_lock (soft s) /\
    tx_packets (stats x) = u64 (tx_packets (stats (soft s)) + 1) /\
    tx_bytes (stats x) = u64 (tx_bytes (stats (soft s)) + skb_len skb)).
Proof.
  intros R Hlen Hok Hp Es Hlock Hroom. unfold accnet_start_xmit.
  exec_with spin_lock_tx_run; [done|]. exec_with (load_skb_run p skb); [done|done|].
  exec_with send_space_run; [done|]. cbn [nic_dev set_soft].
  rewrite (proj2 (Z.leb_le _ _)) by lia. cbn [negb].
  exec_with (post_send_run p skb); [done|done|]. exec.
  destruct (push_room _ _ p R Hlen) as (c' & Epush & R').
  cbn [set_soft nic_dev send_cq set_send_cq nic_set_dev skbs recv_cq soft].
  rewrite Epush. cbn [snd].
  set (d' := do_writes _ (nic_dev s)).
  assert (zlen (descriptors (segments skb)) = nr_frags skb + 1) as Hws.
  { unfold zlen. rewrite length_descriptors. unfold segments. simpl.
    rewrite length_map. unfold nr_frags, zlen. lia. }
  assert (obs d' = mk_obs (o_req (obs (nic_dev s)) + (nr_frags skb + 1))
    (o_comp (obs (nic_dev s))) (o_addr (obs (nic_dev s))) (o_log (obs (nic_dev s)))) as Ed
    by (rewrite <- Hws; apply obs_reqs; lia).
  assert (obs_ok (obs d')) as Hok'.
  { rewrite Ed. destruct Hok as (? & ?).
    assert (0 <= nr_frags skb) by (unfold nr_frags, zlen; lia).
    split; [simpl; lia|done]. }
  exec_with send_comp_avail_run; [done|]. exec_with when_schedule_run.
  exec_with send_space_run; [done|].
  set (b1 := CONFIG_ACCNET_TX_THRESHOLD <? _).
  match goal with |- context [when (negb ?b)] => set (b2 := b) end.
  match goal with |- returns _ (set_soft ?y _) _ => set (x1 := y) end.
  assert (stats x1 = stats (soft_stats (λ t, mk_stats (u64 (tx_packets t + 1))
            (u64 (tx_bytes t + skb_len skb)) (tx_dropped t) (rx_packets t) (rx_bytes t))
            (soft s)) /\ rx_lock x1 = rx_lock (soft s)) as [Hst Hrx].
  { unfold x1. destruct b1; [|done].
    match goal with |- context [schedule_soft ?y] =>
      destruct (schedule_soft_frame y) as (-> & _ & ->) end. done. }
  eapply (returns_bind _ _ _ (λ _ s', exists x2, s' = set_soft x2 _ /\
    stats x2 = stats x1 /\ rx_lock x2 = rx_lock x1)).
  { destruct b2; cbn [negb when].
    - apply returns_ret. by exists x1.
    - exec. eapply returns_eq; [apply schedule_run|]. eexists. split; [reflexivity|].
      match goal with |- context [schedule_soft ?y] =>
        destruct (schedule_soft_frame y) as (-> & _ & ->) end. done. }
  intros _ ? (x2 & -> & Hst2 & Hrx2). exec. apply returns_ret.
  eexists _, c', d'. split; [done|]. split; [reflexivity|]. cbn.
  rewrite Hst2, Hst, Hrx2, Hrx. done.
Qed.

End invariant.
