(* ===== verification/AccnetDriverSafety.v ===== *)
(** * The AccNIC network driver: every handler, in any order

    The operations the kernel calls ([accnet_open], [accnet_stop],
    [accnet_start_xmit], the two interrupt handlers, the NAPI poll function) and
    the steps the NIC takes on its own are the transitions of a system; the
    driver invariant holds in every reachable state.  In each of them a handler
    returns, with two exceptions that the driver has: open and poll dereference a
    receive buffer whose allocation failed, and a buffer that was refused with
    [NETDEV_TX_BUSY] has been freed when the stack requeues it. *)

From S2P Require Import Prelude Prog Mmio AccnetRegs SkbRing AccnetDriver AccnetDriverSpec.

Section handlers.
Context {D : Type} `{NicDevice D} `{!KernelLaws}.
Implicit Types (s : nic_state D).

(** ** The interrupt mask *)

Lemma set_intmask_run m s :
  exists d', set_intmask m s = (Ret tt, nic_set_dev d' s) /\ obs d' = obs (nic_dev s).
Proof.
  unfold set_intmask, bind, ioread, iowrite. cbn.
  pose proof (rd_ctrl (nic_dev s) ACCNET_INTR_MASK) as Hr.
  destruct (io_read W32 ACCNET_CTRL ACCNET_INTR_MASK (nic_dev s)) as [v d].
  eexists. split; [reflexivity|]. cbn. by rewrite wr_ctrl.
Qed.

Lemma clear_intmask_run m s :
  exists d', clear_intmask m s = (Ret tt, nic_set_dev d' s) /\ obs d' = obs (nic_dev s).
Proof.
  unfold clear_intmask, bind, ioread, iowrite. cbn.
  pose proof (rd_ctrl (nic_dev s) ACCNET_INTR_MASK) as Hr.
  destruct (io_read W32 ACCNET_CTRL ACCNET_INTR_MASK (nic_dev s)) as [v d].
  eexists. split; [reflexivity|]. cbn. by rewrite wr_ctrl.
Qed.

(** Between two handlers: the queues of the driver are [qt] and [qr], no lock is
    held. *)
Definition idle (qt qr : list Z) s : Prop :=
  nic_core qt qr (nic_dev s) (send_cq s) (recv_cq s) (skbs s) /\
  tx_lock (soft s) = false /\ rx_lock (soft s) = false.

Lemma idle_inv s : nic_inv s <-> exists qt qr, idle qt qr s.
Proof. unfold nic_inv, core, idle. naive_solver. Qed.

(** ** Interrupt handlers *)

Lemma tx_isr_run irq qt qr s :
  idle qt qr s ->
  returns (accnet_tx_isr irq) s (λ r s', idle qt qr s' /\ received s' = received s /\ freed s' = freed s /\
    r = if irq =? tx_irq s then IRQ_HANDLED else IRQ_NONE).
Proof.
  intros (C & Ht & Hr). unfold accnet_tx_isr. exec.
  destruct (irq =? tx_irq s); cbn [negb]; [|by apply returns_ret].
  exec_with spin_lock_tx_run; [done|].
  destruct (clear_intmask_run ACCNET_INTMASK_TX (set_soft (soft_tx_lock true (soft s)) s))
    as (d' & E & Ho). exec_with E. exec. exec. exec_with schedule_run.
  apply returns_ret. split; [|done].
  match goal with |- idle _ _ (set_soft (schedule_soft ?x) ?s') =>
    destruct (schedule_soft_frame x) as (_ & H3 & H4) end.
  split; [|exact (conj (eq_trans H3 eq_refl) (eq_trans H4 Hr))].
  eapply core_obs; [apply wr_clear_tx|]. by eapply core_obs.
Qed.

Lemma rx_isr_run irq qt qr s :
  idle qt qr s ->
  returns (accnet_rx_isr irq) s (λ r s', idle qt qr s' /\ received s' = received s /\ freed s' = freed s /\
    r = if irq =? rx_irq s then IRQ_HANDLED else IRQ_NONE).
Proof.
  intros (C & Ht & Hr). unfold accnet_rx_isr. exec.
  destruct (irq =? rx_irq s); cbn [negb]; [|by apply returns_ret].
  exec_with spin_lock_rx_run; [done|].
  destruct (clear_intmask_run ACCNET_INTMASK_RX (set_soft (soft_rx_lock true (soft s)) s))
    as (d' & E & Ho). exec_with E. exec. exec. exec_with schedule_run.
  apply returns_ret. split; [|done].
  match goal with |- idle _ _ (set_soft (schedule_soft ?x) ?s') =>
    destruct (schedule_soft_frame x) as (_ & H3 & H4) end.
  split; [|exact (conj (eq_trans H3 Ht) (eq_trans H4 eq_refl))].
  eapply core_obs; [apply wr_clear_rx|]. by eapply core_obs.
Qed.

(** ** Poll *)

Lemma core_ok s : core s -> obs_ok (obs (nic_dev s)).
Proof. intros (? & ? & C). apply (c_ok _ _ _ _ _ _ C). Qed.

(** What follows the receive completions in the poll function. *)
Definition poll_rest (budget work_done : Z) : prog (nic_state D) Z :=
  alloc_recv;;
  when (work_done <? budget)
    (napi_complete_done;; set_intmask ACCNET_INTMASK_BOTH);;
  mret work_done.

Section poll.
Variables (budget : Z) (qt qr : list Z) (s : nic_state D).

(** Buffers whose transmission is complete, frames that will be delivered, and the
    buffers both hand back. *)
Definition sent_count : nat := finished (skbs s) (o_comp (obs (nic_dev s))) qt.
Definition frame_count : Z := Z.min budget (zlen (o_log (obs (nic_dev s)))).
Definition handed_back : list Z := take sent_count qt ++ take (Z.to_nat frame_count) qr.

(** The receive buffers [alloc_recv] then asks for. *)
Definition poll_refill : option (list Z * gmap Z sk_buff) :=
  refill (Z.to_nat (64 - o_addr (obs (nic_dev s)))) (delete_all (skbs s) handed_back).

(** What poll did to the buffers it did not allocate. *)
Definition poll_released s' : Prop :=
  freed s' = freed s ++ map Consumed (take sent_count qt) /\
  (received s').*1 = (received s).*1 ++ take (Z.to_nat frame_count) qr.

Lemma poll_prefix :
  0 <= budget -> idle qt qr s ->
  exists s2, accnet_poll budget s = poll_rest budget frame_count s2 /\
    idle (drop sent_count qt) (drop (Z.to_nat frame_count) qr) s2 /\
    skbs s2 = delete_all (skbs s) handed_back /\ poll_released s2 /\
    o_addr (obs (nic_dev s2)) = o_addr (obs (nic_dev s)).
Proof.
  intros Hb (C & Ht & Hr). unfold accnet_poll. step (spin_lock_tx_run s Ht).
  destruct (complete_send_core qt qr (set_soft (soft_tx_lock true (soft s)) s) C)
    as ([] & s1 & E1 & (C1 & Hk1 & Hf1 & _) & F1 & Erc & Erv & Ead & Elog).
  step E1. cbn [skbs freed nic_dev received set_soft] in *. fold sent_count in C1, Hk1, Hf1.
  unfold spin_unlock_tx, update_soft.
  rewrite (run_bind _ _ _ _ _ (eq_refl : modify _ s1 = (Ret tt, _))).
  destruct (complete_recv_core budget _ _ (set_soft (soft_tx_lock false (soft s1)) s1) Hb C1)
    as (n & s2 & E2 & Hn & C2 & Erv2 & Hk2 & Hf2 & Ea2 & F2).
  step E2. cbn [nic_dev set_soft received freed skbs] in *.
  rewrite Elog in Hn. subst n. fold frame_count in C2, Erv2, Hk2.
  exists s2. split; [reflexivity|]. unfold poll_released. split.
  { split; [exact C2|]. destruct F1 as (_ & _ & _ & F1), F2 as (_ & _ & F2 & F2').
    cbn in *. split; congruence. }
  split; [by rewrite Hk2, Hk1; unfold delete_all, handed_back; rewrite foldl_app|].
  split; [|congruence]. split; [congruence|]. rewrite Erv2, Erv. done.
Qed.

(** The poll function consumes what was sent, delivers up to [budget] frames to
    the stack in the order the buffers were posted, refills the receive queue to
    its full depth, and releases NAPI when it did less than its budget; it
    dereferences a receive buffer that could not be allocated. *)
Lemma poll_run :
  0 <= budget -> idle qt qr s ->
  match poll_refill with
  | Some (new, h) =>
      returns (accnet_poll budget) s (λ r s', r = frame_count /\
        idle (drop sent_count qt) (drop (Z.to_nat frame_count) qr ++ new) s' /\
        skbs s' = h /\ poll_released s' /\ o_addr (obs (nic_dev s')) = 64 /\
        (r < budget -> napi_sched (soft s') = false))
  | None => faults (accnet_poll budget) s NullDeref (λ s', no_memory s' /\ poll_released s')
  end.
Proof.
  intros Hb HI. destruct (poll_prefix Hb HI) as (s2 & E & (C2 & Ht2 & Hr2) & Hk & [Hf Hv] & Ha).
  pose proof (alloc_recv_core _ _ s2 C2) as Hal. rewrite Ha, Hk in Hal. fold poll_refill in Hal.
  destruct poll_refill as [[new h]|]; cycle 1.
  { unfold faults. rewrite E. apply faults_bind. destruct Hal as (s3 & E3 & Hm & Ev & Ef). exists s3.
    split; [done|]. split; [done|]. unfold poll_released. by rewrite Ev, Ef. }
  destruct Hal as [Hl Hal].
  unfold returns. rewrite E. eapply returns_bind; [exact Hal|].
  intros _ s3 (C3 & Ha3 & Hh3 & Ev3 & Ef3 & (_ & _ & Ht3 & Hr3)).
  rewrite Ht2 in Ht3. rewrite Hr2 in Hr3. unfold poll_released. rewrite <- Hv, <- Hf, <- Ev3, <- Ef3.
  assert (o_addr (obs (nic_dev s3)) = 64) as Ha4 by lia.
  unfold when. destruct (Z.ltb_spec frame_count budget) as [Hlt|Hge].
  - eapply (returns_bind _ _ _ (λ _ s', exists d',
      s' = nic_set_dev d' (set_soft (soft_napi (napi_disabled (soft s3)) false
                                       (poll_list (soft s3)) (soft s3)) s3) /\
      obs d' = obs (nic_dev s3))).
    { exec. match goal with |- returns (set_intmask ?m) ?x _ =>
        destruct (set_intmask_run m x) as (d' & Em & Ho) end.
      eapply returns_eq; [exact Em|]. by exists d'. }
    intros _ ? (d' & -> & Ho). apply returns_ret. cbn. rewrite Ho.
    split; [done|]. split; [|done]. split; [by eapply core_obs|done].
  - exec. apply returns_ret. split; [done|]. split; [done|]. repeat (split; [done|]). lia.
Qed.
End poll.

(** ** Open, stop and transmit *)

Lemma accnet_open_run qt qr s :
  idle qt qr s ->
  match refill (Z.to_nat (64 - o_addr (obs (nic_dev s)))) (skbs s) with
  | Some (new, h) =>
      returns accnet_open s (λ r s', r = 0 /\ idle qt (qr ++ new) s' /\
        skbs s' = h /\ received s' = received s /\ freed s' = freed s /\
        o_addr (obs (nic_dev s')) = 64 /\ queue_stopped (soft s') = false)
  | None => faults accnet_open s NullDeref no_memory
  end.
Proof.
  intros (C & Ht & Hr).
  pose proof (alloc_recv_core qt qr
    (set_soft (soft_napi false false (poll_list (soft s)) (soft s)) s) C) as Hal.
  cbn [nic_dev set_soft skbs] in Hal. unfold accnet_open.
  destruct (refill _ _) as [[new h]|]; cycle 1.
  { fexec. fexec. apply faults_bind. destruct Hal as (s1 & E1 & Hm & _). by exists s1. }
  destruct Hal as [Hl Hal]. exec. exec. seq; [exact Hal|].
  intros _ s1 (C1 & Ha & Hh & Erv & Efr & (_ & _ & Ht1 & Hr1)). cbn in Ht1, Hr1, Ha.
  exec. exec_with spin_lock_rx_run; [cbn; congruence|].
  match goal with |- returns _ ?x _ =>
    destruct (set_intmask_run ACCNET_INTMASK_RX x) as (d1 & E1 & Ho1) end.
  exec_with E1. exec. exec_with spin_lock_tx_run; [cbn; congruence|].
  match goal with |- returns _ ?x _ =>
    destruct (set_intmask_run ACCNET_INTMASK_TX x) as (d2 & E2 & Ho2) end.
  exec_with E2. exec. apply returns_ret. cbn in *.
  split; [done|]. rewrite Ho2, Ho1. split; [|repeat (split; [done|]); split; [lia|done]].
  split; [|done]. cbn. eapply core_obs; [|exact C1]. congruence.
Qed.

Lemma stop_run qt qr s :
  idle qt qr s -> returns accnet_stop s (λ r s', r = 0 /\ idle qt qr s' /\
    received s' = received s /\ freed s' = freed s /\ queue_stopped (soft s') = true).
Proof.
  intros (C & Ht & Hr). unfold accnet_stop. exec. exec.
  match goal with |- returns _ ?x _ =>
    destruct (clear_intmask_run ACCNET_INTMASK_BOTH x) as (d1 & E1 & Ho1) end.
  exec_with E1. exec. apply returns_ret. split; [done|]. split; [|done].
  split; [|done]. by eapply core_obs.
Qed.

(** The stack hands over a buffer the driver does not hold yet. *)
Definition fresh_skb (p : Z) (skb : sk_buff) s : nic_state D :=
  set_skbs (<[p := skb]> (skbs s)) s.

Lemma core_fresh p skb qt qr s :
  skbs s !! p = None ->
  nic_core qt qr (nic_dev s) (send_cq s) (recv_cq s) (skbs s) ->
  (p ∉ qt ++ qr) /\
  nic_core qt qr (nic_dev s) (send_cq s) (recv_cq s) (<[p := skb]> (skbs s)).
Proof.
  intros Hf C.
  assert (p ∉ (qt ++ qr)) as Hnin.
  { intros Hin. destruct (c_live _ _ _ _ _ _ C p Hin) as [_ [? ?]]. congruence. }
  assert (forall x, x ∈ (qt ++ qr) -> <[p := skb]> (skbs s) !! x = skbs s !! x) as Hx.
  { intros x Hx. apply lookup_insert_ne. intros ->. done. }
  split; [done|]. split; try by apply C.
  - intros x Hin. rewrite Hx by done. by apply (c_live _ _ _ _ _ _ C).
  - rewrite (segs_ext (skbs s)); [apply (c_segs _ _ _ _ _ _ C)|]. intros x Hin.
    apply Hx. set_solver.
  - intros x b Hin. rewrite Hx by set_solver. apply (c_room _ _ _ _ _ _ C). set_solver.
Qed.

Lemma xmit_run p skb qt qr s :
  idle qt qr s -> p <> 0 -> skbs s !! p = None ->
  returns (accnet_start_xmit p) (fresh_skb p skb s) (λ r s',
    received s' = received s /\
    if nr_frags skb + 1 <=? 64 - o_req (obs (nic_dev s))
    then r = NETDEV_TX_OK /\ idle (qt ++ [p]) qr s' /\ freed s' = freed s
    else r = NETDEV_TX_BUSY /\ idle qt qr s' /\ freed s' = freed s ++ [Dropped p]).
Proof.
  intros (C & Ht & Hr) Hp Hf.
  destruct (core_fresh p skb qt qr s Hf C) as [Hnin C'].
  assert (skbs (fresh_skb p skb s) !! p = Some skb) as Es by apply lookup_insert_eq.
  pose proof (core_tx_length _ _ _ _ _ _ C) as Hlen.
  pose proof (c_ok _ _ _ _ _ _ C) as Hok.
  destruct (Z.leb_spec (nr_frags skb + 1) (64 - o_req (obs (nic_dev s)))) as [Hroom|Hfull].
  - eapply returns_conseq; [by apply (start_xmit_ok p skb qt); try done; [apply (c_tx _ _ _ _ _ _ C)|lia]|].
    intros r s' (x & c' & d' & -> & -> & R' & _ & Eo & Htx & Hrx & _).
    split; [done|]. split; [done|]. split; [|done]. split; [|by cbn; rewrite Hrx].
    assert (nsegs (skbs (fresh_skb p skb s)) p = nr_frags skb + 1) as En
      by (unfold nsegs; by rewrite Es).
    eapply core_push_tx; [exact C'|done|done|exact Es|done| |];
      cbn [skbs fresh_skb set_skbs set_soft set_send_cq nic_set_dev nic_dev] in *;
      rewrite En; [lia|exact Eo].
  - eapply returns_conseq; [by apply (start_xmit_busy p skb); try done|].
    intros r s' (x & -> & -> & Htx & Hrx & _). split; [done|]. split; [done|].
    split; [|done]. split; [|by cbn; rewrite Hrx]. cbn. rewrite delete_insert_id by done. exact C.
Qed.

(** A buffer that was freed is touched before anything else. *)
Lemma xmit_freed p s :
  tx_lock (soft s) = false -> p <> 0 -> skbs s !! p = None ->
  faults (accnet_start_xmit p) s UseAfterFree (λ s', skbs s' = skbs s).
Proof.
  intros Ht Hp Hf. unfold accnet_start_xmit. fexec_with spin_lock_tx_run; [done|].
  apply faults_bind. eexists. unfold load_skb. rewrite (proj2 (Z.eqb_neq p 0)) by done.
  unfold bind, get, deref. cbn [skbs set_soft]. by rewrite Hf.
Qed.
End handlers.

(** ** The transition system *)

Inductive event :=
| EvOpen
| EvStop
| EvTxIrq (irq : Z)
| EvRxIrq (irq : Z)
| EvPoll (budget : Z)
| EvXmit (p : Z) (skb : sk_buff)
| EvRetry (p : Z).

Section system.
Context {D : Type} `{NicDevice D}.
Implicit Types (s : nic_state D).

(** What the kernel calls for each event ([accnet_ops], [request_irq],
    [netif_napi_add]). *)
Definition handle (e : event) : prog (nic_state D) Z :=
  match e with
  | EvOpen => accnet_open
  | EvStop => accnet_stop
  | EvTxIrq irq => accnet_tx_isr irq
  | EvRxIrq irq => accnet_rx_isr irq
  | EvPoll budget => accnet_poll budget
  | EvXmit p skb => modify (fresh_skb p skb);; accnet_start_xmit p
  | EvRetry p => accnet_start_xmit p
  end.

(** The kernel's side of the contract: a non-negative budget, and a live buffer
    that is not already in the driver's hands.  A transmission answered with
    [NETDEV_TX_BUSY] is requeued: the stack hands over the same pointer again,
    which the driver has freed (here: before its memory is used for another
    buffer). *)
Definition enabled (e : event) s : Prop :=
  match e with
  | EvPoll budget => 0 <= budget
  | EvXmit p _ => p <> 0 /\ skbs s !! p = None
  | EvRetry p => p <> 0 /\ Dropped p ∈ freed s /\ skbs s !! p = None
  | _ => True
  end.

Inductive nic_step : nic_state D -> nic_state D -> Prop :=
| step_hw s d' : hw_step (nic_dev s) d' -> nic_step s (nic_set_dev d' s)
| step_event e s r s' : enabled e s -> handle e s = (Ret r, s') -> nic_step s s'.

(** The state [accnet_probe] sets up, before any interrupt. *)
Definition probed (d : D) (tx rx : Z) (e1 e2 : list Z) : nic_state D :=
  mk_nic d (sk_buff_cq_init (mk_cq e1 0 0)) (sk_buff_cq_init (mk_cq e2 0 0)) tx rx ∅ [] []
    (mk_soft false false true true true 0 (mk_stats 0 0 0 0 0)).

Context `{!KernelLaws}.

(** How the handler of an event may end. *)
Definition outcome_ok (e : event) s : Prop :=
  let fine := returns (handle e) s (λ _ s', nic_inv s') in
  match e with
  | EvOpen | EvPoll _ => fine \/ faults (handle e) s NullDeref no_memory
  | EvRetry _ => faults (handle e) s UseAfterFree (λ s', skbs s' = skbs s)
  | _ => fine
  end.

Lemma idle_intro qt qr s : idle qt qr s -> nic_inv s.
Proof. intros. apply idle_inv. eauto. Qed.
#[local] Hint Resolve idle_intro : core.

Lemma handle_outcome e s : nic_inv s -> enabled e s -> outcome_ok e s.
Proof.
  intros (qt & qr & HI)%idle_inv He. destruct e; simpl in *.
  - pose proof (accnet_open_run qt qr s HI) as Ho. destruct (refill _ _) as [[new h]|]; [left|by right].
    eapply returns_conseq; [exact Ho|]. intros r s1 (_ & ? & _). eauto.
  - eapply returns_conseq; [by apply (stop_run qt qr)|]. intros r s1 (_ & ? & _). eauto.
  - eapply returns_conseq; [by apply (tx_isr_run irq qt qr)|]. intros r s1 (? & _). eauto.
  - eapply returns_conseq; [by apply (rx_isr_run irq qt qr)|]. intros r s1 (? & _). eauto.
  - pose proof (poll_run budget qt qr s He HI) as Ho.
    destruct (poll_refill _ _ _ _) as [[new h]|]; [left|right].
    + eapply returns_conseq; [exact Ho|]. intros r s1 (_ & ? & _). eauto.
    + destruct Ho as (s1 & ? & ? & _). by exists s1.
  - destruct He as [Hp Hf]. exec. eapply returns_conseq; [by apply (xmit_run p skb qt qr)|].
    intros r s1 (_ & Hx). destruct (_ <=? _), Hx as (_ & ? & _); eauto.
  - destruct He as (Hp & _ & Hf). apply xmit_freed; try done. apply HI.
Qed.

Lemma handle_inv e s r s' : nic_inv s -> enabled e s -> handle e s = (Ret r, s') -> nic_inv s'.
Proof.
  intros HI He E. pose proof (handle_outcome e s HI He) as Ho.
  assert (forall f Q, ~ faults (handle e) s f Q) as Hn
    by (intros f Q (? & E' & _); rewrite E in E'; done).
  assert (returns (handle e) s (λ _ s', nic_inv s')) as (r' & s'' & E' & HI').
  { destruct e; simpl in Ho; try done; try (destruct Ho as [Ho|Ho]; [done|]);
      exfalso; by eapply Hn. }
  rewrite E in E'. by injection E' as _ <-.
Qed.

Lemma nic_step_inv s s' : nic_inv s -> nic_step s s' -> nic_inv s'.
Proof.
  intros HI Hs. destruct Hs as [s d' Hw|e s r s' He E].
  - destruct HI as ((qt & qr & C) & Hl). split; [|done]. exists qt, qr.
    destruct (hw_step_spec _ _ Hw (c_ok _ _ _ _ _ _ C)) as (Hok & Hq & Hp).
    destruct C. split; cbn; try done; lia.
  - by eapply handle_inv.
Qed.

Lemma probed_inv d tx rx e1 e2 :
  length e1 = Z.to_nat CONFIG_ACCNET_RING_SIZE ->
  length e2 = Z.to_nat CONFIG_ACCNET_RING_SIZE ->
  obs d = mk_obs 0 0 0 [] ->
  nic_inv (probed d tx rx e1 e2).
Proof.
  intros He1 He2 Eo. split; [|done]. exists [], []. cbn.
  split; rewrite ?Eo; try done; try by apply cq_repr_init.
  - intros p Hin. by apply not_elem_of_nil in Hin.
  - constructor.
Qed.
End system.

(** ** Results *)

(** C1: From any state that satisfies the driver invariant (every queued
    descriptor belongs to a live buffer and is accounted for by the NIC), after
    any interleaving of opens, stops, transmissions, interrupts, polls and steps
    of the NIC, the invariant still holds, and whatever the kernel calls next ends
    in one of these ways.  Stop, the interrupt handlers and the transmission of a
    live buffer always run to completion and keep the invariant: no null, freed
    or stale buffer is touched, no buffer overflows, no lock is taken twice, no
    loop diverges.  Open and poll do so too, except that they dereference a null
    pointer in a state where the allocation of a receive buffer fails.  A buffer
    the stack requeues after [NETDEV_TX_BUSY] is used after it was freed. *)
Theorem accnet_reachable_safe {D} `{NicDevice D} `{!KernelLaws} (s0 s : nic_state D) :
  nic_inv s0 -> star nic_step s0 s ->
  nic_inv s /\
  forall e, enabled e s ->
    match e with
    | EvOpen | EvPoll _ =>
        (exists r s', handle e s = (Ret r, s') /\ nic_inv s') \/
        (exists s', handle e s = (Fault NullDeref, s') /\
                    netdev_alloc_skb (skbs s') rx_capacity = None)
    | EvRetry _ => exists s', handle e s = (Fault UseAfterFree, s')
    | _ => exists r s', handle e s = (Ret r, s') /\ nic_inv s'
    end.
Proof.
  intros Hinit Hs. assert (nic_inv s) as HI by (by eapply star_invariant; [apply nic_step_inv|..]).
  split; [done|]. intros e He. pose proof (handle_outcome e s HI He) as Ho.
  destruct e; try exact Ho. destruct Ho as (s' & E & _). by exists s'.
Qed.

(** C7: The poll function takes from the head of the transmit queue exactly the
    buffers whose segments the NIC has all completed and consumes them, hands
    [min(budget, frames received)] buffers to the stack, oldest first, refills
    the receive queue to its full depth of 64 with the buffers the allocator
    gives, and releases NAPI when it did less work than its budget.  When one of
    those allocations fails it has done the first two and dereferences the null
    pointer. *)
Theorem accnet_poll_spec {D} `{NicDevice D} `{!KernelLaws} budget qt qr (s : nic_state D) :
  0 <= budget -> idle qt qr s ->
  let k := finished (skbs s) (o_comp (obs (nic_dev s))) qt in
  let n := Z.min budget (zlen (o_log (obs (nic_dev s)))) in
  let gone := take k qt ++ take (Z.to_nat n) qr in
  exists s',
    freed s' = freed s ++ map Consumed (take k qt) /\
    (received s').*1 = (received s).*1 ++ take (Z.to_nat n) qr /\
    match refill (Z.to_nat (64 - o_addr (obs (nic_dev s)))) (delete_all (skbs s) gone) with
    | Some (new, h) =>
        accnet_poll budget s = (Ret n, s') /\
        idle (drop k qt) (drop (Z.to_nat n) qr ++ new) s' /\ skbs s' = h /\
        o_addr (obs (nic_dev s')) = 64 /\
        (n < budget -> napi_sched (soft s') = false)
    | None =>
        accnet_poll budget s = (Fault NullDeref, s') /\
        netdev_alloc_skb (skbs s') rx_capacity = None
    end.
Proof.
  intros Hb HI k n gone. pose proof (poll_run budget qt qr s Hb HI) as Ho.
  change (refill _ _) with (poll_refill budget qt qr s).
  destruct (poll_refill budget qt qr s) as [[new h]|].
  - destruct Ho as (r & s' & E & -> & HI' & Hh & [Hf Hv] & Ha & Hn). by exists s'.
  - destruct Ho as (s' & E & Hm & [Hf Hv]). by exists s'.
Qed.

(** C31: [accnet_start_xmit] accepts a buffer exactly when the NIC has room for
    all of its segments: it then posts their descriptors in order, queues the
    buffer and counts it; otherwise it frees the buffer, counts a drop, stops
    the queue and leaves the NIC alone, returning [NETDEV_TX_BUSY]. *)
Theorem accnet_start_xmit_spec {D} `{NicDevice D} p skb qt (s : nic_state D) :
  cq_repr (send_cq s) qt -> (length qt < 255)%nat ->
  obs_ok (obs (nic_dev s)) -> p <> 0 -> skbs s !! p = Some skb ->
  tx_lock (soft s) = false ->
  exists s', tx_lock (soft s') = false /\
  if nr_frags skb + 1 <=? 64 - o_req (obs (nic_dev s)) then
    accnet_start_xmit p s = (Ret NETDEV_TX_OK, s') /\
    cq_repr (send_cq s') (qt ++ [p]) /\ skbs s' = skbs s /\
    nic_dev s' = do_writes (tx_req_writes (descriptors (segments skb))) (nic_dev s) /\
    tx_packets (stats (soft s')) = u64 (tx_packets (stats (soft s)) + 1) /\
    tx_bytes (stats (soft s')) = u64 (tx_bytes (stats (soft s)) + skb_len skb)
  else
    accnet_start_xmit p s = (Ret NETDEV_TX_BUSY, s') /\
    send_cq s' = send_cq s /\ skbs s' = delete p (skbs s) /\ nic_dev s' = nic_dev s /\
    queue_stopped (soft s') = true /\
    tx_dropped (stats (soft s')) = u64 (tx_dropped (stats (soft s)) + 1).
Proof.
  intros R Hq Hok Hp Es Hl.
  destruct (Z.leb_spec (nr_frags skb + 1) (64 - o_req (obs (nic_dev s)))) as [Hroom|Hfull].
  - destruct (start_xmit_ok p skb qt s R Hq Hok Hp Es Hl Hroom)
      as (r & s' & E & x & c' & d' & -> & -> & R' & -> & _ & ? & _ & ? & ?).
    eexists. split; [|split; [exact E|]]; done.
  - destruct (start_xmit_busy p skb s Hok Hp Es Hl ltac:(lia))
      as (r & s' & E & x & -> & -> & ? & _ & ? & ?).
    eexists. split; [|split; [exact E|]]; done.
Qed.

(** [alloc_recv] uses the result of [netdev_alloc_skb] without a test: as
    soon as the NIC asks for a buffer and the allocation fails, a null pointer
    is dereferenced. *)
Theorem alloc_recv_unchecked {D} `{NicDevice D} (s : nic_state D) :
  obs_ok (obs (nic_dev s)) -> o_addr (obs (nic_dev s)) < 64 ->
  netdev_alloc_skb (skbs s) rx_capacity = None ->
  alloc_recv s = (Fault NullDeref, s).
Proof.
  intros Hok Ha Hal. unfold alloc_recv. step (recv_req_avail_run s Hok).
  destruct (Z.to_nat (64 - o_addr (obs (nic_dev s)))) as [|n] eqn:En; [lia|].
  cbn [for_loop]. fold rx_capacity. apply run_bind_fault.
  assert (alloc_skb rx_capacity s = (Ret 0, s)) as E
    by (unfold alloc_skb, bind, get; by rewrite Hal).
  by step E.
Qed.

(** ** A simulated NIC and kernel

    The smallest device that satisfies [NicDevice]: counters and a log; an
    allocator that never fails, and one that always does. *)

Module SimNic.
Definition sim_read (w : width) (r : region) (a : Z) (o : nic_obs) : Z * nic_obs :=
  match w, r with
  | W16, ACCNET_TX =>
      if a =? ACCNET_TX_REQ_COUNT then (o_req o, o)
      else if a =? ACCNET_TX_COUNT then (o_comp o, o)
      else if a =? ACCNET_TX_COMP_READ
           then (0, mk_obs (o_req o) (Z.max 0 (o_comp o - 1)) (o_addr o) (o_log o))
           else (0, o)
  | W16, ACCNET_RX =>
      if a =? ACCNET_RX_DMA_ADDR_COUNT then (o_addr o, o)
      else if a =? ACCNET_RX_COMP_COUNT then (zlen (o_log o), o)
      else (0, o)
  | W64, ACCNET_RX =>
      match o_log o with
      | [] => (0, o)
      | x :: l => (x, mk_obs (o_req o) (o_comp o) (o_addr o) l)
      end
  | _, _ => (0, o)
  end.

Definition sim_write (w : width) (r : region) (a v : Z) (o : nic_obs) : nic_obs :=
  match w, r with
  | W64, ACCNET_TX => mk_obs (o_req o + 1) (o_comp o) (o_addr o) (o_log o)
  | W64, ACCNET_RX => mk_obs (o_req o) (o_comp o) (o_addr o + 1) (o_log o)
  | _, _ => o
  end.

#[export] Instance sim_mmio : Mmio nic_obs := { io_read := sim_read; io_write := sim_write }.

(** The NIC sends a queued segment, or writes a frame to a posted buffer. *)
Inductive sim_step `{Kernel} : nic_obs -> nic_obs -> Prop :=
| sim_sent o : 0 < o_req o -> o_comp o < 64 ->
    sim_step o (mk_obs (o_req o - 1) (o_comp o + 1) (o_addr o) (o_log o))
| sim_received o x : 0 < o_addr o -> zlen (o_log o) < 64 ->
    Z.land x 0xffff <= rx_capacity ->
    sim_step o (mk_obs (o_req o) (o_comp o) (o_addr o - 1) (o_log o ++ [x])).

Lemma sim_step_spec `{Kernel} o o' :
  sim_step o o' -> obs_ok o ->
  obs_ok o' /\ o_req o' + o_comp o' = o_req o + o_comp o /\
  o_addr o' + zlen (o_log o') = o_addr o + zlen (o_log o).
Proof.
  intros Hs (? & ? & ? & ? & HF).
  destruct Hs; unfold obs_ok, zlen in *; simpl; rewrite ?length_app; simpl;
    repeat split; try lia; try done.
  apply Forall_app. split; [done|]. by constructor.
Qed.

#[export] Instance sim_nic `{Kernel} : NicDevice nic_obs.
Proof.
  refine {| obs := λ o, o; hw_step := sim_step; hw_step_spec := sim_step_spec |};
    try done.
  - intros d Hd. simpl. f_equal. lia.
  - intros d x l E. simpl. by rewrite E.
Defined.

#[export] Instance sim_kernel : Kernel := {
  virt_to_phys v := v;
  page_to_phys p := p * 4096;
  MAX_SKB_FRAGS := 17;
  NET_IP_ALIGN := 2;
  netdev_alloc_skb h n :=
    let p := fresh ({[0]} ∪ dom h : gset Z) in
    Some (p, mk_skb (64 * (p mod 2 ^ 40)) 0 0 [] n 0);
  eth_type_trans skb := (0x0800, skb)
}.

#[export] Instance sim_kernel_laws : KernelLaws.
Proof.
  split. intros h n p' skb'. cbn [netdev_alloc_skb sim_kernel].
  set (p := fresh ({[0]} ∪ dom h : gset Z)).
  pose proof (is_fresh ({[0]} ∪ dom h : gset Z)) as Hf. fold p in Hf.
  intros [= <- <-]. cbn [data frags tailroom].
  split; [set_solver|]. split; [apply not_elem_of_dom; set_solver|].
  split; [done|]. pose proof (Z.mod_pos_bound p (2 ^ 40) ltac:(lia)).
  split; [lia|]. split; [|lia]. rewrite Z.mul_comm. by apply Z.mod_mul.
Qed.

Definition empty_entries : list Z := replicate (Z.to_nat CONFIG_ACCNET_RING_SIZE) 0.
Definition start : nic_state nic_obs :=
  probed (mk_obs 0 0 0 []) 5 6 empty_entries empty_entries.

(** A frame of 100 bytes in the linear part and a page of 1000 bytes. *)
Definition packet : sk_buff := mk_skb 0x80001000 1100 100 [mk_frag 0x80010 64 1000] 0 0.

Lemma idle_ok `{Kernel} : obs_ok (mk_obs 0 0 0 []).
Proof. by unfold obs_ok, zlen. Qed.

(** A kernel that is out of memory. *)
Definition oom_kernel : Kernel := {|
  virt_to_phys v := v;
  page_to_phys p := p * 4096;
  MAX_SKB_FRAGS := 17;
  NET_IP_ALIGN := 2;
  netdev_alloc_skb _ _ := None;
  eth_type_trans skb := (0x0800, skb)
|}.

#[export] Instance oom_kernel_laws : KernelLaws (H := oom_kernel).
Proof. split. intros h n p skb. discriminate. Qed.

(** A run of transmissions, each of which returns. *)
Fixpoint play (l : list Z) (s : nic_state nic_obs) : option (nic_state nic_obs) :=
  match l with
  | [] => Some s
  | p :: l' =>
      match skbs s !! p, handle (EvXmit p packet) s with
      | None, (Ret _, s') => play l' s'
      | _, _ => None
      end
  end.

Lemma play_steps l : forall s s',
  Forall (λ p, p <> 0) l -> play l s = Some s' -> star nic_step s s'.
Proof.
  induction l as [|p l IH]; intros s s' Hl; cbn [play].
  - intros [= <-]. constructor.
  - apply list.Forall_cons in Hl as [Hp Hl]. destruct (skbs s !! p) eqn:Ef; [done|].
    destruct (handle (EvXmit p packet) s) as [[r| | |] s1] eqn:E; try done. intros Hs.
    econstructor; [|by apply IH]. by eapply (step_event (EvXmit p packet)).
Qed.

(** 33 transmissions of two segments each: the last one is refused. *)
Definition full : nic_state nic_obs :=
  match play (seqZ 1 33) start with Some s => s | None => start end.

Lemma full_reached : star nic_step start full.
Proof.
  apply (play_steps (seqZ 1 33)); [by apply (bool_decide_eq_true_1 _); vm_compute|].
  assert (is_Some (play (seqZ 1 33) start)) as [s E]
    by (apply (bool_decide_eq_true_1 _); by vm_compute).
  unfold full. by rewrite E.
Qed.

Lemma start_inv : nic_inv start.
Proof. by apply probed_inv. Qed.
End SimNic.

(** ** Witnesses *)

Import SimNic.

Lemma start_idle `{K : Kernel} : idle (H0 := K) [] [] SimNic.start.
Proof.
  split; [|done]. split; try done; try by apply cq_repr_init.
  - intros p Hin. by apply not_elem_of_nil in Hin.
  - constructor.
Qed.

Lemma accnet_reachable_safe_witness :
  nic_inv SimNic.full /\
  (exists r s', handle (EvPoll 16) SimNic.full = (Ret r, s') /\ nic_inv s') /\
  (exists s', handle (EvRetry 33) SimNic.full = (Fault UseAfterFree, s')).
Proof.
  destruct (accnet_reachable_safe SimNic.start SimNic.full SimNic.start_inv SimNic.full_reached)
    as [HI Hn].
  split; [exact HI|]. split.
  - destruct (Hn (EvPoll 16) ltac:(done)) as [Hr|(s' & _ & Hm)]; [exact Hr|discriminate Hm].
  - apply (Hn (EvRetry 33)). split; [done|]. split; [|by vm_compute].
    apply (bool_decide_eq_true_1 _). by vm_compute.
Defined.

(** Two transmissions of two segments each: three segments are complete. *)
Definition half_sent : nic_state nic_obs :=
  match SimNic.play [1; 2] SimNic.start with
  | Some s => nic_set_dev (mk_obs 1 3 0 []) s
  | None => SimNic.start
  end.

Lemma half_sent_idle : idle [1; 2] [] half_sent.
Proof.
  split; [|by vm_compute]. split.
  - split; [by vm_compute|by vm_compute|by vm_compute|simpl; lia|].
    intros k p. destruct k as [|[|k]]; [intros [= <-]; by vm_compute..|done].
  - by apply cq_repr_init.
  - by unfold obs_ok, zlen.
  - intros p Hp. assert (p = 1 \/ p = 2) as [-> | ->] by set_solver;
      (split; [done|]; by eexists).
  - apply (bool_decide_eq_true_1 _). by vm_compute.
  - by vm_compute.
  - by vm_compute.
  - intros p skb Hp. by apply not_elem_of_nil in Hp.
Qed.

Lemma accnet_poll_spec_witness :
  (exists s', accnet_poll 16 half_sent = (Ret 0, s') /\
     freed s' = [Consumed 1] /\ o_addr (nic_dev s') = 64) /\
  (exists s', accnet_poll (H0 := SimNic.oom_kernel) 16 SimNic.start = (Fault NullDeref, s')).
Proof.
  split.
  - destruct (accnet_poll_spec 16 [1; 2] [] half_sent ltac:(lia)) as (s' & Hf & _ & Ho).
    + exact half_sent_idle.
    + cbn zeta in Ho. destruct (refill _ _) as [[new h]|] eqn:Er.
      * destruct Ho as (E & _ & _ & Ha & _). exists s'. split; [exact E|]. split; [exact Hf|exact Ha].
      * destruct Ho as [_ Hm]. discriminate Hm.
  - destruct (accnet_poll_spec (H0 := SimNic.oom_kernel) 16 [] [] SimNic.start ltac:(lia))
      as (s' & _ & _ & E & _); [exact start_idle|]. exists s'. exact E.
Defined.

Lemma accnet_start_xmit_spec_witness :
  let s := fresh_skb 1 SimNic.packet SimNic.start in
  exists s', tx_lock (soft s') = false /\
    accnet_start_xmit 1 s = (Ret NETDEV_TX_OK, s') /\
    cq_repr (send_cq s') [1] /\ skbs s' = skbs s.
Proof.
  intros s.
  destruct (accnet_start_xmit_spec 1 SimNic.packet [] s) as (s' & Hl & E & R & Hs & _);
    [by apply cq_repr_init|simpl; lia|apply SimNic.idle_ok
    |done|reflexivity|reflexivity|].
  exists s'. done.
Defined.

Lemma alloc_recv_unchecked_witness :
  alloc_recv (H0 := SimNic.oom_kernel) SimNic.start = (Fault NullDeref, SimNic.start).
Proof.
  apply (alloc_recv_unchecked (H0 := SimNic.oom_kernel) SimNic.start);
    [apply SimNic.idle_ok|reflexivity|reflexivity].
Defined.

Lemma post_send_descriptors_witness :
  let s := fresh_skb 1 SimNic.packet SimNic.start in
  exists s' words,
    post_send 1 s = (Ret tt, s') /\
    decoded words = [(0x80001000, 100, true); (0x80010040, 1000, false)].
Proof.
  intros s.
  destruct (post_send_descriptors 1 SimNic.packet s []) as (s' & words & E & _ & Hd & _);
    [done|reflexivity|by apply (bool_decide_eq_true_1 _)|by apply cq_repr_init|simpl; lia|].
  exists s', words. split; [exact E|exact Hd].
Defined.

Lemma complete_send_spec_witness :
  exists s', complete_send SimNic.start = (Ret tt, s') /\ freed s' = [].
Proof.
  destruct (complete_send_spec [] [] SimNic.start (proj1 start_idle)) as (s' & E & (_ & _ & Hf & _) & _).
  exists s'. split; [exact E|exact Hf].
Defined.
