(* ===== verification/AccnetRefine.v ===== *)
(** * The AccNIC network driver as a network interface

    What the driver promises to the network stack, independent of rings, registers
    and locks: two queues of buffers.  A buffer that is accepted for transmission is
    released after all that were accepted before it; a buffer that is posted for
    reception is handed up after all that were posted before it.  The driver refines
    this interface: the state in which a handler runs and what it returns determine
    the actions of the abstract machine. *)

From S2P Require Import Prelude Prog Mmio AccnetRegs SkbRing AccnetDriver AccnetDriverSpec AccnetDriverSafety.

(** ** The interface *)

(** The two queues, and the history: every buffer accepted, released, posted and
    handed up, oldest first. *)
Record iface := mk_iface {
  in_flight : list Z; waiting : list Z;
  accepted : list Z; released : list Z; posted : list Z; handed : list Z
}.

Inductive label := Send (p : Z) | Sent | Post (p : Z) | Deliver.

Inductive iface_step : label -> iface -> iface -> Prop :=
| i_send p t r a f o u : p ∉ t ++ r ->
    iface_step (Send p) (mk_iface t r a f o u) (mk_iface (t ++ [p]) r (a ++ [p]) f o u)
| i_sent p t r a f o u :
    iface_step Sent (mk_iface (p :: t) r a f o u) (mk_iface t r a (f ++ [p]) o u)
| i_post p t r a f o u : p ∉ t ++ r ->
    iface_step (Post p) (mk_iface t r a f o u) (mk_iface t (r ++ [p]) a f (o ++ [p]) u)
| i_deliver p t r a f o u :
    iface_step Deliver (mk_iface t (p :: r) a f o u) (mk_iface t r a f o (u ++ [p])).

Inductive iface_run : list label -> iface -> iface -> Prop :=
| ir_nil i : iface_run [] i i
| ir_cons l ls i1 i2 i3 : iface_step l i1 i2 -> iface_run ls i2 i3 -> iface_run (l :: ls) i1 i3.

(** Nothing is lost, duplicated or reordered. *)
Definition fifo (i : iface) : Prop :=
  accepted i = released i ++ in_flight i /\ posted i = handed i ++ waiting i /\
  NoDup (in_flight i ++ waiting i).

Lemma iface_step_fifo l i i' : iface_step l i i' -> fifo i -> fifo i'.
Proof.
  unfold fifo.
  destruct 1; cbn [in_flight waiting accepted released posted handed]; intros (-> & -> & Hn);
    rewrite <- ?app_assoc; (split; [done|]); (split; [done|]).
  - cbn [app]. rewrite <- Permutation_middle. by constructor.
  - by apply list.NoDup_cons in Hn as [_ Hn].
  - rewrite app_assoc, <- Permutation_cons_append. by constructor.
  - rewrite <- Permutation_middle in Hn. by apply list.NoDup_cons in Hn as [_ Hn].
Qed.

Lemma iface_run_fifo ls i i' : iface_run ls i i' -> fifo i -> fifo i'.
Proof. induction 1; eauto using iface_step_fifo. Qed.

Lemma iface_run_app ls ls' i1 i2 i3 :
  iface_run ls i1 i2 -> iface_run ls' i2 i3 -> iface_run (ls ++ ls') i1 i3.
Proof. induction 1; intros; cbn [app]; [done|]. econstructor; eauto. Qed.

Lemma run_sent k : forall t r a f o u, (k <= length t)%nat ->
  iface_run (replicate k Sent) (mk_iface t r a f o u) (mk_iface (drop k t) r a (f ++ take k t) o u).
Proof.
  induction k as [|k IH]; intros t r a f o u Hk; cbn [replicate].
  - rewrite app_nil_r. constructor.
  - destruct t as [|p t]; cbn in Hk; [lia|]. econstructor; [constructor|]. cbn [drop take].
    replace (f ++ p :: take k t) with ((f ++ [p]) ++ take k t) by by rewrite <- app_assoc.
    apply IH. lia.
Qed.

Lemma run_deliver k : forall t r a f o u, (k <= length r)%nat ->
  iface_run (replicate k Deliver) (mk_iface t r a f o u) (mk_iface t (drop k r) a f o (u ++ take k r)).
Proof.
  induction k as [|k IH]; intros t r a f o u Hk; cbn [replicate].
  - rewrite app_nil_r. constructor.
  - destruct r as [|p r]; cbn in Hk; [lia|]. econstructor; [constructor|]. cbn [drop take].
    replace (u ++ p :: take k r) with ((u ++ [p]) ++ take k r) by by rewrite <- app_assoc.
    apply IH. lia.
Qed.

Lemma run_post new : forall t r a f o u, NoDup (t ++ r ++ new) ->
  iface_run (map Post new) (mk_iface t r a f o u) (mk_iface t (r ++ new) a f (o ++ new) u).
Proof.
  induction new as [|p new IH]; intros t r a f o u Hn; cbn [map].
  - rewrite !app_nil_r. constructor.
  - econstructor.
    + apply i_post. rewrite app_assoc in Hn. apply list.NoDup_app in Hn as (_ & Hd & _).
      intros Hp. apply (Hd p Hp). set_solver.
    + replace (r ++ p :: new) with ((r ++ [p]) ++ new) by by rewrite <- app_assoc.
      replace (o ++ p :: new) with ((o ++ [p]) ++ new) by by rewrite <- app_assoc.
      apply IH. by rewrite <- app_assoc.
Qed.

Lemma run_post_only new : forall i i', iface_run (map Post new) i i' ->
  in_flight i' = in_flight i /\ released i' = released i.
Proof.
  induction new as [|p new IH]; intros i i' Hr; inversion Hr as [|? ? ? i1 ? Hs Hr1]; subst;
    [done|]. destruct (IH _ _ Hr1) as [-> ->]. by inversion Hs; subst.
Qed.

Lemma run_sent_post p t r a f o u new i' :
  iface_run (Sent :: map Post new) (mk_iface (p :: t) r a f o u) i' ->
  in_flight i' = t /\ released i' = f ++ [p].
Proof.
  inversion 1 as [|? ? ? i1 ? Hs Hr]; subst. inversion Hs; subst.
  by apply run_post_only in Hr as [-> ->].
Qed.

(** ** What the driver does to it *)

Definition new_buffers (r : option (list Z * gmap Z sk_buff)) : list Z :=
  match r with Some (new, _) => new | None => [] end.

Definition consumed (l : list freeing) : list Z :=
  omap (λ x, match x with Consumed p => Some p | Dropped _ => None end) l.

Definition dropped (l : list freeing) : list Z :=
  omap (λ x, match x with Consumed _ => None | Dropped p => Some p end) l.

Lemma consumed_map l : consumed (map Consumed l) = l.
Proof. induction l; simpl; congruence. Qed.

Lemma dropped_map l : dropped (map Consumed l) = [].
Proof. by induction l. Qed.

Section refinement.
Context {D : Type} `{NicDevice D}.
Implicit Types (s : nic_state D) (i : iface).

(** The actions of an event in state [s] whose handler returned [r], with the
    queues of [i]: poll releases the buffers whose segments the NIC has all
    completed, hands up as many as it returns and posts what the allocator gives;
    a transmission is accepted when [NETDEV_TX_OK] is returned. *)
Definition actions i s (e : event) (r : Z) : list label :=
  match e with
  | EvOpen =>
      map Post (new_buffers (refill (Z.to_nat (64 - o_addr (obs (nic_dev s)))) (skbs s)))
  | EvPoll budget =>
      replicate (finished (skbs s) (o_comp (obs (nic_dev s))) (in_flight i)) Sent
      ++ replicate (Z.to_nat r) Deliver
      ++ map Post (new_buffers (poll_refill budget (in_flight i) (waiting i) s))
  | EvXmit p _ => if r =? NETDEV_TX_OK then [Send p] else []
  | _ => []
  end.

(** Executions, with the states in which the handlers ran, the events and the
    values returned; the NIC acts between them. *)
Inductive nic_trace : nic_state D -> list (nic_state D * event * Z) -> nic_state D -> Prop :=
| nt_nil s : nic_trace s [] s
| nt_hw s d' tr s' : hw_step (nic_dev s) d' -> nic_trace (nic_set_dev d' s) tr s' -> nic_trace s tr s'
| nt_event e s r s1 tr s' : enabled e s -> handle e s = (Ret r, s1) -> nic_trace s1 tr s' ->
    nic_trace s ((s, e, r) :: tr) s'.

(** The abstract machine follows an execution: one group of actions per event. *)
Inductive follows : list (nic_state D * event * Z) -> iface -> iface -> Prop :=
| fo_nil i : follows [] i i
| fo_event s e r tr i i1 i' :
    iface_run (actions i s e r) i i1 -> follows tr i1 i' -> follows ((s, e, r) :: tr) i i'.

Lemma follows_fifo tr i i' : follows tr i i' -> fifo i -> fifo i'.
Proof. induction 1; eauto using iface_run_fifo. Qed.

Lemma follows_one s e r i i' : follows [(s, e, r)] i i' -> iface_run (actions i s e r) i i'.
Proof. inversion 1 as [|? ? ? ? ? ? ? Hr Hf]; subst. by inversion Hf; subst. Qed.

(** The transmissions that were refused. *)
Definition refusals (tr : list (nic_state D * event * Z)) : list Z :=
  omap (λ x, match x with
             | (_, EvXmit p _, r) => if r =? NETDEV_TX_OK then None else Some p
             | _ => None end) tr.

Context `{!KernelLaws}.

(** The rings hold the queues; the buffers handed to [netif_receive_skb] and to
    [dev_consume_skb_irq] since the state [s0] are the ones handed up and
    released. *)
Definition implements s0 i s : Prop :=
  idle (in_flight i) (waiting i) s /\ (received s).*1 = (received s0).*1 ++ handed i /\
  consumed (freed s) = consumed (freed s0) ++ released i.

Lemma implements_hw s0 i s d' :
  implements s0 i s -> hw_step (nic_dev s) d' -> implements s0 i (nic_set_dev d' s).
Proof.
  intros [(C & Hl) Hv] Hw. split; [|done]. split; [|done].
  destruct (hw_step_spec _ _ Hw (c_ok _ _ _ _ _ _ C)) as (Hok & Hq & Hp).
  destruct C. split; cbn; try done; lia.
Qed.

(** An event that takes no action. *)
Lemma implements_same s0 i s s' :
  implements s0 i s -> idle (in_flight i) (waiting i) s' -> received s' = received s ->
  consumed (freed s') = consumed (freed s) ->
  exists i', iface_run [] i i' /\ implements s0 i' s'.
Proof.
  intros (_ & Hv & Hc) HI Er Ef. exists i. split; [constructor|].
  split; [done|]. by rewrite Er, Ef.
Qed.

Lemma implements_open s0 i s r s' :
  implements s0 i s -> handle EvOpen s = (Ret r, s') ->
  exists i', iface_run (actions i s EvOpen r) i i' /\ implements s0 i' s' /\ freed s' = freed s.
Proof.
  intros (HI & Hv & Hc) E. destruct i as [t q a f o u]. cbn [in_flight waiting handed released handle] in HI, Hv, Hc, E.
  cbn [actions]. pose proof (accnet_open_run t q s HI) as Ho.
  destruct (refill _ _) as [[new h]|]; cbn [new_buffers].
  - destruct Ho as (r' & s1 & E' & _ & HI' & _ & Er & Ef & _). rewrite E in E'.
    injection E' as <- <-. exists (mk_iface t (q ++ new) a f (o ++ new) u).
    split; [apply run_post, (c_nodup _ _ _ _ _ _ (proj1 HI'))|].
    split; [|done]. split; [done|]. by rewrite Er, Ef.
  - destruct Ho as (s1 & E' & _). rewrite E in E'. discriminate.
Qed.

Lemma implements_poll s0 i s budget r s' :
  implements s0 i s -> 0 <= budget -> handle (EvPoll budget) s = (Ret r, s') ->
  exists i', iface_run (actions i s (EvPoll budget) r) i i' /\ implements s0 i' s' /\
    dropped (freed s') = dropped (freed s).
Proof.
  intros (HI & Hv & Hc) Hb E. destruct i as [t q a f o u]. cbn [in_flight waiting handed released handle] in HI, Hv, Hc, E.
  cbn [actions in_flight waiting]. pose proof (poll_run budget t q s Hb HI) as Ho.
  destruct (poll_refill _ _ _ _) as [[new h]|]; cbn [new_buffers];
    [|destruct Ho as (s1 & E' & _); rewrite E in E'; discriminate].
  destruct Ho as (r' & s1 & E' & -> & HI' & _ & [Ef Er] & _). rewrite E in E'.
  injection E' as -> <-. fold (sent_count t s). set (k := sent_count t s) in *.
  set (n := Z.to_nat (frame_count budget s)) in *.
  pose proof (c_ok _ _ _ _ _ _ (proj1 HI)) as (_ & ? & ? & _).
  assert (n <= length q)%nat as Hn.
  { pose proof (c_posted _ _ _ _ _ _ (proj1 HI)). unfold n, frame_count, zlen in *. lia. }
  assert (k <= length t)%nat as Hk by (apply finished_spec; lia).
  exists (mk_iface (drop k t) (drop n q ++ new) a (f ++ take k t) (o ++ new) (u ++ take n q)).
  split; [|split; [split; [done|]|]].
  - eapply iface_run_app; [by apply run_sent|]. eapply iface_run_app; [by apply run_deliver|].
    apply run_post, (c_nodup _ _ _ _ _ _ (proj1 HI')).
  - cbn [handed released]. rewrite Er, Ef, Hv. unfold consumed in *. rewrite omap_app, Hc.
    fold (consumed (map Consumed (take k t))). by rewrite consumed_map, !app_assoc.
  - rewrite Ef. unfold dropped. rewrite omap_app. fold (dropped (map Consumed (take k t))).
    by rewrite dropped_map, app_nil_r.
Qed.

Lemma implements_xmit s0 i s p skb r s' :
  implements s0 i s -> p <> 0 -> skbs s !! p = None -> handle (EvXmit p skb) s = (Ret r, s') ->
  exists i', iface_run (actions i s (EvXmit p skb) r) i i' /\ implements s0 i' s' /\
    dropped (freed s') = dropped (freed s) ++ (if r =? NETDEV_TX_OK then [] else [p]).
Proof.
  intros (HI & Hv & Hc) Hp Hf E. destruct i as [t q a f o u]. cbn [in_flight waiting handed released handle] in HI, Hv, Hc, E.
  destruct (xmit_run p skb t q s HI Hp Hf) as (r' & s1 & E' & Er & Hx).
  change (accnet_start_xmit p (fresh_skb p skb s) = (Ret r, s')) in E.
  rewrite E in E'. injection E' as <- <-. cbn [actions].
  destruct (_ <=? _), Hx as (-> & HI' & Ef).
  - exists (mk_iface (t ++ [p]) q (a ++ [p]) f o u). split.
    + econstructor; [|constructor]. constructor. apply (core_fresh p skb t q s Hf (proj1 HI)).
    + rewrite Ef. split; [|by rewrite app_nil_r]. split; [done|]. by rewrite Er, Ef.
  - exists (mk_iface t q a f o u). split; [constructor|]. rewrite Ef.
    split; [|unfold dropped; by rewrite omap_app]. split; [done|].
    rewrite Er, Ef. split; [done|]. unfold consumed. by rewrite omap_app, app_nil_r.
Qed.

Lemma implements_event s0 i s e r s' :
  implements s0 i s -> enabled e s -> handle e s = (Ret r, s') ->
  exists i', iface_run (actions i s e r) i i' /\ implements s0 i' s' /\
    dropped (freed s') = dropped (freed s) ++ refusals [(s, e, r)].
Proof.
  intros Hi He E. pose proof (proj1 Hi) as HI.
  assert (forall Q, returns (handle e) s Q -> Q r s') as Hret.
  { intros Q (r' & s'' & E' & HQ). rewrite E in E'. by injection E' as <- <-. }
  destruct e; cbn [enabled handle refusals omap list_omap] in *; rewrite ?app_nil_r.
  - destruct (implements_open s0 i s r s' Hi E) as (i' & ? & ? & Ef). exists i'. by rewrite Ef.
  - destruct (Hret _ (stop_run _ _ s HI)) as (_ & HI' & Er & Ef & _).
    destruct (implements_same s0 i s s' Hi HI' Er) as (i' & ? & ?); [by rewrite Ef|].
    exists i'. by rewrite Ef.
  - destruct (Hret _ (tx_isr_run irq _ _ s HI)) as (HI' & Er & Ef & _).
    destruct (implements_same s0 i s s' Hi HI' Er) as (i' & ? & ?); [by rewrite Ef|].
    exists i'. by rewrite Ef.
  - destruct (Hret _ (rx_isr_run irq _ _ s HI)) as (HI' & Er & Ef & _).
    destruct (implements_same s0 i s s' Hi HI' Er) as (i' & ? & ?); [by rewrite Ef|].
    exists i'. by rewrite Ef.
  - by apply implements_poll.
  - destruct He as [Hp Hf].
    destruct (implements_xmit s0 i s p skb r s' Hi Hp Hf E) as (i' & ? & ? & Ef).
    exists i'. rewrite Ef. by destruct (r =? NETDEV_TX_OK).
  - destruct He as (Hp & _ & Hf).
    destruct (xmit_freed p s (proj1 (proj2 HI)) Hp Hf) as (? & E' & _). rewrite E in E'. done.
Qed.

Lemma trace_refines s0 s tr s' : nic_trace s tr s' -> forall i, implements s0 i s ->
  exists i', follows tr i i' /\ implements s0 i' s' /\
    dropped (freed s') = dropped (freed s) ++ refusals tr.
Proof.
  induction 1 as [s|s d' tr s' Hw _ IH|e s r s1 tr s' He E _ IH]; intros i Hi.
  - exists i. split; [constructor|]. split; [done|]. by rewrite app_nil_r.
  - apply IH. by eapply implements_hw.
  - destruct (implements_event s0 i s e r s1 Hi He E) as (i1 & Hr & Hi1 & Hd).
    destruct (IH i1 Hi1) as (i' & Hf & Hi' & Hd'). exists i'.
    split; [by econstructor|]. split; [done|]. rewrite Hd', Hd, <- app_assoc. f_equal.
    unfold refusals. by rewrite <- omap_app.
Qed.
End refinement.

(** C2: The driver refines the interface: every execution of handlers that return
    and of the NIC, from an idle driver, is matched by a run of the abstract machine
    whose actions are determined event by event: a poll releases exactly the leading
    buffers whose segments the NIC has all completed, hands up as many buffers as it
    returns and posts the ones the allocator gives; a transmission is accepted when
    [NETDEV_TX_OK] is returned.  The buffers released are those passed to
    [dev_consume_skb_irq], those handed up the ones passed to [netif_receive_skb],
    and the refused ones those passed to [dev_kfree_skb_any].  Hence the buffers
    accepted are consumed in the order in which they were accepted, and the stack
    receives the buffers in the order in which they were posted, none lost, none
    twice. *)
Theorem accnet_refines_iface {D} `{NicDevice D} `{!KernelLaws} t q (s s' : nic_state D) tr :
  idle t q s -> nic_trace s tr s' ->
  exists i', follows tr (mk_iface t q t [] q []) i' /\ fifo i' /\
    idle (in_flight i') (waiting i') s' /\
    (received s').*1 = (received s).*1 ++ handed i' /\
    consumed (freed s') = consumed (freed s) ++ released i' /\
    dropped (freed s') = dropped (freed s) ++ refusals tr.
Proof.
  intros HI Htr. destruct (trace_refines s s tr s' Htr (mk_iface t q t [] q []))
    as (i' & Hf & (HI' & Hv & Hc) & Hd);
    [split; [done|by cbn [handed released]; rewrite !app_nil_r]|].
  exists i'. split; [done|]. split; [|done].
  eapply follows_fifo; [exact Hf|]. split; [done|]. split; [done|].
  apply (c_nodup _ _ _ _ _ _ (proj1 HI)).
Qed.

(** ** Example *)

Import SimNic.

(** A poll after two transmissions of two segments each, three of which the NIC
    has sent: the first buffer is consumed, the second stays. *)
Lemma accnet_refines_iface_witness :
  exists s' i', nic_trace half_sent [(half_sent, EvPoll 16, 0)] s' /\
    in_flight i' = [2] /\ released i' = [1] /\ consumed (freed s') = [1] /\
    fifo i' /\ idle (in_flight i') (waiting i') s'.
Proof.
  pose proof (poll_run 16 [1; 2] [] half_sent ltac:(lia) half_sent_idle) as Ho.
  destruct (poll_refill 16 [1; 2] [] half_sent) as [[new h]|] eqn:Er;
    [|destruct Ho as (? & _ & Hm & _); discriminate Hm].
  destruct Ho as (r & s' & E & Hr & _). change (frame_count 16 half_sent) with 0 in Hr. subst r.
  assert (nic_trace half_sent [(half_sent, EvPoll 16, 0)] s') as Htr
    by (eapply nt_event; [done|exact E|constructor]).
  destruct (accnet_refines_iface [1; 2] [] half_sent s' _ half_sent_idle Htr)
    as (i' & Hf & Hi & HI & _ & Hc & _).
  assert (in_flight i' = [2] /\ released i' = [1]) as [E1 E2].
  { apply follows_one in Hf. cbn [actions in_flight waiting] in Hf. rewrite Er in Hf.
    assert (finished (skbs half_sent) (o_comp (obs (nic_dev half_sent))) [1; 2] = 1%nat) as Ek
      by by vm_compute.
    rewrite Ek in Hf. cbn [replicate app Z.to_nat new_buffers] in Hf. by apply run_sent_post in Hf. }
  exists s', i'. split; [exact Htr|]. split; [exact E1|]. split; [exact E2|].
  split; [rewrite Hc, E2; reflexivity|]. split; [exact Hi|exact HI].
Defined.
