(* ===== verification/AccnetMisc.v ===== *)
(** * The [accnet-misc] character device ([drivers/accnet-driver/accnet_misc.c])

    Opening the device, the three ioctl commands over the caller's memory, and
    the mapping of the control, UDP-TX and UDP-RX register windows.  The main
    results: a region reported by [ACCNET_IOCTL_GET_REGION_INFO] can be mapped
    at the offset and with the size reported and yields exactly that window, and
    no mapping ever reaches outside the three windows. *)

From S2P Require Import Prelude AccnetRegs UserMem.

Definition ACCNET_IOCTL_API_VERSION : Z := 0.
Definition ACCNET_IOCTL_TYPE : Z := 0x88.
Definition ACCNET_IOCTL_BASE : Z := 0xC0.

Definition ACCNET_REGION_TYPE_UNIMPLEMENTED : Z := 0x00000000.
Definition ACCNET_REGION_TYPE_CTRL : Z := 0x00001000.
Definition ACCNET_REGION_TYPE_NIC_CTRL : Z := 0x00001001.
Definition ACCNET_REGION_TYPE_APP_CTRL : Z := 0x00001002.
Definition ACCNET_REGION_TYPE_RAM : Z := 0x00002000.

Definition ACCNET_IOCTL_GET_API_VERSION : Z := IO ACCNET_IOCTL_TYPE (ACCNET_IOCTL_BASE + 0).
Definition ACCNET_IOCTL_GET_DEVICE_INFO : Z := IO ACCNET_IOCTL_TYPE (ACCNET_IOCTL_BASE + 1).
Definition ACCNET_IOCTL_GET_REGION_INFO : Z := IO ACCNET_IOCTL_TYPE (ACCNET_IOCTL_BASE + 2).

(** The fields of [struct accnet_device] the character device uses: the magic
    number and the windows' physical addresses and sizes. *)
Record accnet_windows := mk_windows {
  magic : Z;
  hw_regs_control_phys : Z; hw_regs_control_size : Z;
  hw_regs_udp_tx_phys : Z; hw_regs_udp_tx_size : Z;
  hw_regs_udp_rx_phys : Z; hw_regs_udp_rx_size : Z
}.

Definition accnet_misc_open (nic : accnet_windows) : Z :=
  if negb (magic nic =? MAGIC_CHAR) then - EINVAL else 0.

Definition accnet_misc_release : Z := 0.

(** The answer to [GET_DEVICE_INFO]; [argsz] is the caller's. *)
Definition accnet_device_info (info : device_info) : device_info :=
  mk_device_info (di_argsz info) 0 11 12 13 14 15 16 17 1 0.

(** ASCII: "ctrl", "udp-tx", "udp-rx" *)
Definition name_ctrl : list Z := [99; 116; 114; 108].
Definition name_udp_tx : list Z := [117; 100; 112; 45; 116; 120].
Definition name_udp_rx : list Z := [117; 100; 112; 45; 114; 120].

(** The defaults set before the [switch]; the first byte of the name is cleared. *)
Definition region_defaults (info : region_info) : region_info :=
  mk_region_info (ri_argsz info) 0 (ri_index info) ACCNET_REGION_TYPE_UNIMPLEMENTED 0 0 0
    (u64 (Z.shiftl (ri_index info) 40)) (<[0%nat := 0]> (ri_name info)).

Definition region_case (info : region_info) (next size : Z) (name : list Z) : region_info :=
  mk_region_info (ri_argsz info) (ri_flags info) (ri_index info) ACCNET_REGION_TYPE_NIC_CTRL
    next 0 size (u64 (Z.shiftl (ri_index info) 40)) (strlcpy (ri_name info) name).

Definition accnet_region_info (nic : accnet_windows) (info0 : region_info)
  : option region_info :=
  let info := region_defaults info0 in
  if ri_index info =? 0 then Some (region_case info 1 (hw_regs_control_size nic) name_ctrl)
  else if ri_index info =? 1 then Some (region_case info 2 (hw_regs_udp_tx_size nic) name_udp_tx)
  else if ri_index info =? 2 then Some (region_case info 3 (hw_regs_udp_rx_size nic) name_udp_rx)
  else None.

(** The result of an ioctl that copies a structure back. *)
Definition reply (m : umem) (arg : Z) (l : list Z) : Z * umem :=
  let '(ok, m') := copy_to_user m arg l in ((if ok then 0 else - EFAULT), m').

Definition accnet_misc_ioctl (nic : accnet_windows) (cmd arg : Z) (m : umem) : Z * umem :=
  if cmd =? ACCNET_IOCTL_GET_API_VERSION then (ACCNET_IOCTL_API_VERSION, m)
  else if cmd =? ACCNET_IOCTL_GET_DEVICE_INFO then
    let minsz := sizeof_device_info in
    match copy_from_user m arg minsz with
    | None => (- EFAULT, m)
    | Some l =>
        let info := device_info_of l in
        if di_argsz info <? minsz then (- EINVAL, m)
        else reply m arg (device_info_bytes (accnet_device_info info))
    end
  else if cmd =? ACCNET_IOCTL_GET_REGION_INFO then
    let minsz := sizeof_region_info in
    match copy_from_user m arg minsz with
    | None => (- EFAULT, m)
    | Some l =>
        let info := region_info_of l in
        if ri_argsz info <? minsz then (- EINVAL, m)
        else match accnet_region_info nic info with
             | None => (- EINVAL, m)
             | Some info' => reply m arg (region_info_bytes info')
             end
    end
  else (- EINVAL, m).

(** A window is mapped when the request lies inside it. *)
Definition map_window (vma : vm_area) (phys size : Z) : mmap_result :=
  if size <? u64 (mmap_req_start vma + mmap_req_len vma) then MmapErr (- EINVAL)
  else MmapIo (vm_start vma) (u64 (Z.shiftr phys PAGE_SHIFT + mmap_pgoff vma))
              (mmap_req_len vma).

Definition accnet_misc_mmap (nic : accnet_windows) (vma : vm_area) : mmap_result :=
  if vm_end vma <? vm_start vma then MmapErr (- EINVAL)
  else if negb (vm_shared vma) then MmapErr (- EINVAL)
  else
    let index := mmap_index vma in
    if index =? 0 then map_window vma (hw_regs_control_phys nic) (hw_regs_control_size nic)
    else if index =? 1 then map_window vma (hw_regs_udp_tx_phys nic) (hw_regs_udp_tx_size nic)
    else if index =? 2 then map_window vma (hw_regs_udp_rx_phys nic) (hw_regs_udp_rx_size nic)
    else MmapErr (- EINVAL).

(** ** Properties *)

(** The window behind a region index. *)
Definition window (nic : accnet_windows) (i : Z) : option (Z * Z) :=
  if i =? 0 then Some (hw_regs_control_phys nic, hw_regs_control_size nic)
  else if i =? 1 then Some (hw_regs_udp_tx_phys nic, hw_regs_udp_tx_size nic)
  else if i =? 2 then Some (hw_regs_udp_rx_phys nic, hw_regs_udp_rx_size nic)
  else None.

(** Windows as a device tree describes them: page aligned, below 2^40 bytes. *)
Definition windows_ok (nic : accnet_windows) : Prop :=
  forall i p n, window nic i = Some (p, n) ->
    0 <= p < 2 ^ 63 /\ p mod 4096 = 0 /\ 0 <= n < 2 ^ 40.

Lemma window_range nic i w : window nic i = Some w -> 0 <= i < 3.
Proof. unfold window. repeat case_bool; intros; (lia || done). Qed.

Lemma mmap_window nic vma :
  accnet_misc_mmap nic vma =
  if vm_end vma <? vm_start vma then MmapErr (- EINVAL)
  else if negb (vm_shared vma) then MmapErr (- EINVAL)
  else match window nic (mmap_index vma) with
       | Some (p, n) => map_window vma p n
       | None => MmapErr (- EINVAL)
       end.
Proof.
  unfold accnet_misc_mmap, window.
  destruct (vm_end vma <? vm_start vma); [reflexivity|].
  destruct (vm_shared vma); cbn [negb]; [|reflexivity].
  destruct (mmap_index vma =? 0); [reflexivity|].
  destruct (mmap_index vma =? 1); [reflexivity|].
  destruct (mmap_index vma =? 2); reflexivity.
Qed.

Lemma map_window_in vma p n start pfn len :
  0 <= vm_start vma -> vm_start vma <= vm_end vma -> vm_end vma < 2 ^ 63 ->
  0 <= p < 2 ^ 63 -> p mod 4096 = 0 -> 0 <= n < 2 ^ 40 ->
  map_window vma p n = MmapIo start pfn len ->
  p <= pfn * 4096 /\ pfn * 4096 + len <= p + n.
Proof.
  intros Hs Hse He Hp Hpa Hn. unfold map_window, mmap_req_start, mmap_req_len, PAGE_SHIFT.
  assert (0 <= mmap_pgoff vma < 2 ^ 28) as Hg.
  { unfold mmap_pgoff, PAGE_SHIFT.
    change (u32 (Z.shiftl 1 (40 - 12)) - 1) with (2 ^ 28 - 1).
    rewrite land_pow2_mask by lia. apply Z.mod_pos_bound. lia. }
  set (g := mmap_pgoff vma) in *. clearbody g.
  rewrite Z.shiftl_mul_pow2, Z.shiftr_div_pow2 by lia.
  rewrite (u_small 64 (g * 2 ^ 12)), (u_small 64 (vm_end vma - vm_start vma)) by lia.
  rewrite u_small by lia. rewrite (u_small 64 (p / 2 ^ 12 + g)) by zdm.
  case_bool; intros [= <- <- <-]. change (2 ^ 12) with 4096 in *. zdm.
Qed.

(** C15: Every mapping that [accnet_misc_mmap] grants lies inside one of the three
    register windows: a process can never map other physical memory. *)
Theorem accnet_mmap_confined nic vma start pfn len :
  windows_ok nic ->
  0 <= vm_start vma -> vm_end vma < 2 ^ 63 ->
  accnet_misc_mmap nic vma = MmapIo start pfn len ->
  exists p n, window nic (mmap_index vma) = Some (p, n) /\
    p <= pfn * 4096 /\ pfn * 4096 + len <= p + n.
Proof.
  intros Hok Hs He. rewrite mmap_window.
  destruct (Z.ltb_spec (vm_end vma) (vm_start vma)); [done|].
  destruct (vm_shared vma); [|done]. cbn [negb].
  destruct (window nic (mmap_index vma)) as [[p n]|] eqn:Ew; [|done]. intros Hm.
  destruct (Hok _ _ _ Ew) as (Hp & Hpa & Hn). exists p, n. split; [done|].
  by eapply map_window_in.
Qed.

Definition example_windows : accnet_windows :=
  mk_windows MAGIC_CHAR 0x10018000 0x1000 0x1001b000 0x1000 0x1001a000 0x1000.

Lemma example_windows_ok : windows_ok example_windows.
Proof.
  intros i p n. unfold window. repeat case_bool; intros [= <- <-];
    repeat split; done.
Qed.

Lemma accnet_mmap_confined_witness :
  exists p n, window example_windows 1 = Some (p, n) /\
    p <= 0x1001b * 4096 /\ 0x1001b * 4096 + 4096 <= p + n.
Proof.
  apply (accnet_mmap_confined example_windows (mmap_request 1 0 0x7000000 4096)
           0x7000000 0x1001b 4096 example_windows_ok); [done|done|reflexivity].
Defined.

(** *** Region information *)

(** A query structure as a process fills it in. *)
Definition query_ok (info : region_info) : Prop :=
  Forall u32_field
    [ri_argsz info; ri_flags info; ri_index info; ri_type info; ri_next info; ri_child info] /\
  0 <= ri_size info < 2 ^ 64 /\ 0 <= ri_offset info < 2 ^ 64 /\
  length (ri_name info) = 32%nat /\ sizeof_region_info <= ri_argsz info.

Lemma region_info_window nic info p n :
  windows_ok nic -> query_ok info -> window nic (ri_index info) = Some (p, n) ->
  exists info', accnet_region_info nic info = Some info' /\
    ri_index info' = ri_index info /\ ri_size info' = n /\
    ri_offset info' = Z.shiftl (ri_index info) 40 /\ query_ok info'.
Proof.
  intros Hok (HF & _ & _ & Hn & Ha) Ew. destruct (Hok _ _ _ Ew) as (_ & _ & Hsz).
  pose proof (window_range _ _ _ Ew) as Hi.
  assert (u64 (Z.shiftl (ri_index info) 40) = Z.shiftl (ri_index info) 40) as Hoff.
  { apply u_small. rewrite Z.shiftl_mul_pow2; lia. }
  assert (exists nx nm, 0 <= nx <= 3 /\
    accnet_region_info nic info = Some (region_case (region_defaults info) nx n nm))
    as (nx & nm & Hnx & E).
  { unfold accnet_region_info, window in *. cbn [ri_index region_defaults].
    destruct (ri_index info =? 0);
      [injection Ew as _ <-; exists 1, name_ctrl; split; [lia|reflexivity]|].
    destruct (ri_index info =? 1);
      [injection Ew as _ <-; exists 2, name_udp_tx; split; [lia|reflexivity]|].
    destruct (ri_index info =? 2);
      [injection Ew as _ <-; exists 3, name_udp_rx; split; [lia|reflexivity]|]. done. }
  eexists. split; [exact E|]. split; [done|]. split; [done|]. split; [exact Hoff|].
  repeat (apply list.Forall_cons in HF as [? HF]). unfold query_ok, region_case, region_defaults.
  cbn [ri_argsz ri_flags ri_index ri_type ri_next ri_child ri_size ri_offset ri_name].
  unfold u32_field in *. rewrite Hoff.
  split; [repeat (apply list.Forall_cons; split; [first [done|lia]|]); constructor|].
  rewrite Z.shiftl_mul_pow2 by lia. split; [lia|]. split; [lia|]. by split; [rewrite length_strlcpy; rewrite length_insert; lia|].
Qed.

Lemma mmap_whole nic i p n start len :
  windows_ok nic -> window nic i = Some (p, n) ->
  0 <= len <= n -> 0 <= start < 2 ^ 62 ->
  accnet_misc_mmap nic (mmap_request i 0 start len) = MmapIo start (p / 4096) len.
Proof.
  intros Hok Ew Hl Hs. destruct (Hok _ _ _ Ew) as (Hp & _ & Hn).
  pose proof (window_range _ _ _ Ew) as Hi.
  destruct (mmap_request_decode i 0 start len) as (Ei & Eg & El & Es); try (lia || done).
  rewrite mmap_window, Ei, Ew. unfold map_window. rewrite Eg, El, Es.
  change (0 / 4096) with 0. cbn [vm_start vm_end vm_shared mmap_request negb].
  rewrite (proj2 (Z.ltb_ge _ _)) by lia. rewrite Z.add_0_l, Z.add_0_r, (u_small 64 len) by lia.
  rewrite (proj2 (Z.ltb_ge _ _)) by lia. unfold PAGE_SHIFT. rewrite Z.shiftr_div_pow2 by lia.
  change (2 ^ 12) with 4096. by rewrite u_small by zdm.
Qed.

(** C35: A process that asks for region 0, 1 or 2 gets status 0 and, in its own
    buffer, the size of that window and the offset at which it can be mapped;
    mapping any part of that size at the offset reported yields the pages of that
    window; no byte outside the buffer changes. *)
Theorem accnet_region_roundtrip nic m arg info p n start len :
  windows_ok nic -> query_ok info ->
  mapped m arg 72 -> copy_from_user m arg 72 = Some (region_info_bytes info) ->
  window nic (ri_index info) = Some (p, n) -> 0 <= len <= n -> 0 <= start < 2 ^ 62 ->
  exists m' l info',
    accnet_misc_ioctl nic ACCNET_IOCTL_GET_REGION_INFO arg m = (0, m') /\
    copy_from_user m' arg 72 = Some l /\ region_info_of l = info' /\
    ri_size info' = n /\
    accnet_misc_mmap nic
      (mk_vma start (start + len) (Z.shiftr (ri_offset info') PAGE_SHIFT) true)
    = MmapIo start (p / 4096) len /\
    (forall k, ~ (arg <= k < arg + 72) -> m' !! k = m !! k).
Proof.
  intros Hok Hq Hm Hl Ew Hlen Hs.
  destruct (region_info_window nic info p n Hok Hq Ew) as (info' & Er & Ei & Es & Eo & Hq').
  pose proof Hq as (HF & ? & ? & ? & Ha). pose proof Hq' as (HF' & ? & ? & Hn' & _).
  assert (length (region_info_bytes info') = 72%nat) as Hlb
    by (unfold region_info_bytes; cbn [map concat]; rewrite !length_app, !length_le_split, Hn'; done).
  destruct (copy_to_user_ok (region_info_bytes info') m arg) as (m' & Ec & Hl' & Hf);
    [by rewrite Hlb|]. rewrite Hlb in Hl', Hf.
  exists m', (region_info_bytes info'), info'. split.
  - unfold accnet_misc_ioctl. change (_ =? ACCNET_IOCTL_GET_API_VERSION) with false.
    change (_ =? ACCNET_IOCTL_GET_DEVICE_INFO) with false.
    change (_ =? ACCNET_IOCTL_GET_REGION_INFO) with true. cbv iota zeta.
    change sizeof_region_info with 72 in *. rewrite Hl, region_info_of_bytes by done.
    rewrite (proj2 (Z.ltb_ge _ _)) by lia. rewrite Er. unfold reply. by rewrite Ec.
  - split; [done|]. split; [by apply region_info_of_bytes|]. split; [done|]. split; [|done].
    rewrite Eo. rewrite <- (Z.add_0_r (Z.shiftl _ _)). by apply (mmap_whole nic (ri_index info) p n).
Qed.

Lemma accnet_region_roundtrip_witness :
  let info := mk_region_info 72 0 2 0 0 0 0 0 (repeat 0 32) in
  let m := (copy_to_user (list_to_map (map (λ k, (Z.of_nat k, 0)) (seq 0 72))) 0
              (region_info_bytes info)).2 in
  exists m' l info',
    accnet_misc_ioctl example_windows ACCNET_IOCTL_GET_REGION_INFO 0 m = (0, m') /\
    copy_from_user m' 0 72 = Some l /\ region_info_of l = info' /\ ri_size info' = 0x1000 /\
    accnet_misc_mmap example_windows
      (mk_vma 0x7000000 (0x7000000 + 4096) (Z.shiftr (ri_offset info') PAGE_SHIFT) true)
    = MmapIo 0x7000000 (0x1001a000 / 4096) 4096.
Proof.
  intros info m.
  destruct (accnet_region_roundtrip example_windows m 0 info 0x1001a000 0x1000 0x7000000 4096)
    as (m' & l & info' & H1 & H2 & H3 & H4 & H5 & _).
  - exact example_windows_ok.
  - apply (bool_decide_eq_true_1 _). vm_compute. reflexivity.
  - intros k Hk.
    assert (Forall (λ j, is_Some (m !! Z.of_nat j)) (seq 0 72)) as HF
      by (apply (bool_decide_eq_true_1 _); vm_compute; reflexivity).
    rewrite Forall_forall in HF. rewrite <- (Z2Nat.id k) by lia. apply HF.
    apply in_seq. lia.
  - vm_compute. reflexivity.
  - reflexivity.
  - lia.
  - lia.
  - exists m', l, info'. exact (conj H1 (conj H2 (conj H3 (conj H4 H5)))).
Defined.
