(* ===== verification/AccnetProbe.v ===== *)
(** * Probing and removing the AccNIC ([drivers/accnet-driver/accnet.c])

    [accnet_parse_addr], [accnet_parse_irq], [accnet_init_mac_address],
    [init_udp_engine], [accnet_probe] and [accnet_remove] over the resources the
    platform hands out.  The device tree, [ioremap], the interrupt core and the
    registration functions are not part of the repository: they are the class
    [Platform]. *)

From S2P Require Import Prelude Prog Mmio AccnetRegs SkbRing AccnetDriver UserMem AccnetMisc.

(** [of_match]/[of_find_compatible_node] strings of the four engines. *)
Inductive engine := RX_ENGINE | TX_ENGINE | UDP_RX_ENGINE | UDP_TX_ENGINE.

Record resource := mk_resource { res_start : Z; res_size : Z }.

Inductive isr := ISR_TX | ISR_RX.

(** An [inl e] is a negative error number. *)
Class Platform := {
  of_node : option Z;
  alloc_etherdev : bool;
  of_address_to_resource : Z -> Z -> Z + resource;
  devm_ioremap_resource : resource -> Z + unit;
  of_find_compatible_node : engine -> option Z;
  irq_of_parse_and_map : Z -> Z -> Z;
  devm_request_irq : Z -> isr -> Z;
  register_netdev : Z;
  misc_register : Z
}.

(** [struct accnet_device] and [struct net_device] while they are set up. *)
Record probe_state (D : Type) := mk_probe {
  p_dev : D;
  p_drvdata : bool;                 (* dev_set_drvdata *)
  p_win : accnet_windows;
  p_mapped : list region;           (* windows ioremapped so far *)
  p_send_cq : sk_buff_cq;
  p_recv_cq : sk_buff_cq;
  p_tx_irq : Z;
  p_rx_irq : Z;
  p_irqs : list (Z * isr);          (* requested *)
  p_mac : list Z;
  p_napi : bool;                    (* netif_napi_add / netif_napi_del *)
  p_netdev : bool;                  (* registered with the network stack *)
  p_misc : bool                     (* accnet-misc registered *)
}.
Arguments mk_probe {D}.
Arguments p_dev {D}.
Arguments p_drvdata {D}.
Arguments p_win {D}.
Arguments p_mapped {D}.
Arguments p_send_cq {D}.
Arguments p_recv_cq {D}.
Arguments p_tx_irq {D}.
Arguments p_rx_irq {D}.
Arguments p_irqs {D}.
Arguments p_mac {D}.
Arguments p_napi {D}.
Arguments p_netdev {D}.
Arguments p_misc {D}.

Section probe_setters.
Context {D : Type}.
Implicit Types s : probe_state D.
Definition p_set_dev (d : D) s : probe_state D :=
  mk_probe d (p_drvdata s) (p_win s) (p_mapped s) (p_send_cq s) (p_recv_cq s) (p_tx_irq s)
    (p_rx_irq s) (p_irqs s) (p_mac s) (p_napi s) (p_netdev s) (p_misc s).
Definition p_set_win (w : accnet_windows) s : probe_state D :=
  mk_probe (p_dev s) (p_drvdata s) w (p_mapped s) (p_send_cq s) (p_recv_cq s) (p_tx_irq s)
    (p_rx_irq s) (p_irqs s) (p_mac s) (p_napi s) (p_netdev s) (p_misc s).
Definition p_add_mapped (r : region) s : probe_state D :=
  mk_probe (p_dev s) (p_drvdata s) (p_win s) (p_mapped s ++ [r]) (p_send_cq s) (p_recv_cq s)
    (p_tx_irq s) (p_rx_irq s) (p_irqs s) (p_mac s) (p_napi s) (p_netdev s) (p_misc s).
Definition p_set_irqs (tx rx : Z) (l : list (Z * isr)) s : probe_state D :=
  mk_probe (p_dev s) (p_drvdata s) (p_win s) (p_mapped s) (p_send_cq s) (p_recv_cq s)
    tx rx l (p_mac s) (p_napi s) (p_netdev s) (p_misc s).
Definition p_set_mac (m : list Z) s : probe_state D :=
  mk_probe (p_dev s) (p_drvdata s) (p_win s) (p_mapped s) (p_send_cq s) (p_recv_cq s)
    (p_tx_irq s) (p_rx_irq s) (p_irqs s) m (p_napi s) (p_netdev s) (p_misc s).
Definition p_set_flags (napi netdev misc : bool) s : probe_state D :=
  mk_probe (p_dev s) (p_drvdata s) (p_win s) (p_mapped s) (p_send_cq s) (p_recv_cq s)
    (p_tx_irq s) (p_rx_irq s) (p_irqs s) (p_mac s) napi netdev misc.
(** [devm_alloc_etherdev], [dev_set_drvdata], the magic number and the rings. *)
Definition p_init s : probe_state D :=
  mk_probe (p_dev s) true
    (mk_windows MAGIC_CHAR (hw_regs_control_phys (p_win s)) (hw_regs_control_size (p_win s))
       (hw_regs_udp_tx_phys (p_win s)) (hw_regs_udp_tx_size (p_win s))
       (hw_regs_udp_rx_phys (p_win s)) (hw_regs_udp_rx_size (p_win s)))
    (p_mapped s) (sk_buff_cq_init (p_send_cq s)) (sk_buff_cq_init (p_recv_cq s))
    (p_tx_irq s) (p_rx_irq s) (p_irqs s) (p_mac s) (p_napi s) (p_netdev s) (p_misc s).
End probe_setters.

#[export] Instance probe_has_dev D : HasDev (probe_state D) D.
Proof. refine {| the_dev := p_dev; set_dev := p_set_dev |}; by intros []. Defined.

Definition win_ctrl (r : resource) (w : accnet_windows) : accnet_windows :=
  mk_windows (magic w) (res_start r) (res_size r)
    (hw_regs_udp_tx_phys w) (hw_regs_udp_tx_size w)
    (hw_regs_udp_rx_phys w) (hw_regs_udp_rx_size w).
Definition win_udp_tx (r : resource) (w : accnet_windows) : accnet_windows :=
  mk_windows (magic w) (hw_regs_control_phys w) (hw_regs_control_size w)
    (res_start r) (res_size r) (hw_regs_udp_rx_phys w) (hw_regs_udp_rx_size w).
Definition win_udp_rx (r : resource) (w : accnet_windows) : accnet_windows :=
  mk_windows (magic w) (hw_regs_control_phys w) (hw_regs_control_size w)
    (hw_regs_udp_tx_phys w) (hw_regs_udp_tx_size w) (res_start r) (res_size r).

Section probe.
Context {D : Type} `{Mmio D} `{Platform}.
Abbreviation M := (prog (probe_state D)).

(** [devm_ioremap_resource] and the test of its result. *)
Definition map_resource (res : resource) (r : region) (k : M Z) : M Z :=
  match devm_ioremap_resource res with
  | inl e => mret e
  | inr _ => modify (p_add_mapped r);; k
  end.

(** One of the four engines: find its node, read its resource, map it. *)
Definition map_engine (e : engine) (r : region) (k : resource -> M Z) : M Z :=
  match of_find_compatible_node e with
  | None => mret (- ENODEV)
  | Some np =>
      match of_address_to_resource np 0 with
      | inl _ => mret (- EINVAL)
      | inr res => map_resource res r (k res)
      end
  end.

Definition save_window (f : accnet_windows -> accnet_windows) : M unit :=
  modify (λ s, p_set_win (f (p_win s)) s).

Definition accnet_parse_addr (node : Z) : M Z :=
  match of_address_to_resource node 0 with
  | inl err => mret err
  | inr regs =>
      map_resource regs ACCNET_CTRL (
      save_window (win_ctrl regs);;
      map_engine RX_ENGINE ACCNET_RX (λ _,
      map_engine TX_ENGINE ACCNET_TX (λ _,
      map_engine UDP_RX_ENGINE ACCNET_UDP_RX (λ regs_udp_rx,
      save_window (win_udp_rx regs_udp_rx);;
      map_engine UDP_TX_ENGINE ACCNET_UDP_TX (λ regs_udp_tx,
      save_window (win_udp_tx regs_udp_tx);;
      mret 0)))))
  end.

Definition accnet_parse_irq (node : Z) : M Z :=
  let tx := irq_of_parse_and_map node 0 in
  modify (λ s, p_set_irqs tx (p_rx_irq s) (p_irqs s) s);;
  if tx =? 0 then mret (- EINVAL)
  else
    let err := devm_request_irq tx ISR_TX in
    if negb (err =? 0) then mret err
    else
      modify (λ s, p_set_irqs (p_tx_irq s) (p_rx_irq s) (p_irqs s ++ [(tx, ISR_TX)]) s);;
      let rx := irq_of_parse_and_map node 1 in
      modify (λ s, p_set_irqs (p_tx_irq s) rx (p_irqs s) s);;
      if rx =? 0 then mret (- EINVAL)
      else
        let err := devm_request_irq rx ISR_RX in
        if negb (err =? 0) then mret err
        else
          modify (λ s, p_set_irqs (p_tx_irq s) (p_rx_irq s) (p_irqs s ++ [(rx, ISR_RX)]) s);;
          mret 0.

(** [dev_addr_set] copies [MACADDR_BYTES] bytes of the little-endian word. *)
Definition accnet_init_mac_address : M unit :=
  let macaddr := 0xe24d06350a00 in
  modify (p_set_mac (le_split (Z.to_nat MACADDR_BYTES) macaddr)).

Definition init_udp_ring (i : Z) : M unit :=
  iowrite W32 ACCNET_UDP_RX (ACCNET_UDP_RX_RING_HEAD i) 0;;
  iowrite W32 ACCNET_UDP_RX (ACCNET_UDP_RX_RING_TAIL i) 0;;
  iowrite W32 ACCNET_UDP_TX (ACCNET_UDP_TX_RING_HEAD i) 0;;
  iowrite W32 ACCNET_UDP_TX (ACCNET_UDP_TX_RING_TAIL i) 0.

Definition init_udp_engine : M unit :=
  for_loop (Z.to_nat ACCNET_UDP_RING_COUNT) 0 init_udp_ring;;
  iowrite W16 ACCNET_UDP_TX ACCNET_UDP_TX_MTU 1472;;
  iowrite W64 ACCNET_UDP_TX ACCNET_UDP_TX_HDR_MAC_SRC 0x00112233445566;;
  iowrite W64 ACCNET_UDP_TX ACCNET_UDP_TX_HDR_MAC_DST 0x00887766554433;;
  iowrite W8 ACCNET_UDP_TX ACCNET_UDP_TX_HDR_IP_TOS 0;;
  iowrite W8 ACCNET_UDP_TX ACCNET_UDP_TX_HDR_IP_TTL 64;;
  iowrite W16 ACCNET_UDP_TX ACCNET_UDP_TX_HDR_IP_ID 0.

Definition accnet_probe : M Z :=
  match of_node with
  | None => mret (- ENODEV)
  | Some node =>
      if negb alloc_etherdev then mret (- ENOMEM)
      else
        modify p_init;;
        modify (λ s, p_set_flags true (p_netdev s) (p_misc s) s);;
        ret ← accnet_parse_addr node;
        if ret <? 0 then mret ret
        else
          accnet_init_mac_address;;
          (if register_netdev <? 0 then mret register_netdev
           else
             modify (λ s, p_set_flags (p_napi s) true (p_misc s) s);;
             ret2 ← accnet_parse_irq node;
             if ret2 <? 0 then mret ret2
             else if negb (misc_register =? 0) then mret misc_register
             else
               modify (λ s, p_set_flags (p_napi s) (p_netdev s) true s);;
               init_udp_engine;;
               mret 0)
  end.

Definition probe_clear_intmask (mask : Z) : M unit :=
  old ← ioread W32 ACCNET_CTRL ACCNET_INTR_MASK;
  iowrite W32 ACCNET_CTRL ACCNET_INTR_MASK (Z.land (u32 (Z.lnot mask)) old).

Definition accnet_remove : M Z :=
  s ← get;
  if negb (p_drvdata s) then mret 0
  else
    modify (λ s, p_set_flags (p_napi s) (p_netdev s) false s);;
    modify (λ s, p_set_flags (p_napi s) false (p_misc s) s);;
    modify (λ s, p_set_flags false (p_netdev s) (p_misc s) s);;
    probe_clear_intmask ACCNET_INTMASK_BOTH;;
    mret 0.
End probe.

(** ** Properties *)

(** The writes of one round of the loop, and of the whole function. *)
Definition ring_writes (i : Z) : list (width * region * Z * Z) :=
  [(W32, ACCNET_UDP_RX, ACCNET_UDP_RX_RING_HEAD i, 0);
   (W32, ACCNET_UDP_RX, ACCNET_UDP_RX_RING_TAIL i, 0);
   (W32, ACCNET_UDP_TX, ACCNET_UDP_TX_RING_HEAD i, 0);
   (W32, ACCNET_UDP_TX, ACCNET_UDP_TX_RING_TAIL i, 0)].

Definition udp_init_writes : list (width * region * Z * Z) :=
  loop_writes ring_writes (Z.to_nat ACCNET_UDP_RING_COUNT) 0 ++
  [(W16, ACCNET_UDP_TX, ACCNET_UDP_TX_MTU, 1472);
   (W64, ACCNET_UDP_TX, ACCNET_UDP_TX_HDR_MAC_SRC, 0x00112233445566);
   (W64, ACCNET_UDP_TX, ACCNET_UDP_TX_HDR_MAC_DST, 0x00887766554433);
   (W8, ACCNET_UDP_TX, ACCNET_UDP_TX_HDR_IP_TOS, 0);
   (W8, ACCNET_UDP_TX, ACCNET_UDP_TX_HDR_IP_TTL, 64);
   (W16, ACCNET_UDP_TX, ACCNET_UDP_TX_HDR_IP_ID, 0)].

(** The registers the UDP engines start from.  The addresses of receive ring 32 are
    those of the interrupt registers, about which nothing is said. *)
Definition udp_engine_ready `{Mmio D} (d : D) : Prop :=
  (forall r, 0 <= r < ACCNET_UDP_RING_COUNT ->
     reg_val W32 ACCNET_UDP_TX (ACCNET_UDP_TX_RING_HEAD r) d = 0 /\
     reg_val W32 ACCNET_UDP_TX (ACCNET_UDP_TX_RING_TAIL r) d = 0 /\
     (r <> 32 ->
      reg_val W32 ACCNET_UDP_RX (ACCNET_UDP_RX_RING_HEAD r) d = 0 /\
      reg_val W32 ACCNET_UDP_RX (ACCNET_UDP_RX_RING_TAIL r) d = 0)) /\
  reg_val W16 ACCNET_UDP_TX ACCNET_UDP_TX_MTU d = 1472 /\
  reg_val W64 ACCNET_UDP_TX ACCNET_UDP_TX_HDR_MAC_SRC d = 0x112233445566 /\
  reg_val W64 ACCNET_UDP_TX ACCNET_UDP_TX_HDR_MAC_DST d = 0x887766554433 /\
  reg_val W8 ACCNET_UDP_TX ACCNET_UDP_TX_HDR_IP_TOS d = 0 /\
  reg_val W8 ACCNET_UDP_TX ACCNET_UDP_TX_HDR_IP_TTL d = 64 /\
  reg_val W16 ACCNET_UDP_TX ACCNET_UDP_TX_HDR_IP_ID d = 0.

Section probe_facts.
Context {D : Type} `{PlainMmio D}.
Implicit Types s : probe_state D.

Lemma init_udp_engine_run s :
  init_udp_engine s = (Ret tt, p_set_dev (do_writes udp_init_writes (p_dev s)) s).
Proof.
  unfold init_udp_engine.
  rewrite (run_bind _ _ _ _ _ (for_loop_writes init_udp_ring ring_writes ltac:(by intros j []) _ 0 s)).
  unfold udp_init_writes. rewrite do_writes_app. by destruct s.
Qed.

Lemma ring_final_values :
  Forall (λ r,
    final_value udp_init_writes W32 ACCNET_UDP_RX (ACCNET_UDP_RX_RING_HEAD r) None = Some 0 /\
    final_value udp_init_writes W32 ACCNET_UDP_RX (ACCNET_UDP_RX_RING_TAIL r) None = Some 0 /\
    final_value udp_init_writes W32 ACCNET_UDP_TX (ACCNET_UDP_TX_RING_HEAD r) None = Some 0 /\
    final_value udp_init_writes W32 ACCNET_UDP_TX (ACCNET_UDP_TX_RING_TAIL r) None = Some 0)
    (map Z.of_nat (seq 0 64)).
Proof. apply (bool_decide_eq_true_1 _). vm_compute. reflexivity. Qed.

Lemma udp_init_ready (d : D) : udp_engine_ready (do_writes udp_init_writes d).
Proof.
  assert (forall w r a v, final_value udp_init_writes w r a None = Some v -> storage w r a = true ->
    reg_val w r a (do_writes udp_init_writes d) = Word.u (wbits w) v) as Hv
    by (intros w r a v E Hst; by apply (final_value_spec _ _ _ _ Hst None v)).
  split.
  - intros r Hr. pose proof ring_final_values as HF. rewrite Forall_forall in HF.
    destruct (HF r) as (E1 & E2 & E3 & E4).
    { rewrite <- (Z2Nat.id r) by lia. apply in_map, in_seq.
      unfold ACCNET_UDP_RING_COUNT in Hr. lia. }
    rewrite (Hv _ _ _ _ E3 (storage_tx r TX_HEAD Hr eq_refl)), (Hv _ _ _ _ E4 (storage_tx r TX_TAIL Hr eq_refl)).
    split; [done|]. split; [done|]. intros Hne.
    by rewrite (Hv _ _ _ _ E1 (storage_rx r RX_HEAD Hr Hne eq_refl)),
      (Hv _ _ _ _ E2 (storage_rx r RX_TAIL Hr Hne eq_refl)).
  - split; [erewrite Hv by (vm_compute; reflexivity); reflexivity|].
    split; [erewrite Hv by (vm_compute; reflexivity); reflexivity|].
    split; [erewrite Hv by (vm_compute; reflexivity); reflexivity|].
    split; [erewrite Hv by (vm_compute; reflexivity); reflexivity|].
    split; [erewrite Hv by (vm_compute; reflexivity); reflexivity|].
    erewrite Hv by (vm_compute; reflexivity). reflexivity.
Qed.
End probe_facts.

(** A platform on which every request of the driver is granted. *)
Record granted `{Platform} (node : Z) (ctrl udp_tx udp_rx : resource) : Prop := {
  g_node : of_node = Some node;
  g_alloc : alloc_etherdev = true;
  g_ctrl : of_address_to_resource node 0 = inr ctrl;
  g_map res : devm_ioremap_resource res = inr tt;
  g_engine e : exists np res, of_find_compatible_node e = Some np /\
    of_address_to_resource np 0 = inr res /\
    (e = UDP_TX_ENGINE -> res = udp_tx) /\ (e = UDP_RX_ENGINE -> res = udp_rx);
  g_irq i : irq_of_parse_and_map node i <> 0;
  g_request q h : devm_request_irq q h = 0;
  g_netdev : register_netdev = 0
}.

Section probe_results.
Context {D : Type} `{PlainMmio D} `{Platform}.
Implicit Types s : probe_state D.

(** The device tree has everything: the windows and interrupts are known. *)
Lemma parse_addr_run node ctrl udp_tx udp_rx s :
  granted node ctrl udp_tx udp_rx ->
  exists s', accnet_parse_addr node s = (Ret 0, s') /\
    p_win s' = win_udp_tx udp_tx (win_udp_rx udp_rx (win_ctrl ctrl (p_win s))) /\
    p_mapped s' = p_mapped s ++
      [ACCNET_CTRL; ACCNET_RX; ACCNET_TX; ACCNET_UDP_RX; ACCNET_UDP_TX] /\
    s' = mk_probe (p_dev s) (p_drvdata s) (p_win s') (p_mapped s') (p_send_cq s) (p_recv_cq s)
      (p_tx_irq s) (p_rx_irq s) (p_irqs s) (p_mac s) (p_napi s) (p_netdev s) (p_misc s).
Proof.
  intros G. unfold accnet_parse_addr, map_engine, map_resource, save_window.
  rewrite (g_ctrl _ _ _ _ G), !(g_map _ _ _ _ G).
  destruct (g_engine _ _ _ _ G RX_ENGINE) as (? & ? & -> & -> & _ & _).
  destruct (g_engine _ _ _ _ G TX_ENGINE) as (? & ? & -> & -> & _ & _).
  destruct (g_engine _ _ _ _ G UDP_RX_ENGINE) as (? & ? & -> & -> & _ & Hrx).
  destruct (g_engine _ _ _ _ G UDP_TX_ENGINE) as (? & ? & -> & -> & Htx & _).
  rewrite (Hrx eq_refl), (Htx eq_refl), !(g_map _ _ _ _ G).
  eexists. split; [reflexivity|]. split; [reflexivity|].
  split; [cbn; by rewrite <- !app_assoc|reflexivity].
Qed.

Lemma parse_irq_run node ctrl udp_tx udp_rx s :
  granted node ctrl udp_tx udp_rx ->
  let tx := irq_of_parse_and_map node 0 in let rx := irq_of_parse_and_map node 1 in
  accnet_parse_irq node s
  = (Ret 0, p_set_irqs tx rx (p_irqs s ++ [(tx, ISR_TX); (rx, ISR_RX)]) s).
Proof.
  intros G tx rx. unfold accnet_parse_irq. fold tx rx.
  rewrite (proj2 (Z.eqb_neq tx 0)), (proj2 (Z.eqb_neq rx 0)) by apply (g_irq _ _ _ _ G).
  rewrite !(g_request _ _ _ _ G). unfold bind, modify. cbn. by rewrite <- app_assoc.
Qed.

(** The part of the probe both results share: everything up to
    [misc_register]. *)
Lemma probe_upto_misc node ctrl udp_tx udp_rx s :
  granted node ctrl udp_tx udp_rx ->
  let tx := irq_of_parse_and_map node 0 in let rx := irq_of_parse_and_map node 1 in
  exists s1,
    accnet_probe s =
      (if negb (misc_register =? 0) then mret misc_register
       else modify (λ s, p_set_flags (p_napi s) (p_netdev s) true s);;
            init_udp_engine;; mret 0) s1 /\
    s1 = mk_probe (p_dev s) true
      (win_udp_tx udp_tx (win_udp_rx udp_rx (win_ctrl ctrl (p_win (p_init s)))))
      (p_mapped s ++ [ACCNET_CTRL; ACCNET_RX; ACCNET_TX; ACCNET_UDP_RX; ACCNET_UDP_TX])
      (sk_buff_cq_init (p_send_cq s)) (sk_buff_cq_init (p_recv_cq s)) tx rx
      (p_irqs s ++ [(tx, ISR_TX); (rx, ISR_RX)]) [0x00; 0x0a; 0x35; 0x06; 0x4d; 0xe2]
      true true (p_misc s).
Proof.
  intros G tx rx. unfold accnet_probe. rewrite (g_node _ _ _ _ G), (g_alloc _ _ _ _ G).
  cbn [negb]. rewrite !run_modify.
  destruct (parse_addr_run node ctrl udp_tx udp_rx
    (p_set_flags true (p_netdev (p_init s)) (p_misc (p_init s)) (p_init s)) G)
    as (s1 & E1 & Hw & Hmp & Hs1).
  rewrite (run_bind _ _ _ _ _ E1). change (0 <? 0) with false. cbv iota.
  unfold accnet_init_mac_address. rewrite run_modify, (g_netdev _ _ _ _ G).
  change (0 <? 0) with false. cbv iota. rewrite run_modify.
  rewrite (run_bind _ _ _ _ _ (parse_irq_run node ctrl udp_tx udp_rx _ G)).
  change (0 <? 0) with false. cbv iota.
  eexists. split; [reflexivity|]. rewrite Hs1. cbn. by rewrite Hw, Hmp.
Qed.

(** C36: When the platform grants every request, [accnet_probe] returns 0 with all
    five windows mapped, the three windows of the character device as the device
    tree gives them, both interrupts requested, the MAC address
    00:0a:35:06:4d:e2, both rings empty, both interfaces registered, and the UDP
    engines with zeroed ring pointers and the default header fields; of receive ring
    32, whose pointers share their addresses with the interrupt registers, nothing
    is said. *)
Theorem accnet_probe_success node ctrl udp_tx udp_rx s :
  granted node ctrl udp_tx udp_rx -> misc_register = 0 ->
  length (entries (p_send_cq s)) = Z.to_nat CONFIG_ACCNET_RING_SIZE ->
  length (entries (p_recv_cq s)) = Z.to_nat CONFIG_ACCNET_RING_SIZE ->
  exists s', accnet_probe s = (Ret 0, s') /\
    (forall r, r ∈ [ACCNET_CTRL; ACCNET_RX; ACCNET_TX; ACCNET_UDP_RX; ACCNET_UDP_TX] ->
       r ∈ p_mapped s') /\
    window (p_win s') 0 = Some (res_start ctrl, res_size ctrl) /\
    window (p_win s') 1 = Some (res_start udp_tx, res_size udp_tx) /\
    window (p_win s') 2 = Some (res_start udp_rx, res_size udp_rx) /\
    accnet_misc_open (p_win s') = 0 /\
    p_irqs s' = p_irqs s ++ [(p_tx_irq s', ISR_TX); (p_rx_irq s', ISR_RX)] /\
    p_mac s' = [0x00; 0x0a; 0x35; 0x06; 0x4d; 0xe2] /\
    cq_repr (p_send_cq s') [] /\ cq_repr (p_recv_cq s') [] /\
    p_netdev s' = true /\ p_misc s' = true /\ p_napi s' = true /\
    udp_engine_ready (p_dev s').
Proof.
  intros G Hm Hl1 Hl2. destruct (probe_upto_misc _ _ _ _ s G) as (s1 & -> & ->).
  rewrite Hm. change (negb (0 =? 0)) with false. cbv iota.
  rewrite run_modify, (run_bind _ _ _ _ _ (init_udp_engine_run _)).
  eexists. split; [reflexivity|].
  split; [intros r Hr; apply elem_of_app; by right|]. repeat (split; [done|]).
  split; [by apply cq_repr_init|]. split; [by apply cq_repr_init|].
  do 3 (split; [done|]). apply udp_init_ready.
Qed.

(** If the character device cannot be registered, [accnet_probe] fails but leaves the interface registered with the network
    stack; nothing on the error path undoes [register_netdev]. *)
Theorem accnet_probe_misc_failure node ctrl udp_tx udp_rx s :
  granted node ctrl udp_tx udp_rx -> misc_register <> 0 ->
  exists s', accnet_probe s = (Ret misc_register, s') /\
    p_netdev s' = true /\ p_napi s' = true /\ p_misc s' = p_misc s.
Proof.
  intros G Hm. destruct (probe_upto_misc _ _ _ _ s G) as (s1 & -> & ->).
  rewrite (proj2 (Z.eqb_neq _ _) Hm). by eexists.
Qed.
End probe_results.

(** [accnet_remove] undoes the registrations and masks both interrupt sources,
    leaving the other bits of the mask register alone. *)
Lemma accnet_remove_run {D} `{PlainMmio D} (s : probe_state D) :
  p_drvdata s = true ->
  exists s', accnet_remove s = (Ret 0, s') /\
    p_netdev s' = false /\ p_misc s' = false /\ p_napi s' = false /\
    reg_val W32 ACCNET_CTRL ACCNET_INTR_MASK (p_dev s')
    = Z.land (u32 (Z.lnot ACCNET_INTMASK_BOTH))
             (reg_val W32 ACCNET_CTRL ACCNET_INTR_MASK (p_dev s)).
Proof.
  intros Hd. unfold accnet_remove. rewrite run_get, Hd. cbn [negb].
  rewrite !run_modify. unfold probe_clear_intmask.
  eexists. split.
  - unfold bind at 1 2. rewrite ioread_plain by done. cbn [the_dev probe_has_dev]. reflexivity.
  - do 3 (split; [done|]). cbn. unfold reg_val at 1. rewrite read_write_same by done.
    change (wbits W32) with 32. unfold Word.u at 1.
    rewrite Z.land_comm. unfold Word.u. rewrite <- (Z.land_ones _ 32) by lia.
    rewrite <- (Z.land_ones (Z.lnot _) 32) by lia.
    rewrite <- Z.land_assoc. f_equal.
Qed.

(** ** A platform for the examples *)

Module SimPlatform.
Definition res_of (np : Z) : resource := mk_resource (0x10010000 + 0x1000 * np) 0x1000.
Definition sim_platform (misc : Z) : Platform := {|
  of_node := Some 0;
  alloc_etherdev := true;
  of_address_to_resource np _ := inr (res_of np);
  devm_ioremap_resource _ := inr tt;
  of_find_compatible_node e :=
    Some match e with RX_ENGINE => 1 | TX_ENGINE => 2 | UDP_RX_ENGINE => 3 | UDP_TX_ENGINE => 4 end;
  irq_of_parse_and_map _ i := 5 + Z.abs i;
  devm_request_irq _ _ := 0;
  register_netdev := 0;
  misc_register := misc
|}.

Definition fresh_state : probe_state RegFile.regfile :=
  let cq := mk_cq (replicate (Z.to_nat CONFIG_ACCNET_RING_SIZE) 0) 7 7 in
  mk_probe ∅ false (mk_windows 0 0 0 0 0 0 0) [] cq cq 0 0 [] [] false false false.

Lemma sim_granted misc :
  granted (H := sim_platform misc) 0 (res_of 0) (res_of 4) (res_of 3).
Proof.
  split; try done.
  - intros []; by eexists _, _.
  - intros i. simpl. lia.
Qed.
End SimPlatform.

Import SimPlatform RegFile.

Lemma accnet_probe_success_witness :
  exists s', accnet_probe (H0 := sim_platform 0) fresh_state = (Ret 0, s') /\ udp_engine_ready (p_dev s').
Proof.
  destruct (accnet_probe_success (H1 := sim_platform 0) 0 (res_of 0) (res_of 4) (res_of 3)
              fresh_state (sim_granted 0) eq_refl eq_refl eq_refl) as (s' & E & Hx).
  exists s'. split; [exact E|]. do 12 destruct Hx as [_ Hx]. exact Hx.
Defined.

Lemma accnet_probe_misc_failure_witness :
  exists s', accnet_probe (H0 := sim_platform (-12)) fresh_state = (Ret (-12), s') /\ p_netdev s' = true.
Proof.
  destruct (accnet_probe_misc_failure (H1 := sim_platform (-12)) 0 (res_of 0) (res_of 4)
              (res_of 3) fresh_state (sim_granted (-12)) ltac:(done)) as (s' & E & Hn & _).
  exists s'. split; [exact E|exact Hn].
Defined.
