(* ===== verification/IocacheDriver.v ===== *)
(** * The I/O-cache driver ([drivers/iocache-driver/iocache.c], [iocache_plic.c])

    Interrupt masks, the RX interrupt handler and its kick loop, parsing of the
    device tree, the DMA rings, PLIC priorities and fast-path handlers, probe and
    remove.  The state holds the device registers, [struct iocache_device] and
    the trace of the calls the driver makes into the kernel. *)

From S2P Require Import Prelude Prog Mmio IocacheRegs UserMem.

Inductive isr := iocache_rx_handler | iocache_txcomp_handler.

(** Calls into the kernel that change its state, in order. *)
Inductive call :=
| wake_up_process_iocache (task : Z)
| wake_up_process (task : Z)
| set_tsk_need_resched
| request_irq (irq : Z) (h : isr)
| irq_set_affinity (irq cpu : Z)
| plic_register_source_handler (hwirq : Z) (h : isr)
| plic_unregister_source_handler (hwirq : Z)
| register_iocache_forall
| dma_alloc_coherent (cpu_addr dma_addr size : Z)
| dma_free_coherent (cpu_addr dma_addr size : Z)
| call_misc_register
| call_misc_deregister
| eventfd_ctx_put (ctx : Z)
| migrate_disable
| hrtimer_init (task : Z)
| hrtimer_start (task period : Z)
| hrtimer_cancel (task : Z)
| set_current_state_interruptible (task : Z)
| call_schedule (task : Z)
| sched_force_next_local (task : Z).

#[export] Instance isr_eq_dec : EqDecision isr.
Proof. solve_decision. Defined.
#[export] Instance call_eq_dec : EqDecision call.
Proof. solve_decision. Defined.

(** What the kernel answers. [IRQ_HANDLED] is 1. *)
Class IocPlatform := {
  ioc_of_node : bool;
  kzalloc_ok : bool;
  reg_resource : Z + (Z * Z);                 (* error, or start and size *)
  reg_ioremap : Z + unit;
  irq_map : Z -> Z;                           (* irq_of_parse_and_map(node, i) *)
  request_result : Z -> Z;                    (* devm_request_irq(irq) *)
  irq_hwirq : Z -> option Z;                  (* irq_get_irq_data, irqd_to_hwirq *)
  plic_node_riscv : bool;                     (* "riscv,plic0" exists *)
  plic_node_sifive : bool;                    (* "sifive,plic-1.0.0" exists *)
  plic_iomap : bool;
  plic_register_result : Z -> Z;
  dma_alloc : list call -> Z -> option (Z * Z) (* calls so far, size: CPU and bus address *)
}.

Record dma_ring := mk_ring {
  len : Z; cpu_addr : Z; cpu_aligned : Z; dma_addr : Z; dma_aligned : Z
}.

Record irq_table := mk_irqs {
  rx_irq : list Z; rx_hwirq : list Z; txcomp_irq : list Z; txcomp_hwirq : list Z
}.

Record ioc_state (D : Type) := mk_ioc {
  ioc_dev : D;
  ioc_magic : Z;
  ioc_phys : Z; ioc_size : Z;        (* hw_regs_control_{phys,size} *)
  ioc_irqs : irq_table;
  tx_rings : list dma_ring;          (* dma_region_*_udp_tx[64] *)
  rx_rings : list dma_ring;
  ev_ctx : option Z;
  ev_lock : bool; ring_alloc_lock : bool; rxkick_lock : bool;
  trace : list call
}.
Arguments mk_ioc {D}.
Arguments ioc_dev {D}.
Arguments ioc_magic {D}.
Arguments ioc_phys {D}.
Arguments ioc_size {D}.
Arguments ioc_irqs {D}.
Arguments tx_rings {D}.
Arguments rx_rings {D}.
Arguments ev_ctx {D}.
Arguments ev_lock {D}.
Arguments ring_alloc_lock {D}.
Arguments rxkick_lock {D}.
Arguments trace {D}.

Section ioc_setters.
Context {D : Type}.
Implicit Types s : ioc_state D.
Definition ioc_set_dev (d : D) s : ioc_state D :=
  mk_ioc d (ioc_magic s) (ioc_phys s) (ioc_size s) (ioc_irqs s) (tx_rings s) (rx_rings s)
    (ev_ctx s) (ev_lock s) (ring_alloc_lock s) (rxkick_lock s) (trace s).
Definition set_magic (m : Z) s : ioc_state D :=
  mk_ioc (ioc_dev s) m (ioc_phys s) (ioc_size s) (ioc_irqs s) (tx_rings s) (rx_rings s)
    (ev_ctx s) (ev_lock s) (ring_alloc_lock s) (rxkick_lock s) (trace s).
Definition set_window (p n : Z) s : ioc_state D :=
  mk_ioc (ioc_dev s) (ioc_magic s) p n (ioc_irqs s) (tx_rings s) (rx_rings s)
    (ev_ctx s) (ev_lock s) (ring_alloc_lock s) (rxkick_lock s) (trace s).
Definition set_irqs (t : irq_table) s : ioc_state D :=
  mk_ioc (ioc_dev s) (ioc_magic s) (ioc_phys s) (ioc_size s) t (tx_rings s) (rx_rings s)
    (ev_ctx s) (ev_lock s) (ring_alloc_lock s) (rxkick_lock s) (trace s).
Definition set_rings (t r : list dma_ring) s : ioc_state D :=
  mk_ioc (ioc_dev s) (ioc_magic s) (ioc_phys s) (ioc_size s) (ioc_irqs s) t r
    (ev_ctx s) (ev_lock s) (ring_alloc_lock s) (rxkick_lock s) (trace s).
Definition set_ev_ctx (c : option Z) s : ioc_state D :=
  mk_ioc (ioc_dev s) (ioc_magic s) (ioc_phys s) (ioc_size s) (ioc_irqs s) (tx_rings s)
    (rx_rings s) c (ev_lock s) (ring_alloc_lock s) (rxkick_lock s) (trace s).
Definition set_locks (e a k : bool) s : ioc_state D :=
  mk_ioc (ioc_dev s) (ioc_magic s) (ioc_phys s) (ioc_size s) (ioc_irqs s) (tx_rings s)
    (rx_rings s) (ev_ctx s) e a k (trace s).
Definition add_call (c : call) s : ioc_state D :=
  mk_ioc (ioc_dev s) (ioc_magic s) (ioc_phys s) (ioc_size s) (ioc_irqs s) (tx_rings s)
    (rx_rings s) (ev_ctx s) (ev_lock s) (ring_alloc_lock s) (rxkick_lock s) (trace s ++ [c]).
End ioc_setters.

#[export] Instance ioc_has_dev D : HasDev (ioc_state D) D.
Proof. refine {| the_dev := ioc_dev; set_dev := ioc_set_dev |}; by intros []. Defined.

(** The first [n] natural numbers as row or CPU indices. *)
Definition indices (n : Z) : list Z := map Z.of_nat (seq 0 (Z.to_nat n)).

Section driver.
Context {D : Type} `{Mmio D} `{IocPlatform}.
Abbreviation M := (prog (ioc_state D)).

Definition emit (c : call) : M unit := modify (add_call c).

(** ** Interrupt masks *)

Definition set_intmask_rx (cpu : Z) : M unit :=
  iowrite W8 IOCACHE (IOCACHE_REG_INTMASK_RX cpu) 0x1.
Definition clear_intmask_rx (cpu : Z) : M unit :=
  iowrite W8 IOCACHE (IOCACHE_REG_INTMASK_RX cpu) 0x0.
Definition set_intmask_txcomp (cpu : Z) : M unit :=
  iowrite W8 IOCACHE (IOCACHE_REG_INTMASK_TXCOMP cpu) 0x1.
Definition clear_intmask_txcomp (cpu : Z) : M unit :=
  iowrite W8 IOCACHE (IOCACHE_REG_INTMASK_TXCOMP cpu) 0x0.

(** ** Interrupt handlers *)

Definition spin_lock_rxkick : M unit :=
  s ← get;
  if rxkick_lock s then fail Deadlock
  else modify (λ s, set_locks (ev_lock s) (ring_alloc_lock s) true s).
Definition spin_unlock_rxkick : M unit :=
  modify (λ s, set_locks (ev_lock s) (ring_alloc_lock s) false s).

(** [for (i = 0; i < 64 && count > 0; ++i)] over the remaining rows. *)
Fixpoint kick_loop (rows : list Z) (mask count : Z) : M unit :=
  match rows with
  | [] => mret tt
  | i :: rows' =>
      if 0 <? count then
        if Z.testbit mask i then
          raw_pointer ← ioread W64 IOCACHE (IOCACHE_REG_PROC_PTR i);
          if raw_pointer =? 0 then kick_loop rows' mask count
          else emit (wake_up_process_iocache raw_pointer);;
               kick_loop rows' mask (count - 1)
        else kick_loop rows' mask count
      else mret tt
  end.

Definition iocache_isr_rx (cpu : Z) : M Z :=
  spin_lock_rxkick;;
  iowrite W32 IOCACHE IOCACHE_REG_RX_KICK_ALL_CPU cpu;;
  count ← ioread W32 IOCACHE IOCACHE_REG_RX_KICK_ALL_COUNT;
  mask ← ioread W64 IOCACHE IOCACHE_REG_RX_KICK_ALL_MASK;
  spin_unlock_rxkick;;
  kick_loop (indices IOCACHE_CACHE_ENTRY_COUNT) mask count;;
  emit set_tsk_need_resched;;
  mret 1.

Definition iocache_isr_txcomp : M Z := mret 1.

(** ** Device tree *)

Definition set_rx_irq (i v : Z) (t : irq_table) : irq_table :=
  mk_irqs (<[Z.to_nat i := v]> (rx_irq t)) (rx_hwirq t) (txcomp_irq t) (txcomp_hwirq t).
Definition set_rx_hwirq (i v : Z) (t : irq_table) : irq_table :=
  mk_irqs (rx_irq t) (<[Z.to_nat i := v]> (rx_hwirq t)) (txcomp_irq t) (txcomp_hwirq t).
Definition set_txcomp_irq (i v : Z) (t : irq_table) : irq_table :=
  mk_irqs (rx_irq t) (rx_hwirq t) (<[Z.to_nat i := v]> (txcomp_irq t)) (txcomp_hwirq t).
Definition set_txcomp_hwirq (i v : Z) (t : irq_table) : irq_table :=
  mk_irqs (rx_irq t) (rx_hwirq t) (txcomp_irq t) (<[Z.to_nat i := v]> (txcomp_hwirq t)).
Definition update_irqs (f : irq_table -> irq_table) : M unit :=
  modify (λ s, set_irqs (f (ioc_irqs s)) s).

(** Map, request and steer one interrupt to CPU [i]; [Some e] is a [return e]. *)
Definition setup_irq (i index : Z) (save : Z -> irq_table -> irq_table) (h : isr)
  : M (option Z) :=
  let irq := irq_map index in
  update_irqs (save irq);;
  if irq =? 0 then mret (Some (- EINVAL))
  else
    let err := request_result irq in
    if negb (err =? 0) then mret (Some err)
    else emit (request_irq irq h);; emit (irq_set_affinity irq i);; mret None.

Definition parse_irq_cpu (i : Z) : M (option Z) :=
  r ← setup_irq i (2 * i) (set_rx_irq i) iocache_rx_handler;
  match r with
  | Some e => mret (Some e)
  | None => setup_irq i (2 * i + 1) (set_txcomp_irq i) iocache_txcomp_handler
  end.

Definition iocache_parse_irq : M Z :=
  r ← for_return (Z.to_nat NUM_CPUS) 0 parse_irq_cpu;
  mret (default 0 r).

Definition iocache_parse_addr : M Z :=
  match reg_resource with
  | inl err => mret err
  | inr (start, size) =>
      match reg_ioremap with
      | inl e => mret e
      | inr _ => modify (set_window start size);; mret 0
      end
  end.

(** ** DMA rings *)

(** [ALIGN(x, 64)] *)
Definition ALIGN64 (x : Z) : Z := u64 (Z.land (x + (ALIGN_BYTES - 1)) (Z.lnot (ALIGN_BYTES - 1))).

Definition alloc_ring : M (option dma_ring) :=
  s ← get;
  let size := IOCACHE_UDP_RING_SIZE + (ALIGN_BYTES - 1) in
  match dma_alloc (trace s) size with
  | None => mret None
  | Some (v, p) =>
      emit (dma_alloc_coherent v p size);;
      let p' := ALIGN64 p in
      mret (Some (mk_ring IOCACHE_UDP_RING_SIZE v (u64 (v + u64 (p' - p))) p p'))
  end.

(** The length is stored before the allocation is tried, a failed allocation
    stores a null pointer. *)
Definition failed_ring (r : dma_ring) : dma_ring :=
  mk_ring IOCACHE_UDP_RING_SIZE 0 (cpu_aligned r) (dma_addr r) (dma_aligned r).

Definition store_tx_ring (i : Z) (r : option dma_ring) : M unit :=
  modify (λ s, set_rings (alter (λ old, default (failed_ring old) r) (Z.to_nat i) (tx_rings s))
                         (rx_rings s) s).
Definition store_rx_ring (i : Z) (r : option dma_ring) : M unit :=
  modify (λ s, set_rings (tx_rings s)
                         (alter (λ old, default (failed_ring old) r) (Z.to_nat i) (rx_rings s)) s).

Definition init_udp_ring (i : Z) : M (option Z) :=
  t ← alloc_ring; store_tx_ring i t;;
  match t with
  | None => mret (Some (- ENOMEM))
  | Some _ =>
      r ← alloc_ring; store_rx_ring i r;;
      match r with
      | None => mret (Some (- ENOMEM))
      | Some _ => mret None
      end
  end.

Definition init_udp_rings : M Z :=
  r ← for_return (Z.to_nat IOCACHE_CACHE_ENTRY_COUNT) 0 init_udp_ring;
  mret (default 0 r).

Definition no_ring : dma_ring := mk_ring 0 0 0 0 0.

Definition populate_row (i : Z) : M unit :=
  iowrite W64 IOCACHE (IOCACHE_REG_ENABLED i) 0;;
  s ← get;
  let rx_base := dma_aligned (nth (Z.to_nat i) (rx_rings s) no_ring) in
  iowrite W64 IOCACHE (IOCACHE_REG_RX_RING_ADDR i) rx_base;;
  iowrite W32 IOCACHE (IOCACHE_REG_RX_RING_SIZE i) IOCACHE_UDP_RING_SIZE;;
  let tx_base := dma_aligned (nth (Z.to_nat i) (tx_rings s) no_ring) in
  iowrite W64 IOCACHE (IOCACHE_REG_TX_RING_ADDR i) tx_base;;
  iowrite W32 IOCACHE (IOCACHE_REG_TX_RING_SIZE i) IOCACHE_UDP_RING_SIZE.

Definition populate_ring_info : M unit :=
  for_loop (Z.to_nat IOCACHE_CACHE_ENTRY_COUNT) 0 populate_row.

(** ** PLIC ([iocache_plic.c]) *)

Definition PLIC_PRIO_OFF (hwirq : Z) : Z := u32 (0x00000000 + 4 * hwirq).
Definition MAX_PRIORITY : Z := 0xFFFFFFFF.

Definition get_hwirq (virq : Z) : Z :=
  match irq_hwirq virq with Some h => u32 h | None => 0 end.

Definition plic_set_src_prio (hwirq want_prio : Z) : M unit :=
  iowrite W32 PLIC (PLIC_PRIO_OFF hwirq) want_prio;;
  _ ← ioread W32 PLIC (PLIC_PRIO_OFF hwirq);
  mret tt.

Definition map_plic_base : M Z :=
  if negb (plic_node_riscv || plic_node_sifive) then mret (- ENODEV)
  else if plic_iomap then mret 0 else mret (- ENOMEM).

(** [return ret] of the loop returns what [map_plic_base] returned: 0. *)
Definition set_prio_one (irq : Z) (save : Z -> irq_table -> irq_table) (ret : Z)
  : M (option Z) :=
  let hwirq := get_hwirq irq in
  if hwirq =? 0 then mret (Some ret)
  else update_irqs (save hwirq);; plic_set_src_prio hwirq MAX_PRIORITY;; mret None.

Definition set_prio_cpu (ret i : Z) : M (option Z) :=
  s ← get;
  r ← set_prio_one (nth (Z.to_nat i) (rx_irq (ioc_irqs s)) 0) (set_rx_hwirq i) ret;
  match r with
  | Some e => mret (Some e)
  | None => set_prio_one (nth (Z.to_nat i) (txcomp_irq (ioc_irqs s)) 0) (set_txcomp_hwirq i) ret
  end.

Definition plic_set_prio : M Z :=
  ret ← map_plic_base;
  if negb (ret =? 0) then mret ret
  else r ← for_return (Z.to_nat NUM_CPUS) 0 (set_prio_cpu ret); mret (default 0 r).

(** [ret] starts uninitialised ([None]); the loop carries it along. *)
Definition register_one (irq : Z) (save : Z -> irq_table -> irq_table) (h : isr)
    (ret : option Z) : M (option Z * bool) :=
  let hwirq := get_hwirq irq in
  if hwirq =? 0 then
    match ret with
    | Some v => mret (Some v, true)
    | None => fail Uninitialised
    end
  else
    update_irqs (save hwirq);;
    let r := plic_register_result hwirq in
    if negb (r =? 0) then mret (Some r, true)
    else emit (plic_register_source_handler hwirq h);; mret (Some r, false).

Fixpoint register_loop (cpus : list Z) (ret : option Z) : M Z :=
  match cpus with
  | [] => mret 0
  | i :: cpus' =>
      s ← get;
      '(ret1, stop1) ← register_one (nth (Z.to_nat i) (rx_irq (ioc_irqs s)) 0)
                         (set_rx_hwirq i) iocache_rx_handler ret;
      if (stop1 : bool) then mret (default 0 ret1)
      else
        '(ret2, stop2) ← register_one (nth (Z.to_nat i) (txcomp_irq (ioc_irqs s)) 0)
                           (set_txcomp_hwirq i) iocache_txcomp_handler ret1;
        if (stop2 : bool) then mret (default 0 ret2)
        else register_loop cpus' ret2
  end.

Definition plic_register_fast_path : M Z := register_loop (indices NUM_CPUS) None.

Definition plic_unregister_fast_path : M Z :=
  for_loop (Z.to_nat NUM_CPUS) 0 (λ i,
    s ← get;
    emit (plic_unregister_source_handler (nth (Z.to_nat i) (rx_hwirq (ioc_irqs s)) 0));;
    emit (plic_unregister_source_handler (nth (Z.to_nat i) (txcomp_hwirq (ioc_irqs s)) 0)));;
  mret 0.

(** ** Probe and remove *)

(** [devm_kzalloc]: every field is zero. *)
Definition zero_state (s : ioc_state D) : ioc_state D :=
  mk_ioc (ioc_dev s) 0 0 0 (mk_irqs (repeat 0 4) (repeat 0 4) (repeat 0 4) (repeat 0 4))
    (repeat no_ring 64) (repeat no_ring 64) None false false false (trace s).

Definition iocache_probe : M Z :=
  if negb ioc_of_node then mret (- ENODEV)
  else if negb kzalloc_ok then mret (- ENOMEM)
  else
    modify zero_state;;
    modify (set_magic MAGIC_CHAR);;
    r1 ← iocache_parse_addr;
    if r1 <? 0 then mret r1
    else
      r2 ← iocache_parse_irq;
      if r2 <? 0 then mret r2
      else
        r3 ← plic_set_prio;
        if negb (r3 =? 0) then mret r3
        else
          modify (set_locks false false false);;
          emit register_iocache_forall;;
          for_loop (Z.to_nat NUM_CPUS) 0 (λ i, set_intmask_rx i;; set_intmask_txcomp i);;
          r4 ← init_udp_rings;
          if negb (r4 =? 0) then mret r4
          else
            populate_ring_info;;
            r5 ← plic_register_fast_path;
            if negb (r5 =? 0) then mret r5
            else emit call_misc_register;; mret 0.

Definition free_ring (r : dma_ring) : M unit :=
  when (negb (cpu_addr r =? 0))
    (emit (dma_free_coherent (cpu_addr r) (dma_addr r) (len r + (ALIGN_BYTES - 1)))).

Definition iocache_remove (drvdata : bool) : M Z :=
  if negb drvdata then mret 0 else
  plic_unregister_fast_path;;
  emit call_misc_deregister;;
  for_loop (Z.to_nat NUM_CPUS) 0 (λ i, clear_intmask_rx i;; clear_intmask_txcomp i);;
  for_loop (Z.to_nat IOCACHE_CACHE_ENTRY_COUNT) 0 (λ i,
    s ← get;
    free_ring (nth (Z.to_nat i) (rx_rings s) no_ring);;
    free_ring (nth (Z.to_nat i) (tx_rings s) no_ring));;
  mret 0.
End driver.
