(* ===== verification/IocacheDriverSpec.v ===== *)
(** * The I/O-cache driver: correctness

    - the RX interrupt handler wakes exactly the kicked processes;
    - every DMA ring is aligned and lies inside its allocation, and the table of
      the device describes it;
    - removing the device returns what probing took. *)

From S2P Require Import Prelude Prog Mmio IocacheRegs UserMem IocacheDriver.

Section trace.
Context {D : Type}.
Implicit Types s : ioc_state D.

Definition add_calls (l : list call) s : ioc_state D :=
  mk_ioc (ioc_dev s) (ioc_magic s) (ioc_phys s) (ioc_size s) (ioc_irqs s) (tx_rings s)
    (rx_rings s) (ev_ctx s) (ev_lock s) (ring_alloc_lock s) (rxkick_lock s) (trace s ++ l).

Lemma add_calls_nil s : add_calls [] s = s.
Proof. destruct s. unfold add_calls. cbn. by rewrite app_nil_r. Qed.

Lemma add_call_calls c l s : add_calls l (add_call c s) = add_calls (c :: l) s.
Proof. unfold add_calls, add_call. cbn. by rewrite <- app_assoc. Qed.

Lemma add_calls_app l l' s : add_calls l' (add_calls l s) = add_calls (l ++ l') s.
Proof. unfold add_calls. cbn. by rewrite <- app_assoc. Qed.

(** Normal form of a state: device, interrupt table, calls, from the inside out. *)
Lemma set_irqs_calls t l s : set_irqs t (add_calls l s) = add_calls l (set_irqs t s).
Proof. done. Qed.

Lemma set_irqs_twice t t' s : set_irqs t (set_irqs t' s) = set_irqs t s.
Proof. done. Qed.

Lemma add_call_eq c s : add_call c s = add_calls [c] s.
Proof. done. Qed.

Lemma set_rings_calls t r l s : set_rings t r (add_calls l s) = add_calls l (set_rings t r s).
Proof. done. Qed.

Lemma set_rings_twice t r t' r' s : set_rings t r (set_rings t' r' s) = set_rings t r s.
Proof. done. Qed.

Lemma set_dev_irqs d t s : ioc_set_dev d (set_irqs t s) = set_irqs t (ioc_set_dev d s).
Proof. done. Qed.

Lemma set_dev_twice d d' s : ioc_set_dev d (ioc_set_dev d' s) = ioc_set_dev d s.
Proof. done. Qed.
End trace.

(** ** The RX interrupt handler *)

Section kick.
Context {D : Type} `{Mmio D}.
(** Only reading SCHED_READ changes the device. *)
Hypothesis table_read : forall w g (d : D),
  reg_valid g -> (forall c, g <> SCHED_READ c) -> (io_read w IOCACHE (reg_addr g) d).2 = d.
Implicit Types s : ioc_state D.

Definition proc_ptr (d : D) (i : Z) : Z := reg_val W64 IOCACHE (IOCACHE_REG_PROC_PTR i) d.

(** The processes of the rows in [mask], at most [count] of them, in row order;
    rows without a process do not count. *)
Definition kicked (d : D) (rows : list Z) (mask count : Z) : list Z :=
  take (Z.to_nat count)
    (filter (λ p, p <> 0) (map (proc_ptr d) (filter (λ i, Z.testbit mask i = true) rows))).

Lemma table_ioread w g s :
  reg_valid g -> (forall c, g <> SCHED_READ c) ->
  ioread w IOCACHE (reg_addr g) s = (Ret (reg_val w IOCACHE (reg_addr g) (ioc_dev s)), s).
Proof.
  intros Hg Hs. unfold ioread, reg_val. cbn -[reg_addr].
  pose proof (table_read w g (ioc_dev s) Hg Hs) as Hr.
  destruct (io_read w IOCACHE (reg_addr g) (ioc_dev s)) as [v d]. simpl in Hr. subst d.
  by destruct s.
Qed.

Lemma kick_loop_run rows mask : Forall (λ i, 0 <= i < IOCACHE_CACHE_ENTRY_COUNT) rows ->
  forall count s,
  kick_loop rows mask count s
  = (Ret tt, add_calls (map wake_up_process_iocache (kicked (ioc_dev s) rows mask count)) s).
Proof.
  induction 1 as [|i rows Hi _ IH]; intros count s.
  { unfold kicked. destruct (Z.to_nat count); simpl; by rewrite add_calls_nil. }
  cbn [kick_loop]. destruct (Z.ltb_spec 0 count) as [Hpos|Hneg].
  2: { unfold kicked. replace (Z.to_nat count) with 0%nat by lia. simpl. by rewrite add_calls_nil. }
  unfold kicked. cbn [filter list_filter].
  destruct (Z.testbit mask i) eqn:Hb.
  2: { rewrite decide_False by congruence. by apply IH. }
  rewrite decide_True by done. cbn [map].
  rewrite (run_bind _ _ _ _ _ (table_ioread W64 (ROW i PROC_PTR) s Hi ltac:(done))).
  change (reg_val W64 IOCACHE _ (ioc_dev s)) with (proc_ptr (ioc_dev s) i).
  rewrite filter_cons.
  destruct (Z.eqb_spec (proc_ptr (ioc_dev s) i) 0) as [Hz|Hnz].
  - rewrite decide_False by tauto. by apply IH.
  - rewrite decide_True by done. unfold emit. rewrite run_modify, IH.
    replace (Z.to_nat count) with (S (Z.to_nat (count - 1))) by lia.
    cbn [take map]. by rewrite add_call_calls.
Qed.

Lemma indices_rows :
  Forall (λ i, 0 <= i < IOCACHE_CACHE_ENTRY_COUNT) (indices IOCACHE_CACHE_ENTRY_COUNT).
Proof.
  apply Forall_forall. unfold indices, IOCACHE_CACHE_ENTRY_COUNT.
  intros i (k & <- & Hk%in_seq)%in_map_iff. lia.
Qed.

(** The RX interrupt handler asks the device for the CPU's kick set and wakes
    exactly the processes of that set's rows, in row order, no more than the
    device counted; it then requests a reschedule and leaves its lock free. *)
Lemma iocache_isr_rx_run cpu s :
  rxkick_lock s = false ->
  let d := io_write W32 IOCACHE IOCACHE_REG_RX_KICK_ALL_CPU cpu (ioc_dev s) in
  let count := reg_val W32 IOCACHE IOCACHE_REG_RX_KICK_ALL_COUNT d in
  let mask := reg_val W64 IOCACHE IOCACHE_REG_RX_KICK_ALL_MASK d in
  iocache_isr_rx cpu s
  = (Ret 1, add_calls (map wake_up_process_iocache
                         (kicked d (indices IOCACHE_CACHE_ENTRY_COUNT) mask count)
                       ++ [set_tsk_need_resched]) (ioc_set_dev d s)).
Proof.
  intros Hl d count mask. unfold iocache_isr_rx.
  assert (spin_lock_rxkick s = (Ret tt, set_locks (ev_lock s) (ring_alloc_lock s) true s)) as E1
    by (unfold spin_lock_rxkick; rewrite run_get, Hl; done).
  rewrite (run_bind _ _ _ _ _ E1), (run_bind _ _ _ _ _ (iowrite_run _ _ _ _ _)).
  rewrite (run_bind _ _ _ _ _ (table_ioread W32 KICK_COUNT _ I ltac:(done))).
  rewrite (run_bind _ _ _ _ _ (table_ioread W64 KICK_MASK _ I ltac:(done))). cbn [reg_addr].
  unfold spin_unlock_rxkick. rewrite run_modify.
  cbn [the_dev ioc_has_dev set_dev ioc_dev ioc_set_dev set_locks]. fold d. fold count mask.
  rewrite (run_bind _ _ _ _ _ (kick_loop_run _ mask indices_rows count _)).
  unfold emit. rewrite run_modify. rewrite <- add_calls_app. destruct s. cbn in Hl. by subst.
Qed.

(** When the device's count is the size of its set and all its rows have a
    process, nobody in the set is left asleep. *)
Lemma kicked_all d rows mask count :
  Forall (λ i, Z.testbit mask i = true -> proc_ptr d i <> 0) rows ->
  count = zlen (filter (λ i, Z.testbit mask i = true) rows) ->
  kicked d rows mask count = map (proc_ptr d) (filter (λ i, Z.testbit mask i = true) rows).
Proof.
  intros HF ->. unfold kicked.
  assert (filter (λ p, p <> 0) (map (proc_ptr d) (filter (λ i, Z.testbit mask i = true) rows))
          = map (proc_ptr d) (filter (λ i, Z.testbit mask i = true) rows)) as ->.
  { induction HF as [|i rows Hi HF IH]; [done|].
    rewrite filter_cons. destruct (decide (Z.testbit mask i = true)) as [Hb|Hb]; [|done].
    cbn [map]. rewrite filter_cons, decide_True by by apply Hi. by rewrite IH. }
  apply firstn_all2. rewrite length_map. unfold zlen. lia.
Qed.
End kick.

(** ** DMA rings *)

(** A usable ring: 64-byte aligned on the bus, inside its allocation of
    [len + 63] bytes, and at the same offset for the CPU and for the device. *)
Record ring_ok (r : dma_ring) : Prop := {
  ok_len : len r = IOCACHE_UDP_RING_SIZE;
  ok_cpu : cpu_addr r <> 0;
  ok_align : dma_aligned r mod 64 = 0;
  ok_start : 0 <= dma_addr r <= dma_aligned r;
  ok_end : dma_aligned r + len r <= dma_addr r + (len r + (ALIGN_BYTES - 1));
  ok_range : dma_aligned r < 2 ^ 64;
  ok_offset : cpu_aligned r - cpu_addr r = dma_aligned r - dma_addr r
}.

Definition alloc_call (r : dma_ring) : call :=
  dma_alloc_coherent (cpu_addr r) (dma_addr r) (len r + (ALIGN_BYTES - 1)).
Definition free_call (r : dma_ring) : call :=
  dma_free_coherent (cpu_addr r) (dma_addr r) (len r + (ALIGN_BYTES - 1)).

Lemma ALIGN64_spec p :
  0 <= p <= 2 ^ 64 - 64 -> ALIGN64 p mod 64 = 0 /\ p <= ALIGN64 p < p + 64.
Proof.
  intros Hp. unfold ALIGN64, ALIGN_BYTES. change (64 - 1) with (2 ^ 6 - 1).
  rewrite <- Z.ldiff_land. pose proof (Z.ones_equiv 6) as Ho.
  replace (2 ^ 6 - 1) with (Z.ones 6) by lia.
  rewrite Z.ldiff_ones_r, Z.shiftl_mul_pow2, Z.shiftr_div_pow2 by lia.
  change (Z.ones 6) with 63. change (2 ^ 6) with 64. rewrite u_small; zdm.
Qed.

(** A DMA allocator that succeeds, with addresses below 2^63. *)
Class DmaAvailable `{IocPlatform} := {
  dma_alloc_ok t n : exists v p, dma_alloc t n = Some (v, p) /\
    0 < v < 2 ^ 63 /\ 0 <= p < 2 ^ 63
}.

Section rings.
Context {D : Type} `{Mmio D} `{DmaAvailable}.
Implicit Types s : ioc_state D.

Lemma alloc_ring_run s :
  exists r, alloc_ring s = (Ret (Some r), add_call (alloc_call r) s) /\ ring_ok r.
Proof.
  unfold alloc_ring. rewrite run_get.
  destruct (dma_alloc_ok (trace s) (IOCACHE_UDP_RING_SIZE + (ALIGN_BYTES - 1)))
    as (v & p & -> & Hv & Hp).
  destruct (ALIGN64_spec p ltac:(lia)) as [Ha Hr].
  exists (mk_ring IOCACHE_UDP_RING_SIZE v (u64 (v + u64 (ALIGN64 p - p))) p (ALIGN64 p)).
  split; [reflexivity|].
  split; cbn [len cpu_addr cpu_aligned dma_addr dma_aligned];
    unfold ALIGN_BYTES, IOCACHE_UDP_RING_SIZE; try done; try lia.
  rewrite (u_small 64 (ALIGN64 p - p)), u_small by lia. lia.
Qed.

Lemma alter_next (f : dma_ring -> dma_ring) ts n :
  alter f (length ts) (ts ++ repeat no_ring (S n)) = (ts ++ [f no_ring]) ++ repeat no_ring n.
Proof.
  rewrite <- app_assoc. rewrite <- (Nat.add_0_r (length ts)). by rewrite (alter_app_r f ts _ 0).
Qed.

(** The calls that allocate the rings of the rows, in order. *)
Definition alloc_calls (ts rs : list dma_ring) : list call :=
  concat (zip_with (λ t r, [alloc_call t; alloc_call r]) ts rs).

(** The state after [j] rounds of the loop, from [s0]. *)
Definition rings_at s0 (j : Z) s : Prop :=
  exists ts rs, zlen ts = j /\ zlen rs = j /\ Forall ring_ok ts /\ Forall ring_ok rs /\
    s = set_rings (ts ++ repeat no_ring (Z.to_nat (64 - j)))
                  (rs ++ repeat no_ring (Z.to_nat (64 - j)))
                  (add_calls (alloc_calls ts rs) s0).

Lemma init_udp_ring_step s0 j s :
  0 <= j < 64 -> rings_at s0 j s ->
  returns (init_udp_ring j) s (λ r s', r = None /\ rings_at s0 (j + 1) s').
Proof.
  intros Hj (ts & rs & Ht & Hr & HFt & HFr & ->). unfold init_udp_ring.
  replace (Z.to_nat (64 - j)) with (S (Z.to_nat (64 - (j + 1)))) by lia.
  assert (Z.to_nat j = length ts) as Hjt by (unfold zlen in *; lia).
  assert (Z.to_nat j = length rs) as Hjr by (unfold zlen in *; lia).
  match goal with |- returns _ ?x _ => destruct (alloc_ring_run x) as (t & Et & Hot) end.
  exec_with Et. exec. match goal with |- returns _ ?x _ =>
    destruct (alloc_ring_run x) as (r & Er & Hor) end.
  exec_with Er. exec. apply returns_ret. split; [done|].
  exists (ts ++ [t]), (rs ++ [r]).
  split; [unfold zlen in *; rewrite length_app; simpl; lia|].
  split; [unfold zlen in *; rewrite length_app; simpl; lia|].
  split; [by apply Forall_app; split; [|constructor]|].
  split; [by apply Forall_app; split; [|constructor]|].
  rewrite !add_call_eq, ?set_rings_calls, !add_calls_app, ?set_rings_twice.
  cbn [tx_rings rx_rings set_rings add_calls default].
  unfold alloc_calls. rewrite zip_with_app, concat_app by (unfold zlen in *; lia).
  rewrite Hjt at 1. rewrite alter_next, Hjr, alter_next, <- !app_assoc. reflexivity.
Qed.

Lemma init_udp_rings_run s :
  tx_rings s = repeat no_ring 64 -> rx_rings s = repeat no_ring 64 ->
  returns init_udp_rings s (λ r s', r = 0 /\ exists ts rs,
    length ts = 64%nat /\ length rs = 64%nat /\ Forall ring_ok ts /\ Forall ring_ok rs /\
    s' = set_rings ts rs (add_calls (alloc_calls ts rs) s)).
Proof.
  intros Et Er. unfold init_udp_rings.
  seq_with (λ (r : option Z) s', r = None /\ rings_at s 64 s').
  - eapply (returns_for_return _ (rings_at s)).
    + exists [], []. do 4 (split; [done|]). unfold alloc_calls. simpl.
      rewrite add_calls_nil. destruct s. unfold set_rings. cbn in *. by rewrite Et, Er.
    + intros j s1 Hj HI. apply init_udp_ring_step; [|done].
      change (Z.of_nat _) with 64 in Hj. lia.
    + done.
  - intros r s1 [-> (ts & rs & Ht & Hr & HFt & HFr & ->)]. apply returns_ret.
    split; [done|]. exists ts, rs. unfold zlen in *. split; [lia|]. split; [lia|].
    split; [done|]. split; [done|]. change (Z.to_nat (64 - 64)) with 0%nat. simpl.
    by rewrite !app_nil_r.
Qed.
End rings.

(** ** The table of the device *)

(** The fields [populate_ring_info] sets in the row of a pair of rings. *)
Definition row_values (t r : dma_ring) : list (width * row_field * Z) :=
  [(W64, ENABLED, 0); (W64, RX_RING_ADDR, dma_aligned r);
   (W32, RX_RING_SIZE, IOCACHE_UDP_RING_SIZE); (W64, TX_RING_ADDR, dma_aligned t);
   (W32, TX_RING_SIZE, IOCACHE_UDP_RING_SIZE)].

Definition table_row (ts rs : list dma_ring) (i : Z) : list (width * region * Z * Z) :=
  map (row_write i)
    (row_values (nth (Z.to_nat i) ts no_ring) (nth (Z.to_nat i) rs no_ring)).

Definition table_writes (ts rs : list dma_ring) : list (width * region * Z * Z) :=
  loop_writes (table_row ts rs) 64 0.

Section table.
Context {D : Type} `{PlainMmio D}.
Implicit Types s : ioc_state D.

Lemma populate_run ts rs s :
  tx_rings s = ts -> rx_rings s = rs ->
  populate_ring_info s = (Ret tt, ioc_set_dev (do_writes (table_writes ts rs) (ioc_dev s)) s).
Proof.
  intros Et Er. unfold populate_ring_info, table_writes.
  change (Z.to_nat IOCACHE_CACHE_ENTRY_COUNT) with 64%nat.
  pose proof (for_loop_writes_inv (λ s, tx_rings s = ts /\ rx_rings s = rs)
           populate_row (table_row ts rs)) as Hl. apply Hl; [done| |done].
  intros j s0 [<- <-]. by destruct s0.
Qed.

(** Every field of [row_values] ends up in the register of its row. *)
Lemma table_value ts rs i w f v l1 l2 (d : D) :
  0 <= i < 64 -> f <> FLAGS_RO ->
  row_values (nth (Z.to_nat i) ts no_ring) (nth (Z.to_nat i) rs no_ring)
  = l1 ++ (w, f, v) :: l2 ->
  Forall (λ x, x.1.2 <> f) l2 ->
  reg_val w IOCACHE (IOCACHE_REG i (field_off f)) (do_writes (table_writes ts rs) d)
  = Word.u (wbits w) v.
Proof.
  intros Hi Hfl E Hl2. unfold table_writes.
  rewrite (loop_writes_split _ 64 0 (Z.to_nat i)) by lia.
  replace (0 + Z.of_nat (Z.to_nat i)) with i by lia.
  unfold table_row at 2. rewrite E, map_app. cbn [map row_write].
  rewrite <- app_assoc, app_assoc. cbn [app].
  apply reg_val_do_writes_last; [by apply storage_row|by apply fits_row|]. apply Forall_app. split.
  - apply row_write_disjoint; [done|done|]. eapply Forall_impl; [|exact Hl2]. auto.
  - apply Forall_loop_writes. intros j Hj. apply row_write_disjoint; [done|unfold IOCACHE_CACHE_ENTRY_COUNT; lia|].
    apply Forall_forall. intros x _. left. lia.
Qed.

(** Row [i] describes the rings [t] and [r]. *)
Definition row_ready (d : D) (i : Z) (t r : dma_ring) : Prop :=
  reg_val W64 IOCACHE (IOCACHE_REG_ENABLED i) d = 0 /\
  reg_val W64 IOCACHE (IOCACHE_REG_RX_RING_ADDR i) d = dma_aligned r /\
  reg_val W32 IOCACHE (IOCACHE_REG_RX_RING_SIZE i) d = len r /\
  reg_val W64 IOCACHE (IOCACHE_REG_TX_RING_ADDR i) d = dma_aligned t /\
  reg_val W32 IOCACHE (IOCACHE_REG_TX_RING_SIZE i) d = len t.

Lemma table_ready ts rs i (d : D) :
  0 <= i < 64 -> length ts = 64%nat -> length rs = 64%nat ->
  Forall ring_ok ts -> Forall ring_ok rs ->
  row_ready (do_writes (table_writes ts rs) d) i
    (nth (Z.to_nat i) ts no_ring) (nth (Z.to_nat i) rs no_ring).
Proof.
  intros Hi Hlt Hlr HFt HFr. rewrite Forall_forall in HFt, HFr.
  set (t := nth (Z.to_nat i) ts no_ring). set (r := nth (Z.to_nat i) rs no_ring).
  assert (ring_ok t) as Ot by (apply HFt, nth_In; lia).
  assert (ring_ok r) as Or by (apply HFr, nth_In; lia).
  destruct Ot as [Ht _ _ [? ?] _ ? _], Or as [Hr _ _ [? ?] _ ? _].
  unfold row_ready. rewrite Ht, Hr.
  pose proof (table_value ts rs i) as Hv. fold t r in Hv.
  split; [exact (Hv W64 ENABLED 0 [] _ d Hi ltac:(done) eq_refl ltac:(by repeat constructor))|].
  split; [etrans; [exact (Hv W64 RX_RING_ADDR _ [_] _ d Hi ltac:(done) eq_refl ltac:(by repeat constructor))
                  |apply u_small; change (wbits W64) with 64; lia]|].
  split; [exact (Hv W32 RX_RING_SIZE _ [_; _] _ d Hi ltac:(done) eq_refl ltac:(by repeat constructor))|].
  split; [etrans; [exact (Hv W64 TX_RING_ADDR _ [_; _; _] _ d Hi ltac:(done) eq_refl ltac:(by repeat constructor))
                  |apply u_small; change (wbits W64) with 64; lia]|].
  exact (Hv W32 TX_RING_SIZE _ [_; _; _; _] _ d Hi ltac:(done) eq_refl ltac:(by repeat constructor)).
Qed.
End table.

(** ** Probe *)

(** A platform that grants every request of the driver. *)
Record ioc_granted `{IocPlatform} (start size : Z) : Prop := {
  gi_node : ioc_of_node = true;
  gi_alloc : kzalloc_ok = true;
  gi_res : reg_resource = inr (start, size);
  gi_map : reg_ioremap = inr tt;
  gi_irq i : irq_map i <> 0;
  gi_request q : request_result q = 0;
  gi_hwirq q : get_hwirq q <> 0;
  gi_plic : plic_node_riscv || plic_node_sifive = true;
  gi_iomap : plic_iomap = true;
  gi_register h : plic_register_result h = 0
}.

Section probe.
Context {D : Type} `{PlainMmio D} `{DmaAvailable}.
Implicit Types s : ioc_state D.

(** The interrupts of CPU [i], steered to it. *)
Definition irq_calls (i : Z) : list call :=
  [request_irq (irq_map (2 * i)) iocache_rx_handler; irq_set_affinity (irq_map (2 * i)) i;
   request_irq (irq_map (2 * i + 1)) iocache_txcomp_handler;
   irq_set_affinity (irq_map (2 * i + 1)) i].

(** The PLIC fast path of CPU [i]. *)
Definition fast_path_calls (i : Z) : list call :=
  [plic_register_source_handler (get_hwirq (irq_map (2 * i))) iocache_rx_handler;
   plic_register_source_handler (get_hwirq (irq_map (2 * i + 1))) iocache_txcomp_handler].

Definition per_cpu {A} (f : Z -> list A) : list A := f 0 ++ f 1 ++ f 2 ++ f 3.

Definition zero_irqs : irq_table :=
  mk_irqs (repeat 0 4) (repeat 0 4) (repeat 0 4) (repeat 0 4).
Definition all_irqs (hw : bool) : irq_table :=
  let h x := if hw then get_hwirq x else 0 in
  let rx := map irq_map [0; 2; 4; 6] in let tx := map irq_map [1; 3; 5; 7] in
  mk_irqs rx (map h rx) tx (map h tx).

Lemma setup_irq_run start size i index save h s :
  ioc_granted start size ->
  setup_irq i index save h s
  = (Ret None, add_calls [request_irq (irq_map index) h; irq_set_affinity (irq_map index) i]
       (set_irqs (save (irq_map index) (ioc_irqs s)) s)).
Proof.
  intros G. unfold setup_irq, update_irqs, emit. rewrite run_modify.
  rewrite (proj2 (Z.eqb_neq (irq_map _) 0)) by apply (gi_irq _ _ G).
  rewrite (gi_request _ _ G). cbn [negb Z.eqb].
  by rewrite !run_modify, !add_call_eq, add_calls_app.
Qed.

Lemma parse_irq_cpu_run start size i s :
  ioc_granted start size ->
  parse_irq_cpu i s
  = (Ret None, add_calls (irq_calls i)
       (set_irqs (set_txcomp_irq i (irq_map (2 * i + 1))
                    (set_rx_irq i (irq_map (2 * i)) (ioc_irqs s))) s)).
Proof.
  intros G. unfold parse_irq_cpu.
  rewrite (run_bind _ _ _ _ _ (setup_irq_run start size _ _ _ _ _ G)).
  rewrite (setup_irq_run start size) by done.
  by rewrite set_irqs_calls, set_irqs_twice, add_calls_app.
Qed.

Lemma ioc_parse_irq_run start size s :
  ioc_granted start size -> ioc_irqs s = zero_irqs ->
  iocache_parse_irq s
  = (Ret 0, add_calls (per_cpu irq_calls) (set_irqs (all_irqs false) s)).
Proof.
  intros G E. unfold iocache_parse_irq. change (Z.to_nat NUM_CPUS) with 4%nat.
  rewrite (run_bind _ _ _ None
    (add_calls (per_cpu irq_calls) (set_irqs (all_irqs false) s))); [done|].
  do 4 (erewrite run_for_return by (by apply (parse_irq_cpu_run start size));
        rewrite ?set_irqs_calls, ?set_irqs_twice, ?add_calls_app;
        cbn [ioc_irqs add_calls set_irqs]).
  rewrite E. unfold per_cpu. rewrite !app_assoc. reflexivity.
Qed.

(** Priorities: two PLIC writes per CPU, and the hardware numbers are noted. *)
Definition prio_writes (i : Z) : list (width * region * Z * Z) :=
  [(W32, PLIC, PLIC_PRIO_OFF (get_hwirq (irq_map (2 * i))), MAX_PRIORITY);
   (W32, PLIC, PLIC_PRIO_OFF (get_hwirq (irq_map (2 * i + 1))), MAX_PRIORITY)].

Lemma set_src_prio_run h v s :
  plic_set_src_prio h v s
  = (Ret tt, ioc_set_dev (io_write W32 PLIC (PLIC_PRIO_OFF h) v (ioc_dev s)) s).
Proof.
  unfold plic_set_src_prio. rewrite (run_bind _ _ _ _ _ (iowrite_run _ _ _ _ _)).
  by rewrite (run_bind _ _ _ _ _ (ioread_plain _ _ _ _ (consumes_none W32 PLIC _ ltac:(done) ltac:(done) ltac:(done)))).
Qed.

Lemma set_prio_one_run start size irq save s :
  ioc_granted start size ->
  set_prio_one irq save 0 s
  = (Ret None, ioc_set_dev
       (io_write W32 PLIC (PLIC_PRIO_OFF (get_hwirq irq)) MAX_PRIORITY (ioc_dev s))
       (set_irqs (save (get_hwirq irq) (ioc_irqs s)) s)).
Proof.
  intros G. unfold set_prio_one.
  rewrite (proj2 (Z.eqb_neq (get_hwirq irq) 0)) by apply (gi_hwirq _ _ G).
  unfold update_irqs. rewrite run_modify. by rewrite (run_bind _ _ _ _ _ (set_src_prio_run _ _ _)).
Qed.

Lemma set_prio_cpu_run start size i s :
  ioc_granted start size ->
  nth (Z.to_nat i) (rx_irq (ioc_irqs s)) 0 = irq_map (2 * i) ->
  nth (Z.to_nat i) (txcomp_irq (ioc_irqs s)) 0 = irq_map (2 * i + 1) ->
  set_prio_cpu 0 i s
  = (Ret None, ioc_set_dev (do_writes (prio_writes i) (ioc_dev s))
       (set_irqs (set_txcomp_hwirq i (get_hwirq (irq_map (2 * i + 1)))
          (set_rx_hwirq i (get_hwirq (irq_map (2 * i))) (ioc_irqs s))) s)).
Proof.
  intros G E1 E2. unfold set_prio_cpu. rewrite run_get, E1, E2.
  rewrite (run_bind _ _ _ _ _ (set_prio_one_run start size _ _ _ G)).
  by rewrite (set_prio_one_run start size).
Qed.

Lemma plic_set_prio_run start size s :
  ioc_granted start size -> ioc_irqs s = all_irqs false ->
  plic_set_prio s
  = (Ret 0, ioc_set_dev (do_writes (per_cpu prio_writes) (ioc_dev s))
              (set_irqs (all_irqs true) s)).
Proof.
  intros G E. unfold plic_set_prio, map_plic_base.
  rewrite (gi_plic _ _ G), (gi_iomap _ _ G). cbn [negb].
  rewrite (run_bind _ _ _ _ _ (run_ret 0 s)). cbn [Z.eqb negb].
  change (Z.to_nat NUM_CPUS) with 4%nat.
  rewrite (run_bind _ _ _ None (ioc_set_dev (do_writes (per_cpu prio_writes) (ioc_dev s))
    (set_irqs (all_irqs true) s))); [done|].
  do 4 (erewrite run_for_return by
    (apply (set_prio_cpu_run start size); [done
       |cbn [ioc_irqs set_irqs ioc_set_dev]; rewrite E; reflexivity..]);
    rewrite ?set_dev_irqs, ?set_irqs_twice, ?set_dev_twice;
    cbn [ioc_irqs ioc_dev set_irqs ioc_set_dev]).
  rewrite E. unfold per_cpu. rewrite !do_writes_app. reflexivity.
Qed.

(** The fast path of all CPUs. *)
Lemma register_one_run start size irq save h ret s :
  ioc_granted start size ->
  register_one irq save h ret s
  = (Ret (Some 0, false), add_calls [plic_register_source_handler (get_hwirq irq) h]
       (set_irqs (save (get_hwirq irq) (ioc_irqs s)) s)).
Proof.
  intros G. unfold register_one, update_irqs, emit.
  rewrite (proj2 (Z.eqb_neq (get_hwirq irq) 0)) by apply (gi_hwirq _ _ G).
  rewrite (gi_register _ _ G). rewrite run_modify. cbn [negb Z.eqb].
  by rewrite run_modify.
Qed.

Lemma register_loop_step start size i cpus ret s :
  ioc_granted start size ->
  nth (Z.to_nat i) (rx_irq (ioc_irqs s)) 0 = irq_map (2 * i) ->
  nth (Z.to_nat i) (txcomp_irq (ioc_irqs s)) 0 = irq_map (2 * i + 1) ->
  register_loop (i :: cpus) ret s
  = register_loop cpus (Some 0)
      (add_calls (fast_path_calls i)
        (set_irqs (set_txcomp_hwirq i (get_hwirq (irq_map (2 * i + 1)))
           (set_rx_hwirq i (get_hwirq (irq_map (2 * i))) (ioc_irqs s))) s)).
Proof.
  intros G E1 E2. cbn [register_loop]. rewrite run_get, E1, E2.
  rewrite (run_bind _ _ _ _ _ (register_one_run start size _ _ _ _ _ G)).
  rewrite (run_bind _ _ _ _ _ (register_one_run start size _ _ _ _ _ G)).
  by rewrite set_irqs_calls, set_irqs_twice, add_calls_app.
Qed.

Lemma register_fast_path_run start size s :
  ioc_granted start size -> ioc_irqs s = all_irqs true ->
  plic_register_fast_path s
  = (Ret 0, add_calls (per_cpu fast_path_calls) s).
Proof.
  intros G E. unfold plic_register_fast_path. change (indices NUM_CPUS) with [0; 1; 2; 3].
  do 4 (rewrite (register_loop_step start size) by
      (first [done | cbn [ioc_irqs set_irqs add_calls]; rewrite E; reflexivity]);
    rewrite ?set_irqs_calls, ?set_irqs_twice, ?add_calls_app;
    cbn [ioc_irqs set_irqs add_calls]).
  unfold per_cpu. rewrite E, !app_assoc. destruct s. cbn in E. subst. reflexivity.
Qed.

(** The interrupt masks of the four CPUs. *)
Definition mask_row (v i : Z) : list (width * region * Z * Z) :=
  [(W8, IOCACHE, IOCACHE_REG_INTMASK_RX i, v); (W8, IOCACHE, IOCACHE_REG_INTMASK_TXCOMP i, v)].

Lemma set_masks_run s :
  for_loop (Z.to_nat NUM_CPUS) 0 (λ i, set_intmask_rx i;; set_intmask_txcomp i) s
  = (Ret tt, ioc_set_dev (do_writes (loop_writes (mask_row 1) 4 0) (ioc_dev s)) s).
Proof.
  pose proof (for_loop_writes (λ i, set_intmask_rx i;; set_intmask_txcomp i)
                (mask_row 1)) as Hl.
  apply (Hl ltac:(by intros j []) 4%nat 0 s).
Qed.

Lemma clear_masks_run s :
  for_loop (Z.to_nat NUM_CPUS) 0 (λ i, clear_intmask_rx i;; clear_intmask_txcomp i) s
  = (Ret tt, ioc_set_dev (do_writes (loop_writes (mask_row 0) 4 0) (ioc_dev s)) s).
Proof.
  pose proof (for_loop_writes (λ i, clear_intmask_rx i;; clear_intmask_txcomp i)
                (mask_row 0)) as Hl.
  apply (Hl ltac:(by intros j []) 4%nat 0 s).
Qed.

Definition masks_are (d : D) (v : Z) : Prop :=
  forall c, 0 <= c < NUM_CPUS ->
    reg_val W8 IOCACHE (IOCACHE_REG_INTMASK_RX c) d = v /\
    reg_val W8 IOCACHE (IOCACHE_REG_INTMASK_TXCOMP c) d = v.

Lemma mask_final_values v :
  v = 0 \/ v = 1 ->
  Forall (λ c,
    final_value (loop_writes (mask_row v) 4 0) W8 IOCACHE (IOCACHE_REG_INTMASK_RX c) None = Some v /\
    final_value (loop_writes (mask_row v) 4 0) W8 IOCACHE (IOCACHE_REG_INTMASK_TXCOMP c) None = Some v)
    [0; 1; 2; 3].
Proof. intros [-> | ->]; by repeat constructor. Qed.

Lemma masks_written v d :
  v = 0 \/ v = 1 -> masks_are (do_writes (loop_writes (mask_row v) 4 0) d) v.
Proof.
  intros Hv c Hc. pose proof (mask_final_values v Hv) as HF. destruct (storage_mask c Hc) as [S1 S2]. rewrite Forall_forall in HF.
  destruct (HF c) as [E1 E2]; [unfold NUM_CPUS in Hc; simpl; lia|].
  split; [etrans; [apply (final_value_spec _ _ _ _ S1 None v); [done|exact E1]|]
         |etrans; [apply (final_value_spec _ _ _ _ S2 None v); [done|exact E2]|]];
    destruct Hv as [-> | ->]; done.
Qed.

(** The table lies behind the masks. *)
Lemma masks_table v ts rs d :
  masks_are d v -> masks_are (do_writes (table_writes ts rs) d) v.
Proof.
  intros Hm c Hc. destruct (Hm c Hc) as [E1 E2].
  destruct (storage_mask c Hc) as [S1 S2].
  assert (forall g, reg_valid g -> storage W8 IOCACHE (reg_addr g) = true -> (forall r f, g <> ROW r f) ->
    reg_val W8 IOCACHE (reg_addr g) (do_writes (table_writes ts rs) d)
    = reg_val W8 IOCACHE (reg_addr g) d) as Hg.
  { intros g Hg Hst Hne. apply reg_val_do_writes_other; [done|]. apply Forall_loop_writes.
    intros j Hj. unfold table_row. apply Forall_map, Forall_forall. intros [[w f] x] _.
    cbn [row_write]. right. rewrite reg_addr_beat by done.
    pose proof (reg_addr_beat (ROW j f) ltac:(simpl; unfold IOCACHE_CACHE_ENTRY_COUNT; lia)) as E.
    simpl in E. rewrite E.
    assert (reg_beat g <> reg_beat (ROW j f)).
    { intros Eb. apply (Hne j f), reg_beat_inj; [done| |done].
      simpl. unfold IOCACHE_CACHE_ENTRY_COUNT. lia. }
    simpl in *. destruct w; simpl; lia. }
  split; [rewrite <- E1; by apply (Hg (INTMASK_RX c))
         |rewrite <- E2; by apply (Hg (INTMASK_TXCOMP c))].
Qed.

(** The owner of a row is in none of these registers. *)
Lemma probe_owner_untouched ts rs i f w (d : D) :
  0 <= i < IOCACHE_CACHE_ENTRY_COUNT -> f = PROC_CPU \/ f = PROC_PTR ->
  reg_val w IOCACHE (IOCACHE_REG i (field_off f))
    (do_writes (table_writes ts rs)
      (do_writes (loop_writes (mask_row 1) 4 0) (do_writes (per_cpu prio_writes) d)))
  = reg_val w IOCACHE (IOCACHE_REG i (field_off f)) d.
Proof.
  intros Hi Hf.
  assert (storage w IOCACHE (IOCACHE_REG i (field_off f)) = true) as Hst
    by (apply storage_row; [done|by destruct Hf as [-> | ->]]).
  rewrite !reg_val_do_writes_other; try done.
  - unfold per_cpu, prio_writes. repeat (apply Forall_app; split); forall_list; by left.
  - apply Forall_loop_writes. intros j Hj. unfold mask_row. forall_list.
    + by apply (reg_addr_disjoint (ROW i f) (INTMASK_RX j)).
    + by apply (reg_addr_disjoint (ROW i f) (INTMASK_TXCOMP j)).
  - apply Forall_loop_writes. intros j Hj. apply row_write_disjoint;
      [done|unfold IOCACHE_CACHE_ENTRY_COUNT; lia|].
    unfold row_values. forall_list; right; by destruct Hf as [-> | ->].
Qed.

(** The final state of a successful probe. *)
Lemma probe_run start size s :
  ioc_granted start size ->
  exists s' ts rs, iocache_probe s = (Ret 0, s') /\
    length ts = 64%nat /\ length rs = 64%nat /\ Forall ring_ok ts /\ Forall ring_ok rs /\
    tx_rings s' = ts /\ rx_rings s' = rs /\
    (forall i, 0 <= i < IOCACHE_CACHE_ENTRY_COUNT ->
       row_ready (ioc_dev s') i (nth (Z.to_nat i) ts no_ring) (nth (Z.to_nat i) rs no_ring)) /\
    masks_are (ioc_dev s') 1 /\
    ioc_irqs s' = all_irqs true /\
    trace s' = trace s ++ per_cpu irq_calls ++ [register_iocache_forall]
      ++ alloc_calls ts rs ++ per_cpu fast_path_calls ++ [call_misc_register] /\
    (forall i f w, 0 <= i < IOCACHE_CACHE_ENTRY_COUNT -> f = PROC_CPU \/ f = PROC_PTR ->
       reg_val w IOCACHE (IOCACHE_REG i (field_off f)) (ioc_dev s')
       = reg_val w IOCACHE (IOCACHE_REG i (field_off f)) (ioc_dev s)) /\
    (ev_lock s', ring_alloc_lock s', rxkick_lock s') = (false, false, false).
Proof.
  intros G. unfold iocache_probe. rewrite (gi_node _ _ G), (gi_alloc _ _ G). cbn [negb].
  rewrite !run_modify. unfold iocache_parse_addr. rewrite (gi_res _ _ G), (gi_map _ _ G).
  rewrite (run_bind _ _ _ _ _ (run_modify _ _ _)). cbn [Z.ltb Z.compare].
  match goal with |- context [bind iocache_parse_irq _ ?x] =>
    rewrite (run_bind _ _ _ _ _ (ioc_parse_irq_run start size x G eq_refl)) end. cbn [Z.ltb Z.compare].
  match goal with |- context [bind plic_set_prio _ ?x] =>
    rewrite (run_bind _ _ _ _ _ (plic_set_prio_run start size x G eq_refl)) end. cbn [Z.eqb negb].
  unfold emit. rewrite !run_modify, (run_bind _ _ _ _ _ (set_masks_run _)).
  match goal with |- context [bind init_udp_rings _ ?x] =>
    destruct (init_udp_rings_run x eq_refl eq_refl)
      as (r & s1 & E1 & -> & ts & rs & Hlt & Hlr & HFt & HFr & ->) end.
  rewrite (run_bind _ _ _ _ _ E1). cbn [Z.eqb negb].
  match goal with |- context [bind populate_ring_info _ ?x] =>
    rewrite (run_bind _ _ _ _ _ (populate_run ts rs x eq_refl eq_refl)) end.
  match goal with |- context [bind plic_register_fast_path _ ?x] =>
    rewrite (run_bind _ _ _ _ _ (register_fast_path_run start size x G eq_refl)) end.
  cbn [Z.eqb negb]. rewrite run_modify.
  eexists _, ts, rs. split; [reflexivity|]. do 4 (split; [done|]).
  split; [reflexivity|]. split; [reflexivity|].
  split; [intros i Hi; by apply table_ready|].
  split; [by apply masks_table, masks_written; right|].
  split; [reflexivity|]. split; [|split; [intros; by apply probe_owner_untouched|done]].
  cbn [trace add_calls add_call ioc_set_dev set_rings set_locks set_irqs
    set_window set_magic zero_state]. by rewrite <- !app_assoc.
Qed.

End probe.

(** ** Remove *)

Section remove.
Context {D : Type} `{PlainMmio D} `{DmaAvailable}.
Implicit Types s : ioc_state D.

(** A loop that only makes calls. *)
Lemma for_loop_calls (P : ioc_state D -> Prop) (body : Z -> prog (ioc_state D) unit) f :
  (forall s l, P s -> P (add_calls l s)) ->
  forall n i s, P s ->
    (forall j s, i <= j < i + Z.of_nat n -> P s -> body j s = (Ret tt, add_calls (f j) s)) ->
    for_loop n i body s = (Ret tt, add_calls (loop_writes f n i) s).
Proof.
  intros HP n. induction n as [|n IH]; intros i s Hs Hb.
  - unfold loop_writes. simpl. by rewrite add_calls_nil.
  - cbn [for_loop]. rewrite (run_bind _ _ _ _ _ (Hb i s ltac:(lia) Hs)).
    rewrite IH; [|by apply HP|intros j s0 Hj; apply Hb; lia].
    rewrite add_calls_app. do 2 f_equal.
    unfold loop_writes. cbn [seq map concat]. rewrite Z.add_0_r. f_equal.
    rewrite <- seq_shift, map_map. f_equal. apply map_ext. intros k. f_equal. lia.
Qed.

Definition row_frees (ts rs : list dma_ring) (i : Z) : list call :=
  [free_call (nth (Z.to_nat i) rs no_ring); free_call (nth (Z.to_nat i) ts no_ring)].
Definition row_allocs (ts rs : list dma_ring) (i : Z) : list call :=
  [alloc_call (nth (Z.to_nat i) ts no_ring); alloc_call (nth (Z.to_nat i) rs no_ring)].

Lemma free_ring_run r s : ring_ok r -> free_ring r s = (Ret tt, add_calls [free_call r] s).
Proof.
  intros [_ Hc _ _ _ _ _]. unfold free_ring. by rewrite (proj2 (Z.eqb_neq _ _) Hc).
Qed.

Lemma free_rings_run ts rs s :
  length ts = 64%nat -> length rs = 64%nat -> Forall ring_ok ts -> Forall ring_ok rs ->
  tx_rings s = ts -> rx_rings s = rs ->
  for_loop (Z.to_nat IOCACHE_CACHE_ENTRY_COUNT) 0 (λ i,
    s ← get; free_ring (nth (Z.to_nat i) (rx_rings s) no_ring);;
             free_ring (nth (Z.to_nat i) (tx_rings s) no_ring)) s
  = (Ret tt, add_calls (loop_writes (row_frees ts rs) 64 0) s).
Proof.
  intros Hlt Hlr HFt HFr Et Er.
  apply (for_loop_calls (λ s, tx_rings s = ts /\ rx_rings s = rs)); [done|done|].
  intros j s0 Hj [E1 E2]. change (0 + Z.of_nat _) with 64 in Hj.
  rewrite run_get, E1, E2. rewrite Forall_forall in HFt, HFr.
  rewrite (run_bind _ _ _ _ _ (free_ring_run _ _
    (HFr _ (nth_In rs no_ring (n := Z.to_nat j) ltac:(lia))))).
  rewrite free_ring_run by (apply HFt, nth_In; lia). by rewrite add_calls_app.
Qed.

Definition unregister_row (t : irq_table) (i : Z) : list call :=
  [plic_unregister_source_handler (nth (Z.to_nat i) (rx_hwirq t) 0);
   plic_unregister_source_handler (nth (Z.to_nat i) (txcomp_hwirq t) 0)].

Lemma unregister_run s :
  plic_unregister_fast_path s
  = (Ret 0, add_calls (loop_writes (unregister_row (ioc_irqs s)) 4 0) s).
Proof.
  unfold plic_unregister_fast_path.
  match goal with |- bind ?m _ _ = _ =>
    assert (m s = (Ret tt, add_calls (loop_writes (unregister_row (ioc_irqs s)) 4 0) s)) as E end.
  { apply (for_loop_calls (λ s', ioc_irqs s' = ioc_irqs s)); [done|done|].
    intros j s0 _ Hj. rewrite run_get, Hj. unfold emit.
    rewrite run_modify. unfold modify. by rewrite !add_call_eq, add_calls_app. }
  by rewrite (run_bind _ _ _ _ _ E).
Qed.

(** The DMA buffers a trace takes and gives back. *)
Definition taken (l : list call) : list (Z * Z * Z) :=
  omap (λ c, match c with dma_alloc_coherent v p n => Some (v, p, n) | _ => None end) l.
Definition returned (l : list call) : list (Z * Z * Z) :=
  omap (λ c, match c with dma_free_coherent v p n => Some (v, p, n) | _ => None end) l.

Lemma alloc_calls_rows ts rs :
  length ts = 64%nat -> length rs = 64%nat ->
  alloc_calls ts rs = loop_writes (row_allocs ts rs) 64 0.
Proof.
  intros Hlt Hlr. unfold alloc_calls, loop_writes, row_allocs. f_equal.
  rewrite <- Hlt. assert (length rs = length ts) as Hl by lia. clear Hlt Hlr.
  revert rs Hl. induction ts as [|t ts IH]; intros [|r rs] Hl; try done.
  cbn [zip_with length seq map]. f_equal. rewrite IH by (simpl in Hl; lia).
  rewrite <- seq_shift, map_map. apply map_ext. intros k.
  by replace (Z.to_nat (0 + Z.of_nat (S k))) with (S (Z.to_nat (0 + Z.of_nat k))) by lia.
Qed.

Lemma returned_taken ts rs n i :
  returned (loop_writes (row_frees ts rs) n i) ≡ₚ taken (loop_writes (row_allocs ts rs) n i).
Proof.
  unfold loop_writes. induction (seq 0 n) as [|k l IH]; [done|].
  cbn [map concat]. unfold returned, taken in *. rewrite !omap_app.
  apply Permutation_app; [|exact IH]. cbn. constructor 3.
Qed.

Lemma taken_app l l' : taken (l ++ l') = taken l ++ taken l'.
Proof. apply omap_app. Qed.
Lemma returned_app l l' : returned (l ++ l') = returned l ++ returned l'.
Proof. apply omap_app. Qed.

Lemma taken_rows ts rs n i :
  length (taken (loop_writes (row_allocs ts rs) n i)) = (2 * n)%nat /\
  returned (loop_writes (row_allocs ts rs) n i) = [] /\
  taken (loop_writes (row_frees ts rs) n i) = [].
Proof.
  unfold loop_writes. rewrite <- (length_seq n 0) at 2.
  induction (seq 0 n) as [|k l (IH1 & IH2 & IH3)]; [done|].
  cbn [map concat length]. rewrite !taken_app, !returned_app, length_app, IH1, IH2, IH3.
  split; [simpl; lia|done].
Qed.

(** C33: Probing and then removing the device is balanced: [iocache_remove] returns
    0, unregisters the fast path of every CPU, clears all interrupt masks, and
    frees every DMA buffer the probe allocated, exactly once, with the address and
    size of its allocation. *)
Theorem iocache_probe_remove_balanced start size s :
  ioc_granted start size -> taken (trace s) = [] -> returned (trace s) = [] ->
  exists s1 s2, iocache_probe s = (Ret 0, s1) /\ iocache_remove true s1 = (Ret 0, s2) /\
    length (taken (trace s2)) = 128%nat /\
    returned (trace s2) ≡ₚ taken (trace s2) /\
    (forall i, i ∈ [0; 1; 2; 3; 4; 5; 6; 7] ->
       plic_unregister_source_handler (get_hwirq (irq_map i)) ∈ trace s2) /\
    masks_are (ioc_dev s2) 0.
Proof.
  intros G Ht0 Hr0. destruct (probe_run start size s G)
    as (s1 & ts & rs & E1 & Hlt & Hlr & HFt & HFr & Ett & Err & _ & _ & Ei & Etr & _).
  exists s1. unfold iocache_remove. cbn [negb].
  rewrite (run_bind _ _ _ _ _ (unregister_run s1)). unfold emit. rewrite run_modify.
  rewrite (run_bind _ _ _ _ _ (clear_masks_run _)).
  match goal with |- context [bind _ _ ?x] =>
    rewrite (run_bind _ _ _ _ _ (free_rings_run ts rs x Hlt Hlr HFt HFr Ett Err)) end.
  eexists. split; [exact E1|]. split; [reflexivity|].
  cbn [trace add_calls add_call ioc_set_dev ioc_dev]. rewrite Ei, Etr, alloc_calls_rows by done.
  destruct (taken_rows ts rs 64 0) as (Hn & Hra & Htf).
  rewrite !taken_app, !returned_app, Ht0, Hr0, Hra, Htf, (returned_taken ts rs).
  split; [by rewrite !length_app, Hn|]. split; [by rewrite !app_nil_r|].
  split; [|by apply masks_written; left].
  intros i Hi. apply elem_of_app. left. apply elem_of_app. left. apply elem_of_app. right.
  repeat (apply elem_of_cons in Hi as [-> | Hi]; [set_solver|]).
  by apply not_elem_of_nil in Hi.
Qed.
End remove.

(** ** Unresolved interrupts *)

(** If the first interrupt has no hardware number, [plic_set_prio] still
    reports success with no priority set, and [plic_register_fast_path] returns
    an uninitialised variable. *)
Theorem plic_unresolved_hwirq {D} `{Mmio D} `{IocPlatform} (s : ioc_state D) :
  plic_node_riscv || plic_node_sifive = true -> plic_iomap = true ->
  get_hwirq (nth 0 (rx_irq (ioc_irqs s)) 0) = 0 ->
  plic_set_prio s = (Ret 0, s) /\
  plic_register_fast_path s = (Fault Uninitialised, s).
Proof.
  intros Hn Hm Hh. split.
  - unfold plic_set_prio, map_plic_base. rewrite Hn, Hm. cbn [negb].
    rewrite (run_bind _ _ _ _ _ (run_ret 0 s)). cbn [Z.eqb negb].
    change (Z.to_nat NUM_CPUS) with 4%nat. cbn [for_return].
    assert (set_prio_cpu 0 0 s = (Ret (Some 0), s)) as E.
    { unfold set_prio_cpu, set_prio_one. rewrite run_get. change (Z.to_nat 0) with 0%nat. by rewrite Hh. }
    unfold bind at 1 2. by rewrite E.
  - unfold plic_register_fast_path. change (indices NUM_CPUS) with [0; 1; 2; 3].
    cbn [register_loop]. rewrite run_get. apply run_bind_fault.
    unfold register_one. change (Z.to_nat 0) with 0%nat. by rewrite Hh.
Qed.

(** ** A platform for the examples *)

Module SimIoc.
Definition sim_platform (resolved : bool) : IocPlatform := {|
  ioc_of_node := true;
  kzalloc_ok := true;
  reg_resource := inr (0x10020000, 0x10000);
  reg_ioremap := inr tt;
  irq_map i := Z.abs i + 1;
  request_result _ := 0;
  irq_hwirq q := if resolved then Some (Z.abs q mod 1000 + 1) else None;
  plic_node_riscv := true;
  plic_node_sifive := false;
  plic_iomap := true;
  plic_register_result _ := 0;
  dma_alloc t _ := let k := zlen t mod 2 ^ 30 in
                   Some (0x100000 + 0x10000 * k, 0x80000020 + 0x10000 * k)
|}.

Lemma sim_dma b : DmaAvailable (H := sim_platform b).
Proof.
  split. intros t n. cbn [dma_alloc sim_platform].
  pose proof (Z.mod_pos_bound (zlen t) (2 ^ 30) ltac:(lia)).
  eexists _, _. split; [reflexivity|]. lia.
Qed.

Lemma ioc_sim_granted : ioc_granted (H := sim_platform true) 0x10020000 0x10000.
Proof.
  split; try done.
  - intros i. simpl. lia.
  - intros q. unfold get_hwirq. cbn [irq_hwirq sim_platform].
    rewrite u_small; pow2; pose proof (Z.mod_pos_bound (Z.abs q) 1000); lia.
Qed.

Definition start : ioc_state RegFile.regfile :=
  mk_ioc ∅ 0 0 0 (mk_irqs [] [] [] []) [] [] None false false false [].
End SimIoc.

Import SimIoc RegFile.

Lemma iocache_probe_remove_balanced_witness :
  exists s1 s2, iocache_probe (H0 := sim_platform true) start = (Ret 0, s1) /\
    iocache_remove true s1 = (Ret 0, s2) /\ returned (trace s2) ≡ₚ taken (trace s2).
Proof.
  destruct (iocache_probe_remove_balanced (H2 := sim_dma true) _ _ start ioc_sim_granted
              eq_refl eq_refl) as (s1 & s2 & E1 & E2 & _ & Hp & _).
  exists s1, s2. split; [exact E1|]. split; [exact E2|exact Hp].
Defined.

Lemma plic_unresolved_hwirq_witness :
  plic_set_prio (H0 := sim_platform false) start = (Ret 0, start).
Proof.
  exact (proj1 (plic_unresolved_hwirq (H0 := sim_platform false) start
                  eq_refl eq_refl eq_refl)).
Defined.
