(* ===== verification/IocacheMisc.v ===== *)
(** * The [iocache-misc] character device ([drivers/iocache-driver/iocache_misc.c])

    Open and release, all ioctl commands of the calling task, the timeout
    callback and [mmap] of the control window and the 128 DMA rings. *)

From S2P Require Import Prelude Prog Mmio IocacheRegs UserMem IocacheDriver.

Definition IOCACHE_IOCTL_API_VERSION : Z := 0.
Definition IOCACHE_IOCTL_TYPE : Z := 0x88.
Definition IOCACHE_IOCTL_BASE : Z := 0xC0.
Definition IOCACHE_REGION_TYPE_UNIMPLEMENTED : Z := 0x00000000.
Definition IOCACHE_REGION_TYPE_CTRL : Z := 0x00001000.

Definition IOCACHE_IOCTL_GET_API_VERSION : Z := IO IOCACHE_IOCTL_TYPE (IOCACHE_IOCTL_BASE + 0).
Definition IOCACHE_IOCTL_GET_DEVICE_INFO : Z := IO IOCACHE_IOCTL_TYPE (IOCACHE_IOCTL_BASE + 1).
Definition IOCACHE_IOCTL_GET_REGION_INFO : Z := IO IOCACHE_IOCTL_TYPE (IOCACHE_IOCTL_BASE + 2).
Definition IOCACHE_IOCTL_SET_EVENTFD : Z := IOW IOCACHE_IOCTL_TYPE (IOCACHE_IOCTL_BASE + 3) 4.
Definition IOCACHE_IOCTL_GET_LAST_IRQ_NS : Z := IOR IOCACHE_IOCTL_TYPE (IOCACHE_IOCTL_BASE + 4) 8.
Definition IOCACHE_IOCTL_WAIT_READY : Z := IOR IOCACHE_IOCTL_TYPE (IOCACHE_IOCTL_BASE + 5) 4.
Definition IOCACHE_IOCTL_GET_KTIMES : Z := IOR IOCACHE_IOCTL_TYPE (IOCACHE_IOCTL_BASE + 6) 8.
Definition IOCACHE_IOCTL_GET_PROC_UTIL : Z := IOR IOCACHE_IOCTL_TYPE (IOCACHE_IOCTL_BASE + 7) 8.
Definition IOCACHE_IOCTL_GET_AVAIL_RING : Z := IOR IOCACHE_IOCTL_TYPE (IOCACHE_IOCTL_BASE + 8) 8.
Definition IOCACHE_IOCTL_RUN_SCHEDULER : Z := IOR IOCACHE_IOCTL_TYPE (IOCACHE_IOCTL_BASE + 9) 8.
Definition IOCACHE_IOCTL_STOP_SCHEDULER : Z := IOR IOCACHE_IOCTL_TYPE (IOCACHE_IOCTL_BASE + 10) 8.
Definition IOCACHE_IOCTL_RESERVE_RING : Z := IOR IOCACHE_IOCTL_TYPE (IOCACHE_IOCTL_BASE + 11) 8.
Definition IOCACHE_IOCTL_FREE_RING : Z := IOR IOCACHE_IOCTL_TYPE (IOCACHE_IOCTL_BASE + 12) 8.

(** The fields the patched kernel adds to [struct task_struct]. *)
Record task := mk_task {
  iocache_id : Z;
  iocache_iomem : bool;      (* points to the device's window *)
  timer_ready : bool;        (* to_hrtimer initialised, function set *)
  to_period : Z              (* nanoseconds *)
}.

Record misc_state (D : Type) := mk_misc {
  ioc : ioc_state D;
  tasks : Z -> task;         (* by address of the task_struct *)
  mem : umem;                (* memory of the calling process *)
  ktimes : list Z            (* entry, claim, isr, syscall *)
}.
Arguments mk_misc {D}.
Arguments ioc {D}.
Arguments tasks {D}.
Arguments mem {D}.
Arguments ktimes {D}.

(** Kernel functions with an answer. *)
Class MiscKernel := { eventfd_ctx_fdget : Z -> Z + Z (* error, or context *) }.

Section misc.
Context {D : Type} `{Mmio D} `{MiscKernel}.
Abbreviation M := (prog (misc_state D)).

Definition set_ioc (x : ioc_state D) (s : misc_state D) : misc_state D :=
  mk_misc x (tasks s) (mem s) (ktimes s).
Definition set_mem (m : umem) (s : misc_state D) : misc_state D :=
  mk_misc (ioc s) (tasks s) m (ktimes s).
Definition set_task (p : Z) (t : task) (s : misc_state D) : misc_state D :=
  mk_misc (ioc s) (λ q, if decide (q = p) then t else tasks s q) (mem s) (ktimes s).

#[export] Instance misc_has_dev : HasDev (misc_state D) D.
Proof.
  refine {| the_dev := λ s, ioc_dev (ioc s);
            set_dev := λ d s, set_ioc (ioc_set_dev d (ioc s)) s |}; by intros [[]].
Defined.

Definition do_call (c : call) : M unit := modify (λ s, set_ioc (add_call c (ioc s)) s).

Definition update_ioc (f : ioc_state D -> ioc_state D) : M unit :=
  modify (λ s, set_ioc (f (ioc s)) s).

Definition spin_lock_ev : M unit :=
  s ← get;
  if ev_lock (ioc s) then fail Deadlock
  else update_ioc (λ x, set_locks true (ring_alloc_lock x) (rxkick_lock x) x).
Definition spin_unlock_ev : M unit :=
  update_ioc (λ x, set_locks false (ring_alloc_lock x) (rxkick_lock x) x).
Definition spin_lock_ring : M unit :=
  s ← get;
  if ring_alloc_lock (ioc s) then fail Deadlock
  else update_ioc (λ x, set_locks (ev_lock x) true (rxkick_lock x) x).
Definition spin_unlock_ring : M unit :=
  update_ioc (λ x, set_locks (ev_lock x) false (rxkick_lock x) x).

(** ** The timeout of a waiting task *)

Definition iocache_timeout_cb (tsk : Z) : M unit :=
  s ← get;
  let row := iocache_id (tasks s tsk) in
  if negb (iocache_iomem (tasks s tsk)) then fail NullDeref else
  suspended ← ioread W8 IOCACHE (IOCACHE_REG_RX_SUSPENDED row);
  when (negb (suspended =? 0)) (iowrite W8 IOCACHE (IOCACHE_REG_RX_SUSPENDED row) 0);;
  do_call (wake_up_process tsk);;
  do_call set_tsk_need_resched.

(** ** Open, release *)

Definition iocache_misc_open : M Z :=
  s ← get;
  if negb (ioc_magic (ioc s) =? MAGIC_CHAR) then mret (- EINVAL) else mret 0.

(** Replace the event context and drop the old one. *)
Definition swap_ev_ctx (c : option Z) : M unit :=
  spin_lock_ev;;
  s ← get;
  let old := ev_ctx (ioc s) in
  update_ioc (set_ev_ctx c);;
  spin_unlock_ev;;
  match old with Some p => do_call (eventfd_ctx_put p) | None => mret tt end.

Definition iocache_misc_release : M Z := swap_ev_ctx None;; mret 0.

(** ** ioctl *)

Definition copy_out (arg : Z) (l : list Z) : M Z :=
  s ← get;
  let '(ok, m) := copy_to_user (mem s) arg l in
  modify (set_mem m);; mret (if (ok : bool) then 0 else - EFAULT).

Definition ioctl_device_info (arg : Z) : M Z :=
  s ← get;
  match copy_from_user (mem s) arg sizeof_device_info with
  | None => mret (- EFAULT)
  | Some l =>
      let info := device_info_of l in
      if di_argsz info <? sizeof_device_info then mret (- EINVAL)
      else copy_out arg (device_info_bytes
             (mk_device_info (di_argsz info) 0 11 12 13 14 15 16 17 1 0))
  end.

Definition ioc_name_ctrl : list Z := [99; 116; 114; 108].

Definition iocache_region_info (size : Z) (info : region_info) : option region_info :=
  let name := <[0%nat := 0]> (ri_name info) in
  if ri_index info =? 0 then
    Some (mk_region_info (ri_argsz info) 0 (ri_index info) IOCACHE_REGION_TYPE_CTRL 1 0 size
            (u64 (Z.shiftl (ri_index info) 40)) (strlcpy name ioc_name_ctrl))
  else None.

Definition ioctl_region_info (arg : Z) : M Z :=
  s ← get;
  match copy_from_user (mem s) arg sizeof_region_info with
  | None => mret (- EFAULT)
  | Some l =>
      let info := region_info_of l in
      if ri_argsz info <? sizeof_region_info then mret (- EINVAL)
      else match iocache_region_info (ioc_size (ioc s)) info with
           | None => mret (- EINVAL)
           | Some info' => copy_out arg (region_info_bytes info')
           end
  end.

Definition ioctl_set_eventfd (arg : Z) : M Z :=
  s ← get;
  match copy_from_user (mem s) arg 4 with
  | None => mret (- EFAULT)
  | Some l =>
      let efd := i32 (le_combine l) in
      if efd =? -1 then swap_ev_ctx None;; mret 0
      else match eventfd_ctx_fdget efd with
           | inl e => mret e
           | inr ctx => swap_ev_ctx (Some ctx);; mret 0
           end
  end.

Definition ioctl_get_ktimes (arg : Z) : M Z :=
  s ← get;
  r ← copy_out arg (concat (map (le_split 8) (ktimes s)));
  mret r.

Definition ioctl_get_proc_util (arg : Z) : M Z :=
  copy_out arg (concat (map (le_split 8) [0; 0; 0])).

Definition ioctl_wait_ready (cur : Z) : M Z :=
  s ← get;
  let row := iocache_id (tasks s cur) in
  do_call (set_current_state_interruptible cur);;
  iowrite W8 IOCACHE (IOCACHE_REG_RX_SUSPENDED row) 1;;
  do_call (hrtimer_start cur (to_period (tasks s cur)));;
  do_call (call_schedule cur);;
  do_call (hrtimer_cancel cur);;
  mret 0.

Definition ioctl_get_avail_ring (cur arg : Z) : M Z :=
  s ← get; copy_out arg (le_split 4 (iocache_id (tasks s cur))).

(** [ktime_set(1, 0)] *)
Definition one_second : Z := 1000000000.

Definition ioctl_reserve_ring (cur cpu arg : Z) : M Z :=
  s ← get;
  match copy_from_user (mem s) arg 4 with
  | None => mret (- EFAULT)
  | Some l =>
      let row := i32 (le_combine l) in
      do_call migrate_disable;;
      spin_lock_ring;;
      modify (λ s, set_task cur (mk_task (iocache_id (tasks s cur)) true
                     (timer_ready (tasks s cur)) (to_period (tasks s cur))) s);;
      iowrite W8 IOCACHE (IOCACHE_REG_ENABLED row) 1;;
      iowrite W32 IOCACHE (IOCACHE_REG_PROC_CPU row) cpu;;
      iowrite W64 IOCACHE (IOCACHE_REG_PROC_PTR row) cur;;
      spin_unlock_ring;;
      do_call (hrtimer_init cur);;
      modify (λ s, set_task cur (mk_task row (iocache_iomem (tasks s cur)) true one_second) s);;
      copy_out arg (le_split 4 row)
  end.

Definition ioctl_free_ring (cur : Z) : M Z :=
  s ← get;
  let row := iocache_id (tasks s cur) in
  spin_lock_ring;;
  iowrite W8 IOCACHE (IOCACHE_REG_ENABLED row) 0;;
  iowrite W32 IOCACHE (IOCACHE_REG_PROC_CPU row) 0;;
  iowrite W64 IOCACHE (IOCACHE_REG_PROC_PTR row) 0;;
  spin_unlock_ring;;
  mret 0.

Definition ioctl_run_scheduler (cur : Z) : M Z :=
  do_call migrate_disable;;
  modify (λ s, set_task cur (mk_task (iocache_id (tasks s cur)) true
                 (timer_ready (tasks s cur)) (to_period (tasks s cur))) s);;
  do_call (sched_force_next_local cur);;
  do_call (hrtimer_init cur);;
  modify (λ s, set_task cur (mk_task (iocache_id (tasks s cur)) (iocache_iomem (tasks s cur))
                 true one_second) s);;
  mret 0.

Definition ioctl_stop_scheduler (cur : Z) : M Z :=
  do_call (wake_up_process_iocache cur);;
  do_call (hrtimer_cancel cur);;
  mret 0.

Definition iocache_misc_ioctl (cur cpu cmd arg : Z) : M Z :=
  if cmd =? IOCACHE_IOCTL_GET_API_VERSION then mret IOCACHE_IOCTL_API_VERSION
  else if cmd =? IOCACHE_IOCTL_GET_DEVICE_INFO then ioctl_device_info arg
  else if cmd =? IOCACHE_IOCTL_GET_REGION_INFO then ioctl_region_info arg
  else if cmd =? IOCACHE_IOCTL_SET_EVENTFD then ioctl_set_eventfd arg
  else if cmd =? IOCACHE_IOCTL_GET_KTIMES then ioctl_get_ktimes arg
  else if cmd =? IOCACHE_IOCTL_GET_PROC_UTIL then ioctl_get_proc_util arg
  else if cmd =? IOCACHE_IOCTL_WAIT_READY then ioctl_wait_ready cur
  else if cmd =? IOCACHE_IOCTL_GET_AVAIL_RING then ioctl_get_avail_ring cur arg
  else if cmd =? IOCACHE_IOCTL_RESERVE_RING then ioctl_reserve_ring cur cpu arg
  else if cmd =? IOCACHE_IOCTL_FREE_RING then ioctl_free_ring cur
  else if cmd =? IOCACHE_IOCTL_RUN_SCHEDULER then ioctl_run_scheduler cur
  else if cmd =? IOCACHE_IOCTL_STOP_SCHEDULER then ioctl_stop_scheduler cur
  else mret (- EINVAL).
End misc.

(** ** mmap *)

Definition map_ring (vma : vm_area) (r : dma_ring) : mmap_result :=
  if len r <? mmap_req_len vma then MmapErr (- EINVAL)
  else MmapDma (cpu_addr r) (dma_addr r) (mmap_req_len vma).

Definition iocache_misc_mmap {D} (x : ioc_state D) (vma : vm_area) : mmap_result :=
  if vm_end vma <? vm_start vma then MmapErr (- EINVAL)
  else if negb (vm_shared vma) then MmapErr (- EINVAL)
  else
    let index := mmap_index vma in
    if index =? 0 then
      if ioc_size x <? u64 (mmap_req_start vma + mmap_req_len vma) then MmapErr (- EINVAL)
      else MmapIo (vm_start vma) (u64 (Z.shiftr (ioc_phys x) PAGE_SHIFT + mmap_pgoff vma))
                  (mmap_req_len vma)
    else if (1 + 2 * IOCACHE_CACHE_ENTRY_COUNT <=? index) || (index <=? 0)
    then MmapErr (- EINVAL)
    else if Z.rem index 2 =? 0
    then map_ring vma (nth (Z.to_nat (Z.quot (index - 2) 2)) (rx_rings x) no_ring)
    else map_ring vma (nth (Z.to_nat (Z.quot (index - 1) 2)) (tx_rings x) no_ring).

(** ** Properties *)

Section reserve.
Context {D : Type} `{PlainMmio D} `{MiscKernel}.
Implicit Types s : misc_state D.

(** What the device knows about the owner of a row. *)
Definition row_owner (d : D) (row : Z) : Z * Z * Z :=
  (reg_val W8 IOCACHE (IOCACHE_REG_ENABLED row) d,
   reg_val W32 IOCACHE (IOCACHE_REG_PROC_CPU row) d,
   reg_val W64 IOCACHE (IOCACHE_REG_PROC_PTR row) d).

Definition owner_writes (row en cpu ptr : Z) : list (width * region * Z * Z) :=
  [(W8, IOCACHE, IOCACHE_REG_ENABLED row, en); (W32, IOCACHE, IOCACHE_REG_PROC_CPU row, cpu);
   (W64, IOCACHE, IOCACHE_REG_PROC_PTR row, ptr)].

Lemma owner_written row en cpu ptr (d : D) :
  0 <= row < IOCACHE_CACHE_ENTRY_COUNT ->
  row_owner (do_writes (owner_writes row en cpu ptr) d) row = (u8 en, u32 cpu, u64 ptr).
Proof.
  intros Hr. unfold row_owner. f_equal; [f_equal|].
  - apply (row_written row W8 ENABLED en [] [(W32, PROC_CPU, cpu); (W64, PROC_PTR, ptr)]);
      [done|done|by forall_list].
  - apply (row_written row W32 PROC_CPU cpu [(W8, ENABLED, en)] [(W64, PROC_PTR, ptr)]);
      [done|done|by forall_list].
  - apply (row_written row W64 PROC_PTR ptr [(W8, ENABLED, en); (W32, PROC_CPU, cpu)] []);
      [done|done|by forall_list].
Qed.

(** Writing the owner of one row leaves every register of the other rows alone. *)
Lemma owner_other row en cpu ptr (d : D) row' f w :
  0 <= row < IOCACHE_CACHE_ENTRY_COUNT -> 0 <= row' < IOCACHE_CACHE_ENTRY_COUNT ->
  row' <> row ->
  reg_val w IOCACHE (IOCACHE_REG row' (field_off f)) (do_writes (owner_writes row en cpu ptr) d)
  = reg_val w IOCACHE (IOCACHE_REG row' (field_off f)) d.
Proof.
  intros Hr Hr' Hne.
  by apply (row_untouched row' f w row [(W8, ENABLED, en); (W32, PROC_CPU, cpu); (W64, PROC_PTR, ptr)]).
Qed.

Lemma spin_lock_ring_run s :
  ring_alloc_lock (ioc s) = false ->
  spin_lock_ring s
  = (Ret tt, set_ioc (set_locks (ev_lock (ioc s)) true (rxkick_lock (ioc s)) (ioc s)) s).
Proof. intros E. unfold spin_lock_ring. by rewrite run_get, E. Qed.

(** The effect of reserving: the owner of the row, the caller's task, the two
    calls into the kernel, and the row number copied back. *)
Definition reserved cur cpu row arg s : misc_state D :=
  let x := ioc_set_dev (do_writes (owner_writes row 1 cpu cur) (ioc_dev (ioc s))) (ioc s) in
  let t := tasks s cur in
  set_mem (copy_to_user (mem s) arg (le_split 4 row)).2
    (set_task cur (mk_task row true true one_second)
      (set_task cur (mk_task (iocache_id t) true (timer_ready t) (to_period t))
        (set_ioc (add_call (hrtimer_init cur) (add_call migrate_disable x)) s))).

Lemma reserve_effect cur cpu arg l s :
  ring_alloc_lock (ioc s) = false -> copy_from_user (mem s) arg 4 = Some l ->
  let row := i32 (le_combine l) in
  ioctl_reserve_ring cur cpu arg s
  = (Ret (if (copy_to_user (mem s) arg (le_split 4 row)).1 then 0 else - EFAULT),
     reserved cur cpu row arg s).
Proof.
  intros Hl Hc row. unfold ioctl_reserve_ring. rewrite run_get, Hc. fold row.
  unfold do_call. rewrite run_modify.
  match goal with |- context [bind spin_lock_ring _ ?x] =>
    rewrite (run_bind _ _ _ _ _ (spin_lock_ring_run x Hl)) end.
  rewrite run_modify. rewrite !(run_bind _ _ _ _ _ (iowrite_run _ _ _ _ _)).
  unfold spin_unlock_ring, update_ioc. rewrite !run_modify.
  unfold copy_out. rewrite run_get.
  match goal with |- context [copy_to_user ?m arg] => change m with (mem s) end.
  unfold reserved. destruct (copy_to_user (mem s) arg (le_split 4 row)) as [ok m].
  destruct s as [[] ts m0 k]. cbn in Hl. subst. rewrite run_modify.
  cbn. by rewrite decide_True by done.
Qed.

Lemma reserve_run cur cpu arg l row s :
  row = i32 (le_combine l) ->
  ring_alloc_lock (ioc s) = false -> mapped (mem s) arg 4 ->
  copy_from_user (mem s) arg 4 = Some l ->
  exists s', ioctl_reserve_ring cur cpu arg s = (Ret 0, s') /\
    ioc_dev (ioc s') = do_writes (owner_writes row 1 cpu cur) (ioc_dev (ioc s)) /\
    tasks s' cur = mk_task row true true one_second /\
    copy_from_user (mem s') arg 4 = Some (le_split 4 row) /\
    ring_alloc_lock (ioc s') = false /\
    (ioc_phys (ioc s') = ioc_phys (ioc s) /\ ioc_size (ioc s') = ioc_size (ioc s) /\
     tx_rings (ioc s') = tx_rings (ioc s) /\ rx_rings (ioc s') = rx_rings (ioc s) /\
     ev_lock (ioc s') = ev_lock (ioc s) /\
     (forall a n, mapped (mem s) a n -> mapped (mem s') a n)).
Proof.
  intros Hr Hl Hm Hc. rewrite (reserve_effect _ _ _ _ _ Hl Hc), <- Hr. unfold reserved.
  pose proof (copy_to_user_mapped (le_split 4 row) (mem s) arg) as Hmap.
  destruct (copy_to_user_ok (le_split 4 row) (mem s) arg) as (m' & Em & Hl' & _);
    [by rewrite length_le_split|]. rewrite Em in Hmap |- *.
  eexists. split; [reflexivity|].
  split; [reflexivity|]. split; [cbn; by rewrite !decide_True by done|].
  rewrite length_le_split in Hl'. by split.
Qed.

Lemma free_run cur s row :
  iocache_id (tasks s cur) = row -> ring_alloc_lock (ioc s) = false ->
  ioctl_free_ring cur s
  = (Ret 0, set_ioc (ioc_set_dev (do_writes (owner_writes row 0 0 0) (ioc_dev (ioc s))) (ioc s)) s).
Proof.
  intros Hi Hl. unfold ioctl_free_ring. rewrite run_get, Hi.
  rewrite (run_bind _ _ _ _ _ (spin_lock_ring_run s Hl)), !(run_bind _ _ _ _ _ (iowrite_run _ _ _ _ _)).
  unfold spin_unlock_ring, update_ioc. rewrite run_modify. destruct s as [[] ? ? ?]. cbn in Hl. by subst.
Qed.

(** C34: A task that reserves a row of the table owns it afterwards: the device
    holds its CPU and its address in that row, the row is enabled, the task's
    timer is set up, and the other 63 rows are untouched; freeing the ring clears
    the row again. *)
Theorem reserve_then_free cur cpu arg row s :
  0 <= row < IOCACHE_CACHE_ENTRY_COUNT -> 0 <= cpu < NUM_CPUS -> 0 <= cur < 2 ^ 64 ->
  ring_alloc_lock (ioc s) = false -> mapped (mem s) arg 4 ->
  copy_from_user (mem s) arg 4 = Some (le_split 4 row) ->
  exists s1 s2,
    iocache_misc_ioctl cur cpu IOCACHE_IOCTL_RESERVE_RING arg s = (Ret 0, s1) /\
    row_owner (ioc_dev (ioc s1)) row = (1, cpu, cur) /\
    tasks s1 cur = mk_task row true true one_second /\
    (forall row' f w, 0 <= row' < IOCACHE_CACHE_ENTRY_COUNT -> row' <> row ->
       reg_val w IOCACHE (IOCACHE_REG row' (field_off f)) (ioc_dev (ioc s1))
       = reg_val w IOCACHE (IOCACHE_REG row' (field_off f)) (ioc_dev (ioc s))) /\
    iocache_misc_ioctl cur cpu IOCACHE_IOCTL_FREE_RING arg s1 = (Ret 0, s2) /\
    row_owner (ioc_dev (ioc s2)) row = (0, 0, 0).
Proof.
  intros Hr Hcpu Hcur Hl Hm Hc.
  assert (row = i32 (le_combine (le_split 4 row))) as Er.
  { unfold IOCACHE_CACHE_ENTRY_COUNT in Hr. rewrite le_combine_split_small by lia.
    rewrite i_small; lia. }
  destruct (reserve_run cur cpu arg _ row s Er Hl Hm Hc) as (s1 & E1 & Hd1 & Ht1 & _ & Hl1 & _).
  unfold NUM_CPUS in Hcpu. eexists s1, _. split; [exact E1|].
  rewrite Hd1, owner_written by done.
  rewrite !u_small by (pow2; lia).
  split; [done|]. split; [done|]. split; [intros; by apply owner_other|].
  split; [exact (free_run cur s1 row ltac:(by rewrite Ht1) Hl1)|]. by apply owner_written.
Qed.
End reserve.

(** The row a process asks for is not checked: reserving row -1 succeeds and
    writes the scheduler port of CPU 0, which is not part of the table. *)
Theorem reserve_ring_unchecked {D} `{Mmio D} `{MiscKernel} cur cpu arg (s : misc_state D) :
  ring_alloc_lock (ioc s) = false -> mapped (mem s) arg 4 ->
  copy_from_user (mem s) arg 4 = Some [255; 255; 255; 255] ->
  exists s1, iocache_misc_ioctl cur cpu IOCACHE_IOCTL_RESERVE_RING arg s = (Ret 0, s1) /\
    ioc_dev (ioc s1)
    = do_writes [(W8, IOCACHE, IOCACHE_REG_SCHED_READ 0, 1);
                 (W32, IOCACHE, IOCACHE_REG (-1) IOCACHE_PROC_CPU_OFF, cpu);
                 (W64, IOCACHE, IOCACHE_REG (-1) IOCACHE_PROC_PTR_OFF, cur)] (ioc_dev (ioc s)).
Proof.
  intros Hl Hm Hc.
  destruct (reserve_run cur cpu arg [255; 255; 255; 255] (-1) s eq_refl Hl Hm Hc) as (s1 & E1 & Hd1 & _).
  by exists s1.
Qed.

(** [IOCACHE_IOCTL_GET_LAST_IRQ_NS], like any command the driver does not
    list, answers [-EINVAL] and changes nothing. *)
Theorem get_last_irq_ns_unsupported {D} `{Mmio D} `{MiscKernel} cur cpu arg (s : misc_state D) :
  iocache_misc_ioctl cur cpu IOCACHE_IOCTL_GET_LAST_IRQ_NS arg s = (Ret (- EINVAL), s).
Proof. done. Qed.

(** ** Mapping the rings *)

Section mapping.
Context {D : Type}.
Implicit Types x : ioc_state D.

(** The ring behind a mapping index. *)
Lemma mmap_ring_run x index start n :
  0 <= index < 2 ^ 24 -> 0 <= start -> 0 <= n -> start + n < 2 ^ 63 ->
  (forall i, i < 64 -> len (nth i (tx_rings x) no_ring) = IOCACHE_UDP_RING_SIZE /\
             len (nth i (rx_rings x) no_ring) = IOCACHE_UDP_RING_SIZE)%nat ->
  index <> 0 ->
  iocache_misc_mmap x (mmap_request index 0 start n) =
  if (index <=? 2 * IOCACHE_CACHE_ENTRY_COUNT) && (n <=? IOCACHE_UDP_RING_SIZE) then
    let row := Z.to_nat ((index - 1) / 2) in
    let r := if Z.even index then nth row (rx_rings x) no_ring
             else nth row (tx_rings x) no_ring in
    MmapDma (cpu_addr r) (dma_addr r) n
  else MmapErr (- EINVAL).
Proof.
  intros Hi Hs Hn Hb Hlen Hne.
  destruct (mmap_request_decode index 0 start n) as (Ei & _ & El & _); try (lia || done).
  unfold iocache_misc_mmap, map_ring. rewrite Ei, El.
  cbn [vm_end vm_start vm_shared mmap_request negb].
  rewrite (proj2 (Z.ltb_ge _ _)) by lia. rewrite (proj2 (Z.eqb_neq index 0)) by done.
  rewrite (proj2 (Z.leb_gt index 0)) by lia. unfold IOCACHE_CACHE_ENTRY_COUNT in *.
  destruct (Z.leb_spec (1 + 2 * 64) index); destruct (Z.leb_spec index (2 * 64)); try lia;
    cbn [orb andb]; [done|].
  rewrite Z.rem_mod_nonneg, Zmod_even by lia.
  assert (0 <= (index - 1) / 2 < 64) as Hrow by zdm.
  destruct (Z.even index) eqn:Hev; cbn [Z.eqb].
  - assert (Z.quot (index - 2) 2 = (index - 1) / 2) as ->
      by (apply Z.even_spec in Hev as [k ->]; rewrite Z.quot_div_nonneg by lia; zdm).
    destruct (Hlen (Z.to_nat ((index - 1) / 2)) ltac:(lia)) as [_ ->].
    destruct (Z.leb_spec n IOCACHE_UDP_RING_SIZE), (Z.ltb_spec IOCACHE_UDP_RING_SIZE n); (lia || done).
  - rewrite Z.quot_div_nonneg by lia.
    destruct (Hlen (Z.to_nat ((index - 1) / 2)) ltac:(lia)) as [-> _].
    destruct (Z.leb_spec n IOCACHE_UDP_RING_SIZE), (Z.ltb_spec IOCACHE_UDP_RING_SIZE n); (lia || done).
Qed.

(** The mapping indices of the rings are a bijection: index [1 + 2 i] maps the
    TX ring of row [i] and index [2 + 2 i] its RX ring, for every row, up to the
    length of the ring; every other index but 0 is refused. *)
Theorem iocache_mmap_rings x index start n :
  0 <= index < 2 ^ 24 -> 0 <= start -> 0 <= n -> start + n < 2 ^ 63 ->
  (forall i, i < 64 -> len (nth i (tx_rings x) no_ring) = IOCACHE_UDP_RING_SIZE /\
             len (nth i (rx_rings x) no_ring) = IOCACHE_UDP_RING_SIZE)%nat ->
  index <> 0 ->
  iocache_misc_mmap x (mmap_request index 0 start n) =
  if (index <=? 2 * IOCACHE_CACHE_ENTRY_COUNT) && (n <=? IOCACHE_UDP_RING_SIZE) then
    let row := Z.to_nat ((index - 1) / 2) in
    let r := if Z.even index then nth row (rx_rings x) no_ring
             else nth row (tx_rings x) no_ring in
    MmapDma (cpu_addr r) (dma_addr r) n
  else MmapErr (- EINVAL).
Proof. apply mmap_ring_run. Qed.


(** The control window. *)
Lemma mmap_ctrl_run x start n :
  0 <= start -> 0 <= n -> start + n < 2 ^ 63 -> n <= ioc_size x -> 0 <= ioc_phys x < 2 ^ 63 ->
  iocache_misc_mmap x (mmap_request 0 0 start n) = MmapIo start (ioc_phys x / 4096) n.
Proof.
  intros Hs Hn Hb Hsz Hp.
  destruct (mmap_request_decode 0 0 start n) as (Ei & Eg & El & Es); try (lia || done).
  unfold iocache_misc_mmap. rewrite Ei, Eg, El, Es.
  cbn [vm_end vm_start vm_shared mmap_request negb Z.eqb].
  rewrite (proj2 (Z.ltb_ge _ _)) by lia. rewrite Z.add_0_l, u_small by lia.
  rewrite (proj2 (Z.ltb_ge _ _)) by lia. unfold PAGE_SHIFT. rewrite Z.shiftr_div_pow2 by lia.
  change (0 / 4096) with 0. change (2 ^ 12) with 4096. rewrite Z.add_0_r, u_small by zdm. done.
Qed.
End mapping.

(** ** Examples *)

Module SimMisc.
Definition no_eventfd : MiscKernel := {| eventfd_ctx_fdget _ := inl (-9) |}.
Definition ioc0 : ioc_state RegFile.regfile :=
  let r k := mk_ring IOCACHE_UDP_RING_SIZE (0x1000 * k) (0x1000 * k) (0x2000 * k) (0x2000 * k) in
  mk_ioc ∅ MAGIC_CHAR 0x10020000 0x10000 (mk_irqs [] [] [] [])
    (map (λ k, r (Z.of_nat k + 1)) (seq 0 64)) (map (λ k, r (Z.of_nat k + 100)) (seq 0 64))
    None false false false [].
Definition caller (bytes : list Z) : misc_state RegFile.regfile :=
  mk_misc ioc0 (λ _, mk_task 0 false false 0)
    (list_to_map (zip (map Z.of_nat (seq 0 4)) bytes)) [0; 0; 0; 0].

Lemma caller_mapped b0 b1 b2 b3 : mapped (mem (caller [b0; b1; b2; b3])) 0 4.
Proof.
  intros k Hk. assert (k = 0 \/ k = 1 \/ k = 2 \/ k = 3) as Hk' by lia.
  destruct Hk' as [-> | [-> | [-> | ->]]]; by eexists.
Qed.
End SimMisc.

Import SimMisc RegFile.

Lemma reserve_then_free_witness :
  exists s1, iocache_misc_ioctl (H0 := no_eventfd) 0xFF00 2 IOCACHE_IOCTL_RESERVE_RING 0
               (caller [5; 0; 0; 0]) = (Ret 0, s1) /\
    row_owner (ioc_dev (ioc s1)) 5 = (1, 2, 0xFF00).
Proof.
  destruct (reserve_then_free (H1 := no_eventfd) 0xFF00 2 0 5 (caller [5; 0; 0; 0])
    ltac:(done) ltac:(done) ltac:(done) eq_refl (caller_mapped _ _ _ _) eq_refl)
    as (s1 & _ & E & Ho & _).
  exists s1. split; [exact E|exact Ho].
Defined.

Lemma reserve_ring_unchecked_witness :
  exists s1, iocache_misc_ioctl (H0 := no_eventfd) 0xFF00 2 IOCACHE_IOCTL_RESERVE_RING 0
               (caller [255; 255; 255; 255]) = (Ret 0, s1).
Proof.
  destruct (reserve_ring_unchecked (H0 := no_eventfd) 0xFF00 2 0 (caller [255; 255; 255; 255])
    eq_refl (caller_mapped _ _ _ _) eq_refl) as (s1 & E & _).
  exists s1. exact E.
Defined.

Lemma iocache_mmap_rings_witness :
  iocache_misc_mmap ioc0 (mmap_request 128 0 0x7000000 4096)
  = MmapDma (0x1000 * 163) (0x2000 * 163) 4096.
Proof.
  rewrite (iocache_mmap_rings ioc0 128 0x7000000 4096); try (lia || done).
  intros i Hi. assert (i ∈ seq 0 64) as Hin by (apply elem_of_seq; lia).
  assert (Forall (λ i, len (nth i (tx_rings ioc0) no_ring) = IOCACHE_UDP_RING_SIZE /\
                       len (nth i (rx_rings ioc0) no_ring) = IOCACHE_UDP_RING_SIZE) (seq 0 64)) as HF
    by (apply (bool_decide_eq_true_1 _); vm_compute; reflexivity).
  rewrite Forall_forall in HF. apply HF, in_seq. lia.
Defined.
