(* ===== verification/LibHeaders.v ===== *)
(** * The headers of the user libraries

    [lib/iocache_lib.h], [lib/accnet_lib.h], [lib/iocache_ioctl.h] and
    [lib/accnet_ioctl.h] repeat the register map and the ioctl numbers of the
    driver headers.  They are translated here on their own; [library_abi] shows
    that process and kernel mean the same registers and commands, which is why
    [IocacheLib] and [AccnetLib] can use the names of the driver headers;
    [library_registers] shows which registers share bytes. *)

From S2P Require Import Prelude Prog Mmio UserMem AccnetRegs IocacheRegs AccnetMisc IocacheMisc.

(** ** The I/O cache *)

Module IocacheLibH.
Definition ENTRY_COUNT : Z := 64.
Definition INT_BASE : Z := 0x000.
Definition ALLOC_BASE : Z := 0x080.
Definition KICK_BASE : Z := 0x100.
Definition SCHED_BASE : Z := 0x200.
Definition TABLE_BASE : Z := 0x300.
Definition ROW_STRIDE : Z := 0x100.

(** The macros [IOCACHE_*_OFF]. *)
Definition field_off (f : row_field) : Z :=
  match f with
  | ENABLED => 0x00 | PROTOCOL => 0x08 | SRC_IP => 0x10 | SRC_PORT => 0x18 | DST_IP => 0x20
  | DST_PORT => 0x28 | RX_AVAILABLE => 0x30 | RX_SUSPENDED => 0x38 | TXCOMP_AVAILABLE => 0x40
  | TXCOMP_SUSPENDED => 0x48 | FLAGS_RO => 0x50 | CONN_ID => 0x58 | PROC_PTR => 0x60
  | PROC_CPU => 0x68 | RX_RING_ADDR => 0x70 | RX_RING_SIZE => 0x78 | TX_RING_ADDR => 0x80
  | TX_RING_SIZE => 0x88
  end.

(** [IOCACHE_REG(row, off)] *)
Definition row_reg (row off : Z) : Z := u64 (TABLE_BASE + u64 row * ROW_STRIDE + off).

(** The macros [IOCACHE_REG_*]. *)
Definition reg_addr (g : iocache_reg) : Z :=
  match g with
  | INTMASK_RX c => u64 (INT_BASE + 0x10 * u64 c + 0x00)
  | INTMASK_TXCOMP c => u64 (INT_BASE + 0x10 * u64 c + 0x08)
  | SCHED_READ c => u64 (SCHED_BASE + 0x10 * u64 c + 0x00)
  | SCHED_PEEK c => u64 (SCHED_BASE + 0x10 * u64 c + 0x08)
  | KICK_CPU => KICK_BASE + 0x00
  | KICK_COUNT => KICK_BASE + 0x08
  | KICK_MASK => KICK_BASE + 0x10
  | FIRST_EMPTY => ALLOC_BASE + 0x00
  | ROW row f => row_reg row (field_off f)
  end.
End IocacheLibH.

(** The commands of the I/O cache's character device. *)
Inductive iocache_cmd :=
| GET_API_VERSION | GET_DEVICE_INFO | GET_REGION_INFO | SET_EVENTFD | GET_LAST_IRQ_NS | WAIT_READY
| GET_KTIMES | GET_PROC_UTIL | GET_AVAIL_RING | RUN_SCHEDULER | STOP_SCHEDULER | RESERVE_RING | FREE_RING.

#[export] Instance iocache_cmd_eq_dec : EqDecision iocache_cmd.
Proof. solve_decision. Defined.

Module IocacheIoctlH.
Definition TYPE : Z := 0x88.
Definition BASE : Z := 0xC0.

(** [int] has 4 bytes, [__u64] 8. *)
Definition number (c : iocache_cmd) : Z :=
  match c with
  | GET_API_VERSION => IO TYPE (BASE + 0)
  | GET_DEVICE_INFO => IO TYPE (BASE + 1)
  | GET_REGION_INFO => IO TYPE (BASE + 2)
  | SET_EVENTFD => IOW TYPE (BASE + 3) 4
  | GET_LAST_IRQ_NS => IOR TYPE (BASE + 4) 8
  | WAIT_READY => IOR TYPE (BASE + 5) 4
  | GET_KTIMES => IOR TYPE (BASE + 6) 8
  | GET_PROC_UTIL => IOR TYPE (BASE + 7) 8
  | GET_AVAIL_RING => IOR TYPE (BASE + 8) 8
  | RUN_SCHEDULER => IOR TYPE (BASE + 9) 8
  | STOP_SCHEDULER => IOR TYPE (BASE + 10) 8
  | RESERVE_RING => IOR TYPE (BASE + 11) 8
  | FREE_RING => IOR TYPE (BASE + 12) 8
  end.
End IocacheIoctlH.

(** The number the driver compares with. *)
Definition driver_number (c : iocache_cmd) : Z :=
  match c with
  | GET_API_VERSION => IOCACHE_IOCTL_GET_API_VERSION
  | GET_DEVICE_INFO => IOCACHE_IOCTL_GET_DEVICE_INFO
  | GET_REGION_INFO => IOCACHE_IOCTL_GET_REGION_INFO
  | SET_EVENTFD => IOCACHE_IOCTL_SET_EVENTFD
  | GET_LAST_IRQ_NS => IOCACHE_IOCTL_GET_LAST_IRQ_NS
  | WAIT_READY => IOCACHE_IOCTL_WAIT_READY
  | GET_KTIMES => IOCACHE_IOCTL_GET_KTIMES
  | GET_PROC_UTIL => IOCACHE_IOCTL_GET_PROC_UTIL
  | GET_AVAIL_RING => IOCACHE_IOCTL_GET_AVAIL_RING
  | RUN_SCHEDULER => IOCACHE_IOCTL_RUN_SCHEDULER
  | STOP_SCHEDULER => IOCACHE_IOCTL_STOP_SCHEDULER
  | RESERVE_RING => IOCACHE_IOCTL_RESERVE_RING
  | FREE_RING => IOCACHE_IOCTL_FREE_RING
  end.

(** ** The AccNIC *)

Module AccnetLibH.
Definition RING_SIZE : Z := 256 * 1024.
Definition RING_COUNT : Z := 1.
Definition RX_RING_STRIDE : Z := 0x20.
Definition TX_RING_STRIDE : Z := 0x10.

(** The macros [ACCNET_UDP_RX_RING_*(r)] and [ACCNET_UDP_TX_RING_*(r)]. *)
Definition rx_ring_reg (r : Z) (f : rx_field) : Z :=
  u64 (u64 r * RX_RING_STRIDE +
       match f with RX_HEAD => 0x00 | RX_TAIL => 0x04 | RX_DROP => 0x08 | RX_LAST_TIMESTAMP => 0x10 end).
Definition tx_ring_reg (r : Z) (f : tx_field) : Z :=
  u64 (u64 r * TX_RING_STRIDE +
       match f with TX_HEAD => 0x00 | TX_TAIL => 0x04 | TX_LAST_TIMESTAMP => 0x08 end).

Definition RX_IRQ_PENDING : Z := 0x400.
Definition RX_IRQ_CLEAR : Z := 0x404.

(** MTU, header fields and interrupt of the transmit engine, with their widths. *)
Definition tx_globals : list (width * Z) :=
  [(W16, 0x400); (W64, 0x408); (W64, 0x410); (W8, 0x420); (W8, 0x424); (W16, 0x428); (W8, 0x42C);
   (W32, 0x430); (W32, 0x434)].

Definition CTRL_INTR_MASK : Z := 0x00.
Definition CTRL_TIMESTAMP : Z := 0x10.
End AccnetLibH.

Module AccnetIoctlH.
Definition A_TYPE : Z := 0x88.
Definition A_BASE : Z := 0xC0.
Definition API_VERSION : Z := IO A_TYPE (A_BASE + 0).
Definition DEVICE_INFO : Z := IO A_TYPE (A_BASE + 1).
Definition REGION_INFO : Z := IO A_TYPE (A_BASE + 2).
(** unimplemented, control, NIC control, application control, memory *)
Definition region_types : list Z := [0x00000000; 0x00001000; 0x00001001; 0x00001002; 0x00002000].
End AccnetIoctlH.

(** ** Agreement *)

Lemma row_reg_agrees row f : IocacheLibH.reg_addr (ROW row f) = reg_addr (ROW row f).
Proof. by destruct f. Qed.

Lemma number_agrees c : IocacheIoctlH.number c = driver_number c.
Proof. by destruct c. Qed.

Lemma driver_number_inj c c' : driver_number c = driver_number c' -> c = c'.
Proof. destruct c, c'; intros E; reflexivity || (vm_compute in E; discriminate E). Qed.

(** The interface between processes and kernel: the libraries' headers name the
    addresses of the driver's register maps, so that two registers of the I/O cache
    used through the library never share a byte; their ioctl numbers are the
    driver's, different for different commands.  (The ring size and count of
    [accnet_lib.h] differ from the driver's and are not used.) *)
Theorem library_abi :
  (forall g, IocacheLibH.reg_addr g = reg_addr g) /\
  (forall g g' w w', reg_valid g -> reg_valid g' -> g <> g' ->
     disjoint_acc w IOCACHE (IocacheLibH.reg_addr g) w' IOCACHE (IocacheLibH.reg_addr g')) /\
  (forall r f, AccnetLibH.rx_ring_reg r f = rx_reg r f) /\
  (forall r f, AccnetLibH.tx_ring_reg r f = tx_reg r f) /\
  AccnetLibH.tx_globals = tx_globals /\
  [AccnetLibH.RX_IRQ_PENDING; AccnetLibH.RX_IRQ_CLEAR; AccnetLibH.CTRL_INTR_MASK; AccnetLibH.CTRL_TIMESTAMP;
   AccnetIoctlH.API_VERSION; AccnetIoctlH.DEVICE_INFO; AccnetIoctlH.REGION_INFO]
  = [ACCNET_UDP_RX_IRQ_PENDING; ACCNET_UDP_RX_IRQ_CLEAR; ACCNET_INTR_MASK; ACCNET_CTRL_TIMESTAMP;
     ACCNET_IOCTL_GET_API_VERSION; ACCNET_IOCTL_GET_DEVICE_INFO; ACCNET_IOCTL_GET_REGION_INFO] /\
  AccnetIoctlH.region_types = [ACCNET_REGION_TYPE_UNIMPLEMENTED; ACCNET_REGION_TYPE_CTRL; ACCNET_REGION_TYPE_NIC_CTRL;
    ACCNET_REGION_TYPE_APP_CTRL; ACCNET_REGION_TYPE_RAM] /\
  IocacheLibH.ENTRY_COUNT = IOCACHE_CACHE_ENTRY_COUNT /\
  (forall c c', IocacheIoctlH.number c = driver_number c' <-> c = c').
Proof.
  assert (forall g, IocacheLibH.reg_addr g = reg_addr g) as Hreg
    by (intros [| | | | | | | |row f]; [done..|apply row_reg_agrees]).
  split_and!; try done.
  - intros g g' w w' Hg Hg' Hne. rewrite !Hreg. by apply reg_addr_disjoint.
  - by intros r [].
  - by intros r [].
  - intros c c'. rewrite number_agrees. split; [apply driver_number_inj|by intros ->].
Qed.

Lemma library_abi_witness :
  disjoint_acc W64 IOCACHE (IocacheLibH.reg_addr (ROW 63 TX_RING_SIZE))
               W32 IOCACHE (IocacheLibH.reg_addr (ROW 0 ENABLED)) /\
  IocacheIoctlH.number WAIT_READY = driver_number WAIT_READY.
Proof.
  destruct library_abi as (_ & Hd & _ & _ & _ & _ & _ & _ & Hn). split.
  - apply Hd; [simpl; unfold IOCACHE_CACHE_ENTRY_COUNT; lia..|discriminate].
  - by apply Hn.
Defined.

(** ** Which registers share bytes *)

(** The registers of the UDP engines that [accnet_lib.h] names. *)
Inductive engine_reg :=
| RxRing (r : Z) (f : rx_field)
| RxIrqPending
| RxIrqClear
| TxRing (r : Z) (f : tx_field)
| TxGlobal (i : nat).

Definition engine_valid (g : engine_reg) : Prop :=
  match g with
  | RxRing r _ | TxRing r _ => 0 <= r < ACCNET_UDP_RING_COUNT
  | TxGlobal i => (i < length AccnetLibH.tx_globals)%nat
  | _ => True
  end.

(** Window, width and offset, as the library computes them. *)
Definition engine_loc (g : engine_reg) : region * width * Z :=
  match g with
  | RxRing r f => (ACCNET_UDP_RX, rx_width f, AccnetLibH.rx_ring_reg r f)
  | RxIrqPending => (ACCNET_UDP_RX, W32, AccnetLibH.RX_IRQ_PENDING)
  | RxIrqClear => (ACCNET_UDP_RX, W32, AccnetLibH.RX_IRQ_CLEAR)
  | TxRing r f => (ACCNET_UDP_TX, tx_width f, AccnetLibH.tx_ring_reg r f)
  | TxGlobal i =>
      match AccnetLibH.tx_globals !! i with
      | Some (w, a) => (ACCNET_UDP_TX, w, a)
      | None => (ACCNET_UDP_TX, W8, 0)
      end
  end.

Definition share_no_byte (g g' : engine_reg) : Prop :=
  let '(r, w, a) := engine_loc g in let '(r', w', a') := engine_loc g' in
  disjoint_acc w r a w' r' a'.

(** The pointers of receive ring 32 lie on the interrupt registers. *)
Definition clash (g g' : engine_reg) : Prop :=
  g = RxRing 32 RX_HEAD /\ g' = RxIrqPending \/ g = RxRing 32 RX_TAIL /\ g' = RxIrqClear.

Lemma share_no_byte_sym g g' : share_no_byte g g' <-> share_no_byte g' g.
Proof.
  unfold share_no_byte. destruct (engine_loc g) as [[r w] a], (engine_loc g') as [[r' w'] a'].
  unfold disjoint_acc. split; intuition congruence.
Qed.

Lemma rx_lib_val r f : 0 <= r < ACCNET_UDP_RING_COUNT ->
  AccnetLibH.rx_ring_reg r f
  = r * 32 + match f with RX_HEAD => 0 | RX_TAIL => 4 | RX_DROP => 8 | _ => 16 end.
Proof. intros Hr. rewrite <- rx_reg_val by done. by destruct f. Qed.

Lemma tx_lib_val r f : 0 <= r < ACCNET_UDP_RING_COUNT ->
  AccnetLibH.tx_ring_reg r f = r * 16 + match f with TX_HEAD => 0 | TX_TAIL => 4 | _ => 8 end.
Proof. intros Hr. rewrite <- tx_reg_val by done. by destruct f. Qed.

(** A receive ring's register and an interrupt register. *)
Lemma rx_ring_irq r f g : 0 <= r < ACCNET_UDP_RING_COUNT -> g = RxIrqPending \/ g = RxIrqClear ->
  share_no_byte (RxRing r f) g <-> ~ clash (RxRing r f) g.
Proof.
  intros Hr Hg. unfold share_no_byte, disjoint_acc. cbn [engine_loc]. rewrite rx_lib_val by done.
  unfold ACCNET_UDP_RING_COUNT in Hr. split.
  - intros Hd [[[= -> ->] ->]|[[= -> ->] ->]]; vm_compute in Hd; by destruct Hd as [Hd|[Hd|Hd]].
  - intros Hn. destruct (decide (r = 32)) as [->|].
    + destruct Hg as [-> | ->], f;
        first [by right; left|by right; right|destruct Hn; unfold clash; by auto].
    + destruct Hg as [-> | ->], f; right; cbn;
        unfold AccnetLibH.RX_IRQ_PENDING, AccnetLibH.RX_IRQ_CLEAR; lia.
Qed.

Lemma tx_globals_disjoint i j :
  (i < 9)%nat -> (j < 9)%nat -> i <> j -> share_no_byte (TxGlobal i) (TxGlobal j).
Proof.
  intros Hi Hj Hne. unfold share_no_byte, disjoint_acc.
  do 9 (destruct i as [|i]; [do 9 (destruct j as [|j]; [try done; right; cbn; lia|]); lia|]). lia.
Qed.

Lemma tx_ring_global r f i : 0 <= r < ACCNET_UDP_RING_COUNT -> (i < 9)%nat ->
  share_no_byte (TxRing r f) (TxGlobal i).
Proof.
  intros Hr Hi. unfold share_no_byte, disjoint_acc. cbn [engine_loc]. rewrite tx_lib_val by done.
  unfold ACCNET_UDP_RING_COUNT in Hr.
  do 9 (destruct i as [|i]; [right; left; destruct f; cbn; lia|]). lia.
Qed.

(** Every pair of registers but the two pairs of [clash] is disjoint. *)
Definition separate (g g' : engine_reg) : Prop :=
  share_no_byte g g' <-> ~ (clash g g' \/ clash g' g).

Lemma separate_sym g g' : separate g g' -> separate g' g.
Proof. unfold separate. rewrite (share_no_byte_sym g'). tauto. Qed.

Lemma separate_disjoint g g' :
  share_no_byte g g' -> ~ clash g g' -> ~ clash g' g -> separate g g'.
Proof. unfold separate. tauto. Qed.

Lemma separate_windows g g' :
  (engine_loc g).1.1 <> (engine_loc g').1.1 -> separate g g'.
Proof.
  intros Hne. apply separate_disjoint.
  - unfold share_no_byte. destruct (engine_loc g) as [[r w] a], (engine_loc g') as [[r' w'] a'].
    by left.
  - intros [[-> ->]|[-> ->]]; done.
  - intros [[-> ->]|[-> ->]]; done.
Qed.

Lemma tx_global_window i : (engine_loc (TxGlobal i)).1.1 = ACCNET_UDP_TX.
Proof. cbn [engine_loc]. by destruct (_ !! _) as [[w a]|]. Qed.

Lemma engine_separate g g' : engine_valid g -> engine_valid g' -> g <> g' -> separate g g'.
Proof.
  assert (forall x y, (engine_loc x).1.1 = ACCNET_UDP_TX \/ (engine_loc y).1.1 = ACCNET_UDP_TX ->
    share_no_byte x y -> separate x y) as Htx.
  { intros x y Hw Hd. apply separate_disjoint; [done|..];
      intros [[-> ->]|[-> ->]]; destruct Hw; discriminate. }
  assert (forall r f x, engine_valid (RxRing r f) -> x = RxIrqPending \/ x = RxIrqClear ->
    separate (RxRing r f) x) as Hirq.
  { intros r f x Hr Hx. unfold separate. rewrite rx_ring_irq by done.
    assert (~ clash x (RxRing r f)) by (intros [[? ?]|[? ?]]; discriminate). tauto. }
  intros Hg Hg' Hne. destruct g as [r f| | |r f|i], g' as [r' f'| | |r' f'|j];
    try congruence; try (by apply Hirq; auto); try (by apply separate_sym, Hirq; auto);
    try (apply separate_windows; rewrite ?tx_global_window; discriminate);
    cbn [engine_valid] in *.
  - apply separate_disjoint; [|intros [[? ?]|[? ?]]; discriminate..].
    unfold share_no_byte. cbn [engine_loc]. rewrite !rx_lib_val, <- !rx_reg_val by done.
    apply rx_ring_regs_disjoint; [done|done|congruence].
  - apply separate_disjoint; [right; by left|intros [[? ?]|[? ?]]; discriminate..].
  - apply separate_disjoint; [right; by right|intros [[? ?]|[? ?]]; discriminate..].
  - apply Htx; [by left|]. unfold share_no_byte. cbn [engine_loc].
    rewrite !tx_lib_val, <- !tx_reg_val by done. apply tx_ring_regs_disjoint; [done|done|congruence].
  - apply Htx; [by left|]. by apply tx_ring_global.
  - apply Htx; [by right|]. apply share_no_byte_sym. by apply tx_ring_global.
  - apply Htx; [left; apply tx_global_window|]. apply tx_globals_disjoint; [done|done|congruence].
Qed.

(** C39: The registers a process reaches through the libraries' headers.  Two
    different registers of the I/O cache share no byte, at any width.  Two different
    registers of the UDP engines share a byte exactly when one is the head or tail
    pointer of receive ring 32 and the other the interrupt-pending or
    interrupt-clear register of the receive engine.  An ioctl number of the
    library selects one command of the driver, the one of the same name. *)
Theorem library_registers :
  (forall g g' w w', reg_valid g -> reg_valid g' -> g <> g' ->
     disjoint_acc w IOCACHE (IocacheLibH.reg_addr g) w' IOCACHE (IocacheLibH.reg_addr g')) /\
  (forall g g', engine_valid g -> engine_valid g' -> g <> g' ->
     share_no_byte g g' <-> ~ (clash g g' \/ clash g' g)) /\
  (forall c c', IocacheIoctlH.number c = driver_number c' <-> c = c').
Proof.
  destruct library_abi as (_ & Hd & _ & _ & _ & _ & _ & _ & Hn).
  split; [exact Hd|]. split; [exact engine_separate|exact Hn].
Qed.

Lemma library_registers_witness :
  disjoint_acc W64 IOCACHE (IocacheLibH.reg_addr (ROW 63 TX_RING_SIZE))
               W32 IOCACHE (IocacheLibH.reg_addr (ROW 0 ENABLED)) /\
  share_no_byte (RxRing 31 RX_LAST_TIMESTAMP) RxIrqPending /\
  ~ share_no_byte (RxRing 32 RX_TAIL) RxIrqClear /\
  IocacheIoctlH.number WAIT_READY = driver_number WAIT_READY.
Proof.
  destruct library_registers as (Hd & He & Hn). split; [|split; [|split]].
  - apply Hd; [simpl; unfold IOCACHE_CACHE_ENTRY_COUNT; lia..|discriminate].
  - apply He; [simpl; unfold ACCNET_UDP_RING_COUNT; lia|done|discriminate|].
    intros [[[? ?]|[? ?]]|[[? ?]|[? ?]]]; discriminate.
  - rewrite He; [|simpl; unfold ACCNET_UDP_RING_COUNT; lia|done|discriminate].
    intros Hc. apply Hc. left. by right.
  - by apply Hn.
Defined.
