(* ===== verification/IocacheOwners.v ===== *)
(** * The I/O cache as a table of owners

    What the driver promises to the tasks that use the I/O cache, independent of
    registers, locks and kernel calls: a table that says which task, on which CPU,
    owns each row.  Reserving a row enters its new owner, freeing clears the row
    the task reserved last, and the RX interrupt wakes the owners of the rows in
    the device's kick set.  The driver refines this table, whatever the order of
    system calls of any number of tasks, interrupts, timeouts and steps of the
    device; each of them is one atomic step. *)

From S2P Require Import Prelude Prog Mmio IocacheRegs UserMem IocacheDriver IocacheDriverSpec IocacheMisc.

(** ** The abstract table *)

Record otable := mk_otable {
  owner : gmap Z (Z * Z);    (* row: task and CPU *)
  row_of : Z -> Z            (* the row a task names in its system calls *)
}.

Inductive op :=
| Reserve (task cpu row : Z)
| Release (task : Z)
| Kick (mask count : Z)
| Wake (task : Z)
| Wait (task : Z)
| Quiet.

(** The owners of the rows of a kick set, in row order, no more than [count]. *)
Definition owners_in (o : otable) (mask count : Z) : list Z :=
  take (Z.to_nat count)
    (omap (λ i, fst <$> owner o !! i)
       (filter (λ i, Z.testbit mask i = true) (indices IOCACHE_CACHE_ENTRY_COUNT))).

(** The table after an operation, and the tasks it wakes. *)
Definition table_step (p : op) (o : otable) : otable * list Z :=
  match p with
  | Reserve t c row =>
      (mk_otable (<[row := (t, c)]> (owner o)) (λ q, if decide (q = t) then row else row_of o q), [])
  | Release t => (mk_otable (delete (row_of o t) (owner o)) (row_of o), [])
  | Kick mask count => (o, owners_in o mask count)
  | Wake t => (o, [t])
  | Wait _ | Quiet => (o, [])
  end.

Fixpoint table_run (ps : list op) (o : otable) : otable * list Z :=
  match ps with
  | [] => (o, [])
  | p :: ps' =>
      let '(o1, ws1) := table_step p o in
      let '(o2, ws2) := table_run ps' o1 in (o2, ws1 ++ ws2)
  end.

(** ** Devices that keep the owners *)

(** The registers of a row that hold its owner, with their widths. *)
Definition owner_width (f : row_field) : option width :=
  match f with
  | ENABLED => Some W8 | PROC_CPU => Some W32 | PROC_PTR => Some W64 | _ => None
  end.

(** Only reading SCHED_READ has a side effect, and the owner of a row is storage that
    only a write to it changes; every other register, the kick block among them, may
    answer in any way. *)
Class OwnerTable (D : Type) `{Mmio D} := {
  ot_read w g (d : D) :
    reg_valid g -> (forall c, g <> SCHED_READ c) -> (io_read w IOCACHE (reg_addr g) d).2 = d;
  ot_same row f w v (d : D) :
    0 <= row < IOCACHE_CACHE_ENTRY_COUNT -> owner_width f = Some w ->
    reg_val w IOCACHE (reg_addr (ROW row f)) (io_write w IOCACHE (reg_addr (ROW row f)) v d)
    = Word.u (wbits w) v;
  ot_other row f w g w' v (d : D) :
    0 <= row < IOCACHE_CACHE_ENTRY_COUNT -> owner_width f = Some w ->
    reg_valid g -> g <> ROW row f ->
    reg_val w IOCACHE (reg_addr (ROW row f)) (io_write w' IOCACHE (reg_addr g) v d)
    = reg_val w IOCACHE (reg_addr (ROW row f)) d
}.

#[export] Instance plain_owner_table D `{PlainMmio D} : OwnerTable D.
Proof.
  split.
  - intros. by apply read_pure, consumes_reg.
  - intros row f w v d Hr Hf. apply read_write_same; [|by apply fits_row].
    apply storage_row; [done|by intros ->].
  - intros row f w g w' v d Hr Hf Hg Hne. apply read_write_other; [|by apply reg_addr_disjoint].
    apply storage_row; [done|by intros ->].
Qed.

(** ** The system *)

(** What may happen next: a system call of the task [cur] on [cpu], an interrupt,
    the timer of a task, another process or new contents of its memory, a step of
    the device. *)
Inductive event (D : Type) :=
| Open
| Close
| Ioctl (cur cpu cmd arg : Z)
| RxInterrupt (cpu : Z)
| TxInterrupt
| Timeout (tsk : Z)
| Memory (m : umem)
| Device (d : D).
Arguments Open {D}.
Arguments Close {D}.
Arguments Ioctl {D}.
Arguments RxInterrupt {D}.
Arguments TxInterrupt {D}.
Arguments Timeout {D}.
Arguments Memory {D}.
Arguments Device {D}.

(** The tasks woken by a sequence of kernel calls. *)
Definition wakes (l : list call) : list Z :=
  omap (λ c, match c with
             | wake_up_process_iocache t | wake_up_process t => Some t
             | _ => None
             end) l.

Lemma wakes_app l l' : wakes (l ++ l') = wakes l ++ wakes l'.
Proof. apply omap_app. Qed.

Lemma wakes_kicked ts : wakes (map wake_up_process_iocache ts) = ts.
Proof. unfold wakes. induction ts as [|t ts IH]; [done|]. cbn. by rewrite IH. Qed.

(** Only a task that waits gives up the processor or starts a timer. *)
Definition allowed (p : op) (c : call) : Prop :=
  match c with
  | set_current_state_interruptible t | call_schedule t | hrtimer_start t _ => p = Wait t
  | hrtimer_cancel t => p = Wait t \/ p = Wake t
  | _ => True
  end.

Section owners.
Context {D : Type} `{OwnerTable D} `{MiscKernel}.
Implicit Types (s : misc_state D) (o : otable).

(** A handler of the network side, run on the driver's part of the state. *)
Definition on_ioc {A} (m : prog (ioc_state D) A) : prog (misc_state D) A := λ s,
  let '(r, x) := m (ioc s) in (r, set_ioc x s).

Definition perform (e : event D) : prog (misc_state D) Z :=
  match e with
  | Open => iocache_misc_open
  | Close => iocache_misc_release
  | Ioctl cur cpu cmd arg => iocache_misc_ioctl cur cpu cmd arg
  | RxInterrupt cpu => on_ioc (iocache_isr_rx cpu)
  | TxInterrupt => on_ioc iocache_isr_txcomp
  | Timeout tsk => iocache_timeout_cb tsk;; mret 0
  | Memory m => modify (set_mem m);; mret 0
  | Device d => modify (set_dev d);; mret 0
  end.

(** What an event can be: tasks are addresses, CPUs exist, a task asks for a row
    of the table, a timer runs for a task that set it up, and the device does not
    change owners by itself. *)
Definition possible (e : event D) s : Prop :=
  match e with
  | Ioctl cur cpu cmd arg =>
      0 < cur < 2 ^ 64 /\ 0 <= cpu < NUM_CPUS /\
      (cmd = IOCACHE_IOCTL_RESERVE_RING -> forall l, copy_from_user (mem s) arg 4 = Some l ->
       0 <= i32 (le_combine l) < IOCACHE_CACHE_ENTRY_COUNT)
  | Timeout tsk => timer_ready (tasks s tsk) = true
  | Device d => forall row, 0 <= row < IOCACHE_CACHE_ENTRY_COUNT ->
      row_owner d row = row_owner (ioc_dev (ioc s)) row
  | _ => True
  end.

(** The operation of the table an event stands for: the row is the one in the
    caller's memory, the kick set the one the device answers. *)
Definition op_of (e : event D) s : op :=
  match e with
  | Ioctl cur cpu cmd arg =>
      if cmd =? IOCACHE_IOCTL_RESERVE_RING then
        match copy_from_user (mem s) arg 4 with
        | Some l => Reserve cur cpu (i32 (le_combine l))
        | None => Quiet
        end
      else if cmd =? IOCACHE_IOCTL_FREE_RING then Release cur
      else if cmd =? IOCACHE_IOCTL_STOP_SCHEDULER then Wake cur
      else if cmd =? IOCACHE_IOCTL_WAIT_READY then Wait cur
      else Quiet
  | RxInterrupt cpu =>
      let d := io_write W32 IOCACHE IOCACHE_REG_RX_KICK_ALL_CPU cpu (ioc_dev (ioc s)) in
      Kick (reg_val W64 IOCACHE IOCACHE_REG_RX_KICK_ALL_MASK d)
           (reg_val W32 IOCACHE IOCACHE_REG_RX_KICK_ALL_COUNT d)
  | Timeout tsk => Wake tsk
  | _ => Quiet
  end.

(** Executions, with the operations and the tasks woken. *)
Inductive system_run : misc_state D -> list op -> list Z -> misc_state D -> Prop :=
| sr_nil s : system_run s [] [] s
| sr_event e s r s1 l ps ws s2 :
    possible e s -> perform e s = (Ret r, s1) -> trace (ioc s1) = trace (ioc s) ++ l ->
    system_run s1 ps ws s2 -> system_run s (op_of e s :: ps) (wakes l ++ ws) s2.

(** ** The relation *)

Definition owner_regs (x : option (Z * Z)) : Z * Z * Z :=
  match x with Some (t, c) => (1, c, t) | None => (0, 0, 0) end.

Record implements_table o s : Prop := {
  it_row row : 0 <= row < IOCACHE_CACHE_ENTRY_COUNT ->
    row_owner (ioc_dev (ioc s)) row = owner_regs (owner o !! row);
  it_owner row t c : owner o !! row = Some (t, c) -> t <> 0;
  it_id t : iocache_id (tasks s t) = row_of o t;
  it_range t : 0 <= row_of o t < IOCACHE_CACHE_ENTRY_COUNT;
  it_timer t : timer_ready (tasks s t) = true -> iocache_iomem (tasks s t) = true;
  it_ev : ev_lock (ioc s) = false;
  it_ring : ring_alloc_lock (ioc s) = false;
  it_kick : rxkick_lock (ioc s) = false
}.

(** What a step does that stands for [p]: the tasks it wakes, the calls it makes,
    and the table it leaves; timers that are set up stay so. *)
Definition simulates (p : op) o s {A} : A -> misc_state D -> Prop := λ _ s',
  exists l, trace (ioc s') = trace (ioc s) ++ l /\
    (table_step p o).2 = wakes l /\ Forall (allowed p) l /\
    (forall t, timer_ready (tasks s t) = true -> timer_ready (tasks s' t) = true) /\
    implements_table (table_step p o).1 s'.

(** ** Owners and register writes *)

Lemma row_owner_other g w v (d : D) row :
  0 <= row < IOCACHE_CACHE_ENTRY_COUNT -> reg_valid g ->
  (forall f, is_Some (owner_width f) -> g <> ROW row f) ->
  row_owner (io_write w IOCACHE (reg_addr g) v d) row = row_owner d row.
Proof.
  intros Hr Hg Hf. unfold row_owner.
  f_equal; [f_equal|].
  - by apply (ot_other row ENABLED W8); [| | |apply Hf].
  - by apply (ot_other row PROC_CPU W32); [| | |apply Hf].
  - by apply (ot_other row PROC_PTR W64); [| | |apply Hf].
Qed.

Lemma row_owner_suspended r v (d : D) row :
  0 <= row < IOCACHE_CACHE_ENTRY_COUNT -> 0 <= r < IOCACHE_CACHE_ENTRY_COUNT ->
  row_owner (io_write W8 IOCACHE (IOCACHE_REG_RX_SUSPENDED r) v d) row = row_owner d row.
Proof.
  intros Hrow Hr. apply (row_owner_other (ROW r RX_SUSPENDED)); [done|done|].
  intros f [w Hf] [= _ <-]. done.
Qed.

Lemma row_owner_writes row r en c p (d : D) :
  0 <= row < IOCACHE_CACHE_ENTRY_COUNT -> 0 <= r < IOCACHE_CACHE_ENTRY_COUNT ->
  row_owner (do_writes (owner_writes r en c p) d) row
  = if decide (row = r) then (u8 en, u32 c, u64 p) else row_owner d row.
Proof.
  intros Hrow Hr. unfold do_writes, owner_writes. cbn [foldl do_write].
  destruct (decide (row = r)) as [->|Hne].
  - unfold row_owner. f_equal; [f_equal|].
    + etrans; [by apply (ot_other r ENABLED W8 (ROW r PROC_PTR))|].
      etrans; [by apply (ot_other r ENABLED W8 (ROW r PROC_CPU))|].
      by apply (ot_same r ENABLED W8).
    + etrans; [by apply (ot_other r PROC_CPU W32 (ROW r PROC_PTR))|].
      by apply (ot_same r PROC_CPU W32).
    + by apply (ot_same r PROC_PTR W64).
  - etrans; [apply (row_owner_other (ROW r PROC_PTR)); [done|done|congruence]|].
    etrans; [apply (row_owner_other (ROW r PROC_CPU)); [done|done|congruence]|].
    apply (row_owner_other (ROW r ENABLED)); [done|done|congruence].
Qed.

Lemma proc_ptr_owner o s row :
  implements_table o s -> 0 <= row < IOCACHE_CACHE_ENTRY_COUNT ->
  proc_ptr (ioc_dev (ioc s)) row = default 0 (fst <$> owner o !! row).
Proof.
  intros HI Hr. change (proc_ptr (ioc_dev (ioc s)) row) with (row_owner (ioc_dev (ioc s)) row).2.
  rewrite (it_row _ _ HI) by done. by destruct (owner o !! row) as [[]|].
Qed.

(** The handler's walk through the registers wakes the owners of the table. *)
Lemma kicked_owners o s mask count :
  implements_table o s ->
  kicked (ioc_dev (ioc s)) (indices IOCACHE_CACHE_ENTRY_COUNT) mask count = owners_in o mask count.
Proof.
  intros HI. unfold kicked, owners_in. f_equal.
  pose proof indices_rows as HF.
  induction HF as [|i rows Hi HF IH]; [done|]. rewrite filter_cons.
  destruct (decide (Z.testbit mask i = true)) as [Hb|]; [|done].
  cbn [map omap list_omap]. rewrite filter_cons, (proc_ptr_owner o) by done.
  destruct (owner o !! i) as [[t c]|] eqn:E; cbn.
  - rewrite decide_True by by eapply it_owner. by rewrite IH.
  - by rewrite decide_False by tauto.
Qed.

(** ** Steps that leave the owners alone *)

Lemma implements_frame o s s' :
  implements_table o s ->
  (forall row, 0 <= row < IOCACHE_CACHE_ENTRY_COUNT ->
    row_owner (ioc_dev (ioc s')) row = row_owner (ioc_dev (ioc s)) row) ->
  (forall t, iocache_id (tasks s' t) = iocache_id (tasks s t)) ->
  (forall t, timer_ready (tasks s' t) = true -> iocache_iomem (tasks s' t) = true) ->
  ev_lock (ioc s') = false -> ring_alloc_lock (ioc s') = false -> rxkick_lock (ioc s') = false ->
  implements_table o s'.
Proof.
  intros HI Hd Hid Ht He Hr Hk. destruct HI. split; try done.
  - intros row Hrow. rewrite Hd by done. auto.
  - intros t. by rewrite Hid.
Qed.

Lemma copy_out_run arg l s : exists r m, copy_out arg l s = (Ret r, set_mem m s).
Proof.
  unfold copy_out. rewrite run_get. destruct (copy_to_user (mem s) arg l) as [ok m].
  rewrite run_modify. by eexists _, _.
Qed.

Lemma simulates_mem o s (r : Z) m : implements_table o s -> simulates Quiet o s r (set_mem m s).
Proof.
  intros HI. exists []. rewrite app_nil_r. do 4 (split; [done|]).
  apply (implements_frame o s); try done; apply HI.
Qed.

Lemma simulates_same o s (r : Z) : implements_table o s -> simulates Quiet o s r s.
Proof. intros HI. exists []. rewrite app_nil_r. by do 4 (split; [done|]). Qed.

Lemma copy_out_simulates arg l o s :
  implements_table o s -> returns (copy_out arg l) s (simulates Quiet o s).
Proof.
  intros HI. destruct (copy_out_run arg l s) as (r & m & E).
  eapply returns_eq; [exact E|by apply simulates_mem].
Qed.

Lemma swap_ev_ctx_run c s :
  ev_lock (ioc s) = false ->
  swap_ev_ctx c s
  = (Ret tt, set_ioc (set_ev_ctx c (add_calls (match ev_ctx (ioc s) with
                                               | Some p => [eventfd_ctx_put p]
                                               | None => []
                                               end) (ioc s))) s).
Proof.
  intros Hl. destruct s as [[d mg ph sz iq tx rx ec el al kl tr] ts m k]. cbn in Hl. subst el.
  destruct ec as [p|]; [done|].
  etrans; [reflexivity|]. unfold set_ioc, set_ev_ctx, add_calls. cbn. by rewrite app_nil_r.
Qed.

Lemma swap_ev_ctx_simulates c o s :
  implements_table o s -> returns (swap_ev_ctx c;; mret 0) s (simulates Quiet o s).
Proof.
  intros HI. exec_with (swap_ev_ctx_run c s (it_ev _ _ HI)). apply returns_ret.
  eexists. split; [reflexivity|]. split; [by destruct (ev_ctx (ioc s))|].
  split; [destruct (ev_ctx (ioc s)); by repeat constructor|]. split; [done|].
  apply (implements_frame o s); try done; apply HI.
Qed.

(** ** Steps that change them *)

Lemma implements_owner o s s' row t c :
  implements_table o s -> 0 <= row < IOCACHE_CACHE_ENTRY_COUNT -> 0 < t < 2 ^ 64 ->
  0 <= c < NUM_CPUS ->
  ioc_dev (ioc s') = do_writes (owner_writes row 1 c t) (ioc_dev (ioc s)) ->
  tasks s' t = mk_task row true true one_second -> (forall q, q <> t -> tasks s' q = tasks s q) ->
  ev_lock (ioc s') = ev_lock (ioc s) -> ring_alloc_lock (ioc s') = ring_alloc_lock (ioc s) ->
  rxkick_lock (ioc s') = rxkick_lock (ioc s) ->
  implements_table (table_step (Reserve t c row) o).1 s'.
Proof.
  intros HI Hr Ht Hc Hd Et Ho E1 E2 E3. unfold NUM_CPUS in Hc. destruct HI.
  split; try congruence; cbn [table_step fst owner row_of].
  - intros i Hi. rewrite Hd, row_owner_writes by done.
    destruct (decide (i = row)) as [->|].
    + rewrite lookup_insert_eq. cbn. rewrite !u_small by (pow2; lia). done.
    + rewrite lookup_insert_ne by done. auto.
  - intros i t' c' Hi. destruct (decide (i = row)) as [->|].
    + rewrite lookup_insert_eq in Hi. injection Hi as <- <-. lia.
    + rewrite lookup_insert_ne in Hi by done. eauto.
  - intros q. destruct (decide (q = t)) as [->|]; [by rewrite Et|]. by rewrite Ho.
  - intros q. by destruct (decide (q = t)).
  - intros q. destruct (decide (q = t)) as [->|]; [by rewrite Et|]. rewrite Ho by done. auto.
Qed.

Lemma reserve_simulates cur cpu arg o s :
  implements_table o s -> possible (Ioctl cur cpu IOCACHE_IOCTL_RESERVE_RING arg) s ->
  returns (ioctl_reserve_ring cur cpu arg) s
    (simulates (op_of (Ioctl cur cpu IOCACHE_IOCTL_RESERVE_RING arg) s) o s).
Proof.
  intros HI (Ht & Hc & Hrow). cbn [op_of]. rewrite Z.eqb_refl.
  destruct (copy_from_user (mem s) arg 4) as [l|] eqn:El.
  - eapply returns_eq; [exact (reserve_effect _ _ _ _ _ (it_ring _ _ HI) El)|].
    exists [migrate_disable; hrtimer_init cur]. split; [cbn; by rewrite <- app_assoc|]. split; [done|].
    split; [by repeat constructor|]. split; [intros q; cbn; by repeat case_decide|].
    apply (implements_owner o s); try done; try by apply Hrow.
    + cbn. by rewrite decide_True by done.
    + intros q Hq. cbn. by rewrite !decide_False by done.
  - unfold ioctl_reserve_ring. eapply returns_eq; [|by apply simulates_same].
    by rewrite run_get, El.
Qed.

Lemma free_simulates cur o s :
  implements_table o s -> returns (ioctl_free_ring cur) s (simulates (Release cur) o s).
Proof.
  intros HI. eapply returns_eq; [exact (free_run cur s _ (it_id _ _ HI cur) (it_ring _ _ HI))|].
  exists []. split; [cbn; by rewrite app_nil_r|]. do 3 (split; [done|]).
  pose proof (it_range _ _ HI cur) as Hr. destruct HI.
  split; try done; cbn [table_step fst owner row_of].
  - intros i Hi. cbn [ioc set_ioc ioc_dev ioc_set_dev]. rewrite row_owner_writes by done.
    destruct (decide (i = row_of o cur)) as [->|].
    + by rewrite lookup_delete_eq.
    + rewrite lookup_delete_ne by done. auto.
  - intros i t c [_ Hi]%lookup_delete_Some. eauto.
Qed.

Lemma isr_rx_simulates cpu o s :
  implements_table o s ->
  returns (on_ioc (iocache_isr_rx cpu)) s (simulates (op_of (RxInterrupt cpu) s) o s).
Proof.
  intros HI. set (d := io_write W32 IOCACHE IOCACHE_REG_RX_KICK_ALL_CPU cpu (ioc_dev (ioc s))).
  assert (implements_table o (set_ioc (ioc_set_dev d (ioc s)) s)) as HI'.
  { apply (implements_frame o s); try done; try apply HI.
    intros row Hrow. by apply (row_owner_other KICK_CPU). }
  eapply returns_eq.
  { unfold on_ioc. by rewrite (iocache_isr_rx_run ot_read cpu (ioc s) (it_kick _ _ HI)). }
  eexists. split; [reflexivity|]. cbn [op_of table_step fst snd]. fold d. split.
  - rewrite wakes_app, wakes_kicked, app_nil_r. symmetry. exact (kicked_owners o _ _ _ HI').
  - split.
    { apply Forall_app. split; [|by repeat constructor]. apply Forall_map, Forall_true. done. }
    split; [done|]. apply (implements_frame o _ _ HI'); try done; apply HI'.
Qed.

Lemma timeout_simulates tsk o s :
  implements_table o s -> timer_ready (tasks s tsk) = true ->
  returns (iocache_timeout_cb tsk;; mret 0) s (simulates (Wake tsk) o s).
Proof.
  intros HI Ht. unfold iocache_timeout_cb. set (row := iocache_id (tasks s tsk)).
  assert (0 <= row < IOCACHE_CACHE_ENTRY_COUNT) as Hrow
    by (unfold row; rewrite (it_id _ _ HI); apply HI).
  seq_with (simulates (A := unit) (Wake tsk) o s).
  2: { intros r s' Hs. apply returns_ret. exact Hs. }
  exec. fold row. rewrite (it_timer _ _ HI tsk Ht). cbn [negb].
  eapply returns_bind_eq.
  { unfold ioread. cbn [the_dev misc_has_dev].
    rewrite (surjective_pairing (io_read W8 IOCACHE _ _)).
    rewrite (ot_read W8 (ROW row RX_SUSPENDED)) by done. reflexivity. }
  set (b := negb _). assert (set_dev (ioc_dev (ioc s)) s = s) as -> by by destruct s as [[]].
  destruct b; cbn [when]; exec; exec; (eapply returns_eq; [reflexivity|]);
    (eexists; split; [cbn; by rewrite <- app_assoc|]); (split; [done|]);
    (split; [by repeat constructor|]); (split; [done|]); apply (implements_frame o s); try done; try apply HI.
  intros r Hr. by apply row_owner_suspended.
Qed.

(** Calls of the kernel that wake nobody. *)
Lemma wait_ready_simulates cur o s :
  implements_table o s -> returns (ioctl_wait_ready cur) s (simulates (Wait cur) o s).
Proof.
  intros HI. unfold ioctl_wait_ready. do 6 exec. apply returns_ret.
  eexists [_; _; _; _]. split; [cbn; by rewrite <- !app_assoc|]. split; [done|].
  split; [repeat constructor|]. split; [done|].
  apply (implements_frame o s); try done; try apply HI.
  intros row Hrow. apply row_owner_suspended; [done|]. rewrite (it_id _ _ HI). apply HI.
Qed.

Lemma run_scheduler_simulates cur o s :
  implements_table o s -> returns (ioctl_run_scheduler cur) s (simulates Quiet o s).
Proof.
  intros HI. unfold ioctl_run_scheduler. do 5 exec. apply returns_ret.
  eexists [_; _; _]. split; [cbn; by rewrite <- !app_assoc|]. split; [done|].
  split; [by repeat constructor|]. split; [intros t; cbn; by repeat case_decide|].
  apply (implements_frame o s); try done; try apply HI; intros t; cbn;
    destruct (decide (t = cur)) as [->|]; rewrite ?decide_True by done; try done. apply HI.
Qed.

Lemma stop_scheduler_simulates cur o s :
  implements_table o s -> returns (ioctl_stop_scheduler cur) s (simulates (Wake cur) o s).
Proof.
  intros HI. unfold ioctl_stop_scheduler. do 2 exec. apply returns_ret.
  eexists [_; _]. split; [cbn; by rewrite <- !app_assoc|]. split; [done|].
  split; [by repeat constructor; auto|]. split; [done|].
  apply (implements_frame o s); try done; apply HI.
Qed.

(** The remaining commands read and write the caller's memory or replace the event
    context. *)
Ltac quiet :=
  repeat first
    [ by apply returns_ret, simulates_same
    | by apply copy_out_simulates
    | by apply swap_ev_ctx_simulates
    | exec
    | case_match ].

Lemma quiet_ioctls arg cur o s :
  implements_table o s ->
  Forall (λ m, returns m s (simulates Quiet o s))
    [ioctl_device_info arg; ioctl_region_info arg; ioctl_set_eventfd arg; ioctl_get_ktimes arg;
     ioctl_get_proc_util arg; ioctl_get_avail_ring cur arg].
Proof.
  intros HI. repeat apply Forall_cons_2; [..|constructor].
  - unfold ioctl_device_info. quiet.
  - unfold ioctl_region_info. quiet.
  - unfold ioctl_set_eventfd. quiet.
  - unfold ioctl_get_ktimes. exec.
    match goal with |- context [copy_out arg ?l] => destruct (copy_out_run arg l s) as (r & m & E) end.
    exec_with E. by apply returns_ret, simulates_mem.
  - unfold ioctl_get_proc_util. quiet.
  - unfold ioctl_get_avail_ring. quiet.
Qed.

Lemma ioctl_simulates cur cpu cmd arg o s :
  implements_table o s -> possible (Ioctl cur cpu cmd arg) s ->
  returns (iocache_misc_ioctl cur cpu cmd arg) s (simulates (op_of (Ioctl cur cpu cmd arg) s) o s).
Proof.
  intros HI Hp. pose proof (quiet_ioctls arg cur o s HI) as Hq.
  rewrite !list.Forall_cons in Hq. destruct Hq as (? & ? & ? & ? & ? & ? & _).
  unfold iocache_misc_ioctl.
  destruct (Z.eqb_spec cmd IOCACHE_IOCTL_GET_API_VERSION) as [->|_];
    [by apply returns_ret, simulates_same|].
  do 5 (match goal with |- context [if cmd =? ?c then _ else _] => 
    destruct (Z.eqb_spec cmd c) as [->|_]; [done|] end).
  destruct (Z.eqb_spec cmd IOCACHE_IOCTL_WAIT_READY) as [->|Hw]; [by apply wait_ready_simulates|].
  destruct (Z.eqb_spec cmd IOCACHE_IOCTL_GET_AVAIL_RING) as [->|_]; [done|].
  cbn [op_of]. rewrite (proj2 (Z.eqb_neq _ _) Hw).
  destruct (Z.eqb_spec cmd IOCACHE_IOCTL_RESERVE_RING) as [->|_].
  { pose proof (reserve_simulates cur cpu arg o s HI Hp) as Hr. cbn [op_of] in Hr.
    by rewrite Z.eqb_refl in Hr. }
  destruct (Z.eqb_spec cmd IOCACHE_IOCTL_FREE_RING) as [->|_]; [by apply free_simulates|].
  destruct (Z.eqb_spec cmd IOCACHE_IOCTL_RUN_SCHEDULER) as [->|_]; [by apply run_scheduler_simulates|].
  destruct (Z.eqb_spec cmd IOCACHE_IOCTL_STOP_SCHEDULER) as [->|_]; [by apply stop_scheduler_simulates|].
  by apply returns_ret, simulates_same.
Qed.

Lemma event_simulates e o s :
  implements_table o s -> possible e s -> returns (perform e) s (simulates (op_of e s) o s).
Proof.
  intros HI Hp. destruct e as [| |cur cpu cmd arg|cpu| |tsk|m|d]; cbn [perform op_of].
  - unfold iocache_misc_open. quiet.
  - by apply swap_ev_ctx_simulates.
  - by apply ioctl_simulates.
  - by apply isr_rx_simulates.
  - eapply returns_eq; [reflexivity|]. destruct s. by apply simulates_same.
  - by apply timeout_simulates.
  - exec. by apply returns_ret, simulates_mem.
  - exec. apply returns_ret. exists []. split; [cbn; by rewrite app_nil_r|]. do 3 (split; [done|]).
    apply (implements_frame o s); try done; apply HI.
Qed.

Lemma table_run_cons p ps o :
  table_run (p :: ps) o
  = ((table_run ps (table_step p o).1).1, (table_step p o).2 ++ (table_run ps (table_step p o).1).2).
Proof.
  cbn [table_run]. destruct (table_step p o) as [o1 ws1]. cbn [fst snd].
  by destruct (table_run ps o1).
Qed.

Lemma system_run_refines s ps ws s' :
  system_run s ps ws s' -> forall o, implements_table o s ->
  ws = (table_run ps o).2 /\ implements_table (table_run ps o).1 s'.
Proof.
  induction 1 as [s|e s r s1 l ps ws s2 Hp E El Hr IH]; intros o HI; [done|].
  destruct (event_simulates e o s HI Hp) as (r' & s1' & E' & l' & El' & Hw & _ & _ & HI').
  rewrite E in E'. injection E' as <- <-. rewrite El in El'. apply app_inv_head in El' as ->.
  rewrite table_run_cons, Hw. destruct (IH _ HI') as [-> HI2]. by split.
Qed.

(** ** Legal calls *)

(** What the kernel asks of its callers: a timer is started or cancelled only once it is
    set up, and a task that is woken has not exited; [alive] says which tasks exist. *)
Definition call_ok (alive : Z -> Prop) s (c : call) : Prop :=
  match c with
  | hrtimer_start t _ | hrtimer_cancel t => timer_ready (tasks s t) = true
  | wake_up_process t | wake_up_process_iocache t => alive t
  | _ => True
  end.

(** The same as a condition on the use of the table: the tasks it wakes exist, and a task
    waits or stops waiting only after it set up its timer, by reserving a row or running
    the scheduler. *)
Definition well_used (alive : Z -> Prop) o (e : event D) s : Prop :=
  Forall alive (table_step (op_of e s) o).2 /\
  forall t, op_of e s = Wait t \/ op_of e s = Wake t -> timer_ready (tasks s t) = true.

(** Events of the system, whatever row a task asks for. *)
Definition occurs (e : event D) s : Prop :=
  match e with
  | Ioctl cur cpu _ _ => 0 < cur < 2 ^ 64 /\ 0 <= cpu < NUM_CPUS
  | _ => possible e s
  end.

(** What a call of RESERVE_RING leaves in the device: the owner registers of the row in
    the caller's memory are written, at the address the row computes to. *)
Definition reserve_done (e : event D) s s' : Prop :=
  match e with
  | Ioctl cur cpu cmd arg => forall l,
      cmd = IOCACHE_IOCTL_RESERVE_RING -> copy_from_user (mem s) arg 4 = Some l ->
      ioc_dev (ioc s') = do_writes (owner_writes (i32 (le_combine l)) 1 cpu cur) (ioc_dev (ioc s))
  | _ => True
  end.

(** The wake-ups among the calls are those of the table. *)
Lemma wakes_ok alive s l :
  Forall (call_ok alive s) l <->
  Forall alive (wakes l) /\
  Forall (λ c, match c with
               | hrtimer_start t _ | hrtimer_cancel t => timer_ready (tasks s t) = true
               | _ => True
               end) l.
Proof.
  induction l as [|c l IH]; [by repeat split|].
  destruct c; cbn [wakes omap list_omap call_ok]; rewrite ?list.Forall_cons; cbn [call_ok];
    fold (wakes l); try tauto; unfold wakes in IH; tauto.
Qed.

(** The calls of a step are legal when the table is well used; and conversely when the
    step touches the timer of the task it stands for. *)
Lemma simulates_legal alive e o s l :
  (table_step (op_of e s) o).2 = wakes l -> Forall (allowed (op_of e s)) l ->
  (forall t, op_of e s = Wait t \/ op_of e s = Wake t ->
     hrtimer_cancel t ∈ l \/ timer_ready (tasks s t) = true) ->
  Forall (call_ok alive s) l <-> well_used alive o e s.
Proof.
  intros Hw Ha Ht. unfold well_used. rewrite wakes_ok, Hw. split; intros [HF HT]; (split; [done|]).
  - intros t Hp. destruct (Ht t Hp) as [Hin|]; [|done].
    rewrite Forall_forall in HT. by apply (HT (hrtimer_cancel t)), list_elem_of_In.
  - eapply Forall_impl; [|exact Ha]. intros [] Hc; cbn in Hc; auto.
Qed.

Definition cancels (cur : Z) s : Z -> misc_state D -> Prop := λ _ s',
  exists l, trace (ioc s') = trace (ioc s) ++ l ++ [hrtimer_cancel cur].

Lemma wait_ready_cancels cur s : returns (ioctl_wait_ready cur) s (cancels cur s).
Proof.
  unfold ioctl_wait_ready. do 6 exec. apply returns_ret. eexists [_; _; _]. cbn.
  by rewrite <- !app_assoc.
Qed.

Lemma stop_scheduler_cancels cur s : returns (ioctl_stop_scheduler cur) s (cancels cur s).
Proof.
  unfold ioctl_stop_scheduler. do 2 exec. apply returns_ret. eexists [_]. cbn.
  by rewrite <- !app_assoc.
Qed.

(** The system calls that stand for a wait or a wake-up cancel the timer. *)
Lemma ioctl_cancels cur cpu cmd arg t s r s' l :
  op_of (Ioctl cur cpu cmd arg) s = Wait t \/ op_of (Ioctl cur cpu cmd arg) s = Wake t ->
  perform (Ioctl cur cpu cmd arg) s = (Ret r, s') -> trace (ioc s') = trace (ioc s) ++ l ->
  hrtimer_cancel t ∈ l.
Proof.
  cbn [op_of perform]. intros Hop E El.
  assert (t = cur /\ (cmd = IOCACHE_IOCTL_WAIT_READY \/ cmd = IOCACHE_IOCTL_STOP_SCHEDULER)) as [-> Hcmd].
  { destruct (Z.eqb_spec cmd IOCACHE_IOCTL_RESERVE_RING).
    { destruct (copy_from_user _ _ _); by destruct Hop. }
    destruct (Z.eqb_spec cmd IOCACHE_IOCTL_FREE_RING); [by destruct Hop|].
    destruct (Z.eqb_spec cmd IOCACHE_IOCTL_STOP_SCHEDULER);
      [by destruct Hop as [|[= ->]]; [|eauto]|].
    destruct (Z.eqb_spec cmd IOCACHE_IOCTL_WAIT_READY); [|by destruct Hop].
    destruct Hop as [[= ->]|]; [eauto|done]. }
  assert (cancels cur s r s') as (k & Ek).
  { destruct Hcmd as [-> | ->];
      [destruct (wait_ready_cancels cur s) as (r2 & s2 & E2 & Hc)
      |destruct (stop_scheduler_cancels cur s) as (r2 & s2 & E2 & Hc)];
      change (iocache_misc_ioctl cur cpu _ arg s) with
        (ltac:(match type of E2 with ?x = _ => exact x end)) in E; rewrite E2 in E;
      injection E as <- <-; exact Hc. }
  rewrite El in Ek. apply app_inv_head in Ek as ->. set_solver.
Qed.

Lemma event_legal alive e o s :
  implements_table o s -> possible e s ->
  exists r s' l, perform e s = (Ret r, s') /\ trace (ioc s') = trace (ioc s) ++ l /\
    (Forall (call_ok alive s) l <-> well_used alive o e s).
Proof.
  intros HI Hp.
  destruct (event_simulates e o s HI Hp) as (r & s' & E & l & El & Hw & Ha & _).
  exists r, s', l. split; [done|]. split; [done|]. apply simulates_legal; [done|done|].
  intros t Hop. destruct e as [| |cur cpu cmd arg|cpu| |tsk|m|d]; try by destruct Hop.
  - left. by eapply ioctl_cancels.
  - right. destruct Hop as [|[= <-]]; [done|exact Hp].
Qed.

Lemma reserve_legal alive cur cpu arg l o s :
  implements_table o s -> copy_from_user (mem s) arg 4 = Some l ->
  let e := Ioctl cur cpu IOCACHE_IOCTL_RESERVE_RING arg in
  exists r s' k, perform e s = (Ret r, s') /\ trace (ioc s') = trace (ioc s) ++ k /\
    (Forall (call_ok alive s) k <-> well_used alive o e s) /\ reserve_done e s s'.
Proof.
  intros HI El e. eexists _, _, [migrate_disable; hrtimer_init cur].
  split; [exact (reserve_effect _ _ _ _ _ (it_ring _ _ HI) El)|].
  split; [cbn; by rewrite <- app_assoc|]. split.
  - unfold well_used, e. cbn [op_of]. rewrite Z.eqb_refl, El. split; [|by repeat constructor].
    intros _. split; [constructor|]. by intros t [|].
  - intros l' _ El'. rewrite El in El'. injection El' as <-. reflexivity.
Qed.

(** Apart from reservations that reach the table, what occurs is possible. *)
Lemma reserve_or_possible e s :
  occurs e s ->
  (exists cur cpu arg l, e = Ioctl cur cpu IOCACHE_IOCTL_RESERVE_RING arg /\
     copy_from_user (mem s) arg 4 = Some l) \/
  (possible e s /\ forall s', reserve_done e s s').
Proof.
  destruct e as [| |cur cpu cmd arg|cpu| |tsk|m|d]; try (right; by split).
  intros [Ht Hc]. destruct (decide (cmd = IOCACHE_IOCTL_RESERVE_RING)) as [->|Hne];
    [destruct (copy_from_user (mem s) arg 4) as [l|] eqn:El|].
  - left. by repeat eexists.
  - right. split; [split; [done|split; [done|]]; intros; congruence|intros s' l _ E; congruence].
  - right. split; [by split|]. by intros s' l ?.
Qed.

(** C3: The driver refines the table of owners: in every execution from a state that
    implements a table, system calls of any tasks, interrupts, timeouts and steps of
    the device in any order, rows asked for being rows of the table, the tasks woken are
    exactly those the table wakes and the final state implements the final table.  Every
    further event, a reservation of any row included, runs to its end without a deadlock
    or a null pointer, and the calls it makes are legal in the kernel exactly when the
    tasks woken still exist and a task that waits or stops has set up its timer: the
    driver checks neither.  A reservation writes the owner registers of the row it was
    given, in the table or not. *)
Theorem iocache_refines_owners s ps ws s' o :
  implements_table o s -> system_run s ps ws s' ->
  ws = (table_run ps o).2 /\ implements_table (table_run ps o).1 s' /\
  forall alive e, occurs e s' -> exists r s'' l,
    perform e s' = (Ret r, s'') /\ trace (ioc s'') = trace (ioc s') ++ l /\
    (Forall (call_ok alive s') l <-> well_used alive (table_run ps o).1 e s') /\
    reserve_done e s' s''.
Proof.
  intros HI Hr. destruct (system_run_refines _ _ _ _ Hr o HI) as [Hw HI'].
  split; [done|]. split; [done|]. intros alive e He.
  destruct (reserve_or_possible e s' He) as [(cur & cpu & arg & l & -> & El)|[Hp Hd]].
  - by eapply reserve_legal.
  - destruct (event_legal alive e _ s' HI' Hp) as (r & s2 & l & E & El & Hl).
    exists r, s2, l. split; [done|]. split; [done|]. split; [done|apply Hd].
Qed.

(** Freeing does not look at who owns the row: a task that never reserved one (it
    names row 0), or whose row was given to another task since, takes the row away
    from its owner, which no interrupt wakes any more. *)
Theorem free_takes_foreign_row o s cur t c :
  implements_table o s -> owner o !! row_of o cur = Some (t, c) -> t <> cur ->
  exists s', ioctl_free_ring cur s = (Ret 0, s') /\
    row_owner (ioc_dev (ioc s)) (row_of o cur) = (1, c, t) /\
    row_owner (ioc_dev (ioc s')) (row_of o cur) = (0, 0, 0).
Proof.
  intros HI Ho _. pose proof (it_range _ _ HI cur) as Hr. eexists.
  split; [exact (free_run cur s _ (it_id _ _ HI cur) (it_ring _ _ HI))|].
  split; [by rewrite (it_row _ _ HI), Ho|].
  cbn [ioc set_ioc ioc_dev ioc_set_dev]. by rewrite row_owner_writes, decide_True by done.
Qed.

(** Closing the device frees no row: the address of the task stays in the table, and
    the next interrupt of the row wakes it, whether or not the task still exists. *)
Theorem close_keeps_owners o s :
  implements_table o s ->
  exists s', iocache_misc_release s = (Ret 0, s') /\ implements_table o s' /\
    forall mask count,
      kicked (ioc_dev (ioc s')) (indices IOCACHE_CACHE_ENTRY_COUNT) mask count
      = owners_in o mask count.
Proof.
  intros HI. destruct (swap_ev_ctx_simulates None o s HI) as (r & s' & E & l & _ & _ & _ & _ & HI').
  assert (r = 0) as -> by (rewrite (run_bind _ _ _ _ _ (swap_ev_ctx_run None s (it_ev _ _ HI))) in E;
    by injection E).
  exists s'. split; [exact E|]. split; [exact HI'|]. intros. by apply kicked_owners.
Qed.
End owners.

(** ** An example device

    Registers as memory; writing a CPU number to the kick block computes the set of
    rows of that CPU with packets available. *)
Module KickDevice.
Import RegFile.

Record kick_dev := mk_kick_dev { regs : regfile }.

Definition rows_of (c : Z) (m : regfile) : list Z :=
  filter (λ i, load 4 IOCACHE (IOCACHE_REG_PROC_CPU i) m = c /\
               load 1 IOCACHE (IOCACHE_REG_RX_AVAILABLE i) m <> 0)
    (indices IOCACHE_CACHE_ENTRY_COUNT).

Definition kick_write (w : width) (r : region) (a v : Z) (m : regfile) : regfile :=
  let m1 := store (wbytes w) r a v m in
  if decide (r = IOCACHE /\ a = reg_addr KICK_CPU) then
    let rows := rows_of v m in
    store 8 IOCACHE (reg_addr KICK_MASK) (foldr (λ i x, Z.setbit x i) 0 rows)
      (store 4 IOCACHE (reg_addr KICK_COUNT) (zlen rows) m1)
  else m1.

#[export] Instance kick_mmio : Mmio kick_dev := {
  io_read w r a d := (load (wbytes w) r a (regs d), d);
  io_write w r a v d := mk_kick_dev (kick_write w r a v (regs d))
}.

Lemma load_other g g' w n v m :
  reg_valid g -> reg_valid g' -> g <> g' -> (n <= 8)%nat ->
  load (wbytes w) IOCACHE (reg_addr g) (store n IOCACHE (reg_addr g') v m)
  = load (wbytes w) IOCACHE (reg_addr g) m.
Proof.
  intros Hg Hg' Hne Hn. apply load_store_other. right.
  destruct (reg_addr_disjoint g g' w W64 Hg Hg' Hne) as [|[|]]; [done|lia|]. right.
  destruct (reg_addr_disjoint g' g W64 w Hg' Hg ltac:(congruence)) as [|[Hd|Hd]]; [done| |];
    cbn in *; lia.
Qed.

#[export] Instance kick_owners : OwnerTable kick_dev.
Proof.
  split.
  - done.
  - intros row f w v [m] Hr Hf. unfold reg_val. cbn [io_read io_write kick_mmio fst regs].
    unfold kick_write. rewrite decide_False.
    + rewrite load_store_same. unfold Word.u, wbits. f_equal. by rewrite Z.pow_mul_r by lia.
    + intros [_ E]. pose proof (reg_addr_disjoint (ROW row f) KICK_CPU W8 W8 Hr I ltac:(done)) as Hd.
      rewrite E in Hd. destruct Hd as [|[|]]; cbn in *; (done || lia).
  - intros row f w g w' v [m] Hr Hf Hg Hne. unfold reg_val.
    cbn [io_read io_write kick_mmio fst regs]. unfold kick_write.
    case_decide; rewrite ?load_other; try done; try lia; destruct w'; cbn; lia.
Qed.
End KickDevice.

(** Two tasks: the first reserves a row on CPU 1 and is woken when its packets
    arrive; the second frees a row it never reserved. *)
Module SimOwners.
Import KickDevice SimMisc.
Local Existing Instance no_eventfd.

Definition task_a : Z := 0xFF00.
Definition task_b : Z := 0xEE00.

(** The memory of the caller holds the number of a row. *)
Definition idle (row : Z) : misc_state kick_dev :=
  mk_misc (mk_ioc (mk_kick_dev ∅) MAGIC_CHAR 0x10020000 0x10000 (mk_irqs [] [] [] []) [] []
             None false false false [])
    (λ _, mk_task 0 false false 0) (list_to_map (zip [0; 1; 2; 3] [row; 0; 0; 0])) [0; 0; 0; 0].

Definition nobody : otable := mk_otable ∅ (λ _, 0).

Lemma idle_implements row : implements_table nobody (idle row).
Proof. by split. Qed.

Definition after (e : event kick_dev) (s : misc_state kick_dev) : misc_state kick_dev :=
  (perform e s).2.

Lemma run_next e s r l ps ws s' :
  possible e s -> (perform e s).1 = Ret r -> trace (ioc (after e s)) = trace (ioc s) ++ l ->
  system_run (after e s) ps ws s' -> system_run s (op_of e s :: ps) (wakes l ++ ws) s'.
Proof.
  intros Hp Hr Hl. apply (sr_event e s r (after e s) l); [done| |done].
  unfold after. destruct (perform e s). cbn in *. by subst.
Qed.

Definition reserve_a : event kick_dev := Ioctl task_a 1 IOCACHE_IOCTL_RESERVE_RING 0.
Definition s1 : misc_state kick_dev := after reserve_a (idle 5).
Definition packet : event kick_dev :=
  Device (io_write W8 IOCACHE (reg_addr (ROW 5 RX_AVAILABLE)) 1 (ioc_dev (ioc s1))).
Definition s2 : misc_state kick_dev := after packet s1.
Definition s3 : misc_state kick_dev := after (RxInterrupt 1) s2.

Lemma reserve_a_possible row : 0 <= row < IOCACHE_CACHE_ENTRY_COUNT -> possible reserve_a (idle row).
Proof.
  intros Hr. split; [done|]. split; [done|]. intros _ l El.
  change (Some [row; 0; 0; 0] = Some l) in El. injection El as <-.
  unfold IOCACHE_CACHE_ENTRY_COUNT in *. cbn [le_combine]. rewrite i_small; lia.
Qed.

Lemma example_run : system_run (idle 5) [Reserve task_a 1 5; Quiet; Kick 32 1] [task_a] s3.
Proof.
  apply (run_next reserve_a (idle 5) 0 [migrate_disable; hrtimer_init task_a]);
    [|vm_compute; reflexivity|vm_compute; reflexivity|].
  { by apply reserve_a_possible. }
  apply (run_next packet s1 0 []); [|done|vm_compute; reflexivity|].
  { intros row Hr. by apply (row_owner_other (ROW 5 RX_AVAILABLE)); [| |intros [] [] ?]. }
  assert (op_of (RxInterrupt 1) s2 = Kick 32 1) as <- by (vm_compute; reflexivity).
  apply (run_next (RxInterrupt 1) s2 1 [wake_up_process_iocache task_a; set_tsk_need_resched] [] []);
    [done|vm_compute; reflexivity|vm_compute; reflexivity|constructor].
Qed.
End SimOwners.

Import KickDevice SimOwners.

Lemma iocache_refines_owners_witness :
  (table_run [Reserve task_a 1 5; Quiet; Kick 32 1] nobody).2 = [task_a] /\
  row_owner (ioc_dev (ioc s3)) 5 = (1, 1, task_a).
Proof.
  destruct (iocache_refines_owners (H1 := SimMisc.no_eventfd) _ _ _ _ nobody (idle_implements 5) example_run)
    as (Hw & HI & _).
  split; [symmetry; exact Hw|]. rewrite (it_row _ _ HI 5) by done. vm_compute. reflexivity.
Defined.

(** The row that [task_a] reserved is row 0, the one [task_b] names. *)
Lemma free_takes_foreign_row_witness :
  exists s', ioctl_free_ring task_b (after reserve_a (idle 0)) = (Ret 0, s') /\
    row_owner (ioc_dev (ioc s')) 0 = (0, 0, 0).
Proof.
  destruct (event_simulates (H1 := SimMisc.no_eventfd) reserve_a nobody (idle 0) (idle_implements 0))
    as (r & s' & E & l & _ & _ & _ & _ & HI).
  { by apply reserve_a_possible. }
  destruct (free_takes_foreign_row _ s' task_b task_a 1 HI) as (s2 & E2 & _ & Ho);
    [vm_compute; reflexivity|done|].
  exists s2. split; [|exact Ho]. unfold after. rewrite E. exact E2.
Defined.
