(* ===== verification/IocacheWait.v ===== *)
(** * Waiting for an interrupt ([IOCACHE_IOCTL_WAIT_READY])

    A task that waits marks itself interruptible, tells the device that the row is
    suspended, starts a timer and calls the scheduler; the interrupt handler, the
    timer callback and the system calls of other tasks run at any point in between.
    The system below interleaves the actions of [ioctl_wait_ready], one at a time and
    for any number of tasks, with the other events of the driver; its states are
    those of the driver with what the scheduler knows about each task.  No wake-up is
    lost in it, and every wait can come to its end. *)

From S2P Require Import Prelude Prog Mmio IocacheRegs UserMem IocacheDriver IocacheDriverSpec.
From S2P Require Import IocacheMisc IocacheOwners.

Inductive action := SetInterruptible | Suspend | ArmTimer | Schedule | CancelTimer.

#[export] Instance action_eq_dec : EqDecision action.
Proof. solve_decision. Defined.

(** The [WAIT_READY] branch of [iocache_misc_ioctl], one atomic action at a time. *)
Definition wait_program : list action :=
  [SetInterruptible; Suspend; ArmTimer; Schedule; CancelTimer].

(** An action of the task [cur], which read its row when the wait began. *)
Definition action_effect {D} `{Mmio D} (cur row : Z) (a : action) : prog (misc_state D) unit :=
  match a with
  | SetInterruptible => do_call (set_current_state_interruptible cur)
  | Suspend => iowrite W8 IOCACHE (IOCACHE_REG_RX_SUSPENDED row) 1
  | ArmTimer => s ← get; do_call (hrtimer_start cur (to_period (tasks s cur)))
  | Schedule => do_call (call_schedule cur)
  | CancelTimer => do_call (hrtimer_cancel cur)
  end.

Fixpoint run_actions {D} `{Mmio D} (cur row : Z) (l : list action) : prog (misc_state D) unit :=
  match l with
  | [] => mret tt
  | a :: l' => action_effect cur row a;; run_actions cur row l'
  end.

(** The ioctl branch performs exactly the actions of [wait_program], in that
    order, on the caller's row. *)
Theorem wait_ready_actions {D} `{Mmio D} `{MiscKernel} cur cpu arg (s : misc_state D) :
  iocache_misc_ioctl cur cpu IOCACHE_IOCTL_WAIT_READY arg s
  = (run_actions cur (iocache_id (tasks s cur)) wait_program;; mret 0) s.
Proof. done. Qed.

(** The branch does not ask whether the timer was ever set up: a task that neither
    reserved a ring nor ran the scheduler starts an [hrtimer] that [hrtimer_init]
    never saw. *)
Theorem wait_starts_unset_timer {D} `{Mmio D} `{MiscKernel} cur cpu arg (s : misc_state D) :
  timer_ready (tasks s cur) = false ->
  exists s', iocache_misc_ioctl cur cpu IOCACHE_IOCTL_WAIT_READY arg s = (Ret 0, s') /\
    hrtimer_start cur (to_period (tasks s cur)) ∈ trace (ioc s') /\
    timer_ready (tasks s' cur) = false.
Proof. intros Ht. rewrite wait_ready_actions. eexists. split; [reflexivity|]. split; [|exact Ht]. cbn. set_solver. Qed.

(** ** Threads *)

(** What the scheduler and the timers know about a task. *)
Record thread := mk_thread {
  todo : list action;    (* what is left of the wait; empty outside of it *)
  wait_row : Z;          (* the row read when the wait began *)
  running : bool;        (* TASK_RUNNING, as opposed to TASK_INTERRUPTIBLE *)
  asleep : bool;         (* off the CPU, inside schedule() *)
  armed : bool;          (* to_hrtimer is running *)
  notified : bool        (* an interrupt came after the row was suspended *)
}.

Definition set_todo (l : list action) (x : thread) : thread :=
  mk_thread l (wait_row x) (running x) (asleep x) (armed x) (notified x).
Definition set_running (b : bool) (x : thread) : thread :=
  mk_thread (todo x) (wait_row x) b (asleep x) (armed x) (notified x).
Definition set_asleep (b : bool) (x : thread) : thread :=
  mk_thread (todo x) (wait_row x) (running x) b (armed x) (notified x).
Definition set_armed (b : bool) (x : thread) : thread :=
  mk_thread (todo x) (wait_row x) (running x) (asleep x) b (notified x).
Definition notify (x : thread) : thread :=
  mk_thread (todo x) (wait_row x) true (asleep x) (armed x)
    (notified x || bool_decide (Suspend ∉ todo x)).
Definition begin_wait (row : Z) (x : thread) : thread :=
  mk_thread wait_program row (running x) (asleep x) (armed x) false.

(** What a call into the kernel does to the task [t]: [schedule()] puts it to sleep
    unless somebody made it runnable again. *)
Definition react (t : Z) (x : thread) (c : call) : thread :=
  match c with
  | set_current_state_interruptible q => if decide (q = t) then set_running false x else x
  | call_schedule q => if decide (q = t) then set_asleep (negb (running x)) x else x
  | hrtimer_start q _ => if decide (q = t) then set_armed true x else x
  | hrtimer_cancel q => if decide (q = t) then set_armed false x else x
  | wake_up_process q => if decide (q = t) then set_running true x else x
  | wake_up_process_iocache q => if decide (q = t) then notify x else x
  | _ => x
  end.

Abbreviation threads := (Z -> thread).

Definition update (t : Z) (f : thread -> thread) (th : threads) : threads :=
  λ q, if decide (q = t) then f (th q) else th q.
Definition reaction (l : list call) (th : threads) : threads := λ t, foldl (react t) (th t) l.

(** ** The system *)

Section system.
Context {D : Type} `{OwnerTable D} `{MiscKernel}.

Abbreviation sys := (misc_state D * threads)%type.

(** Who makes a system call, if the event is one. *)
Definition caller (e : event D) : option Z :=
  match e with Ioctl cur _ _ _ => Some cur | _ => None end.

(** The calls a program makes from [s] to [s']. *)
Definition makes (s s' : misc_state D) (l : list call) : Prop :=
  trace (ioc s') = trace (ioc s) ++ l.

Inductive sys_step : sys -> sys -> Prop :=
| s_enter t s th :     (* the task begins to wait, with its timer set up *)
    todo (th t) = [] -> timer_ready (tasks s t) = true ->
    sys_step (s, th) (s, update t (begin_wait (iocache_id (tasks s t))) th)
| s_act t a l s s' cs th :
    todo (th t) = a :: l -> asleep (th t) = false ->
    action_effect t (wait_row (th t)) a s = (Ret tt, s') -> makes s s' cs ->
    sys_step (s, th) (s', reaction cs (update t (set_todo l) th))
| s_resume t s th :
    asleep (th t) = true -> running (th t) = true ->
    sys_step (s, th) (s, update t (set_asleep false) th)
| s_timer t r s s' cs th :
    armed (th t) = true -> perform (Timeout t) s = (Ret r, s') -> makes s s' cs ->
    sys_step (s, th) (s', reaction cs (update t (set_armed false) th))
| s_event e r s s' cs th :   (* interrupts, other system calls, the device *)
    (forall t, op_of e s <> Wait t) -> (forall t, e <> Timeout t) -> possible e s ->
    (forall t, caller e = Some t -> todo (th t) = []) ->
    perform e s = (Ret r, s') -> makes s s' cs ->
    sys_step (s, th) (s', reaction cs th).

(** ** The invariant of a thread *)

(** What holds at each point of the wait. *)
Definition wait_inv (x : thread) : Prop :=
  (armed x = true -> todo x = [Schedule; CancelTimer] \/ todo x = [CancelTimer]) /\
  match todo x with
  | [] => asleep x = false
  | [CancelTimer] => asleep x = true -> armed x = true \/ running x = true
  | [Schedule; CancelTimer] => asleep x = false /\ (armed x = true \/ running x = true)
  | l => asleep x = false /\ (l = wait_program \/ l = [Suspend; ArmTimer; Schedule; CancelTimer]
                              \/ l = [ArmTimer; Schedule; CancelTimer])
  end.

(** The interrupt of a suspended row is not overwritten. *)
Definition kick_inv (x : thread) : Prop :=
  notified x = true -> running x = true /\ SetInterruptible ∉ todo x.

Definition thread_inv (x : thread) : Prop := wait_inv x /\ kick_inv x.

Lemma wait_inv_cases x :
  wait_inv x ->
  (todo x = wait_program \/ todo x = [Suspend; ArmTimer; Schedule; CancelTimer] \/
   todo x = [ArmTimer; Schedule; CancelTimer]) /\ asleep x = false /\ armed x = false \/
  todo x = [Schedule; CancelTimer] /\ asleep x = false /\ (armed x = true \/ running x = true) \/
  todo x = [CancelTimer] /\ (asleep x = true -> armed x = true \/ running x = true) \/
  todo x = [] /\ asleep x = false /\ armed x = false.
Proof.
  intros [Ha HI]. revert Ha HI. unfold wait_program.
  destruct (armed x) eqn:Ear;
    destruct (todo x) as [|[] [|[] [|[] l]]]; intros Ha HI;
    try (destruct (Ha eq_refl) as [Ha'|Ha']; discriminate Ha'); try tauto;
    destruct HI as [? [HI|[HI|HI]]]; try discriminate HI; rewrite ?HI; try tauto;
    rewrite HI in Ha; destruct (Ha eq_refl) as [Ha'|Ha']; discriminate Ha'.
Qed.

(** Calls made on behalf of others: the task keeps its place, it may be woken, and
    its timer is not started. *)
Definition passive (x y : thread) : Prop :=
  todo y = todo x /\ wait_row y = wait_row x /\ asleep y = asleep x /\
  (armed y = true -> armed x = true) /\ (running x = true -> running y = true) /\
  (notified y = true -> notified x = true \/ running y = true /\ Suspend ∉ todo x).

Lemma passive_refl x : passive x x.
Proof. unfold passive. tauto. Qed.

Lemma react_passive t p c x :
  p <> Wait t -> allowed p c ->
  passive x (react t x c) /\ (p <> Wake t -> armed (react t x c) = armed x) /\
  (t ∈ wakes [c] -> running (react t x c) = true).
Proof.
  intros Hp Hc. destruct c; cbn [react wakes omap list_omap allowed] in *;
    try (split; [apply passive_refl|split; [done|set_solver]]);
    (destruct (decide _) as [->|Hne];
      [|split; [apply passive_refl|split; [done|set_solver]]]); try congruence.
  - split; [|done]. unfold passive, notify. cbn. do 5 (split; [done|]).
    rewrite orb_true_iff, bool_decide_eq_true. tauto.
  - split; [|done]. unfold passive. cbn. repeat split; auto.
  - split; [unfold passive; cbn; repeat split; auto; done|]. split; [|set_solver]. intros Hw. by destruct Hc.
Qed.

Lemma passive_trans x y z : passive x y -> passive y z -> passive x z.
Proof.
  unfold passive. intros (-> & -> & -> & Ha & Hr & Hn) (-> & -> & -> & Ha' & Hr' & Hn').
  do 3 (split; [done|]). tauto.
Qed.

Lemma reaction_passive t p l : forall x,
  p <> Wait t -> Forall (allowed p) l ->
  passive x (foldl (react t) x l) /\ (p <> Wake t -> armed (foldl (react t) x l) = armed x) /\
  (t ∈ wakes l -> running (foldl (react t) x l) = true).
Proof.
  induction l as [|c l IH]; intros x Hp HF.
  { split; [apply passive_refl|]. split; [done|]. set_solver. }
  apply list.Forall_cons in HF as [Hc HF]. cbn [foldl].
  destruct (react_passive t p c x Hp Hc) as (P1 & A1 & W1).
  destruct (IH (react t x c) Hp HF) as (P2 & A2 & W2).
  split; [by eapply passive_trans|]. split; [intros; by rewrite A2, A1|].
  change (c :: l) with ([c] ++ l). rewrite wakes_app, elem_of_app. intros [Hw|Hw]; [|auto].
  destruct P2 as (_ & _ & _ & _ & Hr & _). auto.
Qed.

Lemma passive_kick x y : wait_inv x -> passive x y -> kick_inv x -> kick_inv y.
Proof.
  intros HI (Et & _ & _ & _ & Hr & Hn) HK Hy. rewrite Et.
  destruct (Hn Hy) as [Hx|[Hry Hs]]; [destruct (HK Hx); auto|]. split; [done|].
  destruct (wait_inv_cases x HI) as [[[E|[E|E]] _]|[(E & _)|[[E _]|[E _]]]];
    rewrite E in Hs |- *; unfold wait_program in *; set_solver.
Qed.

Lemma passive_inv x y :
  thread_inv x -> passive x y -> armed y = armed x \/ todo x = [] -> thread_inv y.
Proof.
  intros [HI HK] HP Hc. split; [|by eapply passive_kick].
  destruct HI as [Ha HI], HP as (Et & _ & Es & Har & Hr & _).
  unfold wait_inv. rewrite Et, Es. split; [auto|].
  destruct Hc as [Hc|Hc]; [|by rewrite Hc in HI |- *]. rewrite Hc.
  destruct (todo x) as [|[] [|[] [|? ?]]]; (exact HI || tauto).
Qed.

(** The timer of a task is taken down and the task is woken. *)
Lemma timer_inv x y :
  thread_inv x -> armed x = true -> passive (set_armed false x) y -> running y = true ->
  thread_inv y.
Proof.
  intros [HI HK] Hx HP Hr. assert (armed y = false) as Ey.
  { destruct HP as (_ & _ & _ & Ha & _). destruct (armed y); [by discriminate (Ha eq_refl)|done]. }
  split.
  - destruct HI as [Ha HI], HP as (Et & _ & Es & _). cbn in Et, Es.
    unfold wait_inv. rewrite Et, Es, Ey. split; [done|].
    destruct (Ha Hx) as [E|E]; rewrite E in HI |- *; tauto.
  - eapply (passive_kick x); [done| |done].
    destruct HP as (? & ? & ? & _ & ? & ?). unfold passive. rewrite Ey. cbn in *. auto 10.
Qed.

(** ** Actions *)

Definition action_calls (t : Z) (s : misc_state D) (a : action) : list call :=
  match a with
  | SetInterruptible => [set_current_state_interruptible t]
  | Suspend => []
  | ArmTimer => [hrtimer_start t (to_period (tasks s t))]
  | Schedule => [call_schedule t]
  | CancelTimer => [hrtimer_cancel t]
  end.

Lemma action_simulates t row a o s :
  implements_table o s -> 0 <= row < IOCACHE_CACHE_ENTRY_COUNT ->
  exists s', action_effect t row a s = (Ret tt, s') /\ makes s s' (action_calls t s a) /\
    tasks s' = tasks s /\ implements_table o s'.
Proof.
  intros HI Hr. destruct a; eexists; (split; [reflexivity|]);
    (split; [unfold makes; cbn; by rewrite ?app_nil_r|]); (split; [done|]);
    apply (implements_frame o s); try done; try apply HI.
  intros r Hr'. by apply row_owner_suspended.
Qed.

(** The acting thread. *)
Lemma act_inv t s a l x :
  thread_inv x -> todo x = a :: l -> asleep x = false ->
  thread_inv (foldl (react t) (set_todo l x) (action_calls t s a)).
Proof.
  intros [HI HK] Ht Hs. unfold thread_inv, kick_inv in *.
  destruct (wait_inv_cases x HI) as [[[E|[E|E]] [_ Ha]]|[(E & _ & Hw)|[[E Hw]|[E _]]]];
    rewrite Ht in E; try discriminate E; injection E as -> ->; cbn; rewrite ?decide_True by done;
    cbn; rewrite Ht in HK; unfold wait_inv; cbn; rewrite ?Ha, ?Hs.
  all: split; [split; [first [by auto|done]|]
              |intros Hn; destruct (HK Hn) as [Hr Hn']; first [split; [done|set_solver]|set_solver]].
  all: auto.
Qed.

(** ** The invariant of the system *)

Definition thread_ok (s : misc_state D) (t : Z) (x : thread) : Prop :=
  thread_inv x /\
  (todo x <> [] -> timer_ready (tasks s t) = true /\ 0 <= wait_row x < IOCACHE_CACHE_ENTRY_COUNT).

Definition sys_inv (c : sys) : Prop :=
  (exists o, implements_table o c.1) /\ forall t, thread_ok c.1 t (c.2 t).

(** Threads that are not concerned by a step. *)
Lemma passive_ok s s' t x y :
  thread_ok s t x -> passive x y -> armed y = armed x \/ todo x = [] ->
  (timer_ready (tasks s t) = true -> timer_ready (tasks s' t) = true) -> thread_ok s' t y.
Proof.
  intros [HI HT] HP Hc Hm. split; [by eapply passive_inv|].
  destruct HP as (-> & -> & _). intros Hn. destruct (HT Hn). auto.
Qed.

Lemma event_ok o s s' e r l th :
  implements_table o s -> possible e s -> perform e s = (Ret r, s') -> makes s s' l ->
  (table_step (op_of e s) o).2 = wakes l /\ Forall (allowed (op_of e s)) l /\
  (forall t, timer_ready (tasks s t) = true -> timer_ready (tasks s' t) = true) /\
  (exists o', implements_table o' s') /\
  (forall t, thread_ok s t (th t) -> op_of e s <> Wait t ->
     op_of e s <> Wake t \/ todo (th t) = [] -> thread_ok s' t (reaction l th t)).
Proof.
  intros HI Hp E El.
  destruct (event_simulates e o s HI Hp) as (r' & s1 & E' & l' & El' & Hw & HF & Hm & HI').
  rewrite E in E'. injection E' as <- <-. unfold makes in El. rewrite El in El'.
  apply app_inv_head in El' as <-. do 3 (split; [done|]). split; [by eexists|].
  intros t Hok Hwt Hk. destruct (reaction_passive t _ l (th t) Hwt HF) as (HP & HA & _).
  eapply passive_ok; [done|done| |apply Hm]. destruct Hk as [Hk|Hk]; auto.
Qed.

Lemma update_other t q f (th : threads) : q <> t -> update t f th q = th q.
Proof. intros Hne. unfold update. by rewrite decide_False. Qed.

Lemma update_same t f (th : threads) : update t f th t = f (th t).
Proof. unfold update. by rewrite decide_True. Qed.

Lemma op_wake_caller e (s : misc_state D) t :
  (forall q, e <> Timeout q) -> op_of e s = Wake t -> caller e = Some t.
Proof.
  destruct e; cbn [op_of caller]; intros Hn; try done.
  - repeat case_match; try done. by intros [= ->].
  - by destruct (Hn tsk).
Qed.

Lemma enter_ok o s t th :
  implements_table o s -> (forall q, thread_ok s q (th q)) -> todo (th t) = [] ->
  timer_ready (tasks s t) = true ->
  forall q, thread_ok s q (update t (begin_wait (iocache_id (tasks s t))) th q).
Proof.
  intros HI HT Ht Hr q. destruct (decide (q = t)) as [->|]; [|by rewrite update_other].
  rewrite update_same. destruct (HT t) as [[HW _] _]. split.
  - destruct (wait_inv_cases _ HW) as [[[E|[E|E]] _]|[(E & _)|[[E _]|(_ & Es & Ea)]]];
      try (rewrite Ht in E; discriminate E).
    split; [split; cbn; rewrite ?Ea, ?Es; [done|auto]|done].
  - intros _. split; [done|]. cbn. rewrite (it_id _ _ HI). apply HI.
Qed.

Lemma act_ok s s' t a l th :
  (forall q, thread_ok s q (th q)) -> todo (th t) = a :: l -> asleep (th t) = false ->
  tasks s' = tasks s ->
  forall q, thread_ok s' q (reaction (action_calls t s a) (update t (set_todo l) th) q).
Proof.
  intros HT Ht Ha Et q. unfold reaction. destruct (decide (q = t)) as [->|Hne].
  - rewrite update_same. destruct (HT t) as [HIt HTt].
    destruct (HTt ltac:(by rewrite Ht)) as [Hrd Hrow].
    split; [by apply act_inv|]. intros _. rewrite Et.
    split; [done|]. destruct a; cbn; rewrite ?decide_True by done; done.
  - rewrite update_other by done.
    destruct (reaction_passive q (Wait t) (action_calls t s a) (th q)) as (HP & HA & _);
      [congruence|by destruct a; repeat constructor|].
    eapply passive_ok; [apply HT|done|left; by apply HA|by rewrite Et].
Qed.

Lemma resume_ok s t th :
  (forall q, thread_ok s q (th q)) -> asleep (th t) = true ->
  forall q, thread_ok s q (update t (set_asleep false) th q).
Proof.
  intros HT Ha q. destruct (decide (q = t)) as [->|]; [|by rewrite update_other].
  rewrite update_same. destruct (HT t) as [[HW HK] HTt]. split; [|done]. split; [|done].
  destruct (wait_inv_cases _ HW) as [(_ & E & _)|[(_ & E & _)|[[E _]|(_ & E & _)]]]; try congruence.
  destruct HW as [HA _]. split; [exact HA|]. cbn. by rewrite E.
Qed.

Lemma timer_possible s t x : thread_ok s t x -> armed x = true -> possible (Timeout t : event D) s.
Proof.
  intros [[[HA _] _] HT] Ha. apply HT. by destruct (HA Ha) as [->| ->].
Qed.

Lemma timer_ok o s s' t r cs th :
  implements_table o s -> (forall q, thread_ok s q (th q)) -> armed (th t) = true ->
  perform (Timeout t) s = (Ret r, s') -> makes s s' cs ->
  sys_inv (s', reaction cs (update t (set_armed false) th)).
Proof.
  intros HI HT Ha E El. destruct (HT t) as [HIt HTt].
  destruct (event_ok o s s' (Timeout t) r cs (update t (set_armed false) th) HI
              (timer_possible _ _ _ (HT t) Ha) E El) as (Hwk & HF & Hm & HI' & Hoth).
  split; [done|]. intros q. cbn [fst snd]. destruct (decide (q = t)) as [->|Hne].
  - unfold reaction. rewrite update_same.
    destruct (reaction_passive t (Wake t) cs (set_armed false (th t)) ltac:(done) HF) as (HP & _ & Hrun).
    specialize (Hrun ltac:(rewrite <- Hwk; cbn; set_solver)).
    split; [by eapply timer_inv|]. destruct HP as (-> & -> & _). cbn. intros Hn.
    destruct (HTt Hn). auto.
  - apply Hoth; [rewrite update_other by done; apply HT|done|left; cbn; congruence].
Qed.

Lemma sys_step_inv c c' : sys_inv c -> sys_step c c' -> sys_inv c'.
Proof.
  intros [[o HI] HT] Hs.
  destruct Hs as [t s th Ht Hr|t a l s s' cs th Ht Ha E El|t s th Ha Hr|t r s s' cs th Ha E El
                 |e r s s' cs th Hw Htm Hp Hc E El]; cbn [fst snd] in *.
  - split; [by eexists|]. by eapply enter_ok.
  - destruct (HT t) as [_ HTt]. destruct (HTt ltac:(by rewrite Ht)) as [_ Hrow].
    destruct (action_simulates t (wait_row (th t)) a o s HI Hrow) as (s1 & E1 & El1 & Et & HI1).
    rewrite E in E1. injection E1 as <-. unfold makes in El, El1. rewrite El in El1.
    apply app_inv_head in El1 as ->. split; [by eexists|]. by apply act_ok.
  - split; [by eexists|]. by apply resume_ok.
  - by eapply timer_ok.
  - destruct (event_ok o s s' e r cs th HI Hp E El) as (_ & _ & _ & HI' & Hoth).
    split; [done|]. intros t. apply Hoth; [apply HT|apply Hw|].
    destruct (decide (caller e = Some t)) as [Hct|Hct]; [right; by apply Hc|left].
    intros Hwake. by apply Hct, (op_wake_caller e s).
Qed.

(** ** Progress *)

(** A sleeping task gets back to the processor. *)
Lemma wakes_up c t :
  sys_inv c -> asleep (c.2 t) = true ->
  exists c', star sys_step c c' /\ sys_inv c' /\ todo (c'.2 t) = todo (c.2 t) /\
    asleep (c'.2 t) = false.
Proof.
  destruct c as [s th]. cbn [fst snd]. intros HI Ha.
  assert (forall s th, sys_inv (s, th) -> asleep (th t) = true -> running (th t) = true ->
    exists c', star sys_step (s, th) c' /\ sys_inv c' /\ todo (c'.2 t) = todo (th t) /\
      asleep (c'.2 t) = false) as Hres.
  { clear s th HI Ha. intros s th HI Ha Hr. pose proof (s_resume t s th Ha Hr) as Hst.
    eexists. split; [eapply star_step; [exact Hst|constructor]|].
    split; [by eapply sys_step_inv|]. cbn. by rewrite update_same. }
  destruct HI as [[o Ho] HT]. cbn [fst snd] in *.
  destruct (running (th t)) eqn:Hr; [by apply Hres; [split; [eexists|]| |]|].
  destruct (HT t) as [[HW _] _].
  destruct (wait_inv_cases _ HW) as [(_ & E & _)|[(_ & E & _)|[[E Hw]|(_ & E & _)]]]; try congruence.
  destruct (Hw Ha) as [Hm|]; [|congruence].
  destruct (event_simulates (Timeout t) o s Ho (timer_possible _ _ _ (HT t) Hm))
    as (r & s' & Ep & l & El & Hwk & HF & _).
  pose proof (s_timer t r s s' l th Hm Ep El) as Hst.
  destruct (reaction_passive t (Wake t) l (set_armed false (th t)) ltac:(done) HF)
    as ((Et & _ & Es & _) & _ & Hrun).
  specialize (Hrun ltac:(rewrite <- Hwk; cbn; set_solver)).
  destruct (Hres s' (reaction l (update t (set_armed false) th))) as (c' & Hst' & HI' & Et' & Ha').
  - eapply sys_step_inv; [|exact Hst]. split; [by eexists|done].
  - unfold reaction. by rewrite update_same, Es.
  - unfold reaction. by rewrite update_same.
  - exists c'. split; [by eapply star_step|]. split; [done|]. split; [|done].
    rewrite Et'. unfold reaction. by rewrite update_same, Et.
Qed.

(** One action nearer to the end. *)
Lemma wait_progress c t :
  sys_inv c -> todo (c.2 t) <> [] ->
  exists c', star sys_step c c' /\ sys_inv c' /\
    (length (todo (c'.2 t)) < length (todo (c.2 t)))%nat.
Proof.
  intros HI Hne.
  assert (exists c1, star sys_step c c1 /\ sys_inv c1 /\ todo (c1.2 t) = todo (c.2 t) /\
            asleep (c1.2 t) = false) as ([s th] & Hst & HI1 & Et & Ha).
  { destruct (asleep (c.2 t)) eqn:Ha; [by apply wakes_up|]. exists c. by split; [constructor|]. }
  destruct HI1 as [[o Ho] HT]. cbn [fst snd] in *. rewrite <- Et in Hne |- *. clear Et.
  destruct (todo (th t)) as [|a l] eqn:Ht; [done|].
  destruct (HT t) as [_ HTt]. destruct (HTt ltac:(by rewrite Ht)) as [_ Hrow].
  destruct (action_simulates t (wait_row (th t)) a o s Ho Hrow) as (s' & E & El & _).
  pose proof (s_act t a l s s' _ th Ht Ha E El) as Hact.
  eexists. split; [eapply star_trans; [exact Hst|eapply star_step; [exact Hact|constructor]]|].
  split; [eapply sys_step_inv; [|exact Hact]; by split; [eexists|]|].
  cbn. unfold reaction. rewrite update_same.
  destruct a; cbn; rewrite ?decide_True by done; cbn; lia.
Qed.

(** A task outside of the wait. *)
Definition not_waiting (x : thread) : Prop :=
  todo x = [] /\ running x = true /\ asleep x = false /\ armed x = false /\ notified x = false.

Lemma not_waiting_inv x : not_waiting x -> thread_inv x.
Proof.
  intros (Et & Er & Es & Ea & En). unfold thread_inv, wait_inv, kick_inv.
  rewrite Et, Ea, En. by repeat split.
Qed.

(** C5: No wake-up is lost: in every interleaving of any number of waiting tasks with
    the interrupt handler, the timers, the other system calls and the device, an
    interrupt that wakes the owner of a row after the row was marked suspended leaves
    the task runnable; a task that sleeps is runnable again or has its timer running;
    and from every reachable state every wait can come to its end without the
    device's help. *)
Theorem wait_no_lost_wakeup o s0 th0 s th t :
  implements_table o s0 -> (forall q, not_waiting (th0 q)) ->
  star sys_step (s0, th0) (s, th) ->
  (notified (th t) = true -> running (th t) = true) /\
  (asleep (th t) = true -> running (th t) = true \/ armed (th t) = true) /\
  exists s' th', star sys_step (s, th) (s', th') /\
    todo (th' t) = [] /\ asleep (th' t) = false.
Proof.
  intros Ho Hth Hst. assert (sys_inv (s, th)) as HI.
  { eapply star_invariant; [apply sys_step_inv|exact Hst|]. split; [by eexists|].
    intros q. split; [by apply not_waiting_inv|]. intros Hn. by destruct (Hth q). }
  destruct (proj2 HI t) as [[HW HK] _]. cbn [snd] in *.
  split; [intros Hn; by destruct (HK Hn)|]. split.
  - intros Ha.
    destruct (wait_inv_cases _ HW) as [(_ & E & _)|[(_ & E & _)|[[E Hw]|(_ & E & _)]]]; try congruence.
    destruct (Hw Ha); auto.
  - clear Hst HW HK. remember (length (todo (th t))) as n eqn:En. revert s th HI En.
    induction n as [n IH] using lt_wf_ind. intros s th HI ->.
    destruct (todo (th t)) as [|a l] eqn:Ht.
    { exists s, th. split; [constructor|]. split; [done|].
      destruct (proj2 HI t) as [[[_ HW] _] _]. cbn in HW. by rewrite Ht in HW. }
    destruct (wait_progress (s, th) t HI) as ([s1 th1] & Hst1 & HI1 & Hl); [by cbn; rewrite Ht|].
    cbn in Hl. rewrite Ht in Hl.
    destruct (IH _ Hl s1 th1 HI1 eq_refl) as (s' & th' & Hst' & HF).
    exists s', th'. split; [by eapply star_trans|done].
Qed.
End system.

(** ** Example

    A task reserves row 5, waits, and is interrupted after it has suspended its row. *)
Module SimWait.
Import KickDevice SimOwners.
Local Existing Instance SimMisc.no_eventfd.

Abbreviation state := (misc_state kick_dev).

Definition nobody_waits : threads := λ _, mk_thread [] 0 true false false false.

Definition acted (a : action) (s : state) : state := (action_effect task_a 5 a s).2.
Definition arrival (s : state) : event kick_dev :=
  Device (io_write W8 IOCACHE (reg_addr (ROW 5 RX_AVAILABLE)) 1 (ioc_dev (ioc s))).

Definition th1 : threads := reaction [migrate_disable; hrtimer_init task_a] nobody_waits.
Definition th2 : threads := update task_a (begin_wait 5) th1.
Definition th3 : threads :=
  reaction [set_current_state_interruptible task_a] (update task_a (set_todo (tail wait_program)) th2).
Definition th4 : threads := reaction [] (update task_a (set_todo (drop 2 wait_program)) th3).
Definition th5 : threads := reaction [] th4.
Definition th6 : threads := reaction [wake_up_process_iocache task_a; set_tsk_need_resched] th5.

Definition d3 : state := acted SetInterruptible s1.
Definition d4 : state := acted Suspend d3.
Definition d5 : state := after (arrival d4) d4.
Definition d6 : state := after (RxInterrupt 1) d5.

Lemma event_next e r l (s : state) th :
  (forall t, op_of e s <> Wait t) -> (forall t, e <> Timeout t) -> possible e s ->
  (forall t, caller e = Some t -> todo (th t) = []) ->
  (perform e s).1 = Ret r -> makes s (after e s) l ->
  sys_step (s, th) (after e s, reaction l th).
Proof.
  intros Hw Ht Hp Hc Hr Hl. apply (s_event e r); [done..| |done].
  unfold after. destruct (perform e s). cbn in *. by subst.
Qed.

Lemma interrupted_wait : star sys_step (idle 5, nobody_waits) (d6, th6).
Proof.
  eapply star_step; [apply (event_next reserve_a 0 [migrate_disable; hrtimer_init task_a]);
    [done|done|by apply reserve_a_possible|done|vm_compute; reflexivity|vm_compute; reflexivity]|].
  eapply star_step; [apply (s_enter task_a s1 th1); vm_compute; reflexivity|].
  eapply star_step; [apply (s_act task_a SetInterruptible (tail wait_program) s1 d3
    [set_current_state_interruptible task_a] th2); vm_compute; reflexivity|].
  eapply star_step; [apply (s_act task_a Suspend (drop 2 wait_program) d3 d4 [] th3);
    vm_compute; reflexivity|].
  eapply star_step; [apply (event_next (arrival d4) 0 [] d4 th4);
    [done|done| |done|done|vm_compute; reflexivity]|].
  { intros row Hr. by apply (row_owner_other (ROW 5 RX_AVAILABLE)); [| |intros [] [] ?]. }
  eapply star_step; [|constructor].
  apply (event_next (RxInterrupt 1) 1 [wake_up_process_iocache task_a; set_tsk_need_resched] d5 th5);
    [done|done|done|done|vm_compute; reflexivity|vm_compute; reflexivity].
Qed.
End SimWait.

Import KickDevice.

Lemma wait_no_lost_wakeup_witness :
  notified (SimWait.th6 SimOwners.task_a) = true /\ running (SimWait.th6 SimOwners.task_a) = true.
Proof.
  assert (notified (SimWait.th6 SimOwners.task_a) = true) as Hn by (vm_compute; reflexivity).
  split; [exact Hn|].
  exact (proj1 (wait_no_lost_wakeup (H1 := SimMisc.no_eventfd) SimOwners.nobody _ SimWait.nobody_waits _ _
    SimOwners.task_a     (SimOwners.idle_implements 5)
    (λ q, conj eq_refl (conj eq_refl (conj eq_refl (conj eq_refl eq_refl)))) SimWait.interrupted_wait) Hn).
Defined.
