(* ===== verification/IocacheBoot.v ===== *)
(** * From probe to service

    A successful [iocache_probe] leaves the device and the driver in the state in
    which the table of owners ([IocacheOwners]) is empty and nobody waits
    ([IocacheWait]): what is proved of every later execution holds from the moment
    the driver is bound. *)

From S2P Require Import Prelude Prog Mmio IocacheRegs UserMem IocacheDriver IocacheDriverSpec.
From S2P Require Import IocacheMisc IocacheOwners IocacheWait.

(** No task has used the device. *)
Definition unowned : otable := mk_otable ∅ (λ _, 0).
Definition fresh_task (t : task) : Prop := iocache_id t = 0 /\ timer_ready t = false.

Section boot.
Context {D : Type} `{LittleMmio D} `{DmaAvailable} `{MiscKernel}.
Implicit Types x : ioc_state D.

(** The registers that probing does not write hold their reset value. *)
Definition owners_reset (d : D) : Prop :=
  forall i, 0 <= i < IOCACHE_CACHE_ENTRY_COUNT ->
    reg_val W32 IOCACHE (IOCACHE_REG_PROC_CPU i) d = 0 /\
    reg_val W64 IOCACHE (IOCACHE_REG_PROC_PTR i) d = 0.

Lemma boot_implements x x' (ts : Z -> task) m k :
  owners_reset (ioc_dev x) -> (forall t, fresh_task (ts t)) ->
  (forall i, 0 <= i < IOCACHE_CACHE_ENTRY_COUNT ->
     reg_val W64 IOCACHE (IOCACHE_REG_ENABLED i) (ioc_dev x') = 0) ->
  (forall i f w, 0 <= i < IOCACHE_CACHE_ENTRY_COUNT -> f = PROC_CPU \/ f = PROC_PTR ->
     reg_val w IOCACHE (IOCACHE_REG i (field_off f)) (ioc_dev x')
     = reg_val w IOCACHE (IOCACHE_REG i (field_off f)) (ioc_dev x)) ->
  (ev_lock x', ring_alloc_lock x', rxkick_lock x') = (false, false, false) ->
  implements_table unowned (mk_misc x' ts m k).
Proof.
  intros Hreset Hts Hen Hown [= He Hr Hk]. split; cbn; try done.
  - intros row Hrow. destruct (Hreset row Hrow) as [Hc Hp]. unfold row_owner.
    assert (reg_val W8 IOCACHE (IOCACHE_REG_ENABLED row) (ioc_dev x') = 0) as ->.
    { unfold reg_val. rewrite (read_low W8 W64) by (apply (storage_row W64 row ENABLED Hrow ltac:(done)) || (cbn; lia)).
      fold (reg_val W64 IOCACHE (IOCACHE_REG_ENABLED row) (ioc_dev x')). by rewrite Hen. }
    pose proof (Hown row PROC_CPU W32 Hrow (or_introl eq_refl)) as E1.
    pose proof (Hown row PROC_PTR W64 Hrow (or_intror eq_refl)) as E2.
    unfold IOCACHE_REG_PROC_CPU, IOCACHE_REG_PROC_PTR in *. cbn [field_off] in E1, E2.
    by rewrite E1, E2, Hc, Hp, lookup_empty.
  - intros t. apply Hts.
  - intros t Ht. destruct (Hts t) as [_ Hf]. congruence.
Qed.

(** C32: When the platform grants every request, [iocache_probe] returns 0; all 128
    DMA rings are aligned and inside their allocations, every row of the device's
    table is disabled and describes its two rings, the interrupt masks of all CPUs
    are set, and the driver made exactly these calls, in this order: interrupts
    requested and steered to their CPUs, DMA allocations, fast-path handlers,
    character device.  If the device was reset and no task has used it, no row has an
    owner, and every later execution of system calls, interrupts, timeouts and device
    steps wakes exactly the tasks that the table of owners, empty at first, wakes. *)
Theorem iocache_probe_success start size x :
  ioc_granted start size ->
  exists x' ts rs, iocache_probe x = (Ret 0, x') /\
    length ts = 64%nat /\ length rs = 64%nat /\ Forall ring_ok ts /\ Forall ring_ok rs /\
    tx_rings x' = ts /\ rx_rings x' = rs /\
    (forall i, 0 <= i < IOCACHE_CACHE_ENTRY_COUNT ->
       row_ready (ioc_dev x') i (nth (Z.to_nat i) ts no_ring) (nth (Z.to_nat i) rs no_ring)) /\
    masks_are (ioc_dev x') 1 /\
    ioc_irqs x' = all_irqs true /\
    trace x' = trace x ++ per_cpu irq_calls ++ [register_iocache_forall]
      ++ alloc_calls ts rs ++ per_cpu fast_path_calls ++ [call_misc_register] /\
    forall tasks m k ps ws s',
      owners_reset (ioc_dev x) -> (forall t, fresh_task (tasks t)) ->
      system_run (mk_misc x' tasks m k) ps ws s' -> ws = (table_run ps unowned).2.
Proof.
  intros G. destruct (probe_run start size x G)
    as (x' & ts & rs & E & Ht & Hr & HFt & HFr & Et & Er & Hrow & Hm & Hi & Htr & Hown & Hl).
  exists x', ts, rs. do 11 (split; [done|]). intros tasks m k ps ws s' Hreset Hts Hrun.
  refine (proj1 (system_run_refines _ _ _ _ Hrun unowned _)).
  apply (boot_implements x); try done. intros i Hi'. by destruct (Hrow i Hi').
Qed.
End boot.

Import SimIoc RegFile.

Lemma iocache_probe_success_witness :
  exists x' ts rs, iocache_probe (H0 := sim_platform true) start = (Ret 0, x') /\
    Forall ring_ok ts /\ rx_rings x' = rs /\ owners_reset (ioc_dev start).
Proof.
  destruct (iocache_probe_success (H3 := sim_dma true) (H4 := SimMisc.no_eventfd) _ _ start ioc_sim_granted)
    as (x' & ts & rs & E & _ & _ & Hf & _ & _ & Hr & _).
  exists x', ts, rs. split; [exact E|]. split; [exact Hf|]. split; [exact Hr|].
  intros i _. split; apply load_empty.
Defined.
