(* ===== verification/Common.v ===== *)
(** * Addresses of the user library ([lib/common.h])

    MAC addresses and IPv4 addresses as text, and the construction of a
    connection from strings.  Strings are lists of character
    codes without the terminating NUL.  [sscanf("%2x:...")], [snprintf("%02x:...")],
    [inet_pton] and [inet_ntop] are modelled after the C and POSIX standards. *)

From S2P Require Import Prelude.

Definition MAP_INDEX (idx : Z) : Z := u64 (Z.shiftl idx 40).

Record connection_info := mk_conn {
  protocol : Z; src_ip : Z; dst_ip : Z; src_port : Z; dst_port : Z; src_mac : Z; dst_mac : Z
}.

(** ** Characters *)

Definition COLON : Z := 58.
Definition DOT : Z := 46.

Definition is_space (c : Z) : bool := (c =? 32) || ((9 <=? c) && (c <=? 13)).

Definition hex_val (c : Z) : option Z :=
  if (48 <=? c) && (c <=? 57) then Some (c - 48)
  else if (65 <=? c) && (c <=? 70) then Some (c - 55)
  else if (97 <=? c) && (c <=? 102) then Some (c - 87)
  else None.

Definition hex_digit (n : Z) : Z := if n <? 10 then 48 + n else 87 + n.

Fixpoint skip_spaces (l : list Z) : list Z :=
  match l with
  | c :: l' => if is_space c then skip_spaces l' else l
  | [] => []
  end.

(** ** MAC addresses *)

(** The conversion [%2x]: blanks are skipped, then at most two characters of an
    optionally signed hexadecimal number are taken; "0x" needs more than two. *)
Definition scan_2x (l : list Z) : option (Z * list Z) :=
  match skip_spaces l with
  | [] => None
  | c1 :: l1 =>
      match hex_val c1 with
      | Some h1 =>
          match l1 with
          | [] => Some (h1, [])
          | c2 :: l2 =>
              match hex_val c2 with
              | Some h2 => Some (16 * h1 + h2, l2)
              | None => if (c1 =? 48) && ((c2 =? 120) || (c2 =? 88)) then None
                        else Some (h1, l1)
              end
          end
      | None =>
          if (c1 =? 43) || (c1 =? 45) then
            match l1 with
            | [] => None
            | c2 :: l2 =>
                match hex_val c2 with
                | Some h2 => Some (u32 (if c1 =? 45 then - h2 else h2), l2)
                | None => None
                end
            end
          else None
      end
  end.

(** [n] more conversions, each after a colon. *)
Fixpoint scan_rest (n : nat) (l : list Z) : option (list Z) :=
  match n with
  | O => Some []
  | S n' =>
      match l with
      | c :: l1 =>
          if c =? COLON then
            '(b, l2) ← scan_2x l1; bs ← scan_rest n' l2; Some (b :: bs)
          else None
      | [] => None
      end
  end.

(** [sscanf(mac_str, "%2x:%2x:%2x:%2x:%2x:%2x", ...) == 6]; what follows the
    sixth number is not looked at. *)
Definition sscanf_mac (l : list Z) : option (list Z) :=
  '(b, l1) ← scan_2x l; bs ← scan_rest 5 l1; Some (b :: bs).

Definition mac_str_to_uint64 (mac_str : list Z) : option Z :=
  bytes ← sscanf_mac mac_str;
  Some (foldl (λ mac b, Z.lor (u64 (Z.shiftl mac 8)) (Z.land b 0xFF)) 0 bytes).

Definition print_02x (v : Z) : list Z := [hex_digit (v / 16); hex_digit (v mod 16)].

(** [None]: the buffer is too short and is left alone. *)
Definition mac_uint64_to_str (mac buflen : Z) : option (list Z) :=
  if buflen <? 18 then None
  else
    let b k := print_02x (Z.land (Z.shiftr mac k) 0xFF) in
    Some (b 40 ++ [COLON] ++ b 32 ++ [COLON] ++ b 24 ++ [COLON] ++ b 16 ++ [COLON]
          ++ b 8 ++ [COLON] ++ b 0).

(** ** IPv4 addresses *)

Definition dec_val (c : Z) : option Z :=
  if (48 <=? c) && (c <=? 57) then Some (c - 48) else None.

(** One octet: digits up to the value 255 and without a leading zero. *)
Fixpoint scan_octet (l : list Z) (acc : option Z) : option (Z * list Z) :=
  match l with
  | [] => v ← acc; Some (v, [])
  | c :: l' =>
      match dec_val c with
      | Some d =>
          match acc with
          | None => scan_octet l' (Some d)
          | Some v => if (v =? 0) || (255 <? 10 * v + d) then None
                      else scan_octet l' (Some (10 * v + d))
          end
      | None => v ← acc; Some (v, l)
      end
  end.

Fixpoint scan_dots (n : nat) (l : list Z) : option (list Z * list Z) :=
  match n with
  | O => Some ([], l)
  | S n' =>
      match l with
      | c :: l1 =>
          if c =? DOT then
            '(v, l2) ← scan_octet l1 None; '(vs, l3) ← scan_dots n' l2; Some (v :: vs, l3)
          else None
      | [] => None
      end
  end.

(** [inet_pton(AF_INET, ...)]: the four bytes of [s_addr] in memory order. *)
Definition inet_pton (l : list Z) : option (list Z) :=
  '(v, l1) ← scan_octet l None;
  '(vs, l2) ← scan_dots 3 l1;
  match l2 with [] => Some (v :: vs) | _ => None end.

(** [ntohl(sip.s_addr)] *)
Definition ntohl_addr (bytes : list Z) : Z := foldl (λ a b, a * 256 + b) 0 bytes.

Fixpoint print_dec (fuel : nat) (v : Z) : list Z :=
  match fuel with
  | O => []
  | S f => if v <? 10 then [48 + v] else print_dec f (v / 10) ++ [48 + v mod 10]
  end.

(** [inet_ntop(AF_INET, ...)] on four bytes. *)
Definition inet_ntop (bytes : list Z) : list Z :=
  match bytes with
  | [a; b; c; d] =>
      print_dec 3 a ++ [DOT] ++ print_dec 3 b ++ [DOT] ++ print_dec 3 c ++ [DOT] ++ print_dec 3 d
  | _ => []
  end.

(** The address as the integer in memory (little endian), and its text. *)
Definition str_to_ipv4 (s : list Z) : option Z :=
  bytes ← inet_pton s; Some (foldr (λ b a, b + 256 * a) 0 bytes).

Definition ipv4_to_str (addr_be buflen : Z) : option (list Z) :=
  let s := inet_ntop [addr_be mod 256; addr_be / 256 mod 256; addr_be / 65536 mod 256;
                      addr_be / 16777216 mod 256] in
  if zlen s <? buflen then Some s else None.

(** ** Connections *)

(** [None]: -1 with [errno = EINVAL], the structure is not touched. *)
Definition conn_from_strings (c : connection_info) (proto : Z)
    (src_ip_str : option (list Z)) (src_p : Z) (dst_ip_str : option (list Z)) (dst_p : Z)
  : option connection_info :=
  s ← src_ip_str; d ← dst_ip_str;
  sip ← inet_pton s; dip ← inet_pton d;
  Some (mk_conn proto (ntohl_addr sip) (ntohl_addr dip) src_p dst_p (src_mac c) (dst_mac c)).

Definition conn_from_strings_mac (c : connection_info) (proto : Z)
    (src_mac_str src_ip_str : option (list Z)) (src_p : Z)
    (dst_mac_str dst_ip_str : option (list Z)) (dst_p : Z) : option connection_info :=
  s ← src_ip_str; d ← dst_ip_str; sm ← src_mac_str; dm ← dst_mac_str;
  sip ← inet_pton s; dip ← inet_pton d;
  smac ← mac_str_to_uint64 sm; dmac ← mac_str_to_uint64 dm;
  Some (mk_conn proto (ntohl_addr sip) (ntohl_addr dip) src_p dst_p smac dmac).

(** ** Properties *)

(** *** MAC addresses *)

Lemma hex_val_digit n : 0 <= n < 16 -> hex_val (hex_digit n) = Some n /\ is_space (hex_digit n) = false.
Proof.
  intros Hn. assert (n ∈ seqZ 0 16) as Hin by (apply elem_of_seqZ; lia).
  assert (Forall (λ n, hex_val (hex_digit n) = Some n /\ is_space (hex_digit n) = false) (seqZ 0 16))
    as HF by (apply (bool_decide_eq_true_1 _); vm_compute; reflexivity).
  rewrite list.Forall_forall in HF. by apply HF.
Qed.

Lemma scan_2x_print v rest : 0 <= v < 256 -> scan_2x (print_02x v ++ rest) = Some (v, rest).
Proof.
  intros Hv. unfold scan_2x, print_02x. cbn [app skip_spaces].
  destruct (hex_val_digit (v / 16) ltac:(zdm)) as [E1 E2].
  destruct (hex_val_digit (v mod 16) ltac:(zdm)) as [E3 _].
  rewrite E2, E1, E3. do 2 f_equal. zdm.
Qed.

Definition mac_byte (m k : Z) : Z := Z.land (Z.shiftr m k) 0xFF.

Lemma mac_byte_val m k : 0 <= k -> mac_byte m k = m / 2 ^ k mod 256.
Proof.
  intros Hk. unfold mac_byte. change 0xFF with (2 ^ 8 - 1).
  by rewrite land_pow2_mask, Z.shiftr_div_pow2 by lia.
Qed.

Lemma mac_byte_range m k : 0 <= k -> 0 <= mac_byte m k < 256.
Proof. intros Hk. rewrite mac_byte_val by done. apply Z.mod_pos_bound. lia. Qed.

(** One step of the accumulation. *)
Lemma mac_step acc b :
  0 <= acc < 2 ^ 40 -> Z.lor (u64 (Z.shiftl acc 8)) (Z.land b 0xFF) = acc * 256 + b mod 256.
Proof.
  intros Ha. change 0xFF with (2 ^ 8 - 1). rewrite land_pow2_mask by lia.
  rewrite u_small by (rewrite Z.shiftl_mul_pow2 by lia; lia).
  rewrite lor_shiftl_add; [done|lia|]. apply Z.mod_pos_bound. lia.
Qed.

Lemma mac_horner m k :
  0 <= k -> m / 2 ^ (k + 8) * 256 + mac_byte m k mod 256 = m / 2 ^ k.
Proof.
  intros Hk. rewrite mac_byte_val, Z.pow_add_r, <- Z.div_div by lia.
  change (2 ^ 8) with 256. rewrite Z.mod_mod by lia. zdm.
Qed.

Definition mac_fold (bytes : list Z) : Z :=
  foldl (λ mac b, Z.lor (u64 (Z.shiftl mac 8)) (Z.land b 0xFF)) 0 bytes.

Lemma mac_next m k k' :
  0 <= m < 2 ^ 48 -> 0 <= k -> k' = k + 8 ->
  Z.lor (u64 (Z.shiftl (m / 2 ^ k') 8)) (Z.land (mac_byte m k) 0xFF) = m / 2 ^ k.
Proof.
  intros Hm Hk ->. rewrite mac_step; [by apply mac_horner|].
  split; [apply Z.div_pos; lia|].
  assert (m / 2 ^ (k + 8) <= m / 2 ^ 8) by (apply Z.div_le_compat_l;
    [lia|split; [lia|apply Z.pow_le_mono_r; lia]]).
  assert (m / 2 ^ 8 < 2 ^ 40) by (apply Z.div_lt_upper_bound; lia). lia.
Qed.

Lemma mac_fold_bytes m :
  0 <= m < 2 ^ 48 -> mac_fold (map (mac_byte m) [40; 32; 24; 16; 8; 0]) = m.
Proof.
  intros Hm. assert (0 = m / 2 ^ 48) as Hz by (symmetry; by apply Z.div_small).
  unfold mac_fold. cbn [map foldl]. rewrite Hz at 1.
  rewrite (mac_next m 40 48), (mac_next m 32 40), (mac_next m 24 32), (mac_next m 16 24),
    (mac_next m 8 16), (mac_next m 0 8) by (lia || done).
  by rewrite Z.div_1_r.
Qed.

Lemma sscanf_print bs : forall b0,
  0 <= b0 < 256 -> Forall (λ b, 0 <= b < 256) bs ->
  ('(b, l1) ← scan_2x (print_02x b0 ++ concat (map (λ b, COLON :: print_02x b) bs));
   bs' ← scan_rest (length bs) l1; Some (b :: bs')) = Some (b0 :: bs).
Proof.
  intros b0 Hb0 HF. rewrite scan_2x_print by done. cbn [mbind option_bind].
  assert (scan_rest (length bs) (concat (map (λ b, COLON :: print_02x b) bs)) = Some bs) as ->.
  { induction HF as [|b bs Hb HF IH]; [done|]. cbn [length map concat app scan_rest].
    change (COLON =? COLON) with true. cbv iota. rewrite scan_2x_print by done.
    cbn [mbind option_bind]. by rewrite IH. }
  done.
Qed.

Lemma mac_str_print m buflen s :
  0 <= m < 2 ^ 48 -> mac_uint64_to_str m buflen = Some s ->
  mac_str_to_uint64 s = Some m /\ length s = 17%nat.
Proof.
  intros Hm. unfold mac_uint64_to_str. destruct (buflen <? 18); [done|]. intros [= <-].
  split; [|done]. unfold mac_str_to_uint64.
  match goal with |- context [sscanf_mac ?x] =>
    assert (sscanf_mac x = Some (map (mac_byte m) [40; 32; 24; 16; 8; 0])) as -> end.
  { apply (sscanf_print (map (mac_byte m) [32; 24; 16; 8; 0]) (mac_byte m 40));
      [apply mac_byte_range; lia|cbn [map]; forall_list; apply mac_byte_range; lia]. }
  cbn [mbind option_bind]. f_equal. by apply (mac_fold_bytes m).
Qed.

Lemma mac_fold_range bytes : length bytes = 6%nat -> 0 <= mac_fold bytes < 2 ^ 48.
Proof.
  assert (forall l acc n, 0 <= acc < 2 ^ (8 * n) -> 0 <= n -> n + zlen l <= 6 ->
    0 <= foldl (λ mac b, Z.lor (u64 (Z.shiftl mac 8)) (Z.land b 0xFF)) acc l
      < 2 ^ (8 * (n + zlen l))) as Hg.
  { induction l as [|b l IH]; intros acc n Ha Hn Hl; unfold zlen in *; simpl length in *.
    - by rewrite Z.add_0_r.
    - cbn [foldl]. assert (2 ^ (8 * n) <= 2 ^ 40) by (apply Z.pow_le_mono_r; lia).
      rewrite mac_step by lia.
      replace (n + Z.of_nat (S (length l))) with ((n + 1) + Z.of_nat (length l)) by lia.
      apply IH; [|lia|lia]. pose proof (Z.mod_pos_bound b 256 ltac:(lia)).
      replace (8 * (n + 1)) with (8 * n + 8) by lia. rewrite Z.pow_add_r by lia.
      change (2 ^ 8) with 256. nia. }
  intros Hl. specialize (Hg bytes 0 0 ltac:(lia) ltac:(lia)). unfold zlen in Hg.
  rewrite Hl in Hg. apply Hg. done.
Qed.

Lemma scan_rest_length n : forall l bs, scan_rest n l = Some bs -> length bs = n.
Proof.
  induction n as [|n IH]; intros l bs; simpl; [by intros [= <-]|].
  destruct l as [|c l]; [done|]. destruct (c =? COLON); [|done].
  destruct (scan_2x l) as [[b l2]|]; [|done]. cbn.
  destruct (scan_rest n l2) as [bs'|] eqn:E; [|done]. cbn. intros [= <-].
  simpl. by rewrite (IH _ _ E).
Qed.

(** C37: MAC addresses: printing a 48-bit address gives 17 characters that parse
    back to it, and whatever text is accepted (upper or lower case, blanks, short
    or signed fields) denotes a 48-bit address, so that printing and parsing it
    again changes nothing. *)
Theorem mac_text_roundtrip :
  (forall m, 0 <= m < 2 ^ 48 ->
     exists s, mac_uint64_to_str m 18 = Some s /\ length s = 17%nat /\
       mac_str_to_uint64 s = Some m) /\
  (forall t m, mac_str_to_uint64 t = Some m ->
     0 <= m < 2 ^ 48 /\ (s ← mac_uint64_to_str m 18; mac_str_to_uint64 s) = Some m).
Proof.
  assert (forall m, 0 <= m < 2 ^ 48 -> exists s, mac_uint64_to_str m 18 = Some s /\
    length s = 17%nat /\ mac_str_to_uint64 s = Some m) as Hp.
  { intros m Hm. destruct (mac_uint64_to_str m 18) as [s|] eqn:E; [|done].
    destruct (mac_str_print m 18 s Hm E) as [? ?]. by exists s. }
  split; [exact Hp|]. intros t m. unfold mac_str_to_uint64 at 1, sscanf_mac.
  destruct (scan_2x t) as [[b l1]|]; [|done]. cbn [mbind option_bind].
  destruct (scan_rest 5 l1) as [bs|] eqn:E; [|done]. cbn [mbind option_bind]. intros Em.
  assert (m = mac_fold (b :: bs)) as -> by by injection Em.
  pose proof (mac_fold_range (b :: bs) ltac:(simpl; by rewrite (scan_rest_length _ _ _ E))) as Hm.
  split; [exact Hm|]. destruct (Hp _ Hm) as (s & Es & _ & Ep).
  by rewrite Es.
Qed.

(** *** IPv4 addresses *)

Lemma dec_val_digit d : 0 <= d < 10 -> dec_val (48 + d) = Some d.
Proof.
  intros Hd. unfold dec_val. rewrite !(proj2 (Z.leb_le _ _)) by lia. cbn. f_equal. lia.
Qed.

(** The rest of the text does not continue the number. *)
Definition no_digit (l : list Z) : Prop :=
  match l with [] => True | c :: _ => dec_val c = None end.

Lemma scan_octet_stop v rest : no_digit rest -> scan_octet rest (Some v) = Some (v, rest).
Proof. destruct rest as [|c l]; simpl; [done|]. by intros ->. Qed.

Lemma scan_octet_print v rest :
  0 <= v < 256 -> no_digit rest -> scan_octet (print_dec 3 v ++ rest) None = Some (v, rest).
Proof.
  intros Hv Hr. cbn [print_dec].
  destruct (Z.ltb_spec v 10) as [H1|H1].
  { cbn [app scan_octet]. rewrite dec_val_digit by lia. by apply scan_octet_stop. }
  destruct (Z.ltb_spec (v / 10) 10) as [H2|H2].
  - cbn [app scan_octet]. rewrite !dec_val_digit by zdm.
    rewrite (proj2 (Z.eqb_neq (v / 10) 0)) by zdm.
    rewrite (proj2 (Z.ltb_ge 255 _)) by zdm. cbn [orb].
    replace (10 * (v / 10) + v mod 10) with v by zdm. by apply scan_octet_stop.
  - destruct (Z.ltb_spec (v / 10 / 10) 10); [|zdm].
    cbn [app scan_octet]. rewrite !dec_val_digit by zdm.
    rewrite (proj2 (Z.eqb_neq (v / 10 / 10) 0)) by zdm.
    rewrite (proj2 (Z.ltb_ge 255 (10 * (v / 10 / 10) + (v / 10) mod 10))) by zdm. cbn [orb].
    replace (10 * (v / 10 / 10) + (v / 10) mod 10) with (v / 10) by zdm.
    rewrite (proj2 (Z.eqb_neq (v / 10) 0)) by zdm.
    rewrite (proj2 (Z.ltb_ge 255 _)) by zdm. cbn [orb].
    replace (10 * (v / 10) + v mod 10) with v by zdm. by apply scan_octet_stop.
Qed.

Lemma inet_pton_ntop a b c d :
  0 <= a < 256 -> 0 <= b < 256 -> 0 <= c < 256 -> 0 <= d < 256 ->
  inet_pton (inet_ntop [a; b; c; d]) = Some [a; b; c; d].
Proof.
  intros Ha Hb Hc Hd. unfold inet_pton, inet_ntop.
  rewrite scan_octet_print by done. cbn [mbind option_bind scan_dots app].
  change (DOT =? DOT) with true. cbv iota.
  rewrite scan_octet_print by done. cbn [mbind option_bind scan_dots app].
  change (DOT =? DOT) with true. cbv iota.
  rewrite scan_octet_print by done. cbn [mbind option_bind scan_dots app].
  change (DOT =? DOT) with true. cbv iota.
  rewrite <- (app_nil_r (print_dec 3 d)), scan_octet_print by done. done.
Qed.

(** A connection built from printed addresses has exactly those addresses:
    the IP addresses in host order, the ports, and the 48-bit MAC addresses. *)
Theorem conn_from_strings_mac_spec c0 proto a b c d a' b' c' d' p p' m m' sm dm :
  Forall (λ x, 0 <= x < 256) [a; b; c; d; a'; b'; c'; d'] ->
  0 <= m < 2 ^ 48 -> 0 <= m' < 2 ^ 48 ->
  mac_uint64_to_str m 18 = Some sm -> mac_uint64_to_str m' 18 = Some dm ->
  conn_from_strings_mac c0 proto (Some sm) (Some (inet_ntop [a; b; c; d])) p
                                 (Some dm) (Some (inet_ntop [a'; b'; c'; d'])) p'
  = Some (mk_conn proto (((a * 256 + b) * 256 + c) * 256 + d)
            (((a' * 256 + b') * 256 + c') * 256 + d') p p' m m').
Proof.
  intros HF Hm Hm' Es Ed. repeat (apply list.Forall_cons in HF as [? HF]).
  unfold conn_from_strings_mac. cbn [mbind option_bind].
  rewrite !inet_pton_ntop by done. cbn [mbind option_bind].
  rewrite (proj1 (mac_str_print m 18 sm Hm Es)), (proj1 (mac_str_print m' 18 dm Hm' Ed)).
  done.
Qed.

Lemma conn_from_strings_mac_spec_witness :
  exists sm dm,
    mac_uint64_to_str 0x000a35064de2 18 = Some sm /\ mac_uint64_to_str 0x0c42a1a82de6 18 = Some dm /\
    conn_from_strings_mac (mk_conn 0 0 0 0 0 0 0) 0x11
      (Some sm) (Some (inet_ntop [10; 0; 0; 2])) 1111
      (Some dm) (Some (inet_ntop [10; 0; 0; 1])) 2222
    = Some (mk_conn 0x11 0x0a000002 0x0a000001 1111 2222 0x000a35064de2 0x0c42a1a82de6).
Proof.
  eexists _, _. split; [reflexivity|]. split; [reflexivity|].
  apply (conn_from_strings_mac_spec (mk_conn 0 0 0 0 0 0 0) 0x11 10 0 0 2 10 0 0 1 1111 2222);
    [by apply (bool_decide_eq_true_1 _)|done|done|reflexivity|reflexivity].
Defined.
