(* ===== verification/CLib.v ===== *)
(** * The C library as the programs use it

    String literals, [strtol] and its relatives, [struct timespec], byte order,
    division of [double]s and [%.2f].
    Strings are lists of character codes without the terminating NUL. *)

From Stdlib Require Ascii String SpecFloat.
From S2P Require Import Prelude Common.
Import String.StringSyntax.

(** The characters of a literal. *)
Definition chars (s : String.string) : list Z :=
  map (λ c, Z.of_nat (Ascii.nat_of_ascii c)) (String.list_ascii_of_string s).

Arguments chars s%_string_scope.

Definition streq (l : list Z) (s : String.string) : bool := bool_decide (l = chars s).
Arguments streq l s%_string_scope.

(** ** [strtoll], [atoll] and [atoi] *)

Fixpoint digits_val (l : list Z) (acc : Z) : Z :=
  match l with
  | c :: l' => match dec_val c with Some d => digits_val l' (10 * acc + d) | None => acc end
  | [] => acc
  end.

Definition clamp64 (v : Z) : Z := Z.max (- 2 ^ 63) (Z.min v (2 ^ 63 - 1)).

Definition strtoll (l : list Z) : Z :=
  match skip_spaces l with
  | c :: l' =>
      if c =? 45 then clamp64 (- digits_val l' 0)
      else if c =? 43 then clamp64 (digits_val l' 0)
      else clamp64 (digits_val (c :: l') 0)
  | [] => 0
  end.
Definition atoll (l : list Z) : Z := strtoll l.
Definition atoi (l : list Z) : Z := i32 (strtoll l).

(** [strtoull] negates modulo 2^64. *)
Definition clampu64 (v : Z) : Z := Z.min v (2 ^ 64 - 1).
Definition strtoull (l : list Z) : Z :=
  match skip_spaces l with
  | c :: l' =>
      if c =? 45 then (let v := digits_val l' 0 in if v <? 2 ^ 64 then u64 (- v) else 2 ^ 64 - 1)
      else if c =? 43 then clampu64 (digits_val l' 0)
      else clampu64 (digits_val (c :: l') 0)
  | [] => 0
  end.

(** [strtoull(s, NULL, 0)]: the prefix 0x before a hexadecimal digit selects
    base 16, another leading 0 base 8. *)
Fixpoint base_val (base : Z) (l : list Z) (acc : Z) : Z :=
  match l with
  | c :: l' =>
      match hex_val c with
      | Some d => if d <? base then base_val base l' (base * acc + d) else acc
      | None => acc
      end
  | [] => acc
  end.

Definition auto_val (l : list Z) : Z :=
  match l with
  | 48 :: x :: h :: _ =>
      if ((x =? 120) || (x =? 88)) && bool_decide (is_Some (hex_val h)) then base_val 16 (drop 2 l) 0
      else base_val 8 l 0
  | 48 :: _ => base_val 8 l 0
  | _ => base_val 10 l 0
  end.

Definition strtoull0 (l : list Z) : Z :=
  match skip_spaces l with
  | c :: l' =>
      if c =? 45 then (let v := auto_val l' in if v <? 2 ^ 64 then u64 (- v) else 2 ^ 64 - 1)
      else if c =? 43 then clampu64 (auto_val l')
      else clampu64 (auto_val (c :: l'))
  | [] => 0
  end.

(** Where [strtol] stops reading: behind the digits, or at the beginning of the
    string when there are none. *)
Fixpoint digits_end (l : list Z) : list Z :=
  match l with
  | c :: l' => match dec_val c with Some _ => digits_end l' | None => l end
  | [] => []
  end.

Definition starts_digit (l : list Z) : bool :=
  match l with c :: _ => bool_decide (is_Some (dec_val c)) | [] => false end.

Definition strtol_end (l : list Z) : list Z :=
  let l1 := skip_spaces l in
  let l2 := match l1 with c :: l' => if (c =? 45) || (c =? 43) then l' else l1 | [] => [] end in
  if starts_digit l2 then digits_end l2 else l.

(** ** Time and byte order *)

Record timespec := mk_ts { tv_sec : Z; tv_nsec : Z }.

Definition htons (x : Z) : Z := 256 * (x mod 256) + x / 256 mod 256.
Definition htonl (x : Z) : Z :=
  16777216 * (x mod 256) + 65536 * (x / 256 mod 256) + 256 * (x / 65536 mod 256) + x / 16777216 mod 256.

(** ** Positive [double]s

    IEEE arithmetic with 53 bits, rounding to the nearest and to even on ties, for
    numbers that neither overflow nor underflow. *)

(** The integer nearest to [a / b]. *)
Definition rne (a b : Z) : Z :=
  let q := a / b in
  match 2 * (a mod b) ?= b with
  | Lt => q
  | Gt => q + 1
  | Eq => if Z.even q then q else q + 1
  end.

(** [(double) n] *)
Definition double_of (n : Z) : Z :=
  let e := Z.max 0 (Z.log2 n - 52) in rne n (2 ^ e) * 2 ^ e.

(** The double nearest to [a / b] is [m * 2 ^ (- k)] with the result [(m, k)], [m] of 53
    bits. *)
Definition double_div (a b : Z) : Z * Z :=
  let scaled k := (a * 2 ^ Z.max 0 k, b * 2 ^ Z.max 0 (- k)) in
  let k := 53 + Z.log2 b - Z.log2 a in
  let k := if 2 ^ 53 * (scaled k).2 <=? (scaled k).1 then k - 1 else k in
  (rne (scaled k).1 (scaled k).2, k).

(** What [%.2f] prints, in hundredths. *)
Definition print_f2 (d : Z * Z) : Z := rne (100 * d.1 * 2 ^ Z.max 0 (- d.2)) (2 ^ Z.max 0 d.2).

(** ** Facts *)

Lemma rne_near a b : 0 < b -> 2 * Z.abs (b * rne a b - a) <= b.
Proof.
  intros Hb. unfold rne. pose proof (Z.div_mod a b ltac:(lia)). pose proof (Z.mod_pos_bound a b Hb).
  destruct (Z.compare_spec (2 * (a mod b)) b); [destruct (Z.even (a / b))|..]; nia.
Qed.

Lemma double_of_small n : 0 <= n < 2 ^ 53 -> double_of n = n.
Proof.
  intros Hn. unfold double_of. assert (Z.log2 n < 53) as Hl.
  { destruct (Z.eq_dec n 0) as [->|]; [done|]. apply Z.log2_lt_pow2; lia. }
  rewrite Z.max_l by lia. change (2 ^ 0) with 1. unfold rne. rewrite Z.mod_1_r, Z.div_1_r.
  change (2 * 0 ?= 1) with Lt. cbv iota. lia.
Qed.

(** A number of thousandths, printed with two decimals: the nearest hundredth. *)
Lemma print_thousandths x : 0 <= x < 2 ^ 53 -> Z.abs (10 * print_f2 (double_div x 1000) - x) <= 5.
Proof.
  intros Hx. destruct (Z.eq_dec x 0) as [->|Hne]; [done|].
  unfold double_div. change (Z.log2 1000) with 9.
  pose proof (Z.log2_spec x ltac:(lia)) as [Hlo Hhi]. pose proof (Z.log2_nonneg x) as Hl0.
  assert (Z.log2 x < 53) as Hl by (apply Z.log2_lt_pow2; lia).
  set (k0 := 53 + 9 - Z.log2 x). set (k := if _ <=? _ then k0 - 1 else k0).
  assert (0 < k /\ 1000 * 2 ^ 52 <= x * 2 ^ k) as [Hk Hs].
  { unfold k. assert (0 < k0) by lia. rewrite (Z.max_r 0 k0), (Z.max_l 0 (- k0)) by lia.
    assert (2 ^ 62 <= x * 2 ^ k0) as H62.
    { replace (2 ^ 62) with (2 ^ Z.log2 x * 2 ^ k0); [apply Z.mul_le_mono_nonneg_r; lia|].
      rewrite <- Z.pow_add_r by lia. f_equal. lia. }
    change (1000 * 2 ^ 0) with 1000. cbn [fst snd].
    destruct (Z.leb_spec (2 ^ 53 * 1000) (x * 2 ^ k0)) as [Hge|]; [|lia].
    split; [lia|]. replace k0 with (k0 - 1 + 1) in Hge by lia. rewrite Z.pow_add_r in Hge by lia. nia. }
  clearbody k. cbn [fst snd]. rewrite (Z.max_r 0 k), (Z.max_l 0 (- k)) by lia. change (2 ^ 0) with 1.
  rewrite Z.mul_1_r. pose proof (rne_near (x * 2 ^ k) 1000 ltac:(lia)) as Hm.
  set (m := rne (x * 2 ^ k) 1000) in *. clearbody m.
  unfold print_f2. cbn [fst snd]. rewrite (Z.max_r 0 k), (Z.max_l 0 (- k)) by lia. change (2 ^ 0) with 1.
  rewrite Z.mul_1_r. pose proof (rne_near (100 * m) (2 ^ k) ltac:(lia)) as Hh.
  set (h := rne (100 * m) (2 ^ k)) in *. clearbody h.
  assert (500 < 2 ^ k) as Hp by nia.
  set (p := 2 ^ k) in *. clearbody p.
  assert (200 * p * Z.abs (10 * h - x) <= 1000 * p + 100000) as Hsum.
  { replace (200 * p * Z.abs (10 * h - x)) with (Z.abs (2 * 1000 * (p * h - 100 * m) + 2 * 100 * (1000 * m - x * p)))
      by (rewrite <- (Z.abs_eq (200 * p)), <- Z.abs_mul by lia; f_equal; lia). lia. }
  assert (Z.abs (10 * h - x) < 6); [|lia].
  apply (Zmult_lt_reg_r _ _ (200 * p)); lia.
Qed.

(** The same division as the one of the specification of floats. *)
Lemma double_div_spec_float :
  Forall (λ x : positive,
    let spec n := SpecFloat.binary_normalize 53 1024 n 0 false in
    match SpecFloat.SFdiv 53 1024 (spec (Z.pos x)) (spec 1000) with
    | SpecFloat.S754_finite false m e => double_div (double_of (Z.pos x)) 1000 = (Z.pos m, - e)
    | _ => False
    end) [1; 5; 15; 1005; 1015; 999999; 123456789; 9007199254740993; 1000000000000000; 9223372036854775807]%positive.
Proof. repeat (apply List.Forall_cons; [vm_compute; reflexivity|]). constructor. Qed.


Lemma strtoll_range v : - 2 ^ 63 <= strtoll v < 2 ^ 63.
Proof.
  unfold strtoll, clamp64. destruct (skip_spaces v) as [|c l]; [lia|].
  repeat case_bool; lia.
Qed.

Lemma i32_range x : - 2 ^ 31 <= i32 x < 2 ^ 31.
Proof. unfold i32, Word.i. pose proof (Z.mod_pos_bound (x + 2 ^ (32 - 1)) (2 ^ 32)). lia. Qed.

Lemma digits_print d acc rest :
  0 <= d < 10 -> digits_val ([48 + d] ++ rest) acc = digits_val rest (10 * acc + d) /\
  digits_end ([48 + d] ++ rest) = digits_end rest.
Proof. intros Hd. cbn [app digits_val digits_end]. by rewrite dec_val_digit. Qed.

(** Printing a number in decimal and reading it back. *)
Lemma digits_val_print n : forall v acc rest, 0 <= v < 10 ^ Z.of_nat n -> (0 < n)%nat ->
  exists k, digits_val (print_dec n v ++ rest) acc = digits_val rest (acc * 10 ^ k + v) /\
    digits_end (print_dec n v ++ rest) = digits_end rest /\ 0 <= k.
Proof.
  induction n as [|n IH]; intros v acc rest Hv Hn; [lia|]. cbn [print_dec].
  destruct (Z.ltb_spec v 10) as [Hs|Hs].
  - exists 1. destruct (digits_print v acc rest ltac:(lia)) as [-> ->].
    split; [f_equal; lia|]. split; [done|lia].
  - rewrite Nat2Z.inj_succ, Z.pow_succ_r in Hv by lia. rewrite <- app_assoc.
    destruct n as [|n]; [cbn in Hv; lia|].
    destruct (IH (v / 10) acc ([48 + v mod 10] ++ rest)) as (k & -> & -> & Hk); [zdm|lia|].
    destruct (digits_print (v mod 10) (acc * 10 ^ k + v / 10) rest ltac:(zdm)) as [-> ->].
    exists (k + 1). split; [|split; [done|lia]]. f_equal. rewrite Z.pow_add_r by lia. zdm.
Qed.
