(* ===== verification/CommonRegs.v ===== *)
(** * Register access of the user library ([lib/common.h])

    The [reg_readN] and [reg_writeN] macros index an array of [N]-bit words. *)

From S2P Require Import Prelude Prog Mmio.

(** ** Register access

    [((volatile uintN_t * )(base))[(reg) / (N/8)]]: the offset is rounded down to
    a multiple of the width. *)

Section regs.
Context {S D : Type} `{Mmio D} `{HasDev S D}.
Definition reg_off (w : width) (reg : Z) : Z :=
  reg / Z.of_nat (wbytes w) * Z.of_nat (wbytes w).
Definition reg_read64 (base : region) (reg : Z) : prog S Z := ioread W64 base (reg_off W64 reg).
Definition reg_read32 (base : region) (reg : Z) : prog S Z := ioread W32 base (reg_off W32 reg).
Definition reg_read16 (base : region) (reg : Z) : prog S Z := ioread W16 base (reg_off W16 reg).
Definition reg_read8 (base : region) (reg : Z) : prog S Z := ioread W8 base (reg_off W8 reg).
Definition reg_write64 (base : region) (reg v : Z) : prog S unit :=
  iowrite W64 base (reg_off W64 reg) v.
Definition reg_write32 (base : region) (reg v : Z) : prog S unit :=
  iowrite W32 base (reg_off W32 reg) v.
Definition reg_write16 (base : region) (reg v : Z) : prog S unit :=
  iowrite W16 base (reg_off W16 reg) v.
Definition reg_write8 (base : region) (reg v : Z) : prog S unit :=
  iowrite W8 base (reg_off W8 reg) v.
End regs.

Lemma reg_off_aligned w reg : reg mod Z.of_nat (wbytes w) = 0 -> reg_off w reg = reg.
Proof. unfold reg_off. intros Hr. destruct w; simpl in *; zdm. Qed.
