(* ===== verification/IocacheLib.v ===== *)
(** * The I/O-cache user library ([lib/iocache_lib.c], [lib/iocache_lib.h])

    The library runs against the driver model: its [ioctl] and [mmap] calls are
    calls of [iocache_misc_ioctl] and [iocache_misc_mmap], its register macros
    access the same device.  File descriptors, CPU numbers and the addresses
    [mmap] picks come from the class [Os].  [release] is not among the calls: the
    kernel runs it when the last reference to the file is gone, and mappings are
    references. *)

From S2P Require Import Prelude Prog Mmio UserMem AddrSpace IocacheRegs IocacheDriver IocacheMisc Common CommonRegs.

Class Os := {
  os_open : Z;                       (* open(file, O_RDWR | O_SYNC) *)
  os_getcpu : Z;                     (* sched_getcpu() *)
  os_cpu : Z -> Z;                   (* smp_processor_id() in the ioctl of a command *)
  os_eventfd : Z;
  os_epoll : Z;
  os_mmap_addr : Z -> Z;             (* the address chosen for a mapping, by index *)
  os_pid : Z                         (* the kernel's task_struct of the caller *)
}.

Record iocache_info := mk_info {
  fd : Z; regs_offset : Z; regs_size : Z; row : Z; cpu : Z;
  regs : Z; udp_tx_buffer : Z; udp_rx_buffer : Z;
  udp_tx_buffer_aligned : Z; udp_rx_buffer_aligned : Z;
  udp_tx_size : Z; udp_rx_size : Z; efd : Z; ep : Z
}.

(** The process: the kernel behind it, its handle on the I/O cache, what is
    mapped where, and the open descriptors. *)
Record lib_state (D : Type) := mk_lib {
  kern : misc_state D;
  info : iocache_info;
  maps : list (Z * mmap_result);
  fds : list Z
}.
Arguments mk_lib {D}.
Arguments kern {D}.
Arguments info {D}.
Arguments maps {D}.
Arguments fds {D}.

Section lib.
Context {D : Type} `{Mmio D} `{MiscKernel} `{Os}.
Abbreviation M := (prog (lib_state D)).

Definition set_kern (k : misc_state D) (s : lib_state D) : lib_state D :=
  mk_lib k (info s) (maps s) (fds s).
Definition set_info (i : iocache_info) (s : lib_state D) : lib_state D :=
  mk_lib (kern s) i (maps s) (fds s).
Definition set_maps (m : list (Z * mmap_result)) (s : lib_state D) : lib_state D :=
  mk_lib (kern s) (info s) m (fds s).
Definition set_fds (l : list Z) (s : lib_state D) : lib_state D :=
  mk_lib (kern s) (info s) (maps s) l.

#[export] Instance lib_has_dev : HasDev (lib_state D) D.
Proof.
  refine {| the_dev := λ s, ioc_dev (ioc (kern s));
            set_dev := λ d s, set_kern (set_ioc (ioc_set_dev d (ioc (kern s))) (kern s)) s |};
    by intros [[[]]].
Defined.

(** A system call that runs a kernel operation. *)
Definition kernel_call {A} (m : prog (misc_state D) A) : M A := λ s,
  let '(o, k) := m (kern s) in (o, set_kern k s).

(** [ioctl(2)] returns -1 when the driver answers with an error. *)
Definition ioctl (cmd arg : Z) : M Z :=
  r ← kernel_call (iocache_misc_ioctl os_pid (os_cpu cmd) cmd arg);
  mret (if r <? 0 then -1 else r).

(** [open(file, O_RDWR | O_SYNC)], with the driver's [open]. *)
Definition open_device : M Z :=
  if os_open <? 0 then mret (-1)
  else
    r ← kernel_call iocache_misc_open;
    if r <? 0 then mret (-1)
    else modify (λ s, set_fds (os_open :: fds s) s);; mret os_open.

(** [close(fd)] *)
Definition close (f : Z) : M unit := modify (λ s, set_fds (filter (λ g, g <> f) (fds s)) s).

(** [mmap(NULL, len, ..., MAP_SHARED, fd, MAP_INDEX(index))]; -1 is [MAP_FAILED]. *)
Definition mmap (n index : Z) : M Z :=
  s ← get;
  let a := os_mmap_addr index in
  let vma := mk_vma a (a + page_align n) (Z.shiftr (MAP_INDEX index) PAGE_SHIFT) true in
  match iocache_misc_mmap (ioc (kern s)) vma with
  | MmapErr _ => mret (-1)
  | r => modify (λ s, set_maps ((a, r) :: maps s) s);; mret a
  end.

Definition munmap (a n : Z) : M unit := modify (λ s, set_maps (unmap a n (maps s)) s).

(** ** Registers of the mapped window *)

Definition iocache_setup_connection_row (entry : connection_info) (r : Z) : M unit :=
  reg_write8 IOCACHE (IOCACHE_REG_PROTOCOL r) (protocol entry);;
  reg_write32 IOCACHE (IOCACHE_REG_SRC_IP r) (src_ip entry);;
  reg_write16 IOCACHE (IOCACHE_REG_SRC_PORT r) (src_port entry);;
  reg_write32 IOCACHE (IOCACHE_REG_DST_IP r) (dst_ip entry);;
  reg_write16 IOCACHE (IOCACHE_REG_DST_PORT r) (dst_port entry);;
  reg_write16 IOCACHE (IOCACHE_REG_CONN_ID r) (src_port entry);;
  reg_write8 IOCACHE (IOCACHE_REG_ENABLED r) 1.

Definition iocache_setup_connection (entry : connection_info) : M unit :=
  s ← get; iocache_setup_connection_row entry (row (info s)).

Definition iocache_clear_connection : M unit :=
  s ← get;
  let r := row (info s) in
  reg_write8 IOCACHE (IOCACHE_REG_PROTOCOL r) 0;;
  reg_write32 IOCACHE (IOCACHE_REG_SRC_IP r) 0;;
  reg_write16 IOCACHE (IOCACHE_REG_SRC_PORT r) 0;;
  reg_write32 IOCACHE (IOCACHE_REG_DST_IP r) 0;;
  reg_write16 IOCACHE (IOCACHE_REG_DST_PORT r) 0.

Definition iocache_is_rx_available : M bool :=
  s ← get; v ← reg_read8 IOCACHE (IOCACHE_REG_RX_AVAILABLE (row (info s)));
  mret (negb (v =? 0)).
Definition iocache_is_txcomp_available : M bool :=
  s ← get; v ← reg_read8 IOCACHE (IOCACHE_REG_TXCOMP_AVAILABLE (row (info s)));
  mret (negb (v =? 0)).

Definition iocache_set_tx_ring_addr (v r : Z) : M unit :=
  reg_write64 IOCACHE (IOCACHE_REG_TX_RING_ADDR r) v.
Definition iocache_set_tx_ring_size (v r : Z) : M unit :=
  reg_write32 IOCACHE (IOCACHE_REG_TX_RING_SIZE r) v.
Definition iocache_set_rx_ring_addr (v r : Z) : M unit :=
  reg_write64 IOCACHE (IOCACHE_REG_RX_RING_ADDR r) v.
Definition iocache_set_rx_ring_size (v r : Z) : M unit :=
  reg_write32 IOCACHE (IOCACHE_REG_RX_RING_SIZE r) v.

Definition iocache_enable_interrupts_rx : M unit :=
  s ← get; reg_write8 IOCACHE (IOCACHE_REG_INTMASK_RX (cpu (info s))) 0x1.
Definition iocache_disable_interrupts_rx : M unit :=
  s ← get; reg_write8 IOCACHE (IOCACHE_REG_INTMASK_RX (cpu (info s))) 0x0.
Definition iocache_set_rx_suspended : M unit :=
  s ← get; reg_write8 IOCACHE (IOCACHE_REG_RX_SUSPENDED (row (info s))) 0x1.
Definition iocache_clear_rx_suspended : M unit :=
  s ← get; reg_write8 IOCACHE (IOCACHE_REG_RX_SUSPENDED (row (info s))) 0x0.
Definition iocache_set_txcomp_suspended : M unit :=
  s ← get; reg_write8 IOCACHE (IOCACHE_REG_TXCOMP_SUSPENDED (row (info s))) 0x1.
Definition iocache_clear_txcomp_suspended : M unit :=
  s ← get; reg_write8 IOCACHE (IOCACHE_REG_TXCOMP_SUSPENDED (row (info s))) 0x0.

(** ** System calls of the library *)

(** Local variables live at [frame]. *)
Variable frame : Z.

Definition poke (l : list Z) : M unit :=
  modify (λ s, set_kern (set_mem (copy_to_user (mem (kern s)) frame l).2 (kern s)) s).
Definition peek (n : Z) : M (list Z) :=
  s ← get; deref (copy_from_user (mem (kern s)) frame n) OutOfBounds.

(** [Some (offset, size)] of a region, [None] on failure. *)
Definition iocache_ioctl_region (index : Z) : M (option (Z * Z)) :=
  poke (region_info_bytes (mk_region_info sizeof_region_info 0 index 0 0 0 0 0 (repeat 0 32)));;
  r ← ioctl IOCACHE_IOCTL_GET_REGION_INFO frame;
  if r =? -1 then mret None
  else l ← peek sizeof_region_info;
       mret (Some (ri_offset (region_info_of l), ri_size (region_info_of l))).

(** What the device does while the caller sleeps in [WAIT_READY] is [dozing]. *)
Definition iocache_wait_on_rx (dozing : D -> D) : M Z :=
  a ← iocache_is_rx_available;
  if (a : bool) then mret 0
  else
    iocache_set_rx_suspended;;
    iocache_enable_interrupts_rx;;
    r ← ioctl IOCACHE_IOCTL_WAIT_READY 0;
    modify (λ s, set_dev (dozing (the_dev s)) s);;
    if r =? -1 then iocache_clear_rx_suspended;; mret (-1)
    else
      iocache_clear_rx_suspended;;
      b ← iocache_is_rx_available;
      mret (if (b : bool) then 0 else -1).

Definition iocache_wait_on_txcomp : M Z := mret 0.

(** The caller passes the buffer [ns]. *)
Definition iocache_get_last_irq_ns (ns : Z) : M Z :=
  r ← ioctl IOCACHE_IOCTL_GET_LAST_IRQ_NS ns; mret (if r =? -1 then -1 else 0).
Definition iocache_get_last_ktimes (buf : Z) : M Z :=
  r ← ioctl IOCACHE_IOCTL_GET_KTIMES buf; mret (if r =? -1 then -1 else 0).
(** [print_util]: [None] is "n/a (bad window)", otherwise the numbers of the line
    (used and wall time); the percentage is their quotient. *)
Definition print_util (start stop used : Z) : option (Z * Z) :=
  if stop <=? start then None else Some (used, u64 (stop - start)).

(** [malloc] returned [ns]; what [print_util] prints is the result.  The [printf]
    between the two names three numbers and is given none. *)
Definition printf_without_arguments : M unit := fail Uninitialised.
Definition iocache_print_proc_util (ns : Z) : M (Z * option (Z * Z)) :=
  r ← ioctl IOCACHE_IOCTL_GET_PROC_UTIL ns;
  if r =? -1 then mret (-1, None)
  else
    printf_without_arguments;;
    s ← get;
    l ← deref (copy_from_user (mem (kern s)) ns 24) OutOfBounds;
    let v k := le_combine (take 8 (drop (8 * k) l)) in
    mret (0, print_util (v 0%nat) (v 1%nat) (v 2%nat)).

Definition iocache_start_scheduler : M Z :=
  r ← ioctl IOCACHE_IOCTL_RUN_SCHEDULER 0; mret (if r =? -1 then -1 else 0).
Definition iocache_stop_scheduler : M Z :=
  r ← ioctl IOCACHE_IOCTL_STOP_SCHEDULER frame; mret (if r =? -1 then -1 else 0).

Definition with_row (r : Z) (i : iocache_info) : iocache_info :=
  mk_info (fd i) (regs_offset i) (regs_size i) r (cpu i) (regs i) (udp_tx_buffer i)
    (udp_rx_buffer i) (udp_tx_buffer_aligned i) (udp_rx_buffer_aligned i)
    (udp_tx_size i) (udp_rx_size i) (efd i) (ep i).

Definition iocache_reserve_ring (r : Z) : M Z :=
  poke (le_split 4 r);;
  x ← ioctl IOCACHE_IOCTL_RESERVE_RING frame;
  if x =? -1 then mret (-1)
  else l ← peek 4; modify (λ s, set_info (with_row (i32 (le_combine l)) (info s)) s);; mret 0.

Definition iocache_free_ring : M Z :=
  r ← ioctl IOCACHE_IOCTL_FREE_RING 0; mret (if r =? -1 then -1 else 0).

(** [(p + 63) & ~63] *)
Definition align_up (p : Z) : Z := u64 (Z.land (p + 63) (Z.lnot 63)).

Definition update_info (f : iocache_info -> iocache_info) : M unit :=
  modify (λ s, set_info (f (info s)) s).

(** The second half of [iocache_open]: mapping the window and the rings. *)
Definition iocache_open_map : M Z :=
  s ← get;
  p ← mmap (regs_size (info s)) 0;
  update_info (λ i, mk_info (fd i) (regs_offset i) (regs_size i) (row i) (cpu i) p
    (udp_tx_buffer i) (udp_rx_buffer i) (udp_tx_buffer_aligned i)
    (udp_rx_buffer_aligned i) (udp_tx_size i) (udp_rx_size i) (efd i) (ep i));;
  if p =? -1 then close os_eventfd;; close os_open;; mret (-1)
  else
    t ← mmap (udp_tx_size (info s) + 63) (2 * row (info s) + 1);
    update_info (λ i, mk_info (fd i) (regs_offset i) (regs_size i) (row i) (cpu i)
      (regs i) t (udp_rx_buffer i) (if t =? -1 then udp_tx_buffer_aligned i else align_up t)
      (udp_rx_buffer_aligned i) (udp_tx_size i) (udp_rx_size i) (efd i) (ep i));;
    if t =? -1 then close os_open;; mret (-1)
    else
      q ← mmap (udp_rx_size (info s) + 63) (2 * row (info s) + 2);
      update_info (λ i, mk_info (fd i) (regs_offset i) (regs_size i) (row i) (cpu i)
        (regs i) (udp_tx_buffer i) q (udp_tx_buffer_aligned i)
        (if q =? -1 then udp_rx_buffer_aligned i else align_up q)
        (udp_tx_size i) (udp_rx_size i) (efd i) (ep i));;
      if q =? -1 then munmap p (regs_size (info s));; close os_open;; mret (-1)
      else iocache_enable_interrupts_rx;; mret 0.

Definition iocache_open (r : Z) : M Z :=
  update_info (λ i, mk_info (fd i) (regs_offset i) (regs_size i) (row i) (cpu i) (regs i)
    (udp_tx_buffer i) (udp_rx_buffer i) (udp_tx_buffer_aligned i) (udp_rx_buffer_aligned i)
    (8 * 1024) (8 * 1024) (efd i) (ep i));;
  f ← open_device;
  if f <? 0 then mret (-1)
  else
    update_info (λ i, mk_info f (regs_offset i) (regs_size i) (row i) os_getcpu (regs i)
      (udp_tx_buffer i) (udp_rx_buffer i) (udp_tx_buffer_aligned i) (udp_rx_buffer_aligned i)
      (udp_tx_size i) (udp_rx_size i) (efd i) (ep i));;
    g ← iocache_ioctl_region 0;
    match g with
    | None => close os_open;; mret (-1)
    | Some (off, size) =>
        modify (λ s, set_fds (os_eventfd :: fds s) s);;
        update_info (λ i, mk_info (fd i) off size (row i) (cpu i) (regs i)
          (udp_tx_buffer i) (udp_rx_buffer i) (udp_tx_buffer_aligned i)
          (udp_rx_buffer_aligned i) (udp_tx_size i) (udp_rx_size i) os_eventfd (ep i));;
        poke (le_split 4 os_eventfd);;
        x ← ioctl IOCACHE_IOCTL_SET_EVENTFD frame;
        if x =? -1 then close os_eventfd;; close os_open;; mret (-1)
        else
          _ ← iocache_reserve_ring r;
          modify (λ s, set_fds (os_epoll :: fds s) s);;
          update_info (λ i, mk_info (fd i) (regs_offset i) (regs_size i) (row i) (cpu i) (regs i)
            (udp_tx_buffer i) (udp_rx_buffer i) (udp_tx_buffer_aligned i)
            (udp_rx_buffer_aligned i) (udp_tx_size i) (udp_rx_size i) (efd i) os_epoll);;
          iocache_open_map
    end.

Definition iocache_close : M Z :=
  poke (le_split 4 (-1));;
  _ ← ioctl IOCACHE_IOCTL_SET_EVENTFD frame;
  iocache_clear_rx_suspended;;
  iocache_clear_connection;;
  s ← get;
  munmap (regs (info s)) (regs_size (info s));;
  munmap (udp_rx_buffer (info s)) (udp_rx_size (info s));;
  munmap (udp_tx_buffer (info s)) (udp_tx_size (info s));;
  _ ← iocache_free_ring;
  close (ep (info s));; close (efd (info s));; close (fd (info s));;
  mret 0.
End lib.

(** ** Properties *)

(** Row registers are aligned to 8 bytes: the index arithmetic of the macros
    reaches exactly the register. *)
Lemma reg_off_row w i f :
  0 <= i < IOCACHE_CACHE_ENTRY_COUNT ->
  reg_off w (IOCACHE_REG i (field_off f)) = IOCACHE_REG i (field_off f).
Proof.
  intros Hi. pose proof (reg_addr_beat (ROW i f) Hi) as E. simpl in E. rewrite E.
  apply reg_off_aligned. destruct w; simpl; zdm.
Qed.

(** No call writes the read-only flags of a row. *)
Lemma no_flags_written fields w v l1 l2 :
  forallb (λ x : width * row_field * Z, bool_decide (x.1.2 <> FLAGS_RO)) fields = true ->
  fields <> l1 ++ (w, FLAGS_RO, v) :: l2.
Proof.
  intros HF ->. rewrite forallb_app in HF. cbn [forallb] in HF.
  by apply andb_true_iff in HF as [_ [HF%bool_decide_eq_true _]%andb_true_iff].
Qed.

Section connection.
Context {D : Type} `{PlainMmio D}.
Implicit Types s : lib_state D.

Definition connection_fields (c : connection_info) : list (width * row_field * Z) :=
  [(W8, PROTOCOL, protocol c); (W32, SRC_IP, src_ip c); (W16, SRC_PORT, src_port c);
   (W32, DST_IP, dst_ip c); (W16, DST_PORT, dst_port c); (W16, CONN_ID, src_port c);
   (W8, ENABLED, 1)].

Lemma setup_run c s :
  0 <= row (info s) < IOCACHE_CACHE_ENTRY_COUNT ->
  iocache_setup_connection c s
  = (Ret tt, set_dev (do_writes (map (row_write (row (info s))) (connection_fields c))
                                (the_dev s)) s).
Proof.
  intros Hr. unfold iocache_setup_connection, iocache_setup_connection_row,
    reg_write8, reg_write16, reg_write32. rewrite run_get.
  change (IOCACHE_REG_PROTOCOL ?x) with (IOCACHE_REG x (field_off PROTOCOL)).
  change (IOCACHE_REG_SRC_IP ?x) with (IOCACHE_REG x (field_off SRC_IP)).
  change (IOCACHE_REG_SRC_PORT ?x) with (IOCACHE_REG x (field_off SRC_PORT)).
  change (IOCACHE_REG_DST_IP ?x) with (IOCACHE_REG x (field_off DST_IP)).
  change (IOCACHE_REG_DST_PORT ?x) with (IOCACHE_REG x (field_off DST_PORT)).
  change (IOCACHE_REG_CONN_ID ?x) with (IOCACHE_REG x (field_off CONN_ID)).
  change (IOCACHE_REG_ENABLED ?x) with (IOCACHE_REG x (field_off ENABLED)).
  rewrite !reg_off_row by done.
  by destruct s as [[[]]].
Qed.

(** What the device knows about the connection of a row. *)
Definition row_connection (d : D) (r : Z) : Z * Z * Z * Z * Z :=
  (reg_val W8 IOCACHE (IOCACHE_REG_PROTOCOL r) d,
   reg_val W32 IOCACHE (IOCACHE_REG_SRC_IP r) d, reg_val W16 IOCACHE (IOCACHE_REG_SRC_PORT r) d,
   reg_val W32 IOCACHE (IOCACHE_REG_DST_IP r) d, reg_val W16 IOCACHE (IOCACHE_REG_DST_PORT r) d).

(** [iocache_setup_connection] programs the 5-tuple of the connection into the
    library's row, uses the source port as connection number and enables the row;
    the other rows are untouched. *)
Theorem iocache_setup_connection_spec c s :
  0 <= row (info s) < IOCACHE_CACHE_ENTRY_COUNT ->
  0 <= protocol c < 2 ^ 8 -> 0 <= src_ip c < 2 ^ 32 -> 0 <= dst_ip c < 2 ^ 32 ->
  0 <= src_port c < 2 ^ 16 -> 0 <= dst_port c < 2 ^ 16 ->
  exists s', iocache_setup_connection c s = (Ret tt, s') /\
    row_connection (the_dev s') (row (info s))
      = (protocol c, src_ip c, src_port c, dst_ip c, dst_port c) /\
    reg_val W16 IOCACHE (IOCACHE_REG_CONN_ID (row (info s))) (the_dev s') = src_port c /\
    reg_val W8 IOCACHE (IOCACHE_REG_ENABLED (row (info s))) (the_dev s') = 1 /\
    (forall r f w, 0 <= r < IOCACHE_CACHE_ENTRY_COUNT -> r <> row (info s) ->
       reg_val w IOCACHE (IOCACHE_REG r (field_off f)) (the_dev s')
       = reg_val w IOCACHE (IOCACHE_REG r (field_off f)) (the_dev s)).
Proof.
  intros Hr Hp Hs Hd Hsp Hdp. eexists. split; [by apply setup_run|].
  rewrite the_set_dev. set (r := row (info s)) in *.
  assert (forall w f v l1 l2, connection_fields c = l1 ++ (w, f, v) :: l2 ->
    Forall (λ x, x.1.2 <> f) l2 -> 0 <= v < 2 ^ wbits w ->
    reg_val w IOCACHE (IOCACHE_REG r (field_off f))
      (do_writes (map (row_write r) (connection_fields c)) (the_dev s)) = v) as Hv.
  { intros w f v l1 l2 E Hl Hb. rewrite E, row_written; [by apply u_small|done| |done].
    intros ->. by apply (no_flags_written (connection_fields c) w v l1 l2). }
  split; [|split; [|split]].
  - unfold row_connection. repeat f_equal.
    + by eapply (Hv W8 PROTOCOL _ []); [reflexivity|by forall_list|].
    + by eapply (Hv W32 SRC_IP _ [_]); [reflexivity|by forall_list|].
    + by eapply (Hv W16 SRC_PORT _ [_; _]); [reflexivity|by forall_list|].
    + by eapply (Hv W32 DST_IP _ [_; _; _]); [reflexivity|by forall_list|].
    + by eapply (Hv W16 DST_PORT _ [_; _; _; _]); [reflexivity|by forall_list|].
  - by eapply (Hv W16 CONN_ID _ [_; _; _; _; _]); [reflexivity|by forall_list|].
  - by eapply (Hv W8 ENABLED _ [_; _; _; _; _; _]); [reflexivity|by forall_list|].
  - intros r' f w Hr' Hne. by apply row_untouched.
Qed.
End connection.

Section wait.
Context {D : Type} `{PlainMmio D} `{MiscKernel} `{Os}.
Implicit Types s : lib_state D.

Definition rx_available (d : D) (r : Z) : bool :=
  negb (reg_val W8 IOCACHE (IOCACHE_REG_RX_AVAILABLE r) d =? 0).

Lemma reg_off_8 a : reg_off W8 a = a.
Proof. unfold reg_off. simpl. rewrite Z.div_1_r. lia. Qed.

Lemma is_rx_available_run s :
  0 <= row (info s) < IOCACHE_CACHE_ENTRY_COUNT ->
  iocache_is_rx_available s = (Ret (rx_available (the_dev s) (row (info s))), s).
Proof.
  intros Hr. unfold iocache_is_rx_available, reg_read8. rewrite run_get, reg_off_8.
  by rewrite (run_bind _ _ _ _ _ (ioread_plain _ _ _ _
    (consumes_reg W8 (ROW (row (info s)) RX_AVAILABLE) Hr ltac:(done)))).
Qed.

Lemma ioctl_run cmd arg s r k :
  iocache_misc_ioctl os_pid (os_cpu cmd) cmd arg (kern s) = (Ret r, k) ->
  ioctl cmd arg s = (Ret (if r <? 0 then -1 else r), set_kern k s).
Proof.
  intros E. unfold ioctl, kernel_call, bind. by rewrite E.
Qed.

(** The utilisation report: the driver answers with three zeros, for which
    [print_util] has only "n/a" to say; before that the [printf] without arguments is
    reached, so that a call with a valid buffer is undefined. *)
Theorem print_proc_util_undefined ns s :
  mapped (mem (kern s)) ns 24 ->
  exists s', iocache_print_proc_util ns s = (Fault Uninitialised, s') /\
    copy_from_user (mem (kern s')) ns 24 = Some (repeat 0 24) /\ print_util 0 0 0 = None.
Proof.
  intros Hm. destruct (copy_to_user_ok (repeat 0 24) (mem (kern s)) ns Hm) as (m' & Ec & Hl & _).
  assert (iocache_misc_ioctl os_pid (os_cpu IOCACHE_IOCTL_GET_PROC_UTIL) IOCACHE_IOCTL_GET_PROC_UTIL ns (kern s)
    = (Ret 0, set_mem m' (kern s))) as E.
  { change (copy_out ns (repeat 0 24) (kern s) = (Ret 0, set_mem m' (kern s))).
    unfold copy_out. by rewrite run_get, Ec. }
  exists (set_kern (set_mem m' (kern s)) s). split; [|split; [exact Hl|done]].
  unfold iocache_print_proc_util. by rewrite (run_bind _ _ _ _ _ (ioctl_run _ _ _ _ _ E)).
Qed.

Lemma suspend_run s :
  iocache_set_rx_suspended s
  = (Ret tt, set_dev (io_write W8 IOCACHE (IOCACHE_REG_RX_SUSPENDED (row (info s))) 1 (the_dev s)) s).
Proof. unfold iocache_set_rx_suspended, reg_write8. by rewrite run_get, reg_off_8. Qed.

Lemma unsuspend_run s :
  iocache_clear_rx_suspended s
  = (Ret tt, set_dev (io_write W8 IOCACHE (IOCACHE_REG_RX_SUSPENDED (row (info s))) 0 (the_dev s)) s).
Proof. unfold iocache_clear_rx_suspended, reg_write8. by rewrite run_get, reg_off_8. Qed.

Lemma enable_rx_run s :
  iocache_enable_interrupts_rx s
  = (Ret tt, set_dev (io_write W8 IOCACHE (IOCACHE_REG_INTMASK_RX (cpu (info s))) 1 (the_dev s)) s).
Proof. unfold iocache_enable_interrupts_rx, reg_write8. by rewrite run_get, reg_off_8. Qed.

(** [iocache_wait_on_rx] returns at once when data is there; otherwise it
    sleeps and, however the device changed meanwhile, leaves the row not suspended
    and returns 0 exactly if data is available then, -1 after a timeout. *)
Theorem iocache_wait_on_rx_spec dozing s :
  0 <= row (info s) < IOCACHE_CACHE_ENTRY_COUNT ->
  let r := row (info s) in
  exists v s', iocache_wait_on_rx dozing s = (Ret v, s') /\
    if rx_available (the_dev s) r then v = 0 /\ s' = s
    else reg_val W8 IOCACHE (IOCACHE_REG_RX_SUSPENDED r) (the_dev s') = 0 /\
         v = (if rx_available (the_dev s') r then 0 else -1) /\
         exists d, rx_available (the_dev s') r = rx_available (dozing d) r.
Proof.
  intros Hr r. unfold iocache_wait_on_rx.
  rewrite (run_bind _ _ _ _ _ (is_rx_available_run s Hr)).
  fold r. destruct (rx_available (the_dev s) r); [by exists 0, s|].
  rewrite (run_bind _ _ _ _ _ (suspend_run _)), (run_bind _ _ _ _ _ (enable_rx_run _)).
  match goal with |- context [bind (ioctl _ _) _ ?x] =>
    rewrite (run_bind _ _ _ _ _ (ioctl_run IOCACHE_IOCTL_WAIT_READY 0 x 0 _ eq_refl)) end.
  change (if 0 <? 0 then -1 else 0) with 0. rewrite run_modify. cbn [Z.eqb].
  rewrite (run_bind _ _ _ _ _ (unsuspend_run _)).
  match goal with |- context [bind iocache_is_rx_available _ ?x] =>
    rewrite (run_bind _ _ _ _ _ (is_rx_available_run x Hr)) end.
  eexists _, _. split; [reflexivity|].
  match goal with |- context [set_dev (dozing ?d) ?x] =>
    set (d1 := d); set (s1 := x) end.
  change (row (info (set_dev (dozing d1) s1))) with r. rewrite !the_set_dev.
  split; [|split; [done|exists d1]].
  - apply (read_write_same W8); [by apply (storage_row W8 r RX_SUSPENDED)|].
    by apply (fits_row r RX_SUSPENDED).
  - unfold rx_available, reg_val. do 2 f_equal.
    apply read_write_other; [by apply (storage_row W8 r RX_AVAILABLE)|].
    by apply (row_regs_disjoint r RX_AVAILABLE r RX_SUSPENDED).
Qed.
End wait.

(** ** Opening the device *)

Section opening.
Context {D : Type} `{PlainMmio D} `{MiscKernel} `{Os}.
Variable frame : Z.
Implicit Types s : lib_state D.

(** The parts of the kernel's state a library call leaves alone. *)
Definition same_driver (k k' : misc_state D) : Prop :=
  ioc_phys (ioc k') = ioc_phys (ioc k) /\ ioc_size (ioc k') = ioc_size (ioc k) /\
  tx_rings (ioc k') = tx_rings (ioc k) /\ rx_rings (ioc k') = rx_rings (ioc k) /\
  ev_lock (ioc k') = ev_lock (ioc k) /\ ring_alloc_lock (ioc k') = ring_alloc_lock (ioc k) /\
  (mapped (mem k) frame 72 -> mapped (mem k') frame 72).

Lemma same_driver_trans k1 k2 k3 : same_driver k1 k2 -> same_driver k2 k3 -> same_driver k1 k3.
Proof. unfold same_driver. intros (?&?&?&?&?&?&?) (?&?&?&?&?&?&?). repeat split; try congruence; tauto. Qed.

Lemma poke_run l s :
  (length l <= 72)%nat -> mapped (mem (kern s)) frame 72 ->
  exists m', poke frame l s = (Ret tt, set_kern (set_mem m' (kern s)) s) /\
    copy_from_user m' frame (zlen l) = Some l /\ mapped m' frame 72.
Proof.
  intros Hl Hm.
  destruct (copy_to_user_ok l (mem (kern s)) frame) as (m' & E & Hload & _);
    [by eapply mapped_le|].
  exists m'. unfold poke, modify. rewrite E. split; [done|].
  unfold copy_from_user, zlen. rewrite Nat2Z.id. split; [done|].
  pose proof (copy_to_user_mapped l (mem (kern s)) frame frame 72 Hm) as Hm'. by rewrite E in Hm'.
Qed.

Lemma peek_run n l s :
  copy_from_user (mem (kern s)) frame n = Some l -> peek frame n s = (Ret l, s).
Proof. intros E. unfold peek. by rewrite run_get, E. Qed.

Lemma length_region_info_bytes i : length (ri_name i) = 32%nat -> length (region_info_bytes i) = 72%nat.
Proof.
  intros Hn. unfold region_info_bytes. cbn [map concat].
  by rewrite !length_app, !length_le_split, Hn.
Qed.

Lemma region_run s :
  mapped (mem (kern s)) frame 72 -> 0 <= ioc_size (ioc (kern s)) < 2 ^ 40 ->
  exists m', iocache_ioctl_region frame 0 s
    = (Ret (Some (0, ioc_size (ioc (kern s)))), set_kern (set_mem m' (kern s)) s) /\
    mapped m' frame 72.
Proof.
  intros Hm Hsz. unfold iocache_ioctl_region.
  set (q := mk_region_info sizeof_region_info 0 0 0 0 0 0 0 (repeat 0 32)).
  destruct (poke_run (region_info_bytes q) s) as (m1 & E1 & Hc1 & Hm1); [done|done|].
  rewrite (run_bind _ _ _ _ _ E1).
  set (a := mk_region_info sizeof_region_info 0 0 IOCACHE_REGION_TYPE_CTRL 1 0
              (ioc_size (ioc (kern s))) 0 (strlcpy (repeat 0 32) ioc_name_ctrl)).
  assert (length (region_info_bytes a) = 72%nat) as Hla by by apply length_region_info_bytes.
  destruct (copy_to_user_ok (region_info_bytes a) m1 frame) as (m2 & E2 & Hl2 & _);
    [by rewrite Hla|]. rewrite Hla in Hl2.
  exists m2. set (s1 := set_kern (set_mem m1 (kern s)) s).
  assert (iocache_misc_ioctl os_pid (os_cpu IOCACHE_IOCTL_GET_REGION_INFO) IOCACHE_IOCTL_GET_REGION_INFO frame (kern s1)
          = (Ret 0, set_mem m2 (kern s1))) as E.
  { change (ioctl_region_info frame (kern s1) = (Ret 0, set_mem m2 (kern s1))).
    unfold ioctl_region_info. rewrite run_get.
    change (mem (kern s1)) with m1. change sizeof_region_info with (zlen (region_info_bytes q)) at 1.
    rewrite Hc1. assert (region_info_of (region_info_bytes q) = q) as -> by done.
    change (iocache_region_info _ q) with (Some a).
    change (ri_argsz q <? sizeof_region_info) with false. cbv iota.
    unfold copy_out. rewrite run_get. change (mem (kern s1)) with m1. by rewrite E2. }
  rewrite (run_bind _ _ _ _ _ (ioctl_run _ _ s1 _ _ E)).
  change (if 0 <? 0 then -1 else 0) with 0. change (0 =? -1) with false. cbv iota.
  rewrite (run_bind _ _ _ _ _ (peek_run sizeof_region_info (region_info_bytes a)
    (set_kern (set_mem m2 (kern s1)) s1) Hl2)).
  assert (region_info_of (region_info_bytes a) = a) as ->.
  { apply region_info_of_bytes; [by apply (bool_decide_eq_true_1 _)| | |reflexivity].
    - change (ri_size a) with (ioc_size (ioc (kern s))). lia.
    - change (ri_offset a) with 0. lia. }
  split; [done|]. pose proof (copy_to_user_mapped (region_info_bytes a) m1 frame frame 72 Hm1) as Hm'.
  by rewrite E2 in Hm'.
Qed.

(** Exchanging the event context touches nothing but that context. *)
Lemma swap_run (k : misc_state D) c :
  ev_lock (ioc k) = false -> exists k', swap_ev_ctx c k = (Ret tt, k') /\
    same_driver k k' /\ mem k' = mem k /\ ioc_dev (ioc k') = ioc_dev (ioc k) /\ tasks k' = tasks k.
Proof.
  intros El. unfold swap_ev_ctx, spin_lock_ev.
  unfold bind at 1 2. unfold get at 1. rewrite El.
  destruct (ev_ctx (ioc k)) as [old|] eqn:Eo; unfold bind, update_ioc, modify, get, do_call;
    cbn; rewrite Eo; eexists; (split; [reflexivity|]); by repeat split.
Qed.

(** Passing a descriptor (or -1) to the driver. *)
Lemma set_eventfd_run f s :
  i32 (le_combine (le_split 4 f)) = f ->
  (f = -1 \/ exists c, eventfd_ctx_fdget f = inr c) ->
  mapped (mem (kern s)) frame 72 -> ev_lock (ioc (kern s)) = false ->
  exists k', (poke frame (le_split 4 f);; ioctl IOCACHE_IOCTL_SET_EVENTFD frame) s
    = (Ret 0, set_kern k' s) /\ same_driver (kern s) k' /\
    ioc_dev (ioc k') = ioc_dev (ioc (kern s)) /\ tasks k' = tasks (kern s).
Proof.
  intros Hf Hc Hm Hl.
  destruct (poke_run (le_split 4 f) s) as (m1 & E1 & Hc1 & Hm1); [simpl; lia|done|].
  rewrite (run_bind _ _ _ _ _ E1). set (s1 := set_kern (set_mem m1 (kern s)) s).
  assert (exists c, ioctl_set_eventfd frame (kern s1) = (swap_ev_ctx c;; mret 0) (kern s1)) as [c Ec].
  { unfold ioctl_set_eventfd. rewrite run_get. change (mem (kern s1)) with m1.
    change (copy_from_user m1 frame 4) with (copy_from_user m1 frame (zlen (le_split 4 f))).
    rewrite Hc1, Hf. destruct Hc as [->|[c Hc]]; [by exists None|].
    destruct (Z.eqb_spec f (-1)); [by exists None|]. rewrite Hc. by exists (Some c). }
  destruct (swap_run (kern s1) c Hl) as (k' & Ek & Sd & Em & Ed & Et).
  exists k'. split.
  - assert (iocache_misc_ioctl os_pid (os_cpu IOCACHE_IOCTL_SET_EVENTFD) IOCACHE_IOCTL_SET_EVENTFD frame (kern s1)
            = (Ret 0, k')) as E.
    { change (ioctl_set_eventfd frame (kern s1) = (Ret 0, k')).
      by rewrite Ec, (run_bind _ _ _ _ _ Ek). }
    rewrite (ioctl_run _ _ s1 _ _ E). done.
  - split; [|by split]. change (ioc (kern s1)) with (ioc (kern s)) in *.
    destruct Sd as (?&?&?&?&?&?&_). do 6 (split; [done|]). intros _. by rewrite Em.
Qed.

(** Reserving the row. *)
Lemma lib_reserve_run r s :
  0 <= r < IOCACHE_CACHE_ENTRY_COUNT ->
  mapped (mem (kern s)) frame 72 -> ring_alloc_lock (ioc (kern s)) = false ->
  exists k', iocache_reserve_ring frame r s
    = (Ret 0, set_info (with_row r (info s)) (set_kern k' s)) /\ same_driver (kern s) k' /\
    iocache_id (tasks k' os_pid) = r /\
    ioc_dev (ioc k') = do_writes (owner_writes r 1 (os_cpu IOCACHE_IOCTL_RESERVE_RING) os_pid)
                               (ioc_dev (ioc (kern s))).
Proof.
  intros Hr Hm Hl. unfold IOCACHE_CACHE_ENTRY_COUNT in Hr. unfold iocache_reserve_ring.
  destruct (poke_run (le_split 4 r) s) as (m1 & E1 & Hc1 & Hm1); [simpl; lia|done|].
  rewrite (run_bind _ _ _ _ _ E1). set (s1 := set_kern (set_mem m1 (kern s)) s).
  assert (r = i32 (le_combine (le_split 4 r))) as Er
    by (rewrite le_combine_split_small by lia; rewrite i_small; lia).
  destruct (reserve_run os_pid (os_cpu IOCACHE_IOCTL_RESERVE_RING) frame (le_split 4 r) r (kern s1) Er Hl
    ltac:(eapply mapped_le; [|exact Hm1]; lia) Hc1) as (k' & Ek & Ed & Et & Em & El & Esd).
  rewrite (run_bind _ _ _ _ _ (ioctl_run IOCACHE_IOCTL_RESERVE_RING frame s1 0 k' Ek)).
  change (if 0 <? 0 then -1 else 0) with 0. change (0 =? -1) with false. cbv iota.
  rewrite (run_bind _ _ _ _ _ (peek_run 4 (le_split 4 r) (set_kern k' s1) Em)).
  rewrite run_modify, <- Er. exists k'. split; [done|]. split; [|by rewrite Et].
  destruct Esd as (? & ? & ? & ? & ? & Hmap). 
  change (ioc (kern s1)) with (ioc (kern s)) in *. unfold same_driver.
  repeat (split; [congruence|]). intros _. by apply Hmap.
Qed.

(** Mapping a region of the driver. *)
Lemma mmap_run n index r s :
  0 <= index < 2 ^ 24 ->
  iocache_misc_mmap (ioc (kern s)) (mmap_request index 0 (os_mmap_addr index) (page_align n)) = r ->
  (forall e, r <> MmapErr e) ->
  mmap n index s = (Ret (os_mmap_addr index), set_maps ((os_mmap_addr index, r) :: maps s) s).
Proof.
  intros Hi E Hne. unfold mmap. rewrite run_get.
  assert (MAP_INDEX index = Z.shiftl index 40 + 0) as ->.
  { unfold MAP_INDEX. rewrite Z.add_0_r. apply u_small. rewrite Z.shiftl_mul_pow2 by lia. lia. }
  unfold mmap_request in E. rewrite E. destruct r; [by destruct (Hne e)|done|done].
Qed.

(** What the library relies on when it opens the device for row [r]. *)
Record openable (r : Z) s : Prop := {
  op_row : 0 <= r < IOCACHE_CACHE_ENTRY_COUNT;
  op_fd : 0 <= os_open;
  op_magic : ioc_magic (ioc (kern s)) = MAGIC_CHAR;
  op_cpu : 0 <= os_getcpu < NUM_CPUS /\ 0 <= os_cpu IOCACHE_IOCTL_RESERVE_RING < NUM_CPUS;
  op_pid : 0 <= os_pid < 2 ^ 64;
  op_efd : 0 <= os_eventfd < 2 ^ 31 /\ exists c, eventfd_ctx_fdget os_eventfd = inr c;
  op_addr i : 0 <= os_mmap_addr i < 2 ^ 62;
  op_frame : mapped (mem (kern s)) frame 72;
  op_locks : ev_lock (ioc (kern s)) = false /\ ring_alloc_lock (ioc (kern s)) = false;
  op_window : 0 <= ioc_phys (ioc (kern s)) < 2 ^ 63 /\
    0 <= ioc_size (ioc (kern s)) < 2 ^ 40 /\ ioc_size (ioc (kern s)) mod 4096 = 0;
  op_rings i : (i < 64)%nat ->
    len (nth i (tx_rings (ioc (kern s))) no_ring) = IOCACHE_UDP_RING_SIZE /\
    len (nth i (rx_rings (ioc (kern s))) no_ring) = IOCACHE_UDP_RING_SIZE
}.

(** The two ring mappings of row [r]. *)
Lemma ring_maps_run r s :
  openable r s ->
  let t := nth (Z.to_nat r) (tx_rings (ioc (kern s))) no_ring in
  let q := nth (Z.to_nat r) (rx_rings (ioc (kern s))) no_ring in
  forall s', same_driver (kern s) (kern s') ->
  mmap (8 * 1024 + 63) (2 * r + 1) s'
    = (Ret (os_mmap_addr (2 * r + 1)),
       set_maps ((os_mmap_addr (2 * r + 1), MmapDma (cpu_addr t) (dma_addr t) 12288) :: maps s') s') /\
  mmap (8 * 1024 + 63) (2 * r + 2) s'
    = (Ret (os_mmap_addr (2 * r + 2)),
       set_maps ((os_mmap_addr (2 * r + 2), MmapDma (cpu_addr q) (dma_addr q) 12288) :: maps s') s').
Proof.
  intros [Hr _ _ _ _ _ Ha _ _ _ Hrings] t q s' (_ & _ & Et & Er & _).
  unfold IOCACHE_CACHE_ENTRY_COUNT in Hr.
  split; (apply mmap_run; [lia| |done]); change (page_align (8 * 1024 + 63)) with 12288;
    match goal with |- iocache_misc_mmap _ (mmap_request ?i _ _ _) = _ => pose proof (Ha i) end;
    (rewrite mmap_ring_run; [|lia|lia|lia|lia|rewrite Et, Er; exact Hrings|lia]);
    unfold IOCACHE_CACHE_ENTRY_COUNT; rewrite (proj2 (Z.leb_le _ _)) by lia;
    change (12288 <=? IOCACHE_UDP_RING_SIZE) with true; cbn [andb]; cbv zeta; rewrite Et, Er.
  - replace ((2 * r + 1 - 1) / 2) with r by zdm.
    replace (Z.even (2 * r + 1)) with false by (rewrite Z.even_add, Z.even_mul; done). done.
  - replace ((2 * r + 2 - 1) / 2) with r by zdm.
    replace (Z.even (2 * r + 2)) with true by (rewrite Z.even_add, Z.even_mul; done). done.
Qed.

(** Unmasking the interrupt does not touch the rows. *)
Lemma owner_of_enable r c (d : D) :
  0 <= r < IOCACHE_CACHE_ENTRY_COUNT -> 0 <= c < NUM_CPUS ->
  row_owner d r = row_owner (io_write W8 IOCACHE (IOCACHE_REG_INTMASK_RX c) 1 d) r.
Proof.
  intros Hr Hc. unfold row_owner, reg_val.
  assert (forall w f, f <> FLAGS_RO -> (io_read w IOCACHE (IOCACHE_REG r (field_off f))
      (io_write W8 IOCACHE (IOCACHE_REG_INTMASK_RX c) 1 d)).1
    = (io_read w IOCACHE (IOCACHE_REG r (field_off f)) d).1) as Hg.
  { intros w f Hf. apply read_write_other; [by apply storage_row|]. right.
    pose proof (reg_addr_beat (ROW r f) Hr) as E1. pose proof (reg_addr_beat (INTMASK_RX c) Hc) as E2.
    pose proof (field_beat_range f). simpl in E1, E2. rewrite E1, E2.
    unfold NUM_CPUS in Hc. destruct w; simpl; lia. }
  symmetry. f_equal; [f_equal|].
  - by apply (Hg W8 ENABLED).
  - by apply (Hg W32 PROC_CPU).
  - by apply (Hg W64 PROC_PTR).
Qed.

Lemma ctrl_map r s s' :
  openable r s -> same_driver (kern s) (kern s') ->
  iocache_misc_mmap (ioc (kern s'))
    (mmap_request 0 0 (os_mmap_addr 0) (page_align (ioc_size (ioc (kern s)))))
  = MmapIo (os_mmap_addr 0) (ioc_phys (ioc (kern s)) / 4096) (ioc_size (ioc (kern s))).
Proof.
  intros [_ _ _ _ _ _ Ha _ _ (Hp & Hs & Hal) _] (Ep & Es & _).
  pose proof (Ha 0). rewrite page_align_exact by done.
  rewrite mmap_ctrl_run; rewrite ?Ep, ?Es; (lia || done).
Qed.

Lemma open_device_run s :
  0 <= os_open -> ioc_magic (ioc (kern s)) = MAGIC_CHAR ->
  open_device s = (Ret os_open, set_fds (os_open :: fds s) s).
Proof.
  intros Hf Hm. unfold open_device. rewrite (proj2 (Z.ltb_ge os_open 0)) by done.
  unfold kernel_call, iocache_misc_open, bind at 1, bind at 1, get. rewrite Hm. by destruct s.
Qed.

(** The state after opening. *)
Record opened (r : Z) s s' : Prop := {
  od_row : row (info s') = r;
  od_cpu : cpu (info s') = os_getcpu;
  od_size : regs_size (info s') = ioc_size (ioc (kern s));
  od_rings : udp_tx_size (info s') = 8 * 1024 /\ udp_rx_size (info s') = 8 * 1024;
  od_regs : regs (info s') = os_mmap_addr 0;
  od_tx : udp_tx_buffer (info s') = os_mmap_addr (2 * r + 1);
  od_rx : udp_rx_buffer (info s') = os_mmap_addr (2 * r + 2);
  od_desc : fd (info s') = os_open /\ efd (info s') = os_eventfd /\ ep (info s') = os_epoll;
  od_fds : fds s' = os_epoll :: os_eventfd :: os_open :: fds s;
  od_driver : same_driver (kern s) (kern s');
  od_task : iocache_id (tasks (kern s') os_pid) = r;
  od_owner : row_owner (the_dev s') r = (1, os_cpu IOCACHE_IOCTL_RESERVE_RING, os_pid);
  od_maps : maps s' =
    let t := nth (Z.to_nat r) (tx_rings (ioc (kern s))) no_ring in
    let q := nth (Z.to_nat r) (rx_rings (ioc (kern s))) no_ring in
    (udp_rx_buffer (info s'), MmapDma (cpu_addr q) (dma_addr q) 12288)
    :: (udp_tx_buffer (info s'), MmapDma (cpu_addr t) (dma_addr t) 12288)
    :: (regs (info s'), MmapIo (regs (info s')) (ioc_phys (ioc (kern s)) / 4096)
                               (regs_size (info s'))) :: maps s
}.

(** The handle before the mappings are made. *)
Definition handle_ready (r : Z) s (i : iocache_info) : Prop :=
  row i = r /\ cpu i = os_getcpu /\ regs_size i = ioc_size (ioc (kern s)) /\
  udp_tx_size i = 8 * 1024 /\ udp_rx_size i = 8 * 1024 /\
  fd i = os_open /\ efd i = os_eventfd /\ ep i = os_epoll.

Lemma map_all r s x :
  openable r s -> same_driver (kern s) (kern x) ->
  row_owner (ioc_dev (ioc (kern x))) r = (1, os_cpu IOCACHE_IOCTL_RESERVE_RING, os_pid) ->
  iocache_id (tasks (kern x) os_pid) = r ->
  maps x = maps s -> fds x = os_epoll :: os_eventfd :: os_open :: fds s ->
  handle_ready r s (info x) ->
  exists s', iocache_open_map x = (Ret 0, s') /\ opened r s s'.
Proof.
  intros O Sx Hown Hid Em Efd (Er & Ec & Esz & Et & Eq & Ef & Ee & Ep).
  pose proof O as [Hr _ _ [Hcpu _] _ _ Haddr _ _ _ _].
  pose proof (Haddr 0). pose proof (Haddr (2 * r + 1)). pose proof (Haddr (2 * r + 2)).
  assert (forall i, 0 <= os_mmap_addr i -> (os_mmap_addr i =? -1) = false) as Hne
    by (intros i Hi; apply Z.eqb_neq; lia).
  unfold iocache_open_map. rewrite run_get, Er, Esz, Et, Eq.
  rewrite (run_bind _ _ _ _ _ (mmap_run _ 0 _ x ltac:(lia) (ctrl_map r s x O Sx) ltac:(done))).
  unfold update_info. rewrite run_modify, Hne by lia.
  match goal with |- context [bind (mmap _ (2 * r + 1)) _ ?y] =>
    rewrite (run_bind _ _ _ _ _ (proj1 (ring_maps_run r s O y Sx))) end.
  rewrite run_modify, Hne by lia.
  match goal with |- context [bind (mmap _ (2 * r + 2)) _ ?y] =>
    rewrite (run_bind _ _ _ _ _ (proj2 (ring_maps_run r s O y Sx))) end.
  rewrite run_modify, Hne by lia. rewrite (run_bind _ _ _ _ _ (enable_rx_run _)).
  eexists. split; [reflexivity|]. destruct x as [kx ix mx fx]. cbn in *. subst.
  split; cbn; try done.
  - rewrite <- Hown. symmetry. apply owner_of_enable; [done|by rewrite Ec].
  - by rewrite Esz.
Qed.

(** Compute the handle and the state after an update, nothing else. *)
Ltac state_cbn :=
  cbn [set_info set_kern set_fds set_maps info kern maps fds with_row fd regs_offset regs_size
       row cpu regs udp_tx_buffer udp_rx_buffer udp_tx_buffer_aligned udp_rx_buffer_aligned
       udp_tx_size udp_rx_size efd ep].

Lemma open_run r s :
  openable r s -> exists s', iocache_open frame r s = (Ret 0, s') /\ opened r s s'.
Proof.
  intros O. pose proof O as [Hr Hfd Hmg [_ Hcpu] Hpid (Hefd & Hctx) Haddr Hfr [Hl1 Hl2] (Hph & Hsz & Hal) _].
  destruct s as [k0 [? ? ? ? ? ? ? ? ? ? ? ? ? ?] m0 f0].
  unfold iocache_open, update_info. rewrite run_modify.
  match goal with |- context [bind open_device _ ?x] =>
    rewrite (run_bind _ _ _ _ _ (open_device_run x Hfd Hmg)) end.
  rewrite (proj2 (Z.ltb_ge os_open 0)) by done. rewrite !run_modify. state_cbn.
  match goal with |- context [bind (iocache_ioctl_region frame 0) _ ?x] =>
    destruct (region_run x Hfr Hsz) as (m1 & E1 & Hm1) end.
  rewrite (run_bind _ _ _ _ _ E1). clear E1. cbv iota beta. rewrite !run_modify. state_cbn.
  rewrite <- (bind_assoc (poke frame (le_split 4 os_eventfd))
                         (λ _, ioctl IOCACHE_IOCTL_SET_EVENTFD frame)).
  assert (i32 (le_combine (le_split 4 os_eventfd)) = os_eventfd) as Hle
    by (rewrite le_combine_split_small by lia; apply i_small; lia).
  match goal with |- context [bind (bind (poke _ _) _) _ ?x] =>
    destruct (set_eventfd_run os_eventfd x Hle (or_intror Hctx) Hm1 Hl1) as (k2 & E2 & Sd2 & Ed2 & _) end.
  rewrite (run_bind _ _ _ _ _ E2). clear E2. change (0 =? -1) with false. cbv iota. state_cbn.
  assert (same_driver k0 k2) as Sd.
  { destruct Sd2 as (?&?&?&?&?&?& Hmap). do 6 (split; [done|]). intros _. by apply Hmap. }
  match goal with |- context [bind (iocache_reserve_ring frame r) _ ?x] =>
    destruct (lib_reserve_run r x Hr) as (k3 & E3 & Sd3 & Et3 & Ed3);
      [by apply Sd2|destruct Sd as (_&_&_&_&_& El &_); etrans; [exact El|exact Hl2]|] end.
  rewrite (run_bind _ _ _ _ _ E3). clear E3. rewrite !run_modify. state_cbn.
  pose proof (same_driver_trans _ _ _ Sd Sd3) as Sd'.
  assert (row_owner (ioc_dev (ioc k3)) r = (1, os_cpu IOCACHE_IOCTL_RESERVE_RING, os_pid)) as Hown.
  { assert (ioc_dev (ioc k3) = do_writes (owner_writes r 1 (os_cpu IOCACHE_IOCTL_RESERVE_RING) os_pid)
                                   (ioc_dev (ioc k2))) as -> by exact Ed3.
    rewrite owner_written by done. unfold NUM_CPUS in Hcpu. by rewrite !u_small by (pow2; lia). }
  match goal with |- context [iocache_open_map ?x] => apply (map_all r _ x O) end;
    [exact Sd'|exact Hown|exact Et3|reflexivity|reflexivity|].
  unfold handle_ready. by repeat split.
Qed.

(** C8: Opening the device for row [r] composes library, driver and device: it
    returns 0; the row is [r], enabled and owned by the caller on the CPU that
    reserved it, which the scheduler may have changed since the handle's was read; the
    process has the control window and exactly the two DMA rings of that row
    mapped, at the addresses stored in the handle. *)
Theorem iocache_open_spec r s :
  openable r s ->
  exists s', iocache_open frame r s = (Ret 0, s') /\
    row (info s') = r /\ cpu (info s') = os_getcpu /\
    regs_size (info s') = ioc_size (ioc (kern s)) /\
    row_owner (the_dev s') r = (1, os_cpu IOCACHE_IOCTL_RESERVE_RING, os_pid) /\
    let t := nth (Z.to_nat r) (tx_rings (ioc (kern s))) no_ring in
    let q := nth (Z.to_nat r) (rx_rings (ioc (kern s))) no_ring in
    maps s' = (udp_rx_buffer (info s'), MmapDma (cpu_addr q) (dma_addr q) 12288)
           :: (udp_tx_buffer (info s'), MmapDma (cpu_addr t) (dma_addr t) 12288)
           :: (regs (info s'), MmapIo (regs (info s')) (ioc_phys (ioc (kern s)) / 4096)
                                      (regs_size (info s'))) :: maps s.
Proof.
  intros O. destruct (open_run r s O) as (s' & E & [Er Ec Es _ _ _ _ _ _ _ _ Eo Em]).
  exists s'. split; [exact E|]. split; [exact Er|]. split; [exact Ec|]. split; [exact Es|].
  split; [exact Eo|exact Em].
Qed.

(** Closing: the row's registers it writes, in order. *)
Definition closing_fields : list (width * row_field * Z) :=
  [(W8, RX_SUSPENDED, 0); (W8, PROTOCOL, 0); (W32, SRC_IP, 0); (W16, SRC_PORT, 0);
   (W32, DST_IP, 0); (W16, DST_PORT, 0); (W8, ENABLED, 0); (W32, PROC_CPU, 0); (W64, PROC_PTR, 0)].

(** The row of a connection that was closed. *)
Lemma closed_row r (d : D) :
  0 <= r < IOCACHE_CACHE_ENTRY_COUNT ->
  let d' := do_writes (map (row_write r) closing_fields) d in
  row_owner d' r = (0, 0, 0) /\ row_connection d' r = (0, 0, 0, 0, 0) /\
  reg_val W8 IOCACHE (IOCACHE_REG_RX_SUSPENDED r) d' = 0.
Proof.
  intros Hr d'.
  assert (forall w f l1 l2, closing_fields = l1 ++ (w, f, 0) :: l2 ->
    Forall (λ x, x.1.2 <> f) l2 ->
    reg_val w IOCACHE (IOCACHE_REG r (field_off f)) d' = 0) as Hv.
  { intros w f l1 l2 E Hl. unfold d'. rewrite E, row_written; [by destruct w|done| |done].
    intros ->. by apply (no_flags_written closing_fields w 0 l1 l2). }
  split; [|split].
  - unfold row_owner. repeat f_equal.
    + by eapply (Hv W8 ENABLED [_;_;_;_;_;_]); [reflexivity|forall_list].
    + by eapply (Hv W32 PROC_CPU [_;_;_;_;_;_;_]); [reflexivity|forall_list].
    + by eapply (Hv W64 PROC_PTR [_;_;_;_;_;_;_;_]); [reflexivity|forall_list].
  - unfold row_connection. repeat f_equal.
    + by eapply (Hv W8 PROTOCOL [_]); [reflexivity|forall_list].
    + by eapply (Hv W32 SRC_IP [_;_]); [reflexivity|forall_list].
    + by eapply (Hv W16 SRC_PORT [_;_;_]); [reflexivity|forall_list].
    + by eapply (Hv W32 DST_IP [_;_;_;_]); [reflexivity|forall_list].
    + by eapply (Hv W16 DST_PORT [_;_;_;_;_]); [reflexivity|forall_list].
  - by eapply (Hv W8 RX_SUSPENDED []); [reflexivity|forall_list].
Qed.

Lemma clear_connection_run s :
  0 <= row (info s) < IOCACHE_CACHE_ENTRY_COUNT ->
  (iocache_clear_rx_suspended;; iocache_clear_connection) s
  = (Ret tt, set_dev (do_writes (map (row_write (row (info s))) (take 6 closing_fields))
                                (the_dev s)) s).
Proof.
  intros Hr. rewrite (run_bind _ _ _ _ _ (unsuspend_run s)).
  unfold iocache_clear_connection, reg_write8, reg_write16, reg_write32. rewrite run_get.
  match goal with |- context [row (info ?x)] => change (row (info x)) with (row (info s)) end.
  change (IOCACHE_REG_PROTOCOL ?x) with (IOCACHE_REG x (field_off PROTOCOL)).
  change (IOCACHE_REG_SRC_IP ?x) with (IOCACHE_REG x (field_off SRC_IP)).
  change (IOCACHE_REG_SRC_PORT ?x) with (IOCACHE_REG x (field_off SRC_PORT)).
  change (IOCACHE_REG_DST_IP ?x) with (IOCACHE_REG x (field_off DST_IP)).
  change (IOCACHE_REG_DST_PORT ?x) with (IOCACHE_REG x (field_off DST_PORT)).
  rewrite !reg_off_row by done.
  by destruct s as [[[]]].
Qed.

Lemma lib_free_run r s :
  ring_alloc_lock (ioc (kern s)) = false -> iocache_id (tasks (kern s) os_pid) = r ->
  exists k', iocache_free_ring s = (Ret 0, set_kern k' s) /\
    ioc_dev (ioc k') = do_writes (owner_writes r 0 0 0) (the_dev s).
Proof.
  intros Hl Hid. pose proof (free_run os_pid (kern s) r Hid Hl) as E.
  match type of E with _ = (_, ?x) => set (k' := x) in E end.
  exists k'. split; [|done]. unfold iocache_free_ring.
  assert (iocache_misc_ioctl os_pid (os_cpu IOCACHE_IOCTL_FREE_RING) IOCACHE_IOCTL_FREE_RING 0 (kern s)
          = (Ret 0, k')) as E' by exact E.
  by rewrite (run_bind _ _ _ _ _ (ioctl_run _ _ _ _ _ E')).
Qed.

Lemma close_run r s :
  row (info s) = r -> 0 <= r < IOCACHE_CACHE_ENTRY_COUNT ->
  mapped (mem (kern s)) frame 72 ->
  ev_lock (ioc (kern s)) = false -> ring_alloc_lock (ioc (kern s)) = false ->
  iocache_id (tasks (kern s) os_pid) = r ->
  exists s', iocache_close frame s = (Ret 0, s') /\
    the_dev s' = do_writes (map (row_write r) closing_fields) (the_dev s) /\
    maps s' = unmap (udp_tx_buffer (info s)) (udp_tx_size (info s))
                (unmap (udp_rx_buffer (info s)) (udp_rx_size (info s))
                   (unmap (regs (info s)) (regs_size (info s)) (maps s))) /\
    fds s' = filter (λ g, g <> fd (info s)) (filter (λ g, g <> efd (info s))
               (filter (λ g, g <> ep (info s)) (fds s))).
Proof.
  intros Hrow Hr Hm Hl1 Hl2 Hid. unfold iocache_close.
  rewrite <- (bind_assoc (poke frame (le_split 4 (-1)))
                         (λ _, ioctl IOCACHE_IOCTL_SET_EVENTFD frame)).
  destruct (set_eventfd_run (-1) s eq_refl (or_introl eq_refl) Hm Hl1) as (k1 & E1 & Sd1 & Ed1 & Et1).
  rewrite (run_bind _ _ _ _ _ E1). clear E1. set (s1 := set_kern k1 s).
  rewrite <- (bind_assoc iocache_clear_rx_suspended (λ _, iocache_clear_connection)).
  assert (0 <= row (info s1) < IOCACHE_CACHE_ENTRY_COUNT) as Hr1 by (cbn; by rewrite Hrow).
  rewrite (run_bind _ _ _ _ _ (clear_connection_run s1 Hr1)), run_get.
  unfold munmap. rewrite !run_modify.
  change (row (info s1)) with (row (info s)). rewrite Hrow.
  destruct Sd1 as (_&_&_&_&_& El1 &_).
  match goal with |- context [bind iocache_free_ring _ ?x] => set (s2 := x);
    assert (ring_alloc_lock (ioc (kern s2)) = false) as Hl3 by (etrans; [exact El1|exact Hl2]);
    assert (iocache_id (tasks (kern s2) os_pid) = r) as Hid2
      by (change (iocache_id (tasks k1 os_pid) = r); by rewrite Et1) end.
  destruct (lib_free_run r s2 Hl3 Hid2) as (k2 & E2 & Ed2).
  rewrite (run_bind _ _ _ _ _ E2). unfold close. rewrite !run_modify.
  eexists. split; [reflexivity|]. split; [|by split].
  change (ioc_dev (ioc k2) = do_writes (map (row_write r) closing_fields) (the_dev s)).
  rewrite Ed2. change (the_dev s2) with
    (do_writes (map (row_write r) (take 6 closing_fields)) (ioc_dev (ioc k1))). by rewrite Ed1.
Qed.

(** The kernel hands out unused descriptors and unused address ranges. *)
Record fresh_ids (r : Z) s : Prop := {
  fr_fds : NoDup [os_epoll; os_eventfd; os_open] /\
    Forall (λ f, f ∉ fds s) [os_epoll; os_eventfd; os_open];
  fr_pos : 0 < ioc_size (ioc (kern s));
  fr_old : Forall (λ x, apart (os_mmap_addr 0) (ioc_size (ioc (kern s))) x /\
                        apart (os_mmap_addr (2 * r + 1)) 12288 x /\
                        apart (os_mmap_addr (2 * r + 2)) 12288 x) (maps s);
  fr_regs i : i = 1 \/ i = 2 ->
    os_mmap_addr (2 * r + i) + 12288 <= os_mmap_addr 0 \/
    os_mmap_addr 0 + ioc_size (ioc (kern s)) <= os_mmap_addr (2 * r + i);
  fr_rings : os_mmap_addr (2 * r + 1) + 12288 <= os_mmap_addr (2 * r + 2) \/
    os_mmap_addr (2 * r + 2) + 12288 <= os_mmap_addr (2 * r + 1)
}.

(** What is left mapped: the third page of each ring. *)
Definition leaked_page (a : Z) (g : dma_ring) : Z * mmap_result :=
  (a + 8192, MmapDma (cpu_addr g + 8192) (dma_addr g + 8192) 4096).

Lemma close_maps r s t q :
  fresh_ids r s -> ioc_size (ioc (kern s)) mod 4096 = 0 ->
  unmap (os_mmap_addr (2 * r + 1)) 8192 (unmap (os_mmap_addr (2 * r + 2)) 8192
    (unmap (os_mmap_addr 0) (ioc_size (ioc (kern s)))
      ((os_mmap_addr (2 * r + 2), MmapDma (cpu_addr q) (dma_addr q) 12288)
       :: (os_mmap_addr (2 * r + 1), MmapDma (cpu_addr t) (dma_addr t) 12288)
       :: (os_mmap_addr 0, MmapIo (os_mmap_addr 0) (ioc_phys (ioc (kern s)) / 4096)
                                  (ioc_size (ioc (kern s)))) :: maps s)))
  = leaked_page (os_mmap_addr (2 * r + 2)) q :: leaked_page (os_mmap_addr (2 * r + 1)) t :: maps s.
Proof.
  intros [_ Hpos Hold Hregs Hrings] Hal.
  pose proof (Hregs 1 (or_introl eq_refl)) as H1r. pose proof (Hregs 2 (or_intror eq_refl)) as H2r.
  assert (forall a n, n mod 4096 = 0 -> Forall (apart a n) (maps s) -> unmap a n (maps s) = maps s) as Hms.
  { intros a n Hn HF. apply unmap_apart. by rewrite page_align_exact. }
  rewrite !unmap_cons, !(page_align_exact _ Hal).
  rewrite (cut_apart (os_mmap_addr 0)) by (unfold apart; cbn; lia).
  rewrite (cut_apart (os_mmap_addr 0)) by (unfold apart; cbn; lia).
  rewrite (cut_whole (os_mmap_addr 0)) by (cbn; lia).
  rewrite (Hms (os_mmap_addr 0)) by (done || (eapply Forall_impl; [|exact Hold]; by intros x [? _])).
  cbn [app]. rewrite !unmap_cons. change (page_align 8192) with 8192.
  rewrite (cut_front (os_mmap_addr (2 * r + 2))) by (cbn; lia).
  rewrite (cut_apart (os_mmap_addr (2 * r + 2))) by (unfold apart; cbn; lia).
  rewrite (Hms (os_mmap_addr (2 * r + 2))) by
    (done || (eapply Forall_impl; [|exact Hold]; unfold apart; intros x (_ & _ & ?); lia)).
  cbn [app]. rewrite !unmap_cons. change (page_align 8192) with 8192.
  rewrite (cut_apart (os_mmap_addr (2 * r + 1))) by (unfold apart; cbn; lia).
  rewrite (cut_front (os_mmap_addr (2 * r + 1))) by (cbn; lia).
  by rewrite (Hms (os_mmap_addr (2 * r + 1))) by
    (done || (eapply Forall_impl; [|exact Hold]; unfold apart; intros x (_ & ? & _); lia)).
Qed.

Lemma filter_fresh (f : Z) (l : list Z) : f ∉ l -> filter (λ g, g <> f) l = l.
Proof.
  induction l as [|g l IH]; [done|]. rewrite not_elem_of_cons. intros [Hne Hl].
  rewrite filter_cons_True by done. by rewrite IH.
Qed.

Lemma close_fds r s :
  fresh_ids r s ->
  filter (λ g, g <> os_open) (filter (λ g, g <> os_eventfd) (filter (λ g, g <> os_epoll)
    (os_epoll :: os_eventfd :: os_open :: fds s))) = fds s.
Proof.
  intros [[Hnd Hf] _ _ _ _]. rewrite !list.NoDup_cons in Hnd. rewrite !list.Forall_cons in Hf.
  destruct Hnd as (H1n & H2n & _), Hf as (H1f & H2f & H3f & _).
  rewrite !not_elem_of_cons in H1n. rewrite !not_elem_of_cons in H2n.
  rewrite filter_cons_False by tauto. rewrite (filter_fresh os_epoll)
    by (rewrite !not_elem_of_cons; intuition congruence).
  rewrite filter_cons_False by tauto. rewrite (filter_fresh os_eventfd)
    by (rewrite not_elem_of_cons; intuition congruence).
  rewrite filter_cons_False by tauto. by apply filter_fresh.
Qed.

(** Opening and closing the device is balanced up to one page per ring: both
    calls return 0; afterwards the row is disabled, ownerless, not suspended and
    without connection, every descriptor is closed, the register window is
    unmapped, but of each ring, mapped with 8 KiB + 63 bytes and unmapped with
    8 KiB, the third page stays mapped. *)
Theorem iocache_open_close r s :
  openable r s -> fresh_ids r s ->
  exists s1 s2, iocache_open frame r s = (Ret 0, s1) /\ iocache_close frame s1 = (Ret 0, s2) /\
    row_owner (the_dev s2) r = (0, 0, 0) /\
    row_connection (the_dev s2) r = (0, 0, 0, 0, 0) /\
    reg_val W8 IOCACHE (IOCACHE_REG_RX_SUSPENDED r) (the_dev s2) = 0 /\
    fds s2 = fds s /\
    maps s2 = leaked_page (udp_rx_buffer (info s1)) (nth (Z.to_nat r) (rx_rings (ioc (kern s))) no_ring)
           :: leaked_page (udp_tx_buffer (info s1)) (nth (Z.to_nat r) (tx_rings (ioc (kern s))) no_ring)
           :: maps s.
Proof.
  intros O Fr. destruct (open_run r s O) as (s1 & E1 & Od).
  destruct Od as [Er _ Es [Et Eq] Ea Etx Erx (Ef & Ee & Ep) Efd Sd Hid _ Em].
  pose proof O as [Hr _ _ _ _ _ _ Hfr [Hl1 Hl2] (_ & _ & Hal) _].
  destruct Sd as (_ & _ & _ & _ & El1 & El2 & Hmap).
  destruct (close_run r s1 Er Hr) as (s2 & E2 & Ed & Em2 & Ef2);
    [by apply Hmap|congruence|congruence|done|].
  exists s1, s2. split; [exact E1|]. split; [exact E2|]. rewrite Ed.
  destruct (closed_row r (the_dev s1) Hr) as (Ho & Hc & Hsu).
  do 3 (split; [done|]). split.
  - by rewrite Ef2, Ef, Ee, Ep, Efd, (close_fds r s Fr).
  - rewrite Em2, Em, Et, Eq, Ea, Etx, Erx, Es. by apply close_maps.
Qed.

End opening.

(** ** Examples *)

Module SimLib.
Definition sim_os : Os := {|
  os_open := 3; os_getcpu := 1; os_cpu _ := 2; os_eventfd := 4; os_epoll := 5;
  os_mmap_addr i := 0x7000000 + 0x10000 * (Z.abs i mod 1000); os_pid := 0xFF00
|}.
Definition sim_kernel : MiscKernel := {| eventfd_ctx_fdget f := inr (1000 + f) |}.
Definition handle : iocache_info := mk_info 0 0 0 0 0 0 0 0 0 0 0 0 0 0.
Definition process : lib_state RegFile.regfile :=
  mk_lib (mk_misc SimMisc.ioc0 (λ _, mk_task 0 false false 0)
            (list_to_map (map (λ k, (Z.of_nat k, 0)) (seq 0 72))) [0; 0; 0; 0])
    handle [] [].
Definition conn : connection_info := mk_conn 0x11 0x0a000002 0x0a000001 1111 2222 0 0.

Lemma process_mapped : mapped (mem (kern process)) 0 72.
Proof.
  intros k Hk.
  assert (Forall (λ j, is_Some (mem (kern process) !! Z.of_nat j)) (seq 0 72)) as HF
    by (apply (bool_decide_eq_true_1 _); vm_compute; reflexivity).
  rewrite Forall_forall in HF. rewrite <- (Z2Nat.id k) by lia. apply HF, in_seq. lia.
Qed.

Lemma process_rings i : (i < 64)%nat ->
  len (nth i (tx_rings (ioc (kern process))) no_ring) = IOCACHE_UDP_RING_SIZE /\
  len (nth i (rx_rings (ioc (kern process))) no_ring) = IOCACHE_UDP_RING_SIZE.
Proof.
  intros Hi.
  assert (Forall (λ i, len (nth i (tx_rings SimMisc.ioc0) no_ring) = IOCACHE_UDP_RING_SIZE /\
                       len (nth i (rx_rings SimMisc.ioc0) no_ring) = IOCACHE_UDP_RING_SIZE)
            (seq 0 64)) as HF by (apply (bool_decide_eq_true_1 _); vm_compute; reflexivity).
  rewrite Forall_forall in HF. apply HF, in_seq. lia.
Qed.

Lemma process_openable : openable (H1 := sim_kernel) (H2 := sim_os) 0 7 process.
Proof.
  split; try done.
  - split; [done|by eexists].
  - intros i. simpl. pose proof (Z.mod_pos_bound (Z.abs i) 1000). lia.
  - exact process_mapped.
  - exact process_rings.
Qed.
End SimLib.

Import SimLib RegFile.

Lemma iocache_setup_connection_spec_witness :
  exists s', iocache_setup_connection conn process = (Ret tt, s') /\
    row_connection (the_dev s') 0 = (0x11, 0x0a000002, 1111, 0x0a000001, 2222).
Proof.
  destruct (iocache_setup_connection_spec conn process ltac:(done) ltac:(done) ltac:(done)
    ltac:(done) ltac:(done) ltac:(done)) as (s' & E & Hc & _).
  exists s'. split; [exact E|exact Hc].
Defined.

Lemma iocache_wait_on_rx_spec_witness :
  exists v s', iocache_wait_on_rx (H0 := sim_kernel) (H1 := sim_os) (λ d, d) process = (Ret v, s').
Proof.
  destruct (iocache_wait_on_rx_spec (H1 := sim_kernel) (H2 := sim_os) (λ d, d) process
    ltac:(done)) as (v & s' & E & _).
  exists v, s'. exact E.
Defined.

Lemma iocache_open_spec_witness :
  exists s', iocache_open (H0 := sim_kernel) (H1 := sim_os) 0 7 process = (Ret 0, s') /\
    row (info s') = 7 /\ row_owner (the_dev s') 7 = (1, 2, 0xFF00).
Proof.
  destruct (iocache_open_spec (H1 := sim_kernel) (H2 := sim_os) 0 7 process process_openable)
    as (s' & E & Hr & _ & _ & Ho & _).
  exists s'. split; [exact E|]. split; [exact Hr|exact Ho].
Defined.

Lemma iocache_open_close_witness :
  exists s1 s2, iocache_open (H0 := sim_kernel) (H1 := sim_os) 0 7 process = (Ret 0, s1) /\
    iocache_close (H0 := sim_kernel) (H1 := sim_os) 0 s1 = (Ret 0, s2) /\
    fds s2 = [] /\ length (maps s2) = 2%nat.
Proof.
  destruct (iocache_open_close (H1 := sim_kernel) (H2 := sim_os) 0 7 process process_openable)
    as (s1 & s2 & E1 & E2 & _ & _ & _ & Ef & Em).
  - split.
    + split; [|by forall_list; apply not_elem_of_nil].
      by apply (bool_decide_eq_true_1 _).
    + done.
    + constructor.
    + intros i [-> | ->]; by vm_compute; right.
    + by vm_compute; left.
  - exists s1, s2. split; [exact E1|]. split; [exact E2|]. split; [exact Ef|]. by rewrite Em.
Defined.
