(* ===== verification/AccnetLib.v ===== *)
(** * The AccNIC user library ([lib/accnet_lib.c], [lib/accnet_lib.h])

    The process of [IocacheLib] with a handle on the AccNIC besides: [ioctl] and
    [mmap] on its descriptor are calls of [accnet_misc_ioctl] and
    [accnet_misc_mmap], the register macros access the same device.  The header
    repeats the register map of the driver ([AccnetRegs]).  The ring buffers are
    process memory: an access outside the mappings is a fault. *)

From S2P Require Import Prelude Prog Mmio UserMem AddrSpace AccnetRegs AccnetMisc IocacheRegs.
From S2P Require Import IocacheDriver IocacheMisc Common CommonRegs IocacheLib.

Class AccOs := {
  acc_open_fd : Z;                   (* open(file, O_RDWR | O_SYNC) *)
  acc_mmap_addr : Z -> Z             (* the address chosen for a mapping, by index *)
}.

Record ring_info := mk_ring_info {
  rx_head : Z; rx_tail : Z; rx_size : Z; tx_head : Z; tx_tail : Z; tx_size : Z
}.

Record accnet_info := mk_accnet {
  ac_fd : Z; ac_ALIGN : Z;
  ac_regs_offset : Z; ac_udp_tx_offset : Z; ac_udp_rx_offset : Z;
  ac_regs_size : Z; ac_udp_tx_regs_size : Z; ac_udp_rx_regs_size : Z;
  ac_regs : Z; ac_udp_tx_regs : Z; ac_udp_rx_regs : Z;
  ac_iocache : Z;                    (* address of the iocache handle *)
  ac_ring : ring_info
}.

(** The 120 bytes of the structure on an LP64 machine; [None] is padding. *)
Definition accnet_info_bytes (a : accnet_info) : list (option Z) :=
  map Some (le_split 4 (ac_fd a)) ++ repeat None 4 ++
  map Some (concat (map (le_split 8)
    [ac_ALIGN a; ac_regs_offset a; ac_udp_tx_offset a; ac_udp_rx_offset a;
     ac_regs_size a; ac_udp_tx_regs_size a; ac_udp_rx_regs_size a;
     ac_regs a; ac_udp_tx_regs a; ac_udp_rx_regs a; ac_iocache a])) ++
  map Some (concat (map (le_split 4)
    [rx_head (ac_ring a); rx_tail (ac_ring a); rx_size (ac_ring a);
     tx_head (ac_ring a); tx_tail (ac_ring a); tx_size (ac_ring a)])).

Record acc_state (D : Type) := mk_acc {
  lib : lib_state D;
  anic : accnet_windows;             (* the driver behind the descriptor *)
  acc : accnet_info;
  ram : gmap Z Z                     (* bytes of the mapped buffers; 0 when absent *)
}.
Arguments mk_acc {D}.
Arguments lib {D}.
Arguments anic {D}.
Arguments acc {D}.
Arguments ram {D}.

(** Is the byte at [a] mapped? *)
Definition in_maps (l : list (Z * mmap_result)) (a : Z) : bool :=
  existsb (λ x, (x.1 <=? a) && (a <? x.1 + map_len x.2)) l.

(** Are the [n] bytes at [a]? *)
Definition range_mapped (l : list (Z * mmap_result)) (a : Z) (n : nat) : bool :=
  forallb (λ k, in_maps l (a + Z.of_nat k)) (seq 0 n).

Fixpoint ram_store (m : gmap Z Z) (a : Z) (l : list Z) : gmap Z Z :=
  match l with [] => m | b :: l' => ram_store (<[a := b]> m) (a + 1) l' end.

Definition ram_load (m : gmap Z Z) (a : Z) (n : nat) : list Z :=
  map (λ k, default 0 (m !! (a + Z.of_nat k))) (seq 0 n).

Section acclib.
Context {D : Type} `{Mmio D} `{MiscKernel} `{Os} `{AccOs}.
Abbreviation M := (prog (acc_state D)).

Definition set_lib (l : lib_state D) (s : acc_state D) : acc_state D :=
  mk_acc l (anic s) (acc s) (ram s).
Definition set_acc (a : accnet_info) (s : acc_state D) : acc_state D :=
  mk_acc (lib s) (anic s) a (ram s).
Definition set_ram (m : gmap Z Z) (s : acc_state D) : acc_state D :=
  mk_acc (lib s) (anic s) (acc s) m.

#[export] Instance acc_has_dev : HasDev (acc_state D) D.
Proof.
  refine {| the_dev := λ s, the_dev (lib s);
            set_dev := λ d s, set_lib (set_dev d (lib s)) s |};
    by intros [[[[]]]].
Defined.

(** A function of the I/O-cache library. *)
Definition lib_call {A} (m : prog (lib_state D) A) : M A := λ s,
  let '(o, l) := m (lib s) in (o, set_lib l s).

(** ** System calls on the AccNIC's descriptor *)

Definition acc_ioctl (cmd arg : Z) : M Z :=
  s ← get;
  let '(r, m) := accnet_misc_ioctl (anic s) cmd arg (mem (kern (lib s))) in
  modify (λ s, set_lib (set_kern (set_mem m (kern (lib s))) (lib s)) s);;
  mret (if r <? 0 then -1 else r).

Definition acc_mmap (n index : Z) : M Z :=
  s ← get;
  let a := acc_mmap_addr index in
  let vma := mk_vma a (a + page_align n) (Z.shiftr (MAP_INDEX index) PAGE_SHIFT) true in
  match accnet_misc_mmap (anic s) vma with
  | MmapErr _ => mret (-1)
  | r => modify (λ s, set_lib (set_maps ((a, r) :: maps (lib s)) (lib s)) s);; mret a
  end.

Variable frame : Z.

(** [_accnet_ioctl]: [Some (offset, size)] of a region, [None] on failure. *)
Definition accnet_ioctl_region (index : Z) : M (option (Z * Z)) :=
  lib_call (poke frame
    (region_info_bytes (mk_region_info sizeof_region_info 0 index 0 0 0 0 0 (repeat 0 32))));;
  r ← acc_ioctl ACCNET_IOCTL_GET_REGION_INFO frame;
  if r =? -1 then mret None
  else l ← lib_call (peek frame sizeof_region_info);
       mret (Some (ri_offset (region_info_of l), ri_size (region_info_of l))).

(** ** Registers *)

Definition init_regs (row : Z) : M unit :=
  s ← get;
  reg_write16 ACCNET_UDP_TX ACCNET_UDP_TX_MTU 1472;;
  reg_write64 ACCNET_UDP_TX ACCNET_UDP_TX_HDR_MAC_SRC 0x112233445566;;
  reg_write64 ACCNET_UDP_TX ACCNET_UDP_TX_HDR_MAC_DST 0x0c42a1a82de6;;
  reg_write8 ACCNET_UDP_TX ACCNET_UDP_TX_HDR_IP_TOS 0;;
  reg_write8 ACCNET_UDP_TX ACCNET_UDP_TX_HDR_IP_TTL 64;;
  reg_write16 ACCNET_UDP_TX ACCNET_UDP_TX_HDR_IP_ID 0;;
  reg_write32 IOCACHE (IOCACHE_REG_RX_RING_SIZE row) 0;;
  reg_write32 IOCACHE (IOCACHE_REG_TX_RING_SIZE row) 0;;
  reg_write32 ACCNET_UDP_TX (ACCNET_UDP_TX_RING_HEAD row) 0;;
  reg_write32 ACCNET_UDP_TX (ACCNET_UDP_TX_RING_TAIL row) 0;;
  reg_write32 ACCNET_UDP_RX (ACCNET_UDP_RX_RING_HEAD row) 0;;
  reg_write32 ACCNET_UDP_RX (ACCNET_UDP_RX_RING_TAIL row) 0;;
  reg_write32 IOCACHE (IOCACHE_REG_RX_RING_SIZE row) (udp_rx_size (info (lib s)));;
  reg_write32 IOCACHE (IOCACHE_REG_TX_RING_SIZE row) (udp_tx_size (info (lib s)));;
  t ← reg_read32 ACCNET_UDP_TX (ACCNET_UDP_TX_RING_TAIL row);
  (if t =? 0 then mret tt else exit 0);;
  r ← reg_read32 ACCNET_UDP_RX (ACCNET_UDP_RX_RING_TAIL row);
  (if r =? 0 then mret tt else exit 0).

(** [accnet] tells whether the pointer is not null. *)
Definition accnet_setup_connection (accnet : bool) (c : connection_info) : M Z :=
  if accnet then
    when (negb (src_mac c =? 0))
      (reg_write64 ACCNET_UDP_TX ACCNET_UDP_TX_HDR_MAC_SRC (src_mac c));;
    when (negb (dst_mac c =? 0))
      (reg_write64 ACCNET_UDP_TX ACCNET_UDP_TX_HDR_MAC_DST (dst_mac c));;
    mret 0
  else mret (-1).

Definition accnet_start_ring (accnet : bool) : M Z := mret (if accnet then 0 else -1).

(** [volatile rx_timestamp = ...] declares an [int]. *)
Definition accnet_get_outside_ticks : M Z :=
  s ← get;
  let row := row (info (lib s)) in
  r ← reg_read64 ACCNET_UDP_RX (ACCNET_UDP_RX_RING_LAST_TIMESTAMP row);
  t ← reg_read64 ACCNET_UDP_TX (ACCNET_UDP_TX_RING_LAST_TIMESTAMP row);
  let rx_timestamp := i32 r in
  let tx_timestamp := i32 t in
  if rx_timestamp <=? tx_timestamp then mret 0
  else mret (u64 (i32 (rx_timestamp - tx_timestamp))).

(** The function reads the register but has no [return]. *)
Definition accnet_get_time : M Z :=
  _ ← reg_read64 ACCNET_CTRL ACCNET_CTRL_TIMESTAMP; fail Uninitialised.

Definition accnet_set_rx_head (val : Z) : M unit :=
  s ← get; reg_write32 ACCNET_UDP_RX (ACCNET_UDP_RX_RING_HEAD (row (info (lib s)))) val.

(** The base is [udp_rx_regs], as in the source. *)
Definition accnet_set_tx_tail (val : Z) : M unit :=
  s ← get; reg_write32 ACCNET_UDP_RX (ACCNET_UDP_TX_RING_TAIL (row (info (lib s)))) val.

(** [reg_read32(accnet, reg)]: the base of the getters is the structure. *)
Definition struct_read32 (reg : Z) : M Z :=
  s ← get;
  let off := Z.to_nat (reg_off W32 reg) in
  let bytes := take 4 (drop off (accnet_info_bytes (acc s))) in
  if (length bytes <? 4)%nat then fail OutOfBounds
  else l ← deref (mapM id bytes) Uninitialised; mret (le_combine l).

Definition accnet_get_rx_head : M Z :=
  s ← get; struct_read32 (ACCNET_UDP_RX_RING_HEAD (row (info (lib s)))).
Definition accnet_get_rx_tail : M Z :=
  s ← get; struct_read32 (ACCNET_UDP_RX_RING_TAIL (row (info (lib s)))).
Definition accnet_get_tx_head : M Z :=
  s ← get; struct_read32 (ACCNET_UDP_TX_RING_HEAD (row (info (lib s)))).
Definition accnet_get_tx_tail : M Z :=
  s ← get; struct_read32 (ACCNET_UDP_TX_RING_TAIL (row (info (lib s)))).

(** [memcpy] into the process' mappings. *)
Definition memcpy_to (dst : Z) (l : list Z) : M unit :=
  s ← get;
  if range_mapped (maps (lib s)) dst (length l) then modify (λ s, set_ram (ram_store (ram s) dst l) s)
  else fail OutOfBounds.

(** [memcpy] out of them. *)
Definition memcpy_from (src : Z) (n : nat) : M (list Z) :=
  s ← get;
  if range_mapped (maps (lib s)) src n then mret (ram_load (ram s) src n) else fail OutOfBounds.

(** [buffer] has [len] bytes. *)
Definition accnet_send (buffer : list Z) : M Z :=
  s ← get;
  let len := zlen buffer in
  tx_head ← accnet_get_tx_head;
  tx_tail ← accnet_get_tx_tail;
  let tx_size := u32 (udp_tx_size (info (lib s))) in
  if tx_size =? 0 then fail DivByZero
  else
    let val := u32 (u64 (tx_tail + len) mod tx_size) in
    memcpy_to (udp_tx_buffer (info (lib s)) + tx_tail) buffer;;
    accnet_set_tx_tail val;;
    mret len.

(** ** Opening and closing *)

Definition update_acc (f : accnet_info -> accnet_info) : M unit :=
  modify (λ s, set_acc (f (acc s)) s).

(** The three register windows. *)
Definition accnet_open_map (do_init : bool) : M Z :=
  s ← get;
  p ← acc_mmap (ac_regs_size (acc s)) 0;
  update_acc (λ a, mk_accnet (ac_fd a) (ac_ALIGN a) (ac_regs_offset a) (ac_udp_tx_offset a)
    (ac_udp_rx_offset a) (ac_regs_size a) (ac_udp_tx_regs_size a) (ac_udp_rx_regs_size a)
    p (ac_udp_tx_regs a) (ac_udp_rx_regs a) (ac_iocache a) (ac_ring a));;
  if p =? -1 then lib_call (close acc_open_fd);; mret (-1)
  else
    t ← acc_mmap (ac_udp_tx_regs_size (acc s)) 1;
    update_acc (λ a, mk_accnet (ac_fd a) (ac_ALIGN a) (ac_regs_offset a) (ac_udp_tx_offset a)
      (ac_udp_rx_offset a) (ac_regs_size a) (ac_udp_tx_regs_size a) (ac_udp_rx_regs_size a)
      (ac_regs a) t (ac_udp_rx_regs a) (ac_iocache a) (ac_ring a));;
    if t =? -1 then lib_call (close acc_open_fd);; mret (-1)
    else
      q ← acc_mmap (ac_udp_rx_regs_size (acc s)) 2;
      update_acc (λ a, mk_accnet (ac_fd a) (ac_ALIGN a) (ac_regs_offset a) (ac_udp_tx_offset a)
        (ac_udp_rx_offset a) (ac_regs_size a) (ac_udp_tx_regs_size a) (ac_udp_rx_regs_size a)
        (ac_regs a) (ac_udp_tx_regs a) q (ac_iocache a) (ac_ring a));;
      if q =? -1 then lib_call (close acc_open_fd);; mret (-1)
      else
        when do_init (init_regs (row (info (lib s))));;
        mret 0.

(** [iocache] is the address of the other handle, 0 if it is null. *)
Definition accnet_open (iocache : Z) (do_init : bool) : M Z :=
  if iocache =? 0 then mret (-1)
  else if acc_open_fd <? 0 then
    update_acc (λ a, mk_accnet acc_open_fd (ac_ALIGN a) (ac_regs_offset a) (ac_udp_tx_offset a)
      (ac_udp_rx_offset a) (ac_regs_size a) (ac_udp_tx_regs_size a) (ac_udp_rx_regs_size a)
      (ac_regs a) (ac_udp_tx_regs a) (ac_udp_rx_regs a) (ac_iocache a) (ac_ring a));;
    mret (-1)
  else
    modify (λ s, set_lib (set_fds (acc_open_fd :: fds (lib s)) (lib s)) s);;
    update_acc (λ a, mk_accnet acc_open_fd (ac_ALIGN a) (ac_regs_offset a) (ac_udp_tx_offset a)
      (ac_udp_rx_offset a) (ac_regs_size a) (ac_udp_tx_regs_size a) (ac_udp_rx_regs_size a)
      (ac_regs a) (ac_udp_tx_regs a) (ac_udp_rx_regs a) iocache (ac_ring a));;
    g ← accnet_ioctl_region 0;
    match g with
    | None => lib_call (close acc_open_fd);; mret (-1)
    | Some (o, n) =>
        update_acc (λ a, mk_accnet (ac_fd a) (ac_ALIGN a) o (ac_udp_tx_offset a)
          (ac_udp_rx_offset a) n (ac_udp_tx_regs_size a) (ac_udp_rx_regs_size a)
          (ac_regs a) (ac_udp_tx_regs a) (ac_udp_rx_regs a) (ac_iocache a) (ac_ring a));;
        g ← accnet_ioctl_region 1;
        match g with
        | None => lib_call (close acc_open_fd);; mret (-1)
        | Some (o, n) =>
            update_acc (λ a, mk_accnet (ac_fd a) (ac_ALIGN a) (ac_regs_offset a) o
              (ac_udp_rx_offset a) (ac_regs_size a) n (ac_udp_rx_regs_size a)
              (ac_regs a) (ac_udp_tx_regs a) (ac_udp_rx_regs a) (ac_iocache a) (ac_ring a));;
            g ← accnet_ioctl_region 2;
            match g with
            | None => lib_call (close acc_open_fd);; mret (-1)
            | Some (o, n) =>
                update_acc (λ a, mk_accnet (ac_fd a) (ac_ALIGN a) (ac_regs_offset a)
                  (ac_udp_tx_offset a) o (ac_regs_size a) (ac_udp_tx_regs_size a) n
                  (ac_regs a) (ac_udp_tx_regs a) (ac_udp_rx_regs a) (ac_iocache a) (ac_ring a));;
                accnet_open_map do_init
            end
        end
    end.

(** [_deinit_regs] is empty. *)
Definition accnet_close : M Z :=
  s ← get;
  lib_call (munmap (ac_regs (acc s)) (ac_regs_size (acc s)));;
  lib_call (munmap (ac_udp_tx_regs (acc s)) (ac_udp_tx_regs_size (acc s)));;
  lib_call (munmap (ac_udp_rx_regs (acc s)) (ac_udp_rx_regs_size (acc s)));;
  lib_call (close (ac_fd (acc s)));;
  mret 0.
End acclib.

(** ** Properties *)

(** The ring registers are aligned: the index arithmetic of the macros reaches
    exactly the register. *)
Lemma reg_off_tx r f : 0 <= r < 64 -> reg_off (tx_width f) (tx_reg r f) = tx_reg r f.
Proof. intros Hr. apply reg_off_aligned. rewrite tx_reg_val by done. destruct f; simpl; zdm. Qed.

Lemma reg_off_rx r f : 0 <= r < 64 -> reg_off (rx_width f) (rx_reg r f) = rx_reg r f.
Proof. intros Hr. apply reg_off_aligned. rewrite rx_reg_val by done. destruct f; simpl; zdm. Qed.

(** What [_init_regs] writes, in order. *)
Definition init_writes (row : Z) : list (width * region * Z * Z) :=
  [(W16, ACCNET_UDP_TX, ACCNET_UDP_TX_MTU, 1472);
   (W64, ACCNET_UDP_TX, ACCNET_UDP_TX_HDR_MAC_SRC, 0x112233445566);
   (W64, ACCNET_UDP_TX, ACCNET_UDP_TX_HDR_MAC_DST, 0x0c42a1a82de6);
   (W8, ACCNET_UDP_TX, ACCNET_UDP_TX_HDR_IP_TOS, 0);
   (W8, ACCNET_UDP_TX, ACCNET_UDP_TX_HDR_IP_TTL, 64);
   (W16, ACCNET_UDP_TX, ACCNET_UDP_TX_HDR_IP_ID, 0);
   (W32, IOCACHE, IOCACHE_REG row (field_off RX_RING_SIZE), 0);
   (W32, IOCACHE, IOCACHE_REG row (field_off TX_RING_SIZE), 0);
   (W32, ACCNET_UDP_TX, tx_reg row TX_HEAD, 0); (W32, ACCNET_UDP_TX, tx_reg row TX_TAIL, 0);
   (W32, ACCNET_UDP_RX, rx_reg row RX_HEAD, 0); (W32, ACCNET_UDP_RX, rx_reg row RX_TAIL, 0);
   (W32, IOCACHE, IOCACHE_REG row (field_off RX_RING_SIZE), 8192);
   (W32, IOCACHE, IOCACHE_REG row (field_off TX_RING_SIZE), 8192)].

(** The state of the UDP engine for one row.  The addresses of the receive pointers of
    row 32 are those of the interrupt registers, whose contents the device decides. *)
Definition row_initialised `{Mmio D} (row : Z) (d : D) : Prop :=
  reg_val W32 ACCNET_UDP_TX (ACCNET_UDP_TX_RING_HEAD row) d = 0 /\
  reg_val W32 ACCNET_UDP_TX (ACCNET_UDP_TX_RING_TAIL row) d = 0 /\
  (row <> 32 ->
   reg_val W32 ACCNET_UDP_RX (ACCNET_UDP_RX_RING_HEAD row) d = 0 /\
   reg_val W32 ACCNET_UDP_RX (ACCNET_UDP_RX_RING_TAIL row) d = 0) /\
  reg_val W32 IOCACHE (IOCACHE_REG_RX_RING_SIZE row) d = 8192 /\
  reg_val W32 IOCACHE (IOCACHE_REG_TX_RING_SIZE row) d = 8192 /\
  reg_val W16 ACCNET_UDP_TX ACCNET_UDP_TX_MTU d = 1472 /\
  reg_val W64 ACCNET_UDP_TX ACCNET_UDP_TX_HDR_MAC_SRC d = 0x112233445566 /\
  reg_val W64 ACCNET_UDP_TX ACCNET_UDP_TX_HDR_MAC_DST d = 0x0c42a1a82de6 /\
  reg_val W8 ACCNET_UDP_TX ACCNET_UDP_TX_HDR_IP_TOS d = 0 /\
  reg_val W8 ACCNET_UDP_TX ACCNET_UDP_TX_HDR_IP_TTL d = 64 /\
  reg_val W16 ACCNET_UDP_TX ACCNET_UDP_TX_HDR_IP_ID d = 0.

(** What [row_initialised] says as a table: registers and values. *)
Definition init_values (row : Z) : list (width * region * Z * Z) :=
  [(W32, ACCNET_UDP_TX, ACCNET_UDP_TX_RING_HEAD row, 0);
   (W32, ACCNET_UDP_TX, ACCNET_UDP_TX_RING_TAIL row, 0);
   (W32, IOCACHE, IOCACHE_REG_RX_RING_SIZE row, 8192);
   (W32, IOCACHE, IOCACHE_REG_TX_RING_SIZE row, 8192);
   (W16, ACCNET_UDP_TX, ACCNET_UDP_TX_MTU, 1472);
   (W64, ACCNET_UDP_TX, ACCNET_UDP_TX_HDR_MAC_SRC, 0x112233445566);
   (W64, ACCNET_UDP_TX, ACCNET_UDP_TX_HDR_MAC_DST, 0x0c42a1a82de6);
   (W8, ACCNET_UDP_TX, ACCNET_UDP_TX_HDR_IP_TOS, 0);
   (W8, ACCNET_UDP_TX, ACCNET_UDP_TX_HDR_IP_TTL, 64);
   (W16, ACCNET_UDP_TX, ACCNET_UDP_TX_HDR_IP_ID, 0)].
Definition init_rx_values (row : Z) : list (width * region * Z * Z) :=
  [(W32, ACCNET_UDP_RX, ACCNET_UDP_RX_RING_HEAD row, 0);
   (W32, ACCNET_UDP_RX, ACCNET_UDP_RX_RING_TAIL row, 0)].

(** The writes [l] determine the value [v] of a storage register. *)
Definition settles (l : list (width * region * Z * Z)) (x : width * region * Z * Z) : Prop :=
  let '(w, r, a, v) := x in
  storage w r a = true /\ final_value l w r a None = Some v /\ Word.u (wbits w) v = v.
#[export] Instance settles_dec l x : Decision (settles l x).
Proof. destruct x as [[[w r] a] v]. apply _. Defined.

Lemma init_final_values :
  Forall (λ r, Forall (settles (init_writes r)) (init_values r) /\
               (r <> 32 -> Forall (settles (init_writes r)) (init_rx_values r)))
    (map Z.of_nat (seq 0 64)).
Proof. apply (bool_decide_eq_true_1 _). vm_compute. reflexivity. Qed.

Section facts.
Context {D : Type} `{PlainMmio D} `{MiscKernel} `{Os} `{AccOs}.
Variable frame : Z.
Implicit Types s : acc_state D.

Lemma init_ready row (d : D) :
  0 <= row < IOCACHE_CACHE_ENTRY_COUNT -> row_initialised row (do_writes (init_writes row) d).
Proof.
  intros Hr. unfold IOCACHE_CACHE_ENTRY_COUNT in Hr.
  pose proof init_final_values as HF. rewrite Forall_forall in HF.
  destruct (HF row) as [Hv Hx].
  { rewrite <- (Z2Nat.id row) by lia. apply in_map, in_seq. lia. }
  assert (forall l, Forall (settles (init_writes row)) l ->
    Forall (λ x, let '(w, r, a, v) := x in reg_val w r a (do_writes (init_writes row) d) = v) l) as Hl.
  { intros l Hset. eapply Forall_impl; [|exact Hset]. intros [[[w r] a] v] (Hst & Hf & <-).
    by apply (final_value_spec _ _ _ _ Hst None v). }
  apply Hl in Hv. unfold init_values in Hv. rewrite !list.Forall_cons in Hv. destruct Hv as (?&?&?&?&?&?&?&?&?&?&_).
  unfold row_initialised. split; [done|]. split; [done|]. split; [|by repeat (split; [done|])].
  intros Hne. specialize (Hl _ (Hx Hne)). unfold init_rx_values in Hl. rewrite !list.Forall_cons in Hl. by destruct Hl as (?&?&_).
Qed.

Lemma init_regs_run row s :
  0 <= row < IOCACHE_CACHE_ENTRY_COUNT ->
  udp_rx_size (info (lib s)) = 8 * 1024 -> udp_tx_size (info (lib s)) = 8 * 1024 ->
  let d := do_writes (init_writes row) (the_dev s) in
  init_regs row s
  = (if reg_val W32 ACCNET_UDP_RX (ACCNET_UDP_RX_RING_TAIL row) d =? 0 then Ret tt else Exit 0,
     set_dev d s).
Proof.
  intros Hr Ex Et d. unfold init_regs. rewrite run_get, Ex, Et.
  pose proof (init_ready row (the_dev s) Hr) as (_ & Ht & _). fold d in Ht.
  assert (0 <= row < 64) as Hr' by exact Hr.
  unfold reg_write8, reg_write16, reg_write32, reg_write64, reg_read32.
  change (ACCNET_UDP_TX_RING_HEAD row) with (tx_reg row TX_HEAD) in *.
  change (ACCNET_UDP_TX_RING_TAIL row) with (tx_reg row TX_TAIL) in *.
  change (ACCNET_UDP_RX_RING_HEAD row) with (rx_reg row RX_HEAD) in *.
  change (ACCNET_UDP_RX_RING_TAIL row) with (rx_reg row RX_TAIL) in *.
  change (IOCACHE_REG_RX_RING_SIZE row) with (IOCACHE_REG row (field_off RX_RING_SIZE)).
  change (IOCACHE_REG_TX_RING_SIZE row) with (IOCACHE_REG row (field_off TX_RING_SIZE)).
  rewrite !reg_off_row by done.
  rewrite (reg_off_tx row TX_HEAD Hr' : reg_off W32 _ = _),
    (reg_off_tx row TX_TAIL Hr' : reg_off W32 _ = _),
    (reg_off_rx row RX_HEAD Hr' : reg_off W32 _ = _),
    (reg_off_rx row RX_TAIL Hr' : reg_off W32 _ = _).
  rewrite !(run_bind _ _ _ _ _ (iowrite_run _ _ _ _ _)).
  match goal with |- context [bind (ioread _ _ _) _ ?x] =>
    assert (x = set_dev d s) as -> end.
  { rewrite !the_set_dev, !set_set_dev. reflexivity. }
  rewrite (run_bind _ _ _ _ _ (ioread_plain _ _ _ _ (consumes_none _ ACCNET_UDP_TX _
    ltac:(done) ltac:(done) ltac:(done)))), the_set_dev, Ht.
  change (0 =? 0) with true. cbv iota. rewrite (run_bind _ _ _ _ _ (run_ret tt _)).
  rewrite (run_bind _ _ _ _ _ (ioread_plain _ _ _ _ (consumes_none _ ACCNET_UDP_RX _
    ltac:(done) ltac:(done) ltac:(done)))), the_set_dev.
  by destruct (reg_val W32 ACCNET_UDP_RX (rx_reg row RX_TAIL) d =? 0).
Qed.

(** Asking for a region of the AccNIC. *)
Lemma acc_region_run i p n s :
  windows_ok (anic s) -> window (anic s) i = Some (p, n) ->
  mapped (mem (kern (lib s))) frame 72 ->
  exists m, accnet_ioctl_region frame i s
    = (Ret (Some (Z.shiftl i 40, n)), set_lib (set_kern (set_mem m (kern (lib s))) (lib s)) s) /\
    mapped m frame 72.
Proof.
  intros Hok Ew Hm. unfold accnet_ioctl_region. pose proof (window_range _ _ _ Ew) as Hi.
  set (q := mk_region_info sizeof_region_info 0 i 0 0 0 0 0 (repeat 0 32)).
  destruct (poke_run frame (region_info_bytes q) (lib s)) as (m1 & E1 & Hc1 & Hm1); [done|done|].
  rewrite run_bind with (a := tt) (s' := set_lib (set_kern (set_mem m1 (kern (lib s))) (lib s)) s)
    by (unfold lib_call; by rewrite E1).
  set (s1 := set_lib _ s).
  assert (query_ok q) as Hq.
  { split; [|by repeat split]. unfold u32_field. cbn. forall_list; unfold sizeof_region_info; lia. }
  destruct (region_info_window (anic s) q p n Hok Hq Ew) as (a & Ea & _ & Es & Eo & Hqa).
  pose proof Hqa as (HFa & Hsa & Hoa & Hna & _).
  assert (length (region_info_bytes a) = 72%nat) as Hla by by apply length_region_info_bytes.
  destruct (copy_to_user_ok (region_info_bytes a) m1 frame) as (m2 & E2 & Hl2 & _);
    [by rewrite Hla|]. rewrite Hla in Hl2.
  assert (accnet_misc_ioctl (anic s) ACCNET_IOCTL_GET_REGION_INFO frame m1 = (0, m2)) as E.
  { unfold accnet_misc_ioctl. change (_ =? ACCNET_IOCTL_GET_API_VERSION) with false.
    change (_ =? ACCNET_IOCTL_GET_DEVICE_INFO) with false.
    change (_ =? ACCNET_IOCTL_GET_REGION_INFO) with true. cbv iota zeta.
    change sizeof_region_info with (zlen (region_info_bytes q)) at 1. rewrite Hc1.
    destruct Hq as (HFq & ? & ? & ? & ?). rewrite region_info_of_bytes by done.
    change (ri_argsz q <? sizeof_region_info) with false. cbv iota. rewrite Ea.
    unfold reply. by rewrite E2. }
  exists m2. unfold acc_ioctl at 1. rewrite bind_assoc, run_get.
  change (mem (kern (lib s1))) with m1. change (anic s1) with (anic s). rewrite E.
  cbv iota beta. rewrite bind_assoc, run_modify, (run_bind _ _ _ _ _ (run_ret _ _)).
  change (if 0 <? 0 then -1 else 0) with 0. change (0 =? -1) with false. cbv iota.
  set (s2 := set_lib _ s1).
  rewrite run_bind with (a := region_info_bytes a) (s' := s2)
    by (unfold lib_call; by rewrite (peek_run frame sizeof_region_info _ (lib s2) Hl2)).
  rewrite region_info_of_bytes by done. rewrite Es, Eo. split; [done|].
  pose proof (copy_to_user_mapped (region_info_bytes a) m1 frame frame 72 Hm1) as Hm'.
  by rewrite E2 in Hm'.
Qed.

(** Mapping a whole window. *)
Lemma acc_mmap_run i p n s :
  windows_ok (anic s) -> window (anic s) i = Some (p, n) -> n mod 4096 = 0 ->
  0 <= acc_mmap_addr i < 2 ^ 62 ->
  acc_mmap n i s
  = (Ret (acc_mmap_addr i),
     set_lib (set_maps ((acc_mmap_addr i, MmapIo (acc_mmap_addr i) (p / 4096) n) :: maps (lib s))
                (lib s)) s).
Proof.
  intros Hok Ew Hn Ha. unfold acc_mmap. rewrite run_get. pose proof (window_range _ _ _ Ew) as Hi.
  destruct (Hok _ _ _ Ew) as (_ & _ & Hsz). rewrite page_align_exact by done.
  assert (MAP_INDEX i = Z.shiftl i 40 + 0) as ->.
  { unfold MAP_INDEX. rewrite Z.add_0_r. apply u_small. rewrite Z.shiftl_mul_pow2 by lia. lia. }
  pose proof (mmap_whole (anic s) i p n (acc_mmap_addr i) n Hok Ew ltac:(lia) Ha) as E.
  unfold mmap_request in E. by rewrite E.
Qed.

(** What the library relies on when it opens the AccNIC. *)
Record acc_openable s : Prop := {
  ao_fd : 0 <= acc_open_fd;
  ao_windows : windows_ok (anic s);
  ao_pages i p n : window (anic s) i = Some (p, n) -> n mod 4096 = 0;
  ao_addr i : 0 <= acc_mmap_addr i < 2 ^ 62;
  ao_frame : mapped (mem (kern (lib s))) frame 72;
  ao_row : 0 <= row (info (lib s)) < IOCACHE_CACHE_ENTRY_COUNT;
  ao_sizes : udp_rx_size (info (lib s)) = 8 * 1024 /\ udp_tx_size (info (lib s)) = 8 * 1024
}.

(** The mapping of a window. *)
Definition window_map (i : Z) (w : option (Z * Z)) : list (Z * mmap_result) :=
  match w with
  | Some (p, n) => [(acc_mmap_addr i, MmapIo (acc_mmap_addr i) (p / 4096) n)]
  | None => []
  end.

Ltac acc_cbn :=
  cbn [set_lib set_acc set_ram lib anic acc ram set_kern set_maps set_fds kern info maps fds
       ac_fd ac_ALIGN ac_regs_offset ac_udp_tx_offset ac_udp_rx_offset ac_regs_size
       ac_udp_tx_regs_size ac_udp_rx_regs_size ac_regs ac_udp_tx_regs ac_udp_rx_regs
       ac_iocache ac_ring].

(** Registers of another row are not among those [_init_regs] writes. *)
Lemma init_writes_other row r :
  0 <= row < 64 -> 0 <= r < 64 -> r <> row ->
  (forall f, Forall (λ x, let '(w', r', a', _) := x in
     disjoint_acc (tx_width f) ACCNET_UDP_TX (tx_reg r f) w' r' a') (init_writes row)) /\
  (forall f, Forall (λ x, let '(w', r', a', _) := x in
     disjoint_acc (rx_width f) ACCNET_UDP_RX (rx_reg r f) w' r' a') (init_writes row)).
Proof.
  intros Hrow Hr Hne. split; intros f; unfold init_writes; forall_list;
    try (left; discriminate).
  all: try (by apply (tx_ring_regs_disjoint r f row TX_HEAD); [done|done|congruence]).
  all: try (by apply (tx_ring_regs_disjoint r f row TX_TAIL); [done|done|congruence]).
  all: try (by apply (rx_ring_regs_disjoint r f row RX_HEAD); [done|done|congruence]).
  all: try (by apply (rx_ring_regs_disjoint r f row RX_TAIL); [done|done|congruence]).
  all: right; left; rewrite tx_reg_val by done; destruct f; simpl;
    unfold ACCNET_UDP_TX_MTU, ACCNET_UDP_TX_HDR_MAC_SRC, ACCNET_UDP_TX_HDR_MAC_DST,
      ACCNET_UDP_TX_HDR_IP_TOS, ACCNET_UDP_TX_HDR_IP_TTL, ACCNET_UDP_TX_HDR_IP_ID; lia.
Qed.

(** [_init_regs] reads the receive tail back and leaves the program when it is not 0. *)
Definition open_outcome (row : Z) (d : D) : outcome Z :=
  if reg_val W32 ACCNET_UDP_RX (ACCNET_UDP_RX_RING_TAIL row) d =? 0 then Ret 0 else Exit 0.

Lemma open_outcome_other row d : row_initialised row d -> row <> 32 -> open_outcome row d = Ret 0.
Proof.
  intros (_ & _ & Hx & _) Hne. unfold open_outcome. by rewrite (proj2 (Hx Hne)).
Qed.

Lemma open_both_ways (m : prog (acc_state D) unit) (b : bool) s s' :
  m s = (if b then Ret tt else Exit 0, s') -> (m;; mret 0) s = (if b then Ret 0 else Exit 0, s').
Proof. intros E. unfold bind. rewrite E. by destruct b. Qed.

(** The state after opening the AccNIC. *)
Lemma acc_open_run iocache s :
  iocache <> 0 -> acc_openable s ->
  let row := row (info (lib s)) in
  exists s', accnet_open frame iocache true s = (open_outcome row (the_dev s'), s') /\
    row_initialised row (the_dev s') /\
    (forall r, 0 <= r < 64 -> r <> row ->
       (forall f, tx_pointer f = true ->
          reg_val (tx_width f) ACCNET_UDP_TX (tx_reg r f) (the_dev s')
          = reg_val (tx_width f) ACCNET_UDP_TX (tx_reg r f) (the_dev s)) /\
       (forall f, r <> 32 -> rx_pointer f = true ->
          reg_val (rx_width f) ACCNET_UDP_RX (rx_reg r f) (the_dev s')
          = reg_val (rx_width f) ACCNET_UDP_RX (rx_reg r f) (the_dev s))) /\
    maps (lib s') = window_map 2 (window (anic s) 2) ++ window_map 1 (window (anic s) 1)
                      ++ window_map 0 (window (anic s) 0) ++ maps (lib s) /\
    ac_regs (acc s') = acc_mmap_addr 0 /\ ac_udp_tx_regs (acc s') = acc_mmap_addr 1 /\
    ac_udp_rx_regs (acc s') = acc_mmap_addr 2 /\
    (info (lib s') = info (lib s) /\ fds (lib s') = acc_open_fd :: fds (lib s) /\
     ac_fd (acc s') = acc_open_fd /\ same_driver frame (kern (lib s)) (kern (lib s')) /\
     tasks (kern (lib s')) = tasks (kern (lib s)) /\
     the_dev s' = do_writes (init_writes row) (the_dev s)).
Proof.
  intros Hio [Hfd Hok Hpg Ha Hfr Hrow [Ex Et]] row0.
  destruct (window (anic s) 0) as [[p0 n0]|] eqn:W0; [|done].
  destruct (window (anic s) 1) as [[p1 n1]|] eqn:W1; [|done].
  destruct (window (anic s) 2) as [[p2 n2]|] eqn:W2; [|done].
  assert (forall i, (acc_mmap_addr i =? -1) = false) as Hne
    by (intros i; apply Z.eqb_neq; pose proof (Ha i); lia).
  unfold accnet_open. rewrite (proj2 (Z.eqb_neq _ _) Hio), (proj2 (Z.ltb_ge _ _) Hfd).
  destruct s as [[k i0 mp fd0] w [? ? ? ? ? ? ? ? ? ? ? ? ?] rm]. unfold update_acc.
  rewrite !run_modify. acc_cbn.
  match goal with |- context [bind (accnet_ioctl_region frame 0) _ ?x] =>
    destruct (acc_region_run 0 p0 n0 x Hok W0 Hfr) as (m0 & E0 & Hm0) end.
  rewrite (run_bind _ _ _ _ _ E0). clear E0. cbv iota beta. rewrite !run_modify. acc_cbn.
  match goal with |- context [bind (accnet_ioctl_region frame 1) _ ?x] =>
    destruct (acc_region_run 1 p1 n1 x Hok W1 Hm0) as (m1 & E1 & Hm1) end.
  rewrite (run_bind _ _ _ _ _ E1). clear E1. cbv iota beta. rewrite !run_modify. acc_cbn.
  match goal with |- context [bind (accnet_ioctl_region frame 2) _ ?x] =>
    destruct (acc_region_run 2 p2 n2 x Hok W2 Hm1) as (m2 & E2 & Hm2) end.
  rewrite (run_bind _ _ _ _ _ E2). clear E2. cbv iota beta. rewrite !run_modify. acc_cbn.
  unfold accnet_open_map. rewrite run_get. acc_cbn.
  match goal with |- context [bind (acc_mmap _ 0) _ ?x] =>
    rewrite (run_bind _ _ _ _ _ (acc_mmap_run 0 p0 n0 x Hok W0 (Hpg _ _ _ W0) (Ha 0))) end.
  unfold update_acc. rewrite run_modify, Hne. acc_cbn.
  match goal with |- context [bind (acc_mmap _ 1) _ ?x] =>
    rewrite (run_bind _ _ _ _ _ (acc_mmap_run 1 p1 n1 x Hok W1 (Hpg _ _ _ W1) (Ha 1))) end.
  rewrite run_modify, Hne. acc_cbn.
  match goal with |- context [bind (acc_mmap _ 2) _ ?x] =>
    rewrite (run_bind _ _ _ _ _ (acc_mmap_run 2 p2 n2 x Hok W2 (Hpg _ _ _ W2) (Ha 2))) end.
  rewrite run_modify, Hne. acc_cbn. unfold when.
  match goal with |- context [bind (init_regs ?z) _ ?x] =>
    change (init_regs z) with (init_regs (D := D) row0); rewrite (open_both_ways _ _ _ _ (init_regs_run row0 x Hrow Ex Et)) end.
  eexists. split; [unfold open_outcome; by rewrite the_set_dev|]. rewrite the_set_dev.
  split; [by apply init_ready|]. split; [|do 4 (split; [done|]); do 3 (split; [done|]); by repeat split].
  intros r Hr Hner. destruct (init_writes_other row0 r Hrow Hr Hner) as [Htx Hrx].
  split.
  - intros f Hf. apply reg_val_do_writes_other; [by apply storage_tx|apply Htx].
  - intros f Hne32 Hf. apply reg_val_do_writes_other; [by apply storage_rx|apply Hrx].
Qed.

(** C9: Opening the AccNIC after the I/O cache returns 0 with the three register
    windows mapped at the addresses of the handle, the rings of the caller's row
    empty and announced with their 8 KiB, the header registers set, and the ring
    pointers of the other 63 rows untouched.  Row 32 is apart: its receive pointers are
    the interrupt registers, nothing is known of them afterwards, and the call leaves
    the program when the interrupt-clear register does not read as 0. *)
Theorem accnet_open_spec iocache s :
  iocache <> 0 -> acc_openable s ->
  let row := row (info (lib s)) in
  exists s', accnet_open frame iocache true s = (open_outcome row (the_dev s'), s') /\
    row_initialised row (the_dev s') /\
    (forall r, 0 <= r < 64 -> r <> row ->
       (forall f, tx_pointer f = true ->
          reg_val (tx_width f) ACCNET_UDP_TX (tx_reg r f) (the_dev s')
          = reg_val (tx_width f) ACCNET_UDP_TX (tx_reg r f) (the_dev s)) /\
       (forall f, r <> 32 -> rx_pointer f = true ->
          reg_val (rx_width f) ACCNET_UDP_RX (rx_reg r f) (the_dev s')
          = reg_val (rx_width f) ACCNET_UDP_RX (rx_reg r f) (the_dev s))) /\
    maps (lib s') = window_map 2 (window (anic s) 2) ++ window_map 1 (window (anic s) 1)
                      ++ window_map 0 (window (anic s) 0) ++ maps (lib s) /\
    ac_regs (acc s') = acc_mmap_addr 0 /\ ac_udp_tx_regs (acc s') = acc_mmap_addr 1 /\
    ac_udp_rx_regs (acc s') = acc_mmap_addr 2 /\
    (row <> 32 -> open_outcome row (the_dev s') = Ret 0).
Proof.
  intros Hio O row0. destruct (acc_open_run iocache s Hio O) as (s' & E & Hi & Ho & Hm & H0' & H1' & H2' & _).
  exists s'. repeat (split; [done|]). by apply open_outcome_other.
Qed.

(** [accnet_setup_connection] stores the MAC addresses that are given and keeps
    the others; no ring pointer changes. *)
Theorem accnet_setup_connection_spec c s :
  0 <= src_mac c < 2 ^ 48 -> 0 <= dst_mac c < 2 ^ 48 ->
  let mac a d := reg_val W64 ACCNET_UDP_TX a d in
  exists s', accnet_setup_connection true c s = (Ret 0, s') /\
    mac ACCNET_UDP_TX_HDR_MAC_SRC (the_dev s')
      = (if src_mac c =? 0 then mac ACCNET_UDP_TX_HDR_MAC_SRC (the_dev s) else src_mac c) /\
    mac ACCNET_UDP_TX_HDR_MAC_DST (the_dev s')
      = (if dst_mac c =? 0 then mac ACCNET_UDP_TX_HDR_MAC_DST (the_dev s) else dst_mac c) /\
    (forall r f, 0 <= r < 64 -> tx_pointer f = true ->
       reg_val (tx_width f) ACCNET_UDP_TX (tx_reg r f) (the_dev s')
       = reg_val (tx_width f) ACCNET_UDP_TX (tx_reg r f) (the_dev s)).
Proof.
  intros Hs Hd mac.
  set (ws := (if src_mac c =? 0 then [] else
                [(W64, ACCNET_UDP_TX, ACCNET_UDP_TX_HDR_MAC_SRC, src_mac c)]) ++
             (if dst_mac c =? 0 then [] else
                [(W64, ACCNET_UDP_TX, ACCNET_UDP_TX_HDR_MAC_DST, dst_mac c)])).
  assert (accnet_setup_connection true c s = (Ret 0, set_dev (do_writes ws (the_dev s)) s)) as E.
  { unfold accnet_setup_connection, ws, reg_write64, when.
    destruct (src_mac c =? 0), (dst_mac c =? 0); cbn [negb app do_writes foldl do_write];
      rewrite ?(run_bind _ _ _ _ _ (run_ret tt _)), ?(run_bind _ _ _ _ _ (iowrite_run _ _ _ _ _));
      rewrite ?set_the_dev, ?the_set_dev, ?set_set_dev; reflexivity. }
  exists (set_dev (do_writes ws (the_dev s)) s). rewrite the_set_dev. split; [exact E|].
  assert (storage W64 ACCNET_UDP_TX ACCNET_UDP_TX_HDR_MAC_SRC = true) as S1 by done.
  assert (storage W64 ACCNET_UDP_TX ACCNET_UDP_TX_HDR_MAC_DST = true) as S2 by done.
  assert (forall m, 0 <= m < 2 ^ 48 -> fits ACCNET_UDP_TX ACCNET_UDP_TX_HDR_MAC_SRC m = true /\
                                       fits ACCNET_UDP_TX ACCNET_UDP_TX_HDR_MAC_DST m = true) as Hfit.
  { intros m Hm. cbn. destruct (within_spec 0 (2 ^ 48) m); [done|lia]. }
  destruct (Hfit _ Hs) as [F1 _], (Hfit _ Hd) as [_ F2].
  assert (Word.u (wbits W64) (src_mac c) = src_mac c) as Es by (change (wbits W64) with 64; apply u_small; lia).
  assert (Word.u (wbits W64) (dst_mac c) = dst_mac c) as Ed by (change (wbits W64) with 64; apply u_small; lia).
  unfold mac, ws. split; [|split].
  - destruct (src_mac c =? 0), (dst_mac c =? 0); cbn [app do_writes foldl do_write reg_val];
      unfold reg_val; rewrite ?read_write_other by (done || (right; right; vm_compute; discriminate));
      rewrite ?read_write_same by done; rewrite ?Es; reflexivity.
  - destruct (src_mac c =? 0), (dst_mac c =? 0); cbn [app do_writes foldl do_write reg_val];
      unfold reg_val; rewrite ?read_write_same by done; rewrite ?Ed; try reflexivity.
    rewrite read_write_other by (done || (right; left; vm_compute; discriminate)). reflexivity.
  - intros r f Hr Hf. apply reg_val_do_writes_other; [by apply storage_tx|]. unfold ws.
    assert (forall a, 0x400 <= a -> disjoint_acc (tx_width f) ACCNET_UDP_TX (tx_reg r f)
                                      W64 ACCNET_UDP_TX a) as Hdis.
    { intros a Ha'. right; left. rewrite tx_reg_val by done. destruct f; simpl; lia. }
    destruct (src_mac c =? 0), (dst_mac c =? 0); cbn [app]; forall_list;
      apply Hdis; vm_compute; discriminate.
Qed.

Lemma outside_ticks_run s :
  0 <= row (info (lib s)) < 64 ->
  let r := i32 (reg_val W64 ACCNET_UDP_RX (rx_reg (row (info (lib s))) RX_LAST_TIMESTAMP) (the_dev s)) in
  let t := i32 (reg_val W64 ACCNET_UDP_TX (tx_reg (row (info (lib s))) TX_LAST_TIMESTAMP) (the_dev s)) in
  accnet_get_outside_ticks s = (Ret (if r <=? t then 0 else u64 (i32 (r - t))), s).
Proof.
  intros Hr r t. unfold accnet_get_outside_ticks, reg_read64. rewrite run_get.
  change (ACCNET_UDP_RX_RING_LAST_TIMESTAMP ?x) with (rx_reg x RX_LAST_TIMESTAMP).
  change (ACCNET_UDP_TX_RING_LAST_TIMESTAMP ?x) with (tx_reg x TX_LAST_TIMESTAMP).
  rewrite (reg_off_rx _ RX_LAST_TIMESTAMP Hr : reg_off W64 _ = _),
    (reg_off_tx _ TX_LAST_TIMESTAMP Hr : reg_off W64 _ = _).
  rewrite (run_bind _ _ _ _ _ (ioread_plain _ ACCNET_UDP_RX _ _ ltac:(by apply consumes_none))).
  rewrite (run_bind _ _ _ _ _ (ioread_plain _ ACCNET_UDP_TX _ _ ltac:(by apply consumes_none))).
  cbv zeta. fold r t.
  by destruct (r <=? t).
Qed.

(** The time a packet spends outside the host is the difference of the two
    64-bit hardware stamps only while both are below 2^31 ticks: the stamps are
    held in [int] variables, and once the receive stamp has passed 2^31 ticks (43
    seconds at 50 MHz) while the send stamp has not, 0 is reported. *)
Theorem accnet_outside_ticks_spec s :
  0 <= row (info (lib s)) < 64 ->
  let r := reg_val W64 ACCNET_UDP_RX (rx_reg (row (info (lib s))) RX_LAST_TIMESTAMP) (the_dev s) in
  let t := reg_val W64 ACCNET_UDP_TX (tx_reg (row (info (lib s))) TX_LAST_TIMESTAMP) (the_dev s) in
  exists v, accnet_get_outside_ticks s = (Ret v, s) /\
    (0 <= t < 2 ^ 31 -> 0 <= r < 2 ^ 31 -> v = Z.max 0 (r - t)) /\
    (0 <= t < 2 ^ 31 -> 2 ^ 31 <= r < 2 ^ 32 -> v = 0).
Proof.
  intros Hr r t. eexists. split; [by apply outside_ticks_run|]. fold r t. split.
  - intros Ht Hrr. rewrite !(i_small 32 r), !(i_small 32 t) by lia.
    destruct (Z.leb_spec r t); [lia|]. rewrite i_small by lia. rewrite u_small by lia. lia.
  - intros Ht Hrr. rewrite (i_small 32 t) by lia.
    assert (i32 r = r - 2 ^ 32) as ->.
    { unfold i32, Word.i. change (2 ^ (32 - 1)) with (2 ^ 31).
      zdm. }
    destruct (Z.leb_spec (r - 2 ^ 32) t); [done|lia].
Qed.

(** The accessors of the transmit pointers do not reach the transmit engine:
    [accnet_set_tx_tail] for row [2 k] writes the TAIL register of {e receive}
    ring [k], and from row 8 on [accnet_get_tx_head], hence [accnet_send], reads
    beyond the end of [struct accnet_info]. *)
Theorem accnet_tx_accessors_misdirected k val buffer s :
  0 <= k < 32 -> row (info (lib s)) = 2 * k ->
  accnet_set_tx_tail val s
    = (Ret tt, set_dev (io_write W32 ACCNET_UDP_RX (ACCNET_UDP_RX_RING_TAIL k) val (the_dev s)) s) /\
  (8 <= 2 * k ->
   accnet_get_tx_head s = (Fault OutOfBounds, s) /\ accnet_send buffer s = (Fault OutOfBounds, s)).
Proof.
  intros Hk Er. split.
  - unfold accnet_set_tx_tail, reg_write32. rewrite run_get, Er.
    change (ACCNET_UDP_TX_RING_TAIL (2 * k)) with (tx_reg (2 * k) TX_TAIL).
    change (ACCNET_UDP_RX_RING_TAIL k) with (rx_reg k RX_TAIL).
    rewrite (reg_off_tx (2 * k) TX_TAIL ltac:(lia) : reg_off W32 _ = _).
    rewrite tx_reg_val, rx_reg_val by lia. replace (2 * k * 16 + 4) with (k * 32 + 4) by lia. done.
  - intros H8. assert (accnet_get_tx_head s = (Fault OutOfBounds, s)) as E.
    { unfold accnet_get_tx_head, struct_read32. rewrite !run_get, Er.
      change (ACCNET_UDP_TX_RING_HEAD (2 * k)) with (tx_reg (2 * k) TX_HEAD).
      rewrite (reg_off_tx (2 * k) TX_HEAD ltac:(lia) : reg_off W32 _ = _), tx_reg_val by lia.
      assert (length (accnet_info_bytes (acc s)) = 120%nat) as Hl by reflexivity.
      rewrite (proj2 (Nat.ltb_lt _ _)); [done|]. rewrite length_take, length_drop, Hl. lia. }
    split; [exact E|]. unfold accnet_send. rewrite run_get. by rewrite (run_bind_fault _ _ _ _ _ E).
Qed.
End facts.

(** ** Examples *)

Module SimAcc.
Import SimLib.
Definition sim_acc_os : AccOs := {|
  acc_open_fd := 6; acc_mmap_addr i := 0x9000000 + 0x10000 * (Z.abs i mod 1000) |}.
Definition handle16 : iocache_info := mk_info 3 0 0 16 1 0 0 0 0 0 8192 8192 4 5.
Definition client : acc_state RegFile.regfile :=
  mk_acc (set_info handle16 process) example_windows
    (mk_accnet 0 0 0 0 0 0 0 0 0 0 0 0 (mk_ring_info 0 0 0 0 0 0)) ∅.

Lemma client_openable : acc_openable (H3 := sim_acc_os) 0 client.
Proof.
  split.
  - done.
  - exact example_windows_ok.
  - intros i p n. unfold window. repeat case_bool; by intros [= <- <-].
  - intros i. simpl. pose proof (Z.mod_pos_bound (Z.abs i) 1000). lia.
  - exact process_mapped.
  - done.
  - done.
Qed.
End SimAcc.

Import SimAcc RegFile.

Lemma accnet_open_spec_witness :
  exists s', accnet_open (H2 := sim_acc_os) 0 1 true client = (Ret 0, s') /\
    row_initialised 16 (the_dev s').
Proof.
  destruct (accnet_open_spec (H3 := sim_acc_os) 0 1 client ltac:(done) client_openable)
    as (s' & E & Hi & _ & _ & _ & _ & _ & Ho).
  exists s'. split; [rewrite E; f_equal; by apply Ho|exact Hi].
Defined.

Lemma accnet_setup_connection_spec_witness :
  exists s', accnet_setup_connection true (mk_conn 17 0 0 0 0 0x001122334455 0) client = (Ret 0, s') /\
    reg_val W64 ACCNET_UDP_TX ACCNET_UDP_TX_HDR_MAC_SRC (the_dev s') = 0x001122334455.
Proof.
  destruct (accnet_setup_connection_spec (mk_conn 17 0 0 0 0 0x001122334455 0) client
    ltac:(done) ltac:(done)) as (s' & E & Hm & _).
  exists s'. split; [exact E|exact Hm].
Defined.

Lemma accnet_outside_ticks_spec_witness :
  exists v, accnet_get_outside_ticks client = (Ret v, client).
Proof.
  destruct (accnet_outside_ticks_spec client ltac:(done)) as (v & E & _). exists v. exact E.
Defined.

Lemma accnet_tx_accessors_misdirected_witness :
  accnet_send [1; 2; 3] client = (Fault OutOfBounds, client).
Proof.
  apply (accnet_tx_accessors_misdirected 8 0 [1; 2; 3] client); done.
Defined.
