(* ===== verification/UdpExp.v ===== *)
(** * The UDP experiments ([lib/udp_exp.c])

    The ring arithmetic and the test loops of the benchmark, over the process of
    [AccnetLib].  The device may change on every register read (class [Mmio]) and
    while the process sleeps ([dozing]); SIGINT arrives after a given number of
    polls of the flag.  Loops whose end the device or the user decides take a
    number of rounds and report [OutOfFuel] when it is used up.  Text output and
    floating-point summaries are left out. *)

From S2P Require Import Prelude Prog CLib Mmio UserMem AddrSpace AccnetRegs AccnetMisc IocacheRegs.
From S2P Require Import IocacheDriver IocacheMisc Common CommonRegs IocacheLib AccnetLib.

(** ** Pure helpers *)

Definition is_power_of_two_u32 (x : Z) : bool :=
  negb (x =? 0) && (Z.land x (u32 (x - 1)) =? 0).

(** Free bytes of a ring that keeps one byte empty; 32-bit arithmetic. *)
Definition ring_free_bytes (head tail size : Z) : Z :=
  if head <=? tail then u32 (size - (tail - head) - 1) else u32 (head - tail - 1).

(** Bytes waiting in a ring. *)
Definition ring_avail (head tail size : Z) : Z :=
  if head <=? tail then u32 (tail - head) else u32 (size - (head - tail)).

(** [while (sent < quota)]: the new tail and the bytes sent. *)
Fixpoint fill_loop (fuel : nat) (quota chunk size sent tail : Z) : option (Z * Z) :=
  if sent <? quota then
    match fuel with
    | O => None
    | S f => fill_loop f quota chunk size (u32 (sent + chunk)) (u32 (tail + chunk) mod size)
    end
  else Some (sent, tail).

Definition timespec_diff (start stop : timespec) : timespec :=
  let temp := mk_ts (tv_sec stop - tv_sec start) (tv_nsec stop - tv_nsec start) in
  if tv_nsec temp <? 0 then mk_ts (tv_sec temp - 1) (tv_nsec temp + 1000000000) else temp.

Definition timespec_from_tick (ns : Z) : timespec :=
  mk_ts (ns / 1000000000) (ns mod 1000000000).

(** ** The process *)

Record udp_state (D : Type) := mk_udp {
  ac : acc_state D;
  sig : option nat          (* polls of [g_got_sigint] before it is seen set *)
}.
Arguments mk_udp {D}.
Arguments ac {D}.
Arguments sig {D}.

Section udp.
Context {D : Type} `{Mmio D} `{MiscKernel} `{Os} `{AccOs}.
Variable dozing : D -> D.
Abbreviation M := (prog (udp_state D)).

Definition set_ac (a : acc_state D) (s : udp_state D) : udp_state D := mk_udp a (sig s).

#[export] Instance udp_has_dev : HasDev (udp_state D) D.
Proof.
  refine {| the_dev := λ s, the_dev (ac s); set_dev := λ d s, set_ac (set_dev d (ac s)) s |};
    by intros [[[[[]]]]].
Defined.

Definition acc_call {A} (m : prog (acc_state D) A) : M A := λ s,
  let '(o, a) := m (ac s) in (o, set_ac a s).

Definition got_sigint : M bool := λ s,
  match sig s with
  | None => (Ret false, s)
  | Some O => (Ret true, s)
  | Some (S n) => (Ret false, mk_udp (ac s) (Some n))
  end.

(** [pin_to_cpu]: a processor number out of range ends the process. *)
Definition pin_to_cpu (ncpu cpu : Z) : M unit :=
  if (cpu <? 0) || (ncpu <=? cpu) then exit 1 else mret tt.

Definition the_row : M Z := s ← get; mret (row (info (lib (ac s)))).
Definition wait_on_rx : M Z := acc_call (lib_call (iocache_wait_on_rx dozing)).
Definition read_tx_head (row : Z) : M Z := reg_read32 ACCNET_UDP_TX (ACCNET_UDP_TX_RING_HEAD row).
Definition read_tx_tail (row : Z) : M Z := reg_read32 ACCNET_UDP_TX (ACCNET_UDP_TX_RING_TAIL row).
Definition read_tx_size (row : Z) : M Z := reg_read32 IOCACHE (IOCACHE_REG_TX_RING_SIZE row).
Definition read_rx_head (row : Z) : M Z := reg_read32 ACCNET_UDP_RX (ACCNET_UDP_RX_RING_HEAD row).
Definition read_rx_tail (row : Z) : M Z := reg_read32 ACCNET_UDP_RX (ACCNET_UDP_RX_RING_TAIL row).
Definition read_rx_size (row : Z) : M Z := reg_read32 IOCACHE (IOCACHE_REG_RX_RING_SIZE row).
Definition write_tx_tail (row v : Z) : M unit :=
  reg_write32 ACCNET_UDP_TX (ACCNET_UDP_TX_RING_TAIL row) v.
Definition write_rx_head (row v : Z) : M unit :=
  reg_write32 ACCNET_UDP_RX (ACCNET_UDP_RX_RING_HEAD row) v.
Definition read_timestamp : M Z := reg_read64 ACCNET_CTRL ACCNET_CTRL_TIMESTAMP.

(** [(tail + n) % size] with a [size_t] size. *)
Definition advance_tail (tail n size : Z) : M Z :=
  if size =? 0 then fail DivByZero else mret (u32 (u32 (tail + n) mod size)).

(** ** Bulk transfers *)

(** Only whole chunks are queued; the ring is published once. *)
Definition try_fill_tx (chunk_bytes need_bytes : Z) : M Z :=
  row ← the_row;
  tx_head ← read_tx_head row;
  tx_tail ← read_tx_tail row;
  tx_size ← read_tx_size row;
  let freeb := ring_free_bytes tx_head tx_tail tx_size in
  let quarter := tx_size / 2 in
  let quota := if freeb <? quarter then freeb else quarter in
  let quota := if need_bytes <? quota then u32 need_bytes else quota in
  if chunk_bytes =? 0 then fail DivByZero
  else
    let quota := quota - quota mod chunk_bytes in
    if quota =? 0 then mret 0
    else
      match fill_loop (Z.to_nat quota) quota chunk_bytes tx_size 0 tx_tail with
      | None => diverge
      | Some (sent, tail) => write_tx_tail row tail;; mret sent
      end.

Definition drain_rx : M Z :=
  row ← the_row;
  rx_head ← read_rx_head row;
  rx_tail ← read_rx_tail row;
  rx_size ← read_rx_size row;
  let avail := ring_avail rx_head rx_tail rx_size in
  when (negb (avail =? 0)) (write_rx_head row rx_tail);;
  mret avail.

(** Bytes sent and received. *)
Fixpoint loopback_loop (fuel : nat) (payload_size target total_tx total_rx : Z) : M (Z * Z) :=
  b ← got_sigint;
  if negb b && (total_rx <? target) then
    match fuel with
    | O => diverge
    | S f =>
        total_tx ← (if total_tx <? target then
                      just_tx ← try_fill_tx payload_size (u64 (target - total_tx));
                      mret (u64 (total_tx + just_tx))
                    else mret total_tx);
        just_rx ← drain_rx;
        let total_rx := u64 (total_rx + just_rx) in
        (if (just_rx =? 0) && (target <=? total_tx) then _ ← wait_on_rx; mret tt else mret tt);;
        loopback_loop f payload_size target total_tx total_rx
    end
  else mret (total_tx, total_rx).

(** Bytes sent, bytes received and elapsed ticks. *)
Definition test_loopback_throughput (fuel : nat) (payload_size target : Z) : M (Z * Z * Z) :=
  t_start ← read_timestamp;
  '(tx, rx) ← loopback_loop fuel payload_size target 0 0;
  t_end ← read_timestamp;
  mret (tx, rx, u64 (t_end - t_start)).

(** [n] rounds are left after this one. *)
Fixpoint tx_worker_loop (n : nat) (row payload_size tx_size tx_tail : Z) : M unit :=
  tx_head ← read_tx_head row;
  s ← get;
  tx_tail ← (if payload_size <=? ring_free_bytes tx_head tx_tail tx_size then
               new_tx_tail ← advance_tail tx_tail payload_size (udp_tx_size (info (lib (ac s))));
               write_tx_tail row new_tx_tail;; mret new_tx_tail
             else mret tx_tail);
  match n with
  | O => mret tt
  | S n' =>
      b ← got_sigint;
      if (b : bool) then mret tt else tx_worker_loop n' row payload_size tx_size tx_tail
  end.

Definition tx_worker_fn (payload_size ntest : Z) : M unit :=
  row ← the_row;
  _ ← read_tx_head row;
  tx_tail ← read_tx_tail row;
  tx_size ← read_tx_size row;
  tx_worker_loop (Z.to_nat ntest) row payload_size tx_size tx_tail.

(** ** Receiving *)

Record sink_stats := mk_sink { first_tick : Z; last_tick : Z; sink_rx : Z }.

Fixpoint sink_loop (fuel : nat) (row rx_size rx_head : Z) (st : sink_stats) : M sink_stats :=
  b ← got_sigint;
  if (b : bool) then mret st
  else
    match fuel with
    | O => diverge
    | S f =>
        ret ← wait_on_rx;
        if negb (ret =? 0) then sink_loop f row rx_size rx_head st
        else
          rx_tail ← read_rx_tail row;
          let got := ring_avail rx_head rx_tail rx_size in
          if got =? 0 then sink_loop f row rx_size rx_head st
          else
            write_rx_head row rx_tail;;
            now ← read_timestamp;
            sink_loop f row rx_size rx_tail
              (mk_sink (if first_tick st =? 0 then now else first_tick st) now
                       (u64 (sink_rx st + got)))
    end.

Definition test_udp_server_throughput (fuel : nat) : M sink_stats :=
  row ← the_row;
  rx_head ← read_rx_head row;
  _ ← read_rx_tail row;
  rx_size ← read_rx_size row;
  sink_loop fuel row rx_size rx_head (mk_sink 0 0 0).

(** The server's view of its rings and its statistics; the tick sums are [int]. *)
Record server_vars := mk_server {
  v_rx_head : Z; v_tx_tail : Z; nPackets : Z; total_ticks : Z; total_ticks_2 : Z
}.

(** One round of the echo loop. *)
Definition server_round (row rx_size : Z) (v : server_vars) : M server_vars :=
  ret ← wait_on_rx;
  if negb (ret =? 0) then mret v
  else
    rx_tail ← read_rx_tail row;
    if rx_tail =? v_rx_head v then mret v
    else
      let size := if v_rx_head v <? rx_tail then u32 (rx_tail - v_rx_head v)
                  else u32 (rx_size - (v_rx_head v - rx_tail)) in
      s ← get;
      let i := info (lib (ac s)) in
      l ← acc_call (memcpy_from (udp_rx_buffer i + v_rx_head v) (Z.to_nat size));
      acc_call (memcpy_to (udp_tx_buffer i + v_tx_tail v) l);;
      write_rx_head row rx_tail;;
      new_tx_tail ← advance_tail (v_tx_tail v) size (udp_tx_size i);
      write_tx_tail row new_tx_tail;;
      after ← read_timestamp;
      r ← reg_read64 ACCNET_UDP_RX (ACCNET_UDP_RX_RING_LAST_TIMESTAMP row);
      t ← reg_read64 ACCNET_UDP_TX (ACCNET_UDP_TX_RING_LAST_TIMESTAMP row);
      let rx_timestamp := i32 r in
      let tx_timestamp := i32 t in
      mret (mk_server rx_tail new_tx_tail (u32 (nPackets v + 1))
              (i32 (total_ticks v + i32 (tx_timestamp - rx_timestamp)))
              (i32 (u64 (total_ticks_2 v + u64 (after - rx_timestamp))))).

Fixpoint server_loop (fuel : nat) (row rx_size : Z) (v : server_vars) : M server_vars :=
  match fuel with
  | O => diverge
  | S f =>
      v ← server_round row rx_size v;
      b ← got_sigint;
      if (b : bool) then mret v else server_loop f row rx_size v
  end.

(** [None]: the rings were not empty at the start. *)
Definition test_udp_server_block (fuel : nat) : M (option server_vars) :=
  row ← the_row;
  tx_head ← read_tx_head row;
  tx_tail ← read_tx_tail row;
  _ ← read_tx_size row;
  rx_head ← read_rx_head row;
  rx_tail ← read_rx_tail row;
  rx_size ← read_rx_size row;
  if negb (tx_head =? tx_tail) then mret None
  else if negb (rx_head =? rx_tail) then mret None
  else v ← server_loop fuel row rx_size (mk_server rx_head tx_tail 0 0 0); mret (Some v).

(** ** Round trips *)

(** [do { tx_head = ...; } while (tx_head != tx_tail);] *)
Fixpoint await_tx (fuel : nat) (row tx_tail : Z) : M unit :=
  match fuel with
  | O => diverge
  | S f => h ← read_tx_head row; if h =? tx_tail then mret tt else await_tx f row tx_tail
  end.

(** [(rx_tail > rx_head) ? rx_tail - rx_head : rx_size - (rx_head - rx_tail)] as an [int]. *)
Definition received_size (rx_head rx_tail rx_size : Z) : Z :=
  i32 (if rx_head <? rx_tail then u32 (rx_tail - rx_head) else u32 (rx_size - (rx_head - rx_tail))).

Fixpoint local_loop (fuel : nat) (row payload_size target rx_size tx_tail rx_head total_rx : Z) : M Z :=
  b ← got_sigint;
  if negb b && (total_rx <? target) then
    match fuel with
    | O => diverge
    | S f =>
        s ← get;
        new_tx_tail ← advance_tail tx_tail payload_size (udp_tx_size (info (lib (ac s))));
        write_tx_tail row new_tx_tail;;
        await_tx fuel row new_tx_tail;;
        _ ← wait_on_rx;
        rx_tail ← read_rx_tail row;
        let size := received_size rx_head rx_tail rx_size in
        write_rx_head row rx_tail;;
        local_loop f row payload_size target rx_size new_tx_tail rx_tail (u64 (total_rx + u64 size))
    end
  else mret total_rx.

(** Bytes received and elapsed ticks. *)
Definition test_loopback_throughput_local (fuel : nat) (payload_size target : Z) : M (Z * Z) :=
  row ← the_row;
  _ ← read_tx_head row;
  tx_tail ← read_tx_tail row;
  _ ← read_tx_size row;
  rx_head ← read_rx_head row;
  _ ← read_rx_tail row;
  rx_size ← read_rx_size row;
  before ← read_timestamp;
  total ← local_loop fuel row payload_size target rx_size tx_tail rx_head 0;
  after ← read_timestamp;
  mret (total, u64 (after - before)).

(** The round-trip time in ticks, 0 after a timeout. *)
Definition test_udp_latency_block (payload : list Z) : M Z :=
  row ← the_row;
  _ ← read_tx_head row;
  tx_tail ← read_tx_tail row;
  _ ← read_tx_size row;
  _ ← read_rx_head row;
  _ ← read_rx_size row;
  s ← get;
  let i := info (lib (ac s)) in
  acc_call (memcpy_to (udp_tx_buffer i + tx_tail) payload);;
  new_tx_tail ← advance_tail tx_tail (zlen payload) (udp_tx_size i);
  before ← read_timestamp;
  write_tx_tail row new_tx_tail;;
  ret ← wait_on_rx;
  after ← read_timestamp;
  rx_tail ← read_rx_tail row;
  write_rx_head row rx_tail;;
  if ret =? -1 then mret 0 else mret (u64 (after - before)).

(** [do { rx_tail = ...; } while (rx_tail != want && !g_got_sigint);] *)
Fixpoint await_rx (fuel : nat) (row want : Z) : M Z :=
  match fuel with
  | O => diverge
  | S f =>
      rx_tail ← read_rx_tail row;
      if rx_tail =? want then mret rx_tail
      else b ← got_sigint; if (b : bool) then mret rx_tail else await_rx f row want
  end.

Definition test_udp_latency_poll (fuel : nat) (payload : list Z) : M Z :=
  row ← the_row;
  rx_head ← read_rx_head row;
  _ ← read_rx_tail row;
  _ ← read_rx_size row;
  _ ← read_tx_head row;
  tx_tail ← read_tx_tail row;
  _ ← read_tx_size row;
  s ← get;
  let i := info (lib (ac s)) in
  acc_call (memcpy_to (udp_tx_buffer i + tx_tail) payload);;
  val ← advance_tail tx_tail (zlen payload) (udp_tx_size i);
  before ← read_timestamp;
  write_tx_tail row val;;
  want ← advance_tail rx_head (zlen payload) (udp_rx_size i);
  rx_tail ← await_rx fuel row want;
  after ← read_timestamp;
  _ ← read_rx_head row;
  _ ← read_rx_size row;
  _ ← read_tx_head row;
  _ ← read_tx_tail row;
  _ ← read_tx_size row;
  write_rx_head row rx_tail;;
  mret (u64 (after - before)).
End udp.
