(* ===== verification/UdpExpSpec.v ===== *)
(** * Properties of the UDP experiments

    The rings as counters modulo their size: what a transmission may queue, what
    a drain consumes, what the echo server copies. *)

From S2P Require Import Prelude Prog CLib Mmio UserMem AddrSpace AccnetRegs AccnetMisc IocacheRegs.
From S2P Require Import IocacheDriver IocacheMisc Common CommonRegs IocacheLib AccnetLib UdpExp.

(** Bytes in a ring, as a number below its size. *)
Definition ring_used (head tail size : Z) : Z := (tail - head) mod size.

Lemma ring_free_used head tail size :
  0 <= head < size -> 0 <= tail < size -> size <= 2 ^ 32 ->
  ring_free_bytes head tail size = size - 1 - ring_used head tail size /\
  0 <= ring_used head tail size < size.
Proof.
  intros Hh Ht Hs. unfold ring_free_bytes, ring_used.
  pose proof (Z.mod_pos_bound (tail - head) size ltac:(lia)). split; [|lia].
  destruct (Z.leb_spec head tail).
  - rewrite Z.mod_small, u_small by lia. lia.
  - replace (tail - head) with (tail - head + size + (-1) * size) by lia.
    rewrite Z.mod_add, Z.mod_small, u_small by lia. lia.
Qed.

Lemma ring_avail_used head tail size :
  0 <= head < size -> 0 <= tail < size -> size <= 2 ^ 32 ->
  ring_avail head tail size = ring_used head tail size.
Proof.
  intros Hh Ht Hs. unfold ring_avail, ring_used. destruct (Z.leb_spec head tail).
  - by rewrite Z.mod_small, u_small by lia.
  - replace (tail - head) with (tail - head + size + (-1) * size) by lia.
    rewrite Z.mod_add, Z.mod_small, u_small by lia. lia.
Qed.

(** Advancing the tail by [n] free bytes adds exactly [n] bytes. *)
Lemma ring_used_advance head tail size n :
  0 < size -> 0 <= n -> ring_used head tail size + n < size ->
  ring_used head ((tail + n) mod size) size = ring_used head tail size + n.
Proof.
  intros Hs Hn Hlt. unfold ring_used in *.
  rewrite Zminus_mod_idemp_l. replace (tail + n - head) with (tail - head + n) by lia.
  rewrite <- Zplus_mod_idemp_l. rewrite (Z.mod_small (_ + n)); [done|].
  pose proof (Z.mod_pos_bound (tail - head) size Hs). lia.
Qed.

(** The chunk loop sends the whole quota and moves the tail by it. *)
Lemma fill_loop_run chunk size quota : forall fuel sent tail,
  0 < chunk -> chunk <= quota -> quota <= size -> size <= 2 ^ 31 -> 0 <= tail < size ->
  0 <= sent <= quota -> (quota - sent) mod chunk = 0 -> quota - sent <= Z.of_nat fuel ->
  fill_loop fuel quota chunk size sent tail = Some (quota, (tail + (quota - sent)) mod size).
Proof.
  intros fuel. induction fuel as [|f IH]; intros sent tail Hc Hcq Hq Hs Ht Hse Hm Hf; cbn [fill_loop].
  - destruct (Z.ltb_spec sent quota); [lia|]. replace sent with quota by lia.
    rewrite Z.sub_diag, Z.add_0_r, Z.mod_small by lia. done.
  - destruct (Z.ltb_spec sent quota).
    + assert (sent + chunk <= quota).
      { assert ((quota - sent) / chunk * chunk = quota - sent) by zdm.
        assert (0 < (quota - sent) / chunk) by (apply Z.div_str_pos; split; [lia|];
          destruct (Z.le_gt_cases chunk (quota - sent)); [done|];
          rewrite Z.mod_small in Hm by lia; lia). nia. }
      rewrite !u_small by lia. rewrite IH; try lia.
      * replace (quota - sent) with (quota - (sent + chunk) + chunk) by lia.
        rewrite Zplus_mod_idemp_l. do 3 f_equal. lia.
      * apply Z.mod_pos_bound. lia.
      * replace (quota - (sent + chunk)) with (quota - sent + (-1) * chunk) by lia.
        by rewrite Z.mod_add by lia.
    + replace sent with quota by lia. rewrite Z.sub_diag, Z.add_0_r, Z.mod_small by lia. done.
Qed.

Section plain.
Context {D : Type} `{PlainMmio D} `{MiscKernel} `{Os} `{AccOs}.
Implicit Types s : udp_state D.

(** The registers of the caller's rings. *)
Definition my_row s : Z := row (info (lib (ac s))).
Definition tx_val (f : tx_field) s : Z :=
  reg_val (tx_width f) ACCNET_UDP_TX (tx_reg (my_row s) f) (the_dev s).
Definition rx_val (f : rx_field) s : Z :=
  reg_val (rx_width f) ACCNET_UDP_RX (rx_reg (my_row s) f) (the_dev s).
Definition size_val (f : row_field) s : Z :=
  reg_val W32 IOCACHE (IOCACHE_REG (my_row s) (field_off f)) (the_dev s).

(** Reading these registers has no effect. *)
Lemma size_read_plain f r : 0 <= r < 64 -> consumes W32 IOCACHE (IOCACHE_REG r (field_off f)) = false.
Proof. intros Hr. by apply (consumes_reg W32 (ROW r f)). Qed.

Lemma the_row_run s : the_row s = (Ret (my_row s), s).
Proof. done. Qed.

Lemma read_tx_run s :
  0 <= my_row s < 64 ->
  read_tx_head (my_row s) s = (Ret (tx_val TX_HEAD s), s) /\
  read_tx_tail (my_row s) s = (Ret (tx_val TX_TAIL s), s) /\
  read_tx_size (my_row s) s = (Ret (size_val TX_RING_SIZE s), s).
Proof.
  intros Hr. unfold read_tx_head, read_tx_tail, read_tx_size, reg_read32.
  change (ACCNET_UDP_TX_RING_HEAD ?x) with (tx_reg x TX_HEAD).
  change (ACCNET_UDP_TX_RING_TAIL ?x) with (tx_reg x TX_TAIL).
  change (IOCACHE_REG_TX_RING_SIZE ?x) with (IOCACHE_REG x (field_off TX_RING_SIZE)).
  rewrite (reg_off_tx _ TX_HEAD Hr : reg_off W32 _ = _),
    (reg_off_tx _ TX_TAIL Hr : reg_off W32 _ = _), reg_off_row by done.
  by rewrite !ioread_plain by first [by apply consumes_none | by apply size_read_plain].
Qed.

Lemma read_rx_run s :
  0 <= my_row s < 64 ->
  read_rx_head (my_row s) s = (Ret (rx_val RX_HEAD s), s) /\
  read_rx_tail (my_row s) s = (Ret (rx_val RX_TAIL s), s) /\
  read_rx_size (my_row s) s = (Ret (size_val RX_RING_SIZE s), s).
Proof.
  intros Hr. unfold read_rx_head, read_rx_tail, read_rx_size, reg_read32.
  change (ACCNET_UDP_RX_RING_HEAD ?x) with (rx_reg x RX_HEAD).
  change (ACCNET_UDP_RX_RING_TAIL ?x) with (rx_reg x RX_TAIL).
  change (IOCACHE_REG_RX_RING_SIZE ?x) with (IOCACHE_REG x (field_off RX_RING_SIZE)).
  rewrite (reg_off_rx _ RX_HEAD Hr : reg_off W32 _ = _),
    (reg_off_rx _ RX_TAIL Hr : reg_off W32 _ = _), reg_off_row by done.
  by rewrite !ioread_plain by first [by apply consumes_none | by apply size_read_plain].
Qed.

Definition put_tx_tail (v : Z) s : udp_state D :=
  set_dev (io_write W32 ACCNET_UDP_TX (tx_reg (my_row s) TX_TAIL) v (the_dev s)) s.
Definition put_rx_head (v : Z) s : udp_state D :=
  set_dev (io_write W32 ACCNET_UDP_RX (rx_reg (my_row s) RX_HEAD) v (the_dev s)) s.

Lemma write_run v s :
  0 <= my_row s < 64 ->
  write_tx_tail (my_row s) v s = (Ret tt, put_tx_tail v s) /\
  write_rx_head (my_row s) v s = (Ret tt, put_rx_head v s).
Proof.
  intros Hr. unfold write_tx_tail, write_rx_head, reg_write32.
  change (ACCNET_UDP_TX_RING_TAIL ?x) with (tx_reg x TX_TAIL).
  change (ACCNET_UDP_RX_RING_HEAD ?x) with (rx_reg x RX_HEAD).
  by rewrite (reg_off_tx _ TX_TAIL Hr : reg_off W32 _ = _),
    (reg_off_rx _ RX_HEAD Hr : reg_off W32 _ = _).
Qed.

(** Publishing a tail changes that register only. *)
Lemma put_tx_tail_vals v s :
  0 <= my_row s < 64 -> 0 <= v < 2 ^ 32 ->
  my_row (put_tx_tail v s) = my_row s /\
  tx_val TX_TAIL (put_tx_tail v s) = v /\ tx_val TX_HEAD (put_tx_tail v s) = tx_val TX_HEAD s /\
  (forall f, my_row s <> 32 -> rx_pointer f = true -> rx_val f (put_tx_tail v s) = rx_val f s) /\
  (forall f, f <> FLAGS_RO -> size_val f (put_tx_tail v s) = size_val f s).
Proof.
  intros Hr Hv. unfold put_tx_tail, tx_val, rx_val, size_val, reg_val.
  rewrite the_set_dev. change (my_row (set_dev _ s)) with (my_row s).
  split; [done|]. split; [|split; [|split]].
  - cbn [tx_width]. rewrite read_write_same; [by apply u_small|by apply (storage_tx _ TX_TAIL)|].
    by apply fits_tx.
  - apply read_write_other; [by apply storage_tx|].
    by apply (tx_ring_regs_disjoint _ TX_HEAD _ TX_TAIL).
  - intros f Hne Hf. apply read_write_other; [by apply storage_rx|by left].
  - intros f Hf. apply read_write_other; [by apply storage_row|by left].
Qed.

Lemma put_rx_head_vals v s :
  0 <= my_row s < 64 -> my_row s <> 32 -> 0 <= v < 2 ^ 32 ->
  my_row (put_rx_head v s) = my_row s /\
  rx_val RX_HEAD (put_rx_head v s) = v /\ rx_val RX_TAIL (put_rx_head v s) = rx_val RX_TAIL s /\
  (forall f, tx_pointer f = true -> tx_val f (put_rx_head v s) = tx_val f s) /\
  (forall f, f <> FLAGS_RO -> size_val f (put_rx_head v s) = size_val f s).
Proof.
  intros Hr Hne Hv. unfold put_rx_head, tx_val, rx_val, size_val, reg_val.
  rewrite the_set_dev. change (my_row (set_dev _ s)) with (my_row s).
  split; [done|]. split; [|split; [|split]].
  - cbn [rx_width]. rewrite read_write_same; [by apply u_small|by apply (storage_rx _ RX_HEAD)|done].
  - apply read_write_other; [by apply storage_rx|].
    by apply (rx_ring_regs_disjoint _ RX_TAIL _ RX_HEAD).
  - intros f Hf. apply read_write_other; [by apply storage_tx|by left].
  - intros f Hf. apply read_write_other; [by apply storage_row|by left].
Qed.

(** A ring with pointers below its size. *)
Record tx_ring_ok s : Prop := {
  tr_row : 0 <= my_row s < 64;
  tr_size : 0 < size_val TX_RING_SIZE s <= 2 ^ 31;
  tr_head : 0 <= tx_val TX_HEAD s < size_val TX_RING_SIZE s;
  tr_tail : 0 <= tx_val TX_TAIL s < size_val TX_RING_SIZE s
}.

Definition tx_used s : Z := ring_used (tx_val TX_HEAD s) (tx_val TX_TAIL s) (size_val TX_RING_SIZE s).
Definition tx_free s : Z := size_val TX_RING_SIZE s - 1 - tx_used s.

(** What [try_fill_tx] queues: the whole chunks of the least of the need, the free space
    and half the ring. *)
Lemma try_fill_tx_run chunk need s :
  tx_ring_ok s -> 0 < chunk -> 0 <= need < 2 ^ 64 ->
  let limit := Z.min need (Z.min (tx_free s) (size_val TX_RING_SIZE s / 2)) in
  exists sent s', try_fill_tx chunk need s = (Ret sent, s') /\
    sent = limit - limit mod chunk /\
    tx_used s' = tx_used s + sent /\ tx_ring_ok s' /\
    tx_val TX_HEAD s' = tx_val TX_HEAD s /\
    tx_val TX_TAIL s' = (tx_val TX_TAIL s + sent) mod size_val TX_RING_SIZE s.
Proof.
  intros [Hr Hs Hh Ht] Hc Hn limit.
  destruct (read_tx_run s Hr) as (Eh & Et & Es).
  unfold try_fill_tx. rewrite (run_bind _ _ _ _ _ (the_row_run s)),
    (run_bind _ _ _ _ _ Eh), (run_bind _ _ _ _ _ Et), (run_bind _ _ _ _ _ Es).
  unfold tx_free, tx_used in *.
  set (head := tx_val TX_HEAD s) in *. set (tail := tx_val TX_TAIL s) in *.
  set (size := size_val TX_RING_SIZE s) in *.
  destruct (ring_free_used head tail size Hh Ht ltac:(lia)) as [Ef Hu]. rewrite Ef.
  set (used := ring_used head tail size) in *.
  set (q1 := if size - 1 - used <? size / 2 then size - 1 - used else size / 2).
  assert (q1 = Z.min (size - 1 - used) (size / 2)) as E1
    by (unfold q1; destruct (Z.ltb_spec (size - 1 - used) (size / 2)); lia).
  assert (0 <= size / 2 <= size) by zdm.
  set (q2 := if need <? q1 then u32 need else q1).
  assert (q2 = limit) as ->.
  { unfold q2, limit. rewrite <- E1. destruct (Z.ltb_spec need q1); [rewrite u_small; lia|lia]. }
  rewrite (proj2 (Z.eqb_neq chunk 0)) by lia. cbv zeta.
  set (quota := limit - limit mod chunk).
  assert (0 <= limit <= size - 1 - used) by (unfold limit; lia).
  assert (0 <= limit mod chunk <= limit) by (split; [apply Z.mod_pos_bound; lia|apply Z.mod_le; lia]).
  assert (quota mod chunk = 0) as Hqm.
  { unfold quota. rewrite Zminus_mod_idemp_r, Z.sub_diag. apply Z.mod_0_l. lia. }
  destruct (Z.eqb_spec quota 0) as [Hq0|Hq0].
  - exists quota, s. rewrite Hq0. split; [done|]. split; [done|].
    rewrite !Z.add_0_r, Z.mod_small by lia. split; [done|]. split; [by split|done].
  - assert (chunk <= quota).
    { destruct (Z.le_gt_cases chunk quota); [done|]. rewrite Z.mod_small in Hqm by lia. lia. }
    rewrite fill_loop_run; try lia; [|by rewrite Z.sub_0_r].
    rewrite Z.sub_0_r. set (tail' := (tail + quota) mod size).
    assert (0 <= tail' < size) as Ht' by (apply Z.mod_pos_bound; lia).
    destruct (write_run tail' s Hr) as [Ew _]. rewrite (run_bind _ _ _ _ _ Ew).
    exists quota, (put_tx_tail tail' s). split; [done|]. split; [done|].
    destruct (put_tx_tail_vals tail' s Hr ltac:(lia)) as (Er & Ett & Ehh & _ & Ess).
    rewrite Ett, Ehh, Ess by done. fold head size.
    split; [apply ring_used_advance; lia|].
    split; [split; rewrite ?Er, ?Ett, ?Ehh, ?Ess by done; done|done].
Qed.

Lemma whole_chunks_le a b chunk : 0 < chunk -> a <= b -> a - a mod chunk <= b - b mod chunk.
Proof.
  intros Hc Hab. pose proof (Z.div_le_mono a b chunk Hc Hab).
  pose proof (Z.div_mod a chunk ltac:(lia)). pose proof (Z.div_mod b chunk ltac:(lia)). nia.
Qed.

(** C19: [try_fill_tx] ends and queues whole chunks only: no more than the free space and
    the remaining need, and no less than the whole chunks of the need and the free space
    that go into a quarter of the ring.  The bytes in the ring grow by exactly what it
    returns, so that the ring never overruns, and the tail moves by them. *)
Theorem try_fill_tx_spec chunk need s :
  tx_ring_ok s -> 0 < chunk -> 0 <= need < 2 ^ 64 ->
  let least := Z.min need (Z.min (tx_free s) (size_val TX_RING_SIZE s / 4)) in
  exists sent s', try_fill_tx chunk need s = (Ret sent, s') /\
    sent mod chunk = 0 /\ least - least mod chunk <= sent /\ sent <= tx_free s /\ sent <= need /\
    tx_used s' = tx_used s + sent /\ tx_ring_ok s' /\
    tx_val TX_HEAD s' = tx_val TX_HEAD s /\
    tx_val TX_TAIL s' = (tx_val TX_TAIL s + sent) mod size_val TX_RING_SIZE s.
Proof.
  intros Hok Hc Hn least.
  destruct (try_fill_tx_run chunk need s Hok Hc Hn) as (sent & s' & E & Hs & Hrest).
  set (limit := Z.min need (Z.min (tx_free s) (size_val TX_RING_SIZE s / 2))) in *.
  exists sent, s'. split; [exact E|].
  destruct Hok as [_ Hsz _ _]. pose proof (Z.mod_pos_bound limit chunk Hc).
  assert (least <= limit) as Hle by (unfold least, limit; zdm).
  split; [subst sent; rewrite Zminus_mod_idemp_r, Z.sub_diag; apply Z.mod_0_l; lia|].
  split; [subst sent; by apply whole_chunks_le|]. split; [lia|]. split; [lia|]. exact Hrest.
Qed.

(** A receive ring with pointers below its size; not the ring whose pointers are the
    interrupt registers. *)
Record rx_ring_ok s : Prop := {
  rr_row : 0 <= my_row s < 64;
  rr_irq : my_row s <> 32;
  rr_size : 0 < size_val RX_RING_SIZE s <= 2 ^ 31;
  rr_head : 0 <= rx_val RX_HEAD s < size_val RX_RING_SIZE s;
  rr_tail : 0 <= rx_val RX_TAIL s < size_val RX_RING_SIZE s
}.

Definition rx_used s : Z := ring_used (rx_val RX_HEAD s) (rx_val RX_TAIL s) (size_val RX_RING_SIZE s).

(** [drain_rx] returns the number of bytes waiting and leaves the ring empty;
    the transmit ring is not touched. *)
Theorem drain_rx_spec s :
  rx_ring_ok s ->
  exists s', drain_rx s = (Ret (rx_used s), s') /\ rx_used s' = 0 /\
    rx_val RX_TAIL s' = rx_val RX_TAIL s /\ rx_ring_ok s' /\
    (forall f, tx_pointer f = true -> tx_val f s' = tx_val f s).
Proof.
  intros [Hr Hq Hs Hh Ht]. destruct (read_rx_run s Hr) as (Eh & Et & Es).
  unfold drain_rx. rewrite (run_bind _ _ _ _ _ (the_row_run s)),
    (run_bind _ _ _ _ _ Eh), (run_bind _ _ _ _ _ Et), (run_bind _ _ _ _ _ Es).
  rewrite ring_avail_used by lia. cbv zeta. fold (rx_used s). unfold when.
  destruct (Z.eqb_spec (rx_used s) 0) as [E0|E0]; cbn [negb].
  - exists s. by rewrite E0.
  - destruct (write_run (rx_val RX_TAIL s) s Hr) as [_ Ew]. rewrite (run_bind _ _ _ _ _ Ew).
    eexists. split; [reflexivity|].
    destruct (put_rx_head_vals (rx_val RX_TAIL s) s Hr Hq ltac:(lia)) as (Er & Ehh & Ett & Etx & Ess).
    unfold rx_used, ring_used. rewrite Ehh, Ett, Ess, Z.sub_diag by done.
    split; [by apply Z.mod_0_l; lia|]. split; [done|]. split; [|done].
    split; rewrite ?Er, ?Ehh, ?Ett, ?Ess by done; done.
Qed.

(** ** The transmit worker *)

(** Queueing one payload that fits. *)
Definition queue_one (p : Z) s : prog (udp_state D) Z :=
  new_tx_tail ← advance_tail (tx_val TX_TAIL s) p (udp_tx_size (info (lib (ac s))));
  write_tx_tail (my_row s) new_tx_tail;; mret new_tx_tail.

Lemma queue_one_run p s :
  tx_ring_ok s -> 0 <= p < 2 ^ 31 -> udp_tx_size (info (lib (ac s))) = size_val TX_RING_SIZE s ->
  p <= tx_free s ->
  exists s', queue_one p s s = (Ret (tx_val TX_TAIL s'), s') /\ tx_ring_ok s' /\
    tx_used s' = tx_used s + p /\ my_row s' = my_row s /\
    size_val TX_RING_SIZE s' = size_val TX_RING_SIZE s /\ info (lib (ac s')) = info (lib (ac s)).
Proof.
  intros [Hr Hs Hh Ht] Hp Hsz Hfit. unfold queue_one, advance_tail, tx_free, tx_used in *.
  rewrite Hsz. set (size := size_val TX_RING_SIZE s) in *.
  rewrite (proj2 (Z.eqb_neq size 0)) by lia.
  rewrite (run_bind _ _ _ _ _ (run_ret _ _)), (u_small 32 (tx_val TX_TAIL s + p)) by lia.
  set (t := (tx_val TX_TAIL s + p) mod size).
  assert (0 <= t < size) by (apply Z.mod_pos_bound; lia). rewrite u_small by lia.
  destruct (write_run t s Hr) as [Ew _]. rewrite (run_bind _ _ _ _ _ Ew).
  destruct (put_tx_tail_vals t s Hr ltac:(lia)) as (Er & Ett & Ehh & _ & Ess).
  exists (put_tx_tail t s). rewrite Ett, Ehh, Ess by done. split; [done|].
  split; [split; rewrite ?Er, ?Ett, ?Ehh, ?Ess by done; done|].
  split; [apply ring_used_advance; lia|done].
Qed.

(** Polling the signal flag changes nothing else. *)
Lemma sigint_run s : exists b s', got_sigint s = (Ret b, s') /\ ac s' = ac s.
Proof. unfold got_sigint. destruct (sig s) as [[|m]|]; by eexists _, _. Qed.

Lemma same_ring s s' :
  ac s' = ac s -> tx_ring_ok s ->
  tx_ring_ok s' /\ tx_used s' = tx_used s /\ my_row s' = my_row s /\
  size_val TX_RING_SIZE s' = size_val TX_RING_SIZE s /\ tx_val TX_TAIL s' = tx_val TX_TAIL s.
Proof. destruct s as [a g], s' as [a' g']. cbn. by intros -> [? ? ? ?]. Qed.

Lemma tx_worker_loop_run p n : forall s,
  tx_ring_ok s -> 0 <= p < 2 ^ 31 -> udp_tx_size (info (lib (ac s))) = size_val TX_RING_SIZE s ->
  exists s' k, tx_worker_loop n (my_row s) p (size_val TX_RING_SIZE s) (tx_val TX_TAIL s) s = (Ret tt, s') /\
    tx_ring_ok s' /\ tx_used s' = tx_used s + Z.of_nat k * p /\ (k <= S n)%nat.
Proof.
  induction n as [|n IH]; intros s Hok Hp Hsz;
    (assert (exists s1 (j : nat),
      (if p <=? tx_free s then queue_one p s else mret (tx_val TX_TAIL s)) s
        = (Ret (tx_val TX_TAIL s1), s1) /\ tx_ring_ok s1 /\ my_row s1 = my_row s /\
      size_val TX_RING_SIZE s1 = size_val TX_RING_SIZE s /\ info (lib (ac s1)) = info (lib (ac s)) /\
      tx_used s1 = tx_used s + Z.of_nat j * p /\ (j <= 1)%nat)
      as (s1 & j & E1 & Hok1 & Er1 & Es1 & Ei1 & Hu1 & Hj);
    [destruct (Z.leb_spec p (tx_free s)) as [Hfit|];
      [destruct (queue_one_run p s Hok Hp Hsz Hfit) as (s1 & E & ? & ? & ? & ? & ?);
       exists s1, 1%nat; repeat (split; [done|]); lia
      |exists s, 0%nat; repeat (split; [done|]); lia]|]).
  all: cbn [tx_worker_loop]; pose proof Hok as [Hr Hs Hh Ht];
    destruct (read_tx_run s Hr) as (Eh & _ & _); rewrite (run_bind _ _ _ _ _ Eh), run_get;
    destruct (ring_free_used _ _ _ Hh Ht ltac:(lia)) as [Ef _]; rewrite Ef;
    fold (tx_used s); fold (tx_free s); fold (queue_one p s); rewrite (run_bind _ _ _ _ _ E1).
  - exists s1, j. split; [done|]. split; [done|]. split; lia.
  - destruct (sigint_run s1) as (b & s2 & Eb & Ea). rewrite (run_bind _ _ _ _ _ Eb).
    destruct (same_ring s1 s2 Ea Hok1) as (Hok2 & Hu2 & Er2 & Es2 & Et2). destruct b.
    + exists s2, j. split; [done|]. split; [done|]. split; lia.
    + destruct (IH s2 Hok2 Hp ltac:(by rewrite Ea, Es2, Ei1, Es1)) as (s' & k & E & Hok' & Hu' & Hk).
      rewrite Er2, Er1, Es2, Es1, Et2 in E.
      exists s', (j + k)%nat. split; [exact E|]. split; [done|]. split; lia.
Qed.

(** C20: The transmit worker ends after at most [ntest + 1] rounds and never overruns
    the ring, provided that the library and the device agree on its size: the
    bytes queued grow by a whole number of payloads. *)
Theorem tx_worker_no_overrun p ntest s :
  tx_ring_ok s -> 0 <= p < 2 ^ 31 -> 0 <= ntest ->
  udp_tx_size (info (lib (ac s))) = size_val TX_RING_SIZE s ->
  exists s' k, tx_worker_fn p ntest s = (Ret tt, s') /\ tx_ring_ok s' /\
    tx_used s' = tx_used s + k * p /\ 0 <= k <= ntest + 1 /\
    tx_used s' < size_val TX_RING_SIZE s'.
Proof.
  intros Hok Hp Hn Hsz. pose proof Hok as [Hr _ _ _]. destruct (read_tx_run s Hr) as (Eh & Et & Es).
  unfold tx_worker_fn. rewrite (run_bind _ _ _ _ _ (the_row_run s)),
    (run_bind _ _ _ _ _ Eh), (run_bind _ _ _ _ _ Et), (run_bind _ _ _ _ _ Es).
  destruct (tx_worker_loop_run p (Z.to_nat ntest) s Hok Hp Hsz) as (s' & k & E & Hok' & Hu & Hk).
  exists s', (Z.of_nat k). split; [exact E|]. split; [done|]. split; [done|]. split; [lia|].
  apply Z.mod_pos_bound. destruct Hok'. lia.
Qed.

(** ** The echo server *)

Lemma wait_ready_run dozing s :
  0 <= my_row s < 64 -> rx_available (the_dev s) (my_row s) = true ->
  wait_on_rx dozing s = (Ret 0, s).
Proof.
  intros Hr Ha. unfold wait_on_rx, acc_call, lib_call, iocache_wait_on_rx.
  rewrite (run_bind _ _ _ _ _ (is_rx_available_run (lib (ac s)) Hr)).
  change (rx_available (the_dev (lib (ac s))) (row (info (lib (ac s)))) = true) in Ha.
  rewrite Ha. by destruct s as [[]].
Qed.

Lemma memcpy_from_run a n s :
  range_mapped (maps (lib (ac s))) a n = true ->
  acc_call (memcpy_from a n) s = (Ret (ram_load (ram (ac s)) a n), s).
Proof.
  intros Hm. unfold acc_call, memcpy_from. rewrite run_get, Hm. by destruct s.
Qed.

Lemma memcpy_to_run a l s :
  range_mapped (maps (lib (ac s))) a (length l) = true ->
  acc_call (memcpy_to a l) s = (Ret tt, set_ac (set_ram (ram_store (ram (ac s)) a l) (ac s)) s).
Proof. intros Hm. unfold acc_call, memcpy_to. rewrite run_get, Hm. by destruct s. Qed.

Lemma ram_store_lookup l : forall m a k,
  ~ (a <= k < a + Z.of_nat (length l)) -> ram_store m a l !! k = m !! k.
Proof.
  induction l as [|b l IH]; intros m a k Hk; [done|]. cbn in *. rewrite IH by lia.
  apply lookup_insert_ne. lia.
Qed.

Lemma ram_load_store l : forall m a, ram_load (ram_store m a l) a (length l) = l.
Proof.
  unfold ram_load. induction l as [|b l IH]; intros m a; [done|]. cbn [length seq map ram_store].
  f_equal.
  - rewrite Z.add_0_r, ram_store_lookup by lia. by rewrite lookup_insert_eq.
  - etrans; [|apply (IH (<[a := b]> m) (a + 1))]. rewrite <- seq_shift, map_map.
    apply map_ext. intros k. do 2 f_equal. lia.
Qed.

Lemma length_ram_load m a n : length (ram_load m a n) = n.
Proof. unfold ram_load. by rewrite length_map, length_seq. Qed.

Lemma read_ts_run s : exists v, read_timestamp s = (Ret v, s).
Proof. unfold read_timestamp, reg_read64. eexists. by apply ioread_plain, consumes_none. Qed.

Lemma read_stamp_run r a s :
  r = ACCNET_UDP_RX \/ r = ACCNET_UDP_TX -> exists v, reg_read64 r a s = (Ret v, s).
Proof.
  intros Hr. unfold reg_read64. eexists. apply ioread_plain. by destruct Hr as [-> | ->]; apply consumes_none.
Qed.

(** One round of the echo server, for a packet that wraps in neither ring: the
    bytes received stand at the old tail of the transmit buffer, both pointers are
    advanced by the packet's size and published, and the packet is counted. *)
Theorem server_round_echo dozing v s :
  0 <= my_row s < 64 -> my_row s <> 32 -> rx_available (the_dev s) (my_row s) = true ->
  0 <= v_rx_head v < rx_val RX_TAIL s -> rx_val RX_TAIL s < 2 ^ 31 ->
  let size := rx_val RX_TAIL s - v_rx_head v in
  let i := info (lib (ac s)) in
  0 <= v_tx_tail v < udp_tx_size i -> udp_tx_size i <= 2 ^ 31 ->
  range_mapped (maps (lib (ac s))) (udp_rx_buffer i + v_rx_head v) (Z.to_nat size) = true ->
  range_mapped (maps (lib (ac s))) (udp_tx_buffer i + v_tx_tail v) (Z.to_nat size) = true ->
  exists v' s', server_round dozing (my_row s) (size_val RX_RING_SIZE s) v s = (Ret v', s') /\
    v_rx_head v' = rx_val RX_TAIL s /\ rx_val RX_HEAD s' = rx_val RX_TAIL s /\
    v_tx_tail v' = (v_tx_tail v + size) mod udp_tx_size i /\ tx_val TX_TAIL s' = v_tx_tail v' /\
    nPackets v' = u32 (nPackets v + 1) /\
    ram_load (ram (ac s')) (udp_tx_buffer i + v_tx_tail v) (Z.to_nat size)
    = ram_load (ram (ac s)) (udp_rx_buffer i + v_rx_head v) (Z.to_nat size).
Proof.
  intros Hr Hq Ha Hh Ht size i Htx Hsz Hm1 Hm2. unfold server_round.
  rewrite (run_bind _ _ _ _ _ (wait_ready_run dozing s Hr Ha)). change (negb (0 =? 0)) with false. cbv iota.
  destruct (read_rx_run s Hr) as (_ & Et & _). rewrite (run_bind _ _ _ _ _ Et).
  rewrite (proj2 (Z.eqb_neq (rx_val RX_TAIL s) (v_rx_head v))), (proj2 (Z.ltb_lt _ _)) by lia.
  rewrite u_small by lia. fold size. cbv zeta. rewrite run_get. fold i.
  rewrite (run_bind _ _ _ _ _ (memcpy_from_run _ _ s Hm1)).
  set (l := ram_load _ _ _). assert (length l = Z.to_nat size) as Hl by apply length_ram_load.
  rewrite <- Hl in Hm2.
  rewrite (run_bind _ _ _ _ _ (memcpy_to_run _ l s Hm2)).
  set (s1 := set_ac _ s).
  destruct (write_run (rx_val RX_TAIL s) s1 Hr) as [_ Ew].
  change (my_row s1) with (my_row s) in Ew. rewrite (run_bind _ _ _ _ _ Ew).
  destruct (put_rx_head_vals (rx_val RX_TAIL s) s1 Hr Hq ltac:(lia)) as (Er2 & Eh2 & _).
  set (s2 := put_rx_head _ s1) in *.
  unfold advance_tail. rewrite (proj2 (Z.eqb_neq _ 0)) by lia.
  rewrite (run_bind _ _ _ _ _ (run_ret _ _)), (u_small 32 (v_tx_tail v + size)) by lia.
  set (t := (v_tx_tail v + size) mod udp_tx_size i).
  assert (0 <= t < udp_tx_size i) by (apply Z.mod_pos_bound; lia). rewrite u_small by lia.
  assert (0 <= my_row s2 < 64) as Hr2 by by rewrite Er2.
  destruct (write_run t s2 Hr2) as [Ew2 _]. rewrite Er2 in Ew2.
  change (my_row s1) with (my_row s) in Ew2. rewrite (run_bind _ _ _ _ _ Ew2).
  destruct (put_tx_tail_vals t s2 Hr2 ltac:(lia)) as (_ & Ett & _ & Erx & _).
  set (s3 := put_tx_tail t s2) in *.
  destruct (read_ts_run s3) as [x1 E1]. rewrite (run_bind _ _ _ _ _ E1).
  destruct (read_stamp_run ACCNET_UDP_RX (ACCNET_UDP_RX_RING_LAST_TIMESTAMP (my_row s)) s3 (or_introl eq_refl)) as [x2 E2].
  rewrite (run_bind _ _ _ _ _ E2).
  destruct (read_stamp_run ACCNET_UDP_TX (ACCNET_UDP_TX_RING_LAST_TIMESTAMP (my_row s)) s3 (or_intror eq_refl)) as [x3 E3].
  rewrite (run_bind _ _ _ _ _ E3). eexists _, s3. split; [reflexivity|].
  split; [done|]. split; [rewrite Erx by (by rewrite ?Er2); exact Eh2|]. split; [done|]. split; [done|]. split; [done|].
  change (ram (ac s3)) with (ram_store (ram (ac s)) (udp_tx_buffer i + v_tx_tail v) l).
  rewrite <- Hl. apply ram_load_store.
Qed.

(** A packet that wraps in the receive ring is copied as if it did not: when its
    straight-line extent leaves the three pages that are mapped, the server
    faults. *)
Theorem server_wrap_faults dozing v s :
  0 <= my_row s < 64 -> rx_available (the_dev s) (my_row s) = true ->
  0 <= rx_val RX_TAIL s < v_rx_head v -> v_rx_head v < size_val RX_RING_SIZE s <= 2 ^ 31 ->
  let size := size_val RX_RING_SIZE s - (v_rx_head v - rx_val RX_TAIL s) in
  let b := udp_rx_buffer (info (lib (ac s))) in
  12288 < v_rx_head v + size -> v_rx_head v <= 12288 ->
  in_maps (maps (lib (ac s))) (b + 12288) = false ->
  server_round dozing (my_row s) (size_val RX_RING_SIZE s) v s = (Fault OutOfBounds, s).
Proof.
  intros Hr Ha Ht Hh size b Hext Hle Hout. unfold server_round.
  rewrite (run_bind _ _ _ _ _ (wait_ready_run dozing s Hr Ha)). change (negb (0 =? 0)) with false. cbv iota.
  destruct (read_rx_run s Hr) as (_ & Et & _). rewrite (run_bind _ _ _ _ _ Et).
  rewrite (proj2 (Z.eqb_neq (rx_val RX_TAIL s) (v_rx_head v))), (proj2 (Z.ltb_ge _ _)) by lia.
  rewrite u_small by lia. fold size. cbv zeta. rewrite run_get. fold b.
  apply run_bind_fault. unfold acc_call, memcpy_from. rewrite run_get.
  assert (range_mapped (maps (lib (ac s))) (b + v_rx_head v) (Z.to_nat size) = false) as ->.
  { apply not_true_iff_false. intros HF. unfold range_mapped in HF. rewrite forallb_forall in HF.
    specialize (HF (Z.to_nat (12288 - v_rx_head v))). rewrite in_seq in HF.
    specialize (HF ltac:(lia)). replace (b + v_rx_head v + Z.of_nat (Z.to_nat (12288 - v_rx_head v)))
      with (b + 12288) in HF by lia. congruence. }
  by destruct s as [[]].
Qed.
End plain.

(** [timespec_diff] of two normalised times, the second not earlier, is
    normalised and denotes their difference in nanoseconds. *)
Theorem timespec_diff_spec a b :
  0 <= tv_nsec a < 1000000000 -> 0 <= tv_nsec b < 1000000000 ->
  let ns t := tv_sec t * 1000000000 + tv_nsec t in
  let d := timespec_diff a b in
  0 <= tv_nsec d < 1000000000 /\ ns d = ns b - ns a /\
  (0 <= ns d -> timespec_from_tick (ns d) = d).
Proof.
  intros Ha Hb ns d.
  assert (0 <= tv_nsec d < 1000000000 /\ ns d = ns b - ns a) as [H1 H2].
  { unfold d, ns, timespec_diff. cbn [tv_nsec tv_sec].
    destruct (Z.ltb_spec (tv_nsec b - tv_nsec a) 0); cbn [tv_nsec tv_sec]; lia. }
  split; [done|]. split; [done|]. intros H3. unfold timespec_from_tick, ns.
  destruct d as [x y]. cbn [tv_nsec tv_sec] in *. f_equal; zdm.
Qed.

(** ** Examples *)

Module SimUdp.
Import SimLib SimAcc RegFile.

(** Row 16 with both rings mapped and 100 bytes received. *)
Definition bench_handle : iocache_info :=
  mk_info 3 0 0 16 1 0 0x70000 0x90000 0x70000 0x90000 8192 8192 4 5.
Definition bench_maps : list (Z * mmap_result) :=
  [(0x90000, MmapDma 0 0 12288); (0x70000, MmapDma 0 0 12288)].
Definition bench_regs (rx_tail : Z) : list (width * region * Z * Z) :=
  init_writes 16 ++ [(W32, ACCNET_UDP_RX, rx_reg 16 RX_TAIL, rx_tail);
                     (W8, IOCACHE, IOCACHE_REG 16 (field_off RX_AVAILABLE), 1)].
Definition bench (rx_tail : Z) : udp_state regfile :=
  let l := mk_lib (kern process) bench_handle bench_maps [] in
  mk_udp (mk_acc (set_dev (do_writes (bench_regs rx_tail) (the_dev l)) l)
            example_windows (acc client) (list_to_map [(0x90000, 7); (0x90001, 8)])) (Some 5%nat).
End SimUdp.

Import SimUdp RegFile.

Lemma timespec_diff_spec_witness :
  tv_nsec (timespec_diff (mk_ts 1 900000000) (mk_ts 3 100000000)) = 200000000.
Proof.
  destruct (timespec_diff_spec (mk_ts 1 900000000) (mk_ts 3 100000000)) as (_ & _ & E); [done|done|].
  reflexivity.
Defined.

Lemma bench_tx_ok t : t = 100 \/ t = 50 -> tx_ring_ok (bench t).
Proof. intros [-> | ->]; split; by vm_compute. Qed.

Lemma try_fill_tx_spec_witness :
  exists sent s', try_fill_tx 1024 1500 (bench 100) = (Ret sent, s') /\ sent = 1024.
Proof.
  destruct (try_fill_tx_spec 1024 1500 (bench 100) (bench_tx_ok 100 (or_introl eq_refl))
    ltac:(done) ltac:(done)) as (sent & s' & E & Hm & Hge & _ & Hle & _).
  exists sent, s'. split; [exact E|]. change (1024 <= sent) in Hge. zdm.
Defined.

(** The cap is half the ring, where the comments of the function say a quarter: of an
    empty ring of 8 KiB, four chunks of 1 KiB are filled at once. *)
Theorem try_fill_over_quarter :
  (try_fill_tx 1024 100000 (bench 100)).1 = Ret 4096 /\ size_val TX_RING_SIZE (bench 100) / 4 = 2048.
Proof. split; vm_compute; reflexivity. Qed.

Lemma drain_rx_spec_witness :
  exists s', drain_rx (bench 100) = (Ret 100, s') /\ rx_used s' = 0.
Proof.
  destruct (drain_rx_spec (bench 100)) as (s' & E & H0 & _); [split; by vm_compute|].
  assert (rx_used (bench 100) = 100) as Hu by (vm_compute; reflexivity).
  exists s'. split; [by rewrite <- Hu|exact H0].
Defined.

Lemma tx_worker_no_overrun_witness :
  exists s' k, tx_worker_fn 1024 20 (bench 100) = (Ret tt, s') /\ tx_used s' = tx_used (bench 100) + k * 1024.
Proof.
  destruct (tx_worker_no_overrun 1024 20 (bench 100) (bench_tx_ok 100 (or_introl eq_refl))
    ltac:(done) ltac:(done) ltac:(vm_compute; reflexivity)) as (s' & k & E & _ & Hu & _).
  exists s', k. split; [exact E|exact Hu].
Defined.

Lemma server_round_echo_witness :
  exists v' s', server_round (H0 := SimLib.sim_kernel) (H1 := SimLib.sim_os) (λ d, d) 16 8192
                  (mk_server 0 0 0 0 0) (bench 100) = (Ret v', s') /\
    v_tx_tail v' = 100.
Proof.
  destruct (server_round_echo (H1 := SimLib.sim_kernel) (H2 := SimLib.sim_os) (λ d, d)
    (mk_server 0 0 0 0 0) (bench 100)) as (v' & s' & E & _ & _ & Ht & _);
    try (vm_compute; first [reflexivity | done]).
  exists v', s'. split; [|rewrite Ht; vm_compute; reflexivity].
  change 16 with (my_row (bench 100)).
  replace 8192 with (size_val RX_RING_SIZE (bench 100)) by (vm_compute; reflexivity). exact E.
Defined.

Lemma server_wrap_faults_witness :
  server_round (H0 := SimLib.sim_kernel) (H1 := SimLib.sim_os) (λ d, d) (my_row (bench 8000))
    (size_val RX_RING_SIZE (bench 8000)) (mk_server 8100 0 0 0 0) (bench 8000)
  = (Fault OutOfBounds, bench 8000).
Proof.
  apply (server_wrap_faults (H1 := SimLib.sim_kernel) (H2 := SimLib.sim_os) (λ d, d)
    (mk_server 8100 0 0 0 0) (bench 8000)); vm_compute; first [reflexivity | done].
Defined.
