(* ===== verification/UdpMain.v ===== *)
(** * The main program of the UDP experiments ([main] of [lib/udp_exp.c])

    Command line, set-up, reset, the client's statistics and tear-down.  The
    number of processors and the results of [open] and [mmap] are parameters;
    printing is left out, the result file is the list of its rows. *)

From Stdlib Require String.
From S2P Require Import Prelude Prog CLib Mmio UserMem AddrSpace AccnetRegs AccnetMisc IocacheRegs.
From S2P Require Import IocacheDriver IocacheMisc Common CommonRegs IocacheLib AccnetLib UdpExp.
Import String.StringSyntax.
Local Open Scope string_scope.
Local Open Scope Z_scope.

(** ** The command line *)

Definition MODE_POLLING : list Z := chars "poll".
Definition MODE_BLOCKING : list Z := chars "block".
Definition MODE_SERVER : list Z := chars "server".
Definition MODE_LOOP : list Z := chars "loop".
Definition MODE_SINK : list Z := chars "sink".

Record opts := mk_opts {
  o_cpu : Z; o_ntests : Z; o_payload : Z; o_ring : Z; o_client_id : Z; o_bytes : Z;
  o_src_ip : list Z; o_src_mac : list Z; o_src_port : Z;
  o_dst_ip : list Z; o_dst_mac : list Z; o_dst_port : Z; o_mode : list Z;
  o_debug : bool; o_skip_first : bool; o_skip_file : bool; o_reset : bool; o_print_all : bool
}.

Definition default_opts : opts :=
  mk_opts 0 64 (1 * 1024) 0 0 (1 * 1024 * 1024)
    (chars "10.0.0.2") (chars "0c:42:a1:a8:2d:e6") 1111
    (chars "10.0.0.1") (chars "00:0a:35:06:4d:e2") 1234 MODE_POLLING
    false false false false false.

Definition set_nums (cpu ntests payload ring client bytes : Z) (o : opts) : opts :=
  mk_opts cpu ntests payload ring client bytes (o_src_ip o) (o_src_mac o) (o_src_port o)
    (o_dst_ip o) (o_dst_mac o) (o_dst_port o) (o_mode o) (o_debug o) (o_skip_first o)
    (o_skip_file o) (o_reset o) (o_print_all o).
Definition set_ends (sip smac : list Z) (sport : Z) (dip dmac : list Z) (dport : Z) (o : opts) : opts :=
  mk_opts (o_cpu o) (o_ntests o) (o_payload o) (o_ring o) (o_client_id o) (o_bytes o)
    sip smac sport dip dmac dport (o_mode o) (o_debug o) (o_skip_first o)
    (o_skip_file o) (o_reset o) (o_print_all o).
Definition set_mode (m : list Z) (o : opts) : opts :=
  mk_opts (o_cpu o) (o_ntests o) (o_payload o) (o_ring o) (o_client_id o) (o_bytes o)
    (o_src_ip o) (o_src_mac o) (o_src_port o) (o_dst_ip o) (o_dst_mac o) (o_dst_port o) m
    (o_debug o) (o_skip_first o) (o_skip_file o) (o_reset o) (o_print_all o).
Definition set_bools (d f k r p : bool) (o : opts) : opts :=
  mk_opts (o_cpu o) (o_ntests o) (o_payload o) (o_ring o) (o_client_id o) (o_bytes o)
    (o_src_ip o) (o_src_mac o) (o_src_port o) (o_dst_ip o) (o_dst_mac o) (o_dst_port o)
    (o_mode o) d f k r p.

Definition valid_mode (m : list Z) : bool :=
  bool_decide (m ∈ [MODE_POLLING; MODE_BLOCKING; MODE_SERVER; MODE_LOOP; MODE_SINK]).

(** An option with a value: the new options, or [main]'s return value, or
    [None] if there is no such option. *)
Definition set_value (a v : list Z) (o : opts) : option (opts + Z) :=
  if streq a "--bytes" then
    let n := atoll v in
    Some (if n <=? 0 then inr (-1)
          else inl (set_nums (o_cpu o) (o_ntests o) (o_payload o) (o_ring o) (o_client_id o) n o))
  else if streq a "--cpu" then
    Some (inl (set_nums (atoi v) (o_ntests o) (o_payload o) (o_ring o) (o_client_id o) (o_bytes o) o))
  else if streq a "--client-id" then
    Some (inl (set_nums (o_cpu o) (o_ntests o) (o_payload o) (o_ring o) (u16 (atoi v)) (o_bytes o) o))
  else if streq a "--ring" then
    Some (inl (set_nums (o_cpu o) (o_ntests o) (o_payload o) (atoi v) (o_client_id o) (o_bytes o) o))
  else if streq a "--ntest" then
    Some (inl (set_nums (o_cpu o) (atoi v) (o_payload o) (o_ring o) (o_client_id o) (o_bytes o) o))
  else if streq a "--mode" then
    Some (if valid_mode v then inl (set_mode v o) else inr (-1))
  else if streq a "--payload-size" then
    let n := atoi v in
    Some (if (n <=? 0) || negb (n mod 64 =? 0) then inr (-1)
          else inl (set_nums (o_cpu o) (o_ntests o) (u32 n) (o_ring o) (o_client_id o) (o_bytes o) o))
  else if streq a "--src-mac" then
    Some (inl (set_ends (o_src_ip o) v (o_src_port o) (o_dst_ip o) (o_dst_mac o) (o_dst_port o) o))
  else if streq a "--src-ip" then
    Some (inl (set_ends v (o_src_mac o) (o_src_port o) (o_dst_ip o) (o_dst_mac o) (o_dst_port o) o))
  else if streq a "--src-port" then
    Some (inl (set_ends (o_src_ip o) (o_src_mac o) (u16 (atoi v)) (o_dst_ip o) (o_dst_mac o) (o_dst_port o) o))
  else if streq a "--dst-mac" then
    Some (inl (set_ends (o_src_ip o) (o_src_mac o) (o_src_port o) (o_dst_ip o) v (o_dst_port o) o))
  else if streq a "--dst-ip" then
    Some (inl (set_ends (o_src_ip o) (o_src_mac o) (o_src_port o) v (o_dst_mac o) (o_dst_port o) o))
  else if streq a "--dst-port" then
    Some (inl (set_ends (o_src_ip o) (o_src_mac o) (o_src_port o) (o_dst_ip o) (o_dst_mac o) (u16 (atoi v)) o))
  else None.

(** An option without a value. *)
Definition set_flag (a : list Z) (o : opts) : option opts :=
  let '(d, f, k, r, p) := (o_debug o, o_skip_first o, o_skip_file o, o_reset o, o_print_all o) in
  if streq a "--debug" then Some (set_bools true f k r p o)
  else if streq a "--skip-first" then Some (set_bools d true k r p o)
  else if streq a "--skip-file" then Some (set_bools d f true r p o)
  else if streq a "--reset" then Some (set_bools d f k true p o)
  else if streq a "--print-all" then Some (set_bools d f k r true o)
  else None.

(** [inr c]: the program returns [c]. *)
Fixpoint parse_args (argv : list (list Z)) (o : opts) : opts + Z :=
  match argv with
  | [] => inl o
  | a :: rest =>
      let flag := match set_flag a o with Some o' => parse_args rest o' | None => inr 1 end in
      if streq a "--help" then inr 0
      else match rest with
           | [] => flag
           | v :: rest' =>
               match set_value a v o with
               | Some (inl o') => parse_args rest' o'
               | Some (inr c) => inr c
               | None => flag
               end
           end
  end.

(** ** The client's statistics *)

Record client_stats := mk_stats {
  received_ok : Z; received_total : Z; sum_ticks : Z; min_ticks : Z; max_ticks : Z;
  sum_network_latency_tick : Z; rtts : list Z; network_latency : list Z
}.

(** A round trip of [diff] ticks that is counted in the results. *)
Definition record_sample (i : nat) (diff net : Z) (st : client_stats) : client_stats :=
  let first := bool_decide (i = 0%nat) || (min_ticks st =? 0) in
  mk_stats (i32 (received_ok st + 1)) (i32 (received_total st + 1))
    (i64 (sum_ticks st + diff))
    (if first then i64 diff else if diff <? u64 (min_ticks st) then i64 diff else min_ticks st)
    (if first then i64 diff else if u64 (max_ticks st) <? diff then i64 diff else max_ticks st)
    (u64 (sum_network_latency_tick st + net))
    (<[i := i64 diff]> (rtts st)) (<[i := i64 net]> (network_latency st)).

(** A round trip that is only counted as received. *)
Definition count_only (st : client_stats) : client_stats :=
  mk_stats (received_ok st) (i32 (received_total st + 1)) (sum_ticks st) (min_ticks st)
    (max_ticks st) (sum_network_latency_tick st) (rtts st) (network_latency st).

(** The rows of the result file, times in ticks: only tests that were measured. *)
Definition result_rows (payload_size : Z) (st : client_stats) : list (Z * Z * Z * Z) :=
  omap (λ i, match rtts st !! i, network_latency st !! i with
             | Some r, Some n => if 0 <? r then Some (Z.of_nat i, payload_size, r, n) else None
             | _, _ => None
             end) (seq 0 (length (rtts st))).

Section main.
Context {D : Type} `{Mmio D} `{MiscKernel} `{Os} `{AccOs}.
Variable dozing : D -> D.
Variable frame : Z.
Abbreviation M := (prog (udp_state D)).

(** One round trip in the chosen mode. *)
Definition client_test (fuel : nat) (o : opts) (payload : list Z) : M Z :=
  if bool_decide (o_mode o = MODE_POLLING) then test_udp_latency_poll fuel payload
  else if bool_decide (o_mode o = MODE_BLOCKING) then test_udp_latency_block dozing payload
  else mret 0.

(** [left] tests are left. *)
Fixpoint client_loop (left : nat) (fuel : nat) (i : nat) (o : opts) (payload : list Z)
    (st : client_stats) : M client_stats :=
  match left with
  | O => mret st
  | S left' =>
      b ← got_sigint;
      if (b : bool) then mret st
      else
        diff ← client_test fuel o payload;
        if diff =? 0 then client_loop left' fuel (S i) o payload st
        else if bool_decide (i = 0%nat) && o_skip_first o then
          client_loop left' fuel (S i) o payload (count_only st)
        else
          net ← acc_call accnet_get_outside_ticks;
          client_loop left' fuel (S i) o payload (record_sample i diff net st)
  end.

(** One row of the reset loop. *)
Definition reset_row (i : Z) : M unit :=
  reg_write32 IOCACHE (IOCACHE_REG_PROC_PTR i) 0;;
  reg_write32 IOCACHE (IOCACHE_REG_ENABLED i) 0;;
  reg_write32 IOCACHE (IOCACHE_REG_RX_SUSPENDED i) 0;;
  reg_write32 IOCACHE (IOCACHE_REG_RX_RING_SIZE i) 0;;
  reg_write32 IOCACHE (IOCACHE_REG_TX_RING_SIZE i) 0;;
  reg_write32 IOCACHE (IOCACHE_REG_RX_RING_ADDR i) 0;;
  reg_write32 IOCACHE (IOCACHE_REG_TX_RING_ADDR i) 0.

Definition reset_table : M unit := for_loop (Z.to_nat IOCACHE_CACHE_ENTRY_COUNT) 0 reset_row.

(** The payload of the client: [payload[i] = i & 0xff]. *)
Definition client_payload (n : Z) : list Z := map (λ k, Z.of_nat k mod 256) (seq 0 (Z.to_nat n)).

(** What the mode writes to the result file, if it writes one. *)
Definition run_mode (fuel : nat) (o : opts) : M (option (list (Z * Z * Z * Z))) :=
  if bool_decide (o_mode o = MODE_LOOP) then
    _ ← test_loopback_throughput_local dozing fuel (o_payload o) (o_bytes o); mret None
  else if bool_decide (o_mode o = MODE_SERVER) then
    _ ← test_udp_server_block dozing fuel; mret None
  else if bool_decide (o_mode o = MODE_SINK) then
    _ ← test_udp_server_throughput dozing fuel; mret None
  else
    let zeros := repeat 0 (Z.to_nat (o_ntests o)) in
    st ← client_loop (Z.to_nat (o_ntests o)) fuel 0 o (client_payload (o_payload o))
          (mk_stats 0 0 0 0 0 0 zeros zeros);
    mret (if o_skip_file o then None else Some (result_rows (o_payload o) st)).

(** The end of [main]. *)
Definition teardown : M Z :=
  acc_call (lib_call iocache_clear_connection);;
  _ ← acc_call accnet_close;
  _ ← acc_call (lib_call (iocache_close frame));
  exit 0.

(** [main] after the command line; [handle] is the address of the iocache handle. *)
Definition session (ncpu handle : Z) (fuel : nat) (o : opts) : M Z :=
  pin_to_cpu ncpu (o_cpu o);;
  if o_ntests o <? 0 then mret 1
  else
    r ← acc_call (lib_call (iocache_open frame (o_ring o)));
    if r <? 0 then mret 1
    else
      r ← acc_call (accnet_open frame handle true);
      if r <? 0 then mret 1
      else if o_reset o then
        reset_table;;
        _ ← acc_call accnet_close;
        _ ← acc_call (lib_call (iocache_close frame));
        mret 0
      else
        match conn_from_strings_mac (mk_conn 0 0 0 0 0 0 0) 0x11
                (Some (o_src_mac o)) (Some (o_src_ip o)) (o_src_port o)
                (Some (o_dst_mac o)) (Some (o_dst_ip o)) (o_dst_port o) with
        | None => mret 1
        | Some conn =>
            _ ← acc_call (accnet_setup_connection true conn);
            acc_call (lib_call (iocache_setup_connection conn));;
            _ ← run_mode fuel o;
            teardown
        end.

Definition udp_exp_main (ncpu handle : Z) (fuel : nat) (argv : list (list Z)) : M Z :=
  match parse_args argv default_opts with
  | inr code => mret code
  | inl o => session ncpu handle fuel o
  end.
End main.
