(* ===== verification/UdpMainSpec.v ===== *)
(** * Properties of the main program of the UDP experiments

    What the command line can deliver, what the statistics mean, and what the
    reset leaves behind. *)

From Stdlib Require String.
From S2P Require Import Prelude Prog CLib Mmio UserMem AddrSpace AccnetRegs AccnetMisc IocacheRegs.
From S2P Require Import IocacheDriver IocacheMisc Common CommonRegs IocacheLib AccnetLib UdpExp.
From S2P Require Import UdpExpSpec UdpMain.
Import String.StringSyntax.

(** ** The command line *)

(** Options the rest of the program can rely on. *)
Record opts_ok (o : opts) : Prop := {
  ok_payload : 0 < o_payload o < 2 ^ 31 /\ o_payload o mod 64 = 0;
  ok_bytes : 0 < o_bytes o < 2 ^ 63;
  ok_ports : 0 <= o_src_port o < 2 ^ 16 /\ 0 <= o_dst_port o < 2 ^ 16;
  ok_ints : - 2 ^ 31 <= o_ring o < 2 ^ 31 /\ - 2 ^ 31 <= o_ntests o < 2 ^ 31;
  ok_mode : valid_mode (o_mode o) = true
}.

Lemma set_value_ok a v o o' : opts_ok o -> set_value a v o = Some (inl o') -> opts_ok o'.
Proof.
  intros [Hp Hb Hs Hi Hm]. unfold set_value.
  pose proof (strtoll_range v) as Hv. pose proof (i32_range (strtoll v)) as Ha.
  pose proof (u_range 16 (atoi v) ltac:(lia)) as H16. fold (atoll v) in Hv. fold (atoi v) in Ha.
  destruct (streq a "--bytes").
  { destruct (Z.leb_spec (atoll v) 0); intros [= <-]. split; cbn; (done || lia). }
  repeat match goal with |- (if streq a ?x then _ else _) = _ -> _ => destruct (streq a x) end;
    try (intros [= <-]; split; cbn; (done || lia)).
  - destruct (valid_mode v) eqn:Ev; intros [= <-]. split; cbn; (done || lia).
  - destruct (Z.leb_spec (atoi v) 0); [done|]. cbn [orb].
    destruct (Z.eqb_spec (atoi v mod 64) 0); intros [= <-]. split; cbn; [|done..].
    rewrite u_small by lia. lia.
Qed.

Lemma set_flag_ok a o o' : opts_ok o -> set_flag a o = Some o' -> opts_ok o'.
Proof.
  intros [Hp Hb Hs Hi Hm]. unfold set_flag.
  repeat match goal with |- (if streq a ?x then _ else _) = _ -> _ => destruct (streq a x) end;
    intros [= <-]; by split; cbn.
Qed.

Lemma parse_args_inv n : forall argv o,
  (length argv <= n)%nat -> opts_ok o ->
  match parse_args argv o with inl o' => opts_ok o' | inr c => c ∈ [0; 1; -1] end.
Proof.
  assert (forall a v o c, set_value a v o = Some (inr c) -> c = -1) as Hc.
  { intros a v o c. unfold set_value. repeat case_match; intros [= <-]; done. }
  induction n as [|n IH]; intros [|a rest] o Hl Hok; try (done || (cbn in Hl; lia)).
  cbn [parse_args]. cbn in Hl.
  assert (match match set_flag a o with Some o' => parse_args rest o' | None => inr 1 end with
          | inl o' => opts_ok o' | inr c => c ∈ [0; 1; -1] end) as Hflag.
  { destruct (set_flag a o) as [o'|] eqn:E; [|set_solver].
    apply IH; [lia|]. by eapply set_flag_ok. }
  destruct (streq a "--help"); [set_solver|].
  destruct rest as [|v rest']; [exact Hflag|].
  destruct (set_value a v o) as [[o'|c]|] eqn:E; [|apply Hc in E as ->; set_solver|exact Hflag].
  apply IH; [cbn in Hl; lia|]. by eapply set_value_ok.
Qed.

(** C30: The command line is always accepted or refused with a status: the options
    that come out have a positive payload that is a multiple of 64, a positive
    byte count, ports of 16 bits and one of the five modes; a refusal returns 0
    (help), 1 (unknown option) or -1 (bad value). *)
Theorem parse_args_total argv :
  match parse_args argv default_opts with
  | inl o => opts_ok o
  | inr c => c ∈ [0; 1; -1]
  end.
Proof. by apply (parse_args_inv (length argv)); [|split; vm_compute]. Qed.

(** ** Statistics *)

Definition nonzero (l : list Z) : list Z := filter (λ x, x <> 0) l.

(** The counters describe the list of round-trip times [l] (0: none measured). *)
Record stats_of (st : client_stats) (l : list Z) : Prop := {
  st_ok : received_ok st = zlen (nonzero l);
  st_total : received_ok st <= received_total st <= zlen l;
  st_sum : sum_ticks st = foldr Z.add 0 l;
  st_none : nonzero l = [] -> min_ticks st = 0 /\ max_ticks st = 0;
  st_some : nonzero l <> [] ->
    min_ticks st ∈ nonzero l /\ max_ticks st ∈ nonzero l /\
    Forall (λ x, min_ticks st <= x <= max_ticks st) (nonzero l)
}.

Definition small_tick (x : Z) : Prop := 0 <= x < 2 ^ 40.

Lemma foldr_add_snoc l x : foldr Z.add 0 (l ++ [x]) = foldr Z.add 0 l + x.
Proof. induction l as [|y l IH]; cbn; [lia|]. rewrite IH. lia. Qed.

Lemma foldr_add_bound l : Forall small_tick l -> 0 <= foldr Z.add 0 l <= zlen l * 2 ^ 40.
Proof.
  unfold zlen. induction 1 as [|x l Hx _ IH]; cbn [foldr length]; [lia|].
  unfold small_tick in Hx. lia.
Qed.

Lemma length_nonzero l : (length (nonzero l) <= length l)%nat.
Proof. apply length_filter. Qed.

Lemma nonzero_snoc l x : nonzero (l ++ [x]) = nonzero l ++ (if x =? 0 then [] else [x]).
Proof.
  unfold nonzero. rewrite list.filter_app. f_equal.
  destruct (Z.eqb_spec x 0); [by rewrite filter_cons_False by tauto|].
  by rewrite filter_cons_True.
Qed.

(** A test without a result. *)
Lemma stats_of_lost st l : stats_of st l -> stats_of st (l ++ [0]).
Proof.
  intros [Ho Ht Hs Hn Hm]. split; rewrite ?nonzero_snoc; cbn [Z.eqb]; rewrite ?app_nil_r; try done.
  - unfold zlen in *. rewrite length_app. cbn. lia.
  - rewrite foldr_add_snoc. lia.
Qed.

Lemma stats_of_count st l :
  zlen l < 2 ^ 22 -> stats_of st l -> stats_of (count_only st) (l ++ [0]).
Proof.
  intros Hl [Ho Ht Hs Hn Hm].
  split; rewrite ?nonzero_snoc; cbn [Z.eqb count_only received_ok received_total sum_ticks
    min_ticks max_ticks]; rewrite ?app_nil_r; try done.
  - unfold zlen in *. pose proof (length_nonzero l). rewrite length_app. cbn [length].
    rewrite i_small by lia. lia.
  - rewrite foldr_add_snoc. lia.
Qed.

(** A result that is recorded. *)
Lemma stats_of_record i net st l d :
  zlen l < 2 ^ 22 -> Forall small_tick (l ++ [d]) -> d <> 0 -> i = length l ->
  stats_of st l -> stats_of (record_sample i d net st) (l ++ [d]).
Proof.
  intros Hl HF Hd -> [Ho Ht Hs Hn Hm].
  apply Forall_app in HF as [HFl HFd]. apply list.Forall_cons in HFd as [Hsd _].
  pose proof (foldr_add_bound l HFl) as Hsum. pose proof (length_nonzero l) as Hnz.
  unfold small_tick in Hsd. unfold record_sample, zlen in *.
  assert (i64 d = d) as Ed by (apply i_small; lia).
  assert (nonzero l ++ [d] <> []) as Hne by by destruct (nonzero l).
  assert (forall x, x ∈ nonzero l -> small_tick x /\ x <> 0) as Hsm.
  { intros x Hx. apply list_elem_of_filter in Hx as [? Hx]. split; [|done].
    rewrite list.Forall_forall in HFl. by apply HFl. }
  split; rewrite ?nonzero_snoc, ?(proj2 (Z.eqb_neq d 0) Hd);
    cbn [received_ok received_total sum_ticks min_ticks max_ticks]; rewrite ?Ed.
  - rewrite i_small by lia. unfold zlen. rewrite length_app. cbn [length]. lia.
  - unfold zlen. rewrite !i_small by lia. rewrite length_app. cbn [length]. lia.
  - rewrite foldr_add_snoc, i_small by lia. lia.
  - done.
  - intros _. destruct (decide (nonzero l = [])) as [En|En].
    + destruct (Hn En) as [-> ->]. rewrite orb_true_r, En. cbn [app].
      split; [by apply list_elem_of_singleton|]. split; [by apply list_elem_of_singleton|].
      apply list.Forall_singleton. lia.
    + destruct (Hm En) as (Hmin & Hmax & HFm).
      destruct (Hsm _ Hmin) as [Smin Nmin], (Hsm _ Hmax) as [Smax _]. unfold small_tick in *.
      assert (length l <> 0%nat) as Hl0 by (intros E; destruct l; [by apply En|done]).
      rewrite bool_decide_false, (proj2 (Z.eqb_neq _ 0) Nmin) by done. cbn [orb].
      rewrite !u_small by lia.
      set (mn := if d <? min_ticks st then d else min_ticks st).
      set (mx := if max_ticks st <? d then d else max_ticks st).
      assert (mn = d /\ d < min_ticks st \/ mn = min_ticks st /\ min_ticks st <= d) as Emn
        by (unfold mn; destruct (Z.ltb_spec d (min_ticks st)); lia).
      assert (mx = d /\ max_ticks st < d \/ mx = max_ticks st /\ d <= max_ticks st) as Emx
        by (unfold mx; destruct (Z.ltb_spec (max_ticks st) d); lia).
      clearbody mn mx. split; [|split].
      * apply elem_of_app. destruct Emn as [[-> _]|[-> _]]; [right; by apply list_elem_of_singleton|by left].
      * apply elem_of_app. destruct Emx as [[-> _]|[-> _]]; [right; by apply list_elem_of_singleton|by left].
      * assert (min_ticks st <= max_ticks st)
          by (rewrite list.Forall_forall in HFm; pose proof (HFm _ Hmin); lia).
        apply list.Forall_app. split; [|apply list.Forall_singleton; lia].
        eapply Forall_impl; [|exact HFm]. intros x Hx. cbn in Hx |- *. lia.
Qed.

Section client.
Context {D : Type} `{Mmio D} `{MiscKernel} `{Os} `{AccOs}.
Implicit Types s : udp_state D.

(** The state of the loop after [i] of [n] tests: the results so far, then zeros;
    the counters describe them as long as the times are small. *)
Definition loop_inv (n i : nat) (st : client_stats) : Prop :=
  exists l, length l = i /\ rtts st = l ++ repeat 0 (n - i) /\
    (Forall small_tick l -> stats_of st l).

Lemma loop_inv_zero n i st f :
  (S i <= n)%nat -> rtts (f st) = rtts st ->
  (forall l, length l = i -> stats_of st l -> stats_of (f st) (l ++ [0])) ->
  loop_inv n i st -> loop_inv n (S i) (f st).
Proof.
  intros Hi Hr Hf (l & El & Er & Hs). exists (l ++ [0]). split; [rewrite length_app; cbn; lia|].
  split.
  - rewrite Hr, Er, <- app_assoc. f_equal. by replace (n - i)%nat with (S (n - S i)) by lia.
  - intros [HF _]%Forall_app. by apply Hf, Hs.
Qed.

Lemma i64_small_eq d : 0 <= d < 2 ^ 64 -> small_tick (i64 d) -> i64 d = d.
Proof.
  unfold i64, Word.i, small_tick. intros Hd. change (2 ^ (64 - 1)) with (2 ^ 63). zdm.
Qed.

Lemma loop_inv_record n i net st d :
  (S i <= n)%nat -> Z.of_nat n <= 2 ^ 22 -> 0 < d < 2 ^ 64 ->
  loop_inv n i st -> loop_inv n (S i) (record_sample i d net st).
Proof.
  intros Hi Hn Hd (l & El & Er & Hs). exists (l ++ [i64 d]).
  split; [rewrite length_app; cbn; lia|]. split.
  - cbn [record_sample rtts]. rewrite Er, insert_app_r_alt by lia.
    rewrite <- El, Nat.sub_diag, <- app_assoc. f_equal. rewrite El.
    by replace (n - i)%nat with (S (n - S i)) by lia.
  - intros HF. pose proof HF as [HFl HFd]%Forall_app.
    apply list.Forall_cons in HFd as [Hsd _]. rewrite (i64_small_eq d ltac:(lia) Hsd) in HF |- *.
    apply stats_of_record; [unfold zlen; lia|done|lia|done|by apply Hs].
Qed.

(** A round trip of 0 ticks is a timeout; the others are 64-bit numbers. *)
Lemma latency_range dozing fuel o payload s d s' :
  client_test dozing fuel o payload s = (Ret d, s') -> 0 <= d < 2 ^ 64.
Proof.
  assert (forall x, 0 <= u64 x < 2 ^ 64) as Hu by (intros x; apply u_range; lia).
  assert (0 <= 0 < 2 ^ 64) as Hz by lia. unfold client_test.
  case_bool_decide; [|case_bool_decide; [|by intros [= <- _]]].
  - unfold test_udp_latency_poll. intros E.
    repeat (apply bind_Ret_inv in E as (? & ? & _ & E)). by injection E as <- _.
  - unfold test_udp_latency_block. intros E.
    repeat (apply bind_Ret_inv in E as (? & ? & _ & E)).
    case_match; by injection E as <- _.
Qed.

Lemma got_sigint_ret s : exists b s', got_sigint s = (Ret b, s').
Proof. unfold got_sigint. repeat case_match; eauto. Qed.

(** Reading the stamps never fails. *)
Lemma outside_ticks_ret s : exists v s', acc_call accnet_get_outside_ticks s = (Ret v, s').
Proof.
  unfold acc_call, accnet_get_outside_ticks, reg_read64. rewrite run_get. unfold bind, ioread.
  destruct (io_read _ _ _ _) as [r d]. destruct (io_read _ _ _ _) as [t d'].
  cbv zeta. destruct (_ <=? _); eauto.
Qed.

(** What a run of the client amounts to: it ends with counters that satisfy the
    invariant, or a test does not return. *)
Definition client_result dozing n fuel o payload (r : outcome client_stats * udp_state D) : Prop :=
  (exists st' s' j, r = (Ret st', s') /\ (j <= n)%nat /\ loop_inv n j st') \/
  ((forall st', r.1 <> Ret st') /\
   exists s0 out, client_test dozing fuel o payload s0 = (out, r.2) /\ forall d, out <> Ret d).

Lemma client_loop_inv dozing n fuel o payload : Z.of_nat n <= 2 ^ 22 ->
  forall left i st s, (left + i = n)%nat -> loop_inv n i st ->
  client_result dozing n fuel o payload (client_loop dozing left fuel i o payload st s).
Proof.
  intros Hn left. induction left as [|left IH]; intros i st s Hi Hinv; cbn [client_loop].
  { left. exists st, s, i. split; [done|]. split; [lia|done]. }
  destruct (got_sigint_ret s) as (b & s1 & Eb). rewrite (run_bind _ _ _ _ _ Eb). destruct b.
  { left. exists st, s1, i. split; [done|]. split; [lia|done]. }
  destruct (client_test dozing fuel o payload s1) as [[d| | |] s2] eqn:Ed;
    [|right; split; [intros st'; unfold bind; by rewrite Ed|
        exists s1; eexists; unfold bind; rewrite Ed; by split]..].
  rewrite (run_bind _ _ _ _ _ Ed). apply latency_range in Ed.
  destruct (Z.eqb_spec d 0) as [->|Hd].
  - apply IH; [lia|].
    apply (loop_inv_zero n i st id); [lia|done|intros; by apply stats_of_lost|done].
  - case_match.
    + apply IH; [lia|]. apply (loop_inv_zero n i st count_only); [lia|done| |done].
      intros l El. apply stats_of_count. unfold zlen. lia.
    + destruct (outside_ticks_ret s2) as (net & s3 & En). rewrite (run_bind _ _ _ _ _ En).
      apply IH; [lia|]. apply loop_inv_record; [lia|lia|lia|done].
Qed.

Lemma loop_inv_stats n j st : (j <= n)%nat -> loop_inv n j st ->
  length (rtts st) = n /\ (Forall small_tick (rtts st) -> stats_of st (rtts st)).
Proof.
  intros Hj (l & El & Er & Hs). rewrite Er. split; [rewrite length_app, repeat_length; lia|].
  intros [HF _]%Forall_app. specialize (Hs HF). clear -Hs.
  induction (n - j)%nat as [|k IH]; [by rewrite app_nil_r|].
  replace (repeat 0 (S k)) with (repeat 0 k ++ [0]) by (symmetry; apply repeat_cons).
  rewrite app_assoc. by apply stats_of_lost.
Qed.

(** C29: The client's loop returns unless one of its tests does not, and the figures
    it reports then describe its table of round-trip times: for [n] tests, at most
    2^22, the number of results, their sum, minimum and maximum are those of the
    nonzero entries of [rtts], provided each entry is below 2^40 ticks (six hours
    at 50 MHz); lost and skipped tests leave a zero. *)
Theorem client_stats_exact dozing n fuel o payload s :
  Z.of_nat n <= 2 ^ 22 ->
  let r := client_loop dozing n fuel 0 o payload (mk_stats 0 0 0 0 0 0 (repeat 0 n) (repeat 0 n)) s in
  (exists st' s', r = (Ret st', s') /\ length (rtts st') = n /\
     (Forall small_tick (rtts st') -> stats_of st' (rtts st'))) \/
  ((forall st', r.1 <> Ret st') /\
   exists s0 out, client_test dozing fuel o payload s0 = (out, r.2) /\ forall d, out <> Ret d).
Proof.
  intros Hn r. destruct (client_loop_inv dozing n fuel o payload Hn n 0
    (mk_stats 0 0 0 0 0 0 (repeat 0 n) (repeat 0 n)) s) as [(st' & s' & j & E & Hj & Hi)|Hr];
    [lia| | |by right].
  - exists []. split; [done|]. rewrite Nat.sub_0_r. split; [done|]. intros _. by split; cbn.
  - left. exists st', s'. split; [exact E|]. by eapply loop_inv_stats.
Qed.
End client.

(** ** The reset *)

Definition reset_fields : list row_field :=
  [PROC_PTR; ENABLED; RX_SUSPENDED; RX_RING_SIZE; TX_RING_SIZE; RX_RING_ADDR; TX_RING_ADDR].

Definition reset_row_writes (i : Z) : list (width * region * Z * Z) :=
  map (λ f, (W32, IOCACHE, IOCACHE_REG i (field_off f), 0)) reset_fields.

Definition reset_writes : list (width * region * Z * Z) :=
  loop_writes reset_row_writes (Z.to_nat IOCACHE_CACHE_ENTRY_COUNT) 0.

(** The registers of a row are aligned whatever the row. *)
Lemma reg_off_row32 i f : reg_off W32 (IOCACHE_REG i (field_off f)) = IOCACHE_REG i (field_off f).
Proof.
  apply reg_off_aligned. change (Z.of_nat (wbytes W32)) with 4. unfold IOCACHE_REG, Word.u.
  rewrite field_off_beat. unfold IOCACHE_TABLE_BASE, IOCACHE_ROW_STRIDE, IOCACHE_BEAT_BYTES.
  generalize (i mod 2 ^ 64). intros r.
  replace (0x300 + r * 0x100 + 8 * field_beat f) with (4 * (192 + r * 64 + 2 * field_beat f)) by lia.
  replace (2 ^ 64) with (4 * 2 ^ 62) by reflexivity. rewrite Z.mul_mod_distr_l, Z.mul_comm by lia.
  by apply Z.mod_mul.
Qed.

Lemma reset_final_values :
  Forall (λ i, Forall (λ f, final_value reset_writes W32 IOCACHE (IOCACHE_REG i (field_off f)) None = Some 0)
                 reset_fields)
    (map Z.of_nat (seq 0 64)).
Proof. apply (bool_decide_eq_true_1 _). vm_compute. reflexivity. Qed.

(** No write of the reset touches the upper half of a 64-bit field. *)
Lemma reset_upper_halves :
  Forall (λ i, Forall (λ f, storage W32 IOCACHE (IOCACHE_REG i (field_off f) + 4) = true /\
                            Forall (λ x : width * region * Z * Z,
                              disjoint_acc W32 IOCACHE (IOCACHE_REG i (field_off f) + 4)
                                x.1.1.1 x.1.1.2 x.1.2) reset_writes)
                 [PROC_PTR; RX_RING_ADDR; TX_RING_ADDR])
    (map Z.of_nat (seq 0 64)).
Proof. apply (bool_decide_eq_true_1 _). vm_compute. reflexivity. Qed.

Lemma reset_row_run {D} `{Mmio D} i (s : udp_state D) :
  reset_row i s = (Ret tt, set_dev (do_writes (reset_row_writes i) (the_dev s)) s).
Proof.
  unfold reset_row, reg_write32.
  change (IOCACHE_REG_PROC_PTR i) with (IOCACHE_REG i (field_off PROC_PTR)).
  change (IOCACHE_REG_ENABLED i) with (IOCACHE_REG i (field_off ENABLED)).
  change (IOCACHE_REG_RX_SUSPENDED i) with (IOCACHE_REG i (field_off RX_SUSPENDED)).
  change (IOCACHE_REG_RX_RING_SIZE i) with (IOCACHE_REG i (field_off RX_RING_SIZE)).
  change (IOCACHE_REG_TX_RING_SIZE i) with (IOCACHE_REG i (field_off TX_RING_SIZE)).
  change (IOCACHE_REG_RX_RING_ADDR i) with (IOCACHE_REG i (field_off RX_RING_ADDR)).
  change (IOCACHE_REG_TX_RING_ADDR i) with (IOCACHE_REG i (field_off TX_RING_ADDR)).
  rewrite !reg_off_row32. by destruct s.
Qed.

Lemma reset_table_run {D} `{Mmio D} (s : udp_state D) :
  reset_table s = (Ret tt, set_dev (do_writes reset_writes (the_dev s)) s).
Proof. exact (for_loop_writes reset_row reset_row_writes reset_row_run _ 0 s). Qed.

(** [--reset] writes 32 bits of seven registers of every row: afterwards the low
    half of each of them is 0, but the upper halves of the three 64-bit registers,
    among them the process pointer the interrupt handler follows, keep their old
    contents. *)
Theorem reset_table_halves {D} `{PlainMmio D} (s : udp_state D) i f :
  0 <= i < IOCACHE_CACHE_ENTRY_COUNT -> f ∈ reset_fields ->
  exists s', reset_table s = (Ret tt, s') /\
    reg_val W32 IOCACHE (IOCACHE_REG i (field_off f)) (the_dev s') = 0 /\
    (f ∈ [PROC_PTR; RX_RING_ADDR; TX_RING_ADDR] ->
     reg_val W32 IOCACHE (IOCACHE_REG i (field_off f) + 4) (the_dev s')
     = reg_val W32 IOCACHE (IOCACHE_REG i (field_off f) + 4) (the_dev s)).
Proof.
  intros Hi Hf. unfold IOCACHE_CACHE_ENTRY_COUNT in Hi. eexists.
  split; [apply reset_table_run|]. rewrite the_set_dev.
  assert (i ∈ map Z.of_nat (seq 0 64)) as Hin.
  { apply list_elem_of_In. rewrite <- (Z2Nat.id i) by lia. apply in_map, in_seq. lia. }
  pose proof reset_final_values as HF. pose proof reset_upper_halves as HU.
  rewrite list.Forall_forall in HF, HU. specialize (HF i Hin). specialize (HU i Hin).
  rewrite list.Forall_forall in HF, HU. split.
  - assert (storage W32 IOCACHE (IOCACHE_REG i (field_off f)) = true) as Hst.
    { apply storage_row; [done|]. intros ->. by apply (bool_decide_pack _) in Hf. }
    by rewrite (final_value_spec _ _ _ _ Hst None 0 _ ltac:(done) (HF f Hf)).
  - intros Hf'. destruct (HU f Hf') as [Hst Hd].
    apply reg_val_do_writes_other; [exact Hst|]. eapply Forall_impl; [|exact Hd].
    by intros [[[w r] a] v].
Qed.

(** ** Examples *)

Import SimUdp RegFile.

(** A clock that advances by 7 ticks whenever it is read. *)
Definition clock_mmio : Mmio regfile := {|
  io_read w r a d :=
    let v := load (wbytes w) r a d in
    (v, if bool_decide (r = ACCNET_CTRL) then store (wbytes w) r a (v + 7) d else d);
  io_write w r a v d := store (wbytes w) r a v d
|}.

Local Notation clock_run :=
  (client_loop (H := clock_mmio) (H0 := SimLib.sim_kernel) (H1 := SimLib.sim_os) (λ d, d)
    3 10 0 (set_mode MODE_BLOCKING default_opts) [1; 2; 3]
    (mk_stats 0 0 0 0 0 0 (repeat 0 3) (repeat 0 3)) (bench 100)).

Lemma clock_run_rtts : match clock_run.1 with Ret st => Some (rtts st) | _ => None end = Some [7; 7; 7].
Proof. vm_compute. reflexivity. Qed.

Lemma rtts_stats {S} (run : outcome client_stats * S) (Q : Prop) l :
  (exists st' s', run = (Ret st', s') /\ length (rtts st') = length l /\
     (Forall small_tick (rtts st') -> stats_of st' (rtts st'))) \/ ((forall st', run.1 <> Ret st') /\ Q) ->
  match run.1 with Ret st => Some (rtts st) | _ => None end = Some l -> Forall small_tick l ->
  exists st' s', run = (Ret st', s') /\ rtts st' = l /\ stats_of st' l.
Proof.
  intros [(st' & s' & -> & _ & Hs)|[Hno _]] HR Hl.
  - injection HR as Er. exists st', s'. rewrite Er in Hs. auto.
  - destruct (run.1) as [st| | |]; [by destruct (Hno st)|discriminate HR..].
Qed.

Lemma client_stats_exact_witness :
  exists st' s', clock_run = (Ret st', s') /\ rtts st' = [7; 7; 7] /\ stats_of st' [7; 7; 7].
Proof.
  refine (rtts_stats _ _ [7; 7; 7] (client_stats_exact (H := clock_mmio) (H0 := SimLib.sim_kernel)
    (H1 := SimLib.sim_os) (λ d, d) 3 10 (set_mode MODE_BLOCKING default_opts) [1; 2; 3] (bench 100) _)
    clock_run_rtts _); [lia|by repeat constructor].
Defined.

Lemma reset_table_halves_witness :
  exists s', reset_table (bench 100) = (Ret tt, s') /\
    reg_val W32 IOCACHE (IOCACHE_REG 16 (field_off ENABLED)) (the_dev s') = 0.
Proof.
  destruct (reset_table_halves (bench 100) 16 ENABLED) as (s' & E & H0 & _);
    [done|by apply (bool_decide_eq_true_1 _)|].
  exists s'. split; [exact E|exact H0].
Defined.
