(* ===== verification/UdpSession.v ===== *)
(** * A session of the UDP experiments

    [main] of [lib/udp_exp.c] from the first [open] to [exit], through both user
    libraries and both drivers.  Whatever the chosen mode does with its rings, it
    leaves the handles, the mappings, the descriptors and the drivers' bookkeeping
    alone, so that the end of [main] releases what its beginning took. *)

From Stdlib Require String.
From S2P Require Import Prelude Prog CLib Mmio UserMem AddrSpace AccnetRegs AccnetMisc IocacheRegs.
From S2P Require Import IocacheDriver IocacheMisc Common CommonRegs IocacheLib AccnetLib UdpExp.
From S2P Require Import UdpExpSpec UdpMain UdpMainSpec.

(** ** What the tests leave alone *)

Section keep.
Context {D : Type} `{Mmio D} `{MiscKernel} `{Os} `{AccOs}.
Variable frame : Z.

(** The process as the libraries know it. *)
Record lib_kept (s s' : lib_state D) : Prop := {
  kp_info : info s' = info s;
  kp_maps : maps s' = maps s;
  kp_fds : fds s' = fds s;
  kp_driver : same_driver frame (kern s) (kern s');
  kp_tasks : tasks (kern s') = tasks (kern s)
}.

Definition kept (s s' : udp_state D) : Prop :=
  lib_kept (lib (ac s)) (lib (ac s')) /\ acc (ac s') = acc (ac s).

#[export] Instance lib_kept_preorder : PreOrder lib_kept.
Proof.
  split.
  - intros s. by repeat split.
  - intros s1 s2 s3 [] []. split; try congruence. by eapply same_driver_trans.
Qed.

#[export] Instance kept_preorder : PreOrder kept.
Proof.
  split.
  - intros s. by split.
  - intros s1 s2 s3 [] []. split; [by etrans|congruence].
Qed.

#[export] Instance lib_kept_dev : IgnoresDev lib_kept.
Proof. intros d s. by repeat split. Qed.

#[export] Instance kept_dev : IgnoresDev kept.
Proof. intros d s. split; [|done]. apply (ignores_dev (S := lib_state D)). Qed.

Lemma preserves_sigint : preserves kept got_sigint.
Proof. intros s. unfold got_sigint. by destruct (sig s) as [[]|]. Qed.

Lemma preserves_memcpy_to a l : preserves kept (acc_call (memcpy_to a l)).
Proof. intros s. unfold acc_call, memcpy_to. rewrite run_get. by destruct (range_mapped _ _ _). Qed.

Lemma preserves_memcpy_from a n : preserves kept (acc_call (memcpy_from a n)).
Proof. intros s. unfold acc_call, memcpy_from. rewrite run_get. by destruct (range_mapped _ _ _). Qed.

Lemma preserves_lib_call {A} (m : prog (lib_state D) A) :
  preserves lib_kept m -> preserves kept (acc_call (lib_call m)).
Proof.
  intros Hm s. specialize (Hm (lib (ac s))). unfold acc_call, lib_call.
  destruct (m (lib (ac s))) as [o l]. by split.
Qed.

Lemma preserves_outside_ticks : preserves kept (acc_call accnet_get_outside_ticks).
Proof.
  intros s. unfold acc_call, accnet_get_outside_ticks, reg_read64. rewrite run_get.
  unfold bind, ioread. destruct (io_read _ _ _ _) as [r d]. destruct (io_read _ _ _ _) as [t d'].
  cbv zeta. destruct (_ <=? _); (split; [|done]); by repeat split.
Qed.

(** Waiting in the driver moves the device and the trace only. *)
Lemma preserves_wait_ioctl : preserves lib_kept (ioctl IOCACHE_IOCTL_WAIT_READY 0).
Proof. intros s. by repeat split. Qed.
End keep.

#[export] Hint Resolve preserves_sigint preserves_memcpy_to preserves_memcpy_from preserves_lib_call
  preserves_outside_ticks preserves_wait_ioctl : frame.

Section tests.
Context {D : Type} `{Mmio D} `{MiscKernel} `{Os} `{AccOs}.
Variable frame : Z.
Variable dozing : D -> D.
Abbreviation kept := (kept (D := D) frame).

Lemma preserves_wait : preserves kept (wait_on_rx dozing).
Proof.
  apply preserves_lib_call. unfold iocache_wait_on_rx, iocache_is_rx_available,
    iocache_set_rx_suspended, iocache_enable_interrupts_rx, iocache_clear_rx_suspended,
    reg_read8, reg_write8. frame.
Qed.

Ltac frame_unfold :=
  unfold the_row, read_tx_head, read_tx_tail, read_tx_size, read_rx_head, read_rx_tail, read_rx_size,
    write_tx_tail, write_rx_head, read_timestamp, advance_tail, reg_read32, reg_read64, reg_write32.

Hint Resolve preserves_wait : frame.

Lemma preserves_await_tx row tail fuel : preserves kept (await_tx fuel row tail).
Proof. induction fuel; cbn [await_tx]; frame_unfold; frame. Qed.

Lemma preserves_await_rx row want fuel : preserves kept (await_rx fuel row want).
Proof. induction fuel; cbn [await_rx]; frame_unfold; frame. Qed.

Hint Resolve preserves_await_tx preserves_await_rx : frame.

Lemma preserves_latency_block payload : preserves kept (test_udp_latency_block dozing payload).
Proof. unfold test_udp_latency_block. frame_unfold. frame. Qed.

Lemma preserves_latency_poll fuel payload : preserves kept (test_udp_latency_poll fuel payload).
Proof. unfold test_udp_latency_poll. frame_unfold. frame. Qed.

Lemma preserves_local_loop row payload target size fuel : forall tail head total,
  preserves kept (local_loop dozing fuel row payload target size tail head total).
Proof.
  induction fuel; intros tail head total; cbn [local_loop]; frame_unfold; frame.
Qed.

Lemma preserves_server_loop row size fuel : forall v, preserves kept (server_loop dozing fuel row size v).
Proof.
  induction fuel; intros v; cbn [server_loop]; unfold server_round; frame_unfold; frame.
Qed.

Lemma preserves_sink_loop row size fuel : forall head st,
  preserves kept (sink_loop dozing fuel row size head st).
Proof. induction fuel; intros head st; cbn [sink_loop]; frame_unfold; frame. Qed.

Hint Resolve preserves_latency_block preserves_latency_poll preserves_local_loop
  preserves_server_loop preserves_sink_loop : frame.

Lemma preserves_client_loop fuel o payload left : forall i st,
  preserves kept (client_loop dozing left fuel i o payload st).
Proof.
  induction left; intros i st; cbn [client_loop]; unfold client_test; frame.
Qed.

Hint Resolve preserves_client_loop : frame.

(** However a mode ends, it has not touched what the libraries keep. *)
Lemma preserves_run_mode fuel o : preserves kept (run_mode dozing fuel o).
Proof.
  unfold run_mode, test_loopback_throughput_local, test_udp_server_block, test_udp_server_throughput.
  frame_unfold. frame.
Qed.
End tests.

(** ** Beginning and end *)

Section session.
Context {D : Type} `{PlainMmio D} `{MiscKernel} `{Os} `{AccOs}.
Variable frame : Z.
Variable dozing : D -> D.
Implicit Types s : udp_state D.

Lemma acc_call_run {A} (m : prog (acc_state D) A) s r a :
  m (ac s) = (Ret r, a) -> acc_call m s = (Ret r, set_ac a s).
Proof. intros E. unfold acc_call. by rewrite E. Qed.

Lemma lib_call_run {A} (m : prog (lib_state D) A) s r l :
  m (lib (ac s)) = (Ret r, l) -> acc_call (lib_call m) s = (Ret r, set_ac (set_lib l (ac s)) s).
Proof. intros E. apply acc_call_run. unfold lib_call. by rewrite E. Qed.

(** What [main] relies on: a system that grants what it asks for, descriptors that
    are not in use, and options that name a row, a processor and a connection. *)
Definition conn_of (o : opts) : option connection_info :=
  conn_from_strings_mac (mk_conn 0 0 0 0 0 0 0) 0x11
    (Some (o_src_mac o)) (Some (o_src_ip o)) (o_src_port o)
    (Some (o_dst_mac o)) (Some (o_dst_ip o)) (o_dst_port o).

Record startable (ncpu : Z) (o : opts) s : Prop := {
  sa_run : o_reset o = false;
  sa_conn : is_Some (conn_of o);
  sa_cpu : 0 <= o_cpu o < ncpu;
  sa_ntests : 0 <= o_ntests o;
  sa_iocache : openable frame (o_ring o) (lib (ac s));
  sa_fd : 0 <= acc_open_fd;
  sa_windows : windows_ok (anic (ac s));
  sa_pages i p n : window (anic (ac s)) i = Some (p, n) -> n mod 4096 = 0;
  sa_addr i : 0 <= acc_mmap_addr i < 2 ^ 62;
  sa_nodup : NoDup [acc_open_fd; os_epoll; os_eventfd; os_open];
  sa_fresh : Forall (λ f, f ∉ fds (lib (ac s))) [acc_open_fd; os_epoll; os_eventfd; os_open];
  sa_frame : mapped (mem (kern (lib (ac s)))) frame 72;
  (** Ring 32, whose receive tail is the interrupt-clear register: it reads as 0 after
      0 was written. *)
  sa_irq : o_ring o = 32 -> forall d : D,
    reg_val W32 ACCNET_UDP_RX (ACCNET_UDP_RX_RING_TAIL 32) (do_writes (init_writes 32) d) = 0
}.

(** The process between the beginning and the end. *)
Record connected (r : Z) s s1 : Prop := {
  cn_row : row (info (lib (ac s1))) = r;
  cn_tx : udp_tx_buffer (info (lib (ac s1))) = os_mmap_addr (2 * r + 1);
  cn_size : udp_tx_size (info (lib (ac s1))) = 8 * 1024;
  cn_desc : fd (info (lib (ac s1))) = os_open /\ efd (info (lib (ac s1))) = os_eventfd /\
            ep (info (lib (ac s1))) = os_epoll /\ ac_fd (acc (ac s1)) = acc_open_fd;
  cn_fds : fds (lib (ac s1)) = acc_open_fd :: os_epoll :: os_eventfd :: os_open :: fds (lib (ac s));
  cn_driver : same_driver frame (kern (lib (ac s))) (kern (lib (ac s1)));
  cn_task : iocache_id (tasks (kern (lib (ac s1))) os_pid) = r;
  cn_map : exists c d, (os_mmap_addr (2 * r + 1), MmapDma c d 12288) ∈ maps (lib (ac s1))
}.

Lemma connected_kept r s s1 s2 : connected r s s1 -> kept frame s1 s2 -> connected r s s2.
Proof.
  intros [] [[Ei Em Ef Sd Et] Ea]. split; rewrite ?Ei, ?Em, ?Ef, ?Et, ?Ea; try done.
  by eapply same_driver_trans.
Qed.

(** Both libraries opened. *)
Lemma open_both ncpu handle o s :
  startable ncpu o s -> handle <> 0 ->
  exists s0 s1,
    acc_call (lib_call (iocache_open frame (o_ring o))) s = (Ret 0, s0) /\
    acc_call (accnet_open frame handle true) s0 = (Ret 0, s1) /\
    connected (o_ring o) s s1 /\ tx_val TX_TAIL s1 = 0.
Proof.
  intros [_ _ Hcpu Hn O Hfd Hw Hp Ha Hnd Hf Hfr Hirq] Hh.
  destruct (open_run frame (o_ring o) (lib (ac s)) O) as (l & El & Od).
  pose proof Od as [Er Ec Es [Et Ex] Eg Etx Erx (Ef & Ee & Ep) Efd Sd Etk Eo Em].
  pose proof O as [Hr _ _ _ _ _ _ _ _ _ _].
  set (s0 := set_ac (set_lib l (ac s)) s).
  assert (acc_openable frame (ac s0)) as AO.
  { split; try done; cbn; try (rewrite ?Er, ?Et, ?Ex; done). by apply Sd. }
  destruct (acc_open_run frame handle (ac s0) Hh AO)
    as (a1 & E1 & Hi & _ & Hm & _ & _ & _ & Ei & Ef1 & Ea & Sd1 & Et1 & Ed1).
  assert (row (info (lib (ac s0))) = o_ring o) as Er0 by exact Er.
  assert (open_outcome (row (info (lib (ac s0)))) (the_dev a1) = Ret 0) as Eo1.
  { destruct (decide (o_ring o = 32)) as [E32|Hne]; [|by apply open_outcome_other; [|rewrite Er0]].
    unfold open_outcome. rewrite Ed1, Er0, E32, (Hirq E32). done. }
  rewrite Eo1 in E1. exists s0, (set_ac a1 s0).
  split; [by apply lib_call_run|]. split; [by apply acc_call_run|]. split.
  - split; cbn; rewrite ?Ei, ?Et1; try done.
    + rewrite Ef1. cbn. by rewrite Efd.
    + by eapply same_driver_trans.
    + eexists _, _. rewrite Hm. change (maps (lib (ac s0))) with (maps l). rewrite Em. rewrite !elem_of_app. right; right; right. rewrite <- Etx.
      apply list_elem_of_further, list_elem_of_here.
  - destruct Hi as (_ & Ht & _). unfold tx_val, my_row.
    change (info (lib (ac (set_ac a1 s0)))) with (info (lib a1)). rewrite Ei. exact Ht.
Qed.

Lemma accnet_close_run (a : acc_state D) : exists m,
  accnet_close a
  = (Ret 0, set_lib (set_fds (filter (λ g, g <> ac_fd (acc a)) (fds (lib a))) (set_maps m (lib a))) a).
Proof. by destruct a as [[k i mp f] w ai rm]; eexists. Qed.

(** The row is free, its connection forgotten, and the descriptors are those from
    before. *)
Record released (r : Z) s s3 : Prop := {
  rl_owner : row_owner (the_dev s3) r = (0, 0, 0);
  rl_conn : row_connection (the_dev s3) r = (0, 0, 0, 0, 0);
  rl_awake : reg_val W8 IOCACHE (IOCACHE_REG_RX_SUSPENDED r) (the_dev s3) = 0;
  rl_fds : fds (lib (ac s3)) = fds (lib (ac s))
}.

(** Closing both. *)
Lemma teardown_run r s s2 :
  0 <= r < IOCACHE_CACHE_ENTRY_COUNT -> connected r s s2 ->
  mapped (mem (kern (lib (ac s)))) frame 72 ->
  ev_lock (ioc (kern (lib (ac s)))) = false -> ring_alloc_lock (ioc (kern (lib (ac s)))) = false ->
  NoDup [acc_open_fd; os_epoll; os_eventfd; os_open] ->
  Forall (λ f, f ∉ fds (lib (ac s))) [acc_open_fd; os_epoll; os_eventfd; os_open] ->
  exists s3, teardown frame s2 = (Exit 0, s3) /\ released r s s3.
Proof.
  intros Hr Cn Hfr Hl1 Hl2 Hnd Hf. unfold teardown.
  assert (kept frame s2 (acc_call (lib_call iocache_clear_connection) s2).2) as K1.
  { apply preserves_lib_call. unfold iocache_clear_connection, reg_write8, reg_write16, reg_write32. frame. }
  assert (acc_call (lib_call iocache_clear_connection) s2
          = (Ret tt, (acc_call (lib_call iocache_clear_connection) s2).2)) as E1 by done.
  rewrite (run_bind _ _ _ _ _ E1). set (s21 := (acc_call _ s2).2) in *. clearbody s21. clear E1.
  pose proof (connected_kept _ _ _ _ Cn K1) as [Er Etx Esz (Ef & Ee & Ep & Ea) Efd Sd Et _].
  destruct Sd as (_ & _ & _ & _ & El1 & El2 & Hmap).
  destruct (accnet_close_run (ac s21)) as [m Em]. apply acc_call_run in Em. rewrite Ea in Em.
  rewrite (run_bind _ _ _ _ _ Em). set (l := set_fds _ _).
  destruct (close_run frame r l Er Hr) as (l' & E' & Ed & _ & Efd');
    [by apply Hmap|by etrans|by etrans|done|].
  rewrite (run_bind _ _ _ _ _ (lib_call_run _ (set_ac (set_lib l (ac s21)) s21) _ _ E')).
  destruct (closed_row r (the_dev l) Hr) as (Ho & Hc & Hsu). rewrite <- Ed in Ho, Hc, Hsu.
  eexists. split; [reflexivity|]. split; [exact Ho|exact Hc|exact Hsu|].
  change (fds l' = fds (lib (ac s))). rewrite Efd'. unfold l. cbn. rewrite Ef, Ee, Ep, Efd.
  clear - Hnd Hf. rewrite !list.NoDup_cons, !not_elem_of_cons in Hnd. rewrite !list.Forall_cons in Hf.
  destruct Hnd as ((?&?&?&_) & (?&?&_) & (?&_) & _), Hf as (?&?&?&?&_).
  rewrite filter_cons_False by tauto.
  rewrite (filter_fresh acc_open_fd) by (rewrite !not_elem_of_cons; intuition congruence).
  rewrite filter_cons_False by tauto.
  rewrite (filter_fresh os_epoll) by (rewrite !not_elem_of_cons; intuition congruence).
  rewrite filter_cons_False by tauto.
  rewrite (filter_fresh os_eventfd) by (rewrite !not_elem_of_cons; intuition congruence).
  rewrite filter_cons_False by tauto. by apply filter_fresh.
Qed.

(** ** The tail of the transmit ring

    Only [write_tx_tail] moves it: the other registers the tests write lie elsewhere. *)

Definition tail_reg (r : Z) (d : D) : Z := reg_val W32 ACCNET_UDP_TX (tx_reg r TX_TAIL) d.

Definition tails {S} `{HasDev S D} (x y : S) : Prop :=
  forall r, 0 <= r < 64 -> tail_reg r (the_dev y) = tail_reg r (the_dev x).

#[export] Instance tails_preorder {S} `{HasDev S D} : PreOrder (tails (S := S)).
Proof. split; [done|]. intros x y z Hxy Hyz r Hr. by rewrite Hyz, Hxy. Qed.

Lemma tails_read {S} `{HasDev S D} w r a : preserves (tails (S := S)) (ioread w r a).
Proof.
  intros s q Hq. unfold ioread.
  pose proof (read_storage w r a W32 ACCNET_UDP_TX (tx_reg q TX_TAIL) (the_dev s)
    (storage_tx q TX_TAIL Hq eq_refl)) as Hs.
  destruct (io_read w r a (the_dev s)) as [v d]. cbn [snd]. rewrite the_set_dev. exact Hs.
Qed.

Lemma tails_write {S} `{HasDev S D} w r a v :
  r <> ACCNET_UDP_TX \/ 0x400 <= a -> preserves (tails (S := S)) (iowrite w r a v).
Proof.
  intros Ha s q Hq. rewrite iowrite_run. cbn [snd]. rewrite the_set_dev. unfold tail_reg, reg_val.
  apply read_write_other; [by apply (storage_tx q TX_TAIL)|].
  destruct Ha as [Hr|Ha]; [left; congruence|]. right; left.
  rewrite tx_reg_val by done. cbn. lia.
Qed.

Lemma tails_acc {A} (m : prog (acc_state D) A) :
  preserves tails m -> preserves (tails (S := udp_state D)) (acc_call m).
Proof. intros Hm s. specialize (Hm (ac s)). unfold acc_call. by destruct (m (ac s)). Qed.

Lemma tails_lib {A} (m : prog (lib_state D) A) :
  preserves tails m -> preserves (tails (S := udp_state D)) (acc_call (lib_call m)).
Proof.
  intros Hm. apply tails_acc. intros s. specialize (Hm (lib s)). unfold lib_call.
  by destruct (m (lib s)).
Qed.

(** The device leaves the tails alone while the process sleeps. *)
Hypothesis dozing_tails : forall d r, 0 <= r < 64 -> tail_reg r (dozing d) = tail_reg r d.

Lemma tails_doze : preserves (tails (S := lib_state D)) (modify (λ l, set_dev (dozing (the_dev l)) l)).
Proof. intros s r Hr. cbn [modify snd]. rewrite the_set_dev. by apply dozing_tails. Qed.

Lemma tails_ioctl : preserves (tails (S := lib_state D)) (ioctl IOCACHE_IOCTL_WAIT_READY 0).
Proof.
  intros l r Hr. change (the_dev (ioctl IOCACHE_IOCTL_WAIT_READY 0 l).2)
    with (io_write W8 IOCACHE (IOCACHE_REG_RX_SUSPENDED (iocache_id (tasks (kern l) os_pid))) 1 (the_dev l)).
  apply read_write_other; [by apply (storage_tx r TX_TAIL)|by left].
Qed.

Hint Resolve tails_read tails_doze tails_ioctl : frame.
Hint Extern 1 (preserves tails (iowrite _ _ _ _)) =>
  apply tails_write; first [left; discriminate | right; vm_compute; discriminate] : frame.

Lemma tails_wait : preserves (tails (S := udp_state D)) (wait_on_rx dozing).
Proof.
  apply tails_lib. unfold iocache_wait_on_rx, iocache_is_rx_available,
    iocache_set_rx_suspended, iocache_enable_interrupts_rx, iocache_clear_rx_suspended,
    reg_read8, reg_write8. frame.
Qed.

(** Setting the connection up, on both devices. *)
Lemma tails_setup c :
  preserves (tails (S := udp_state D))
    (_ ← acc_call (accnet_setup_connection true c);
     acc_call (lib_call (iocache_setup_connection c))).
Proof.
  apply preserves_bind; [typeclasses eauto|apply tails_acc|intros _; apply tails_lib].
  - unfold accnet_setup_connection, reg_write64. frame.
  - unfold iocache_setup_connection, iocache_setup_connection_row, reg_write8, reg_write16, reg_write32.
    frame.
Qed.

Lemma kept_setup c :
  preserves (kept (D := D) frame)
    (_ ← acc_call (accnet_setup_connection true c);
     acc_call (lib_call (iocache_setup_connection c))).
Proof.
  apply preserves_bind; [typeclasses eauto| |intros _; apply preserves_lib_call].
  - intros s. unfold acc_call, accnet_setup_connection, reg_write64, when.
    destruct (src_mac c =? 0), (dst_mac c =? 0); (split; [|done]); by repeat split.
  - unfold iocache_setup_connection, iocache_setup_connection_row, reg_write8, reg_write16, reg_write32.
    frame.
Qed.

Lemma setup_returns c s : exists s',
  (_ ← acc_call (accnet_setup_connection true c);
   acc_call (lib_call (iocache_setup_connection c))) s = (Ret tt, s').
Proof.
  unfold acc_call, accnet_setup_connection, reg_write64, when.
  destruct (src_mac c =? 0), (dst_mac c =? 0); by eexists.
Qed.

(** ** The blocking client *)

Record sendable (r : Z) s s1 : Prop := {
  se_row : 0 <= r < IOCACHE_CACHE_ENTRY_COUNT;
  se_connected : connected r s s1;
  se_tail : 0 <= tail_reg r (the_dev s1) < 8 * 1024
}.

Lemma sendable_same r s s1 s2 : sendable r s s1 -> kept frame s1 s2 -> tails s1 s2 -> sendable r s s2.
Proof.
  intros [Hr Hc Ht] K T. split; [done|by eapply connected_kept|]. by rewrite (T r Hr).
Qed.

Lemma wait_returns s : 0 <= my_row s < IOCACHE_CACHE_ENTRY_COUNT ->
  exists v s', wait_on_rx dozing s = (Ret v, s').
Proof.
  intros Hr. destruct (iocache_wait_on_rx_spec dozing (lib (ac s)) Hr) as (v & l & E & _).
  exists v. eexists. by apply lib_call_run.
Qed.

(** A packet of at most a page fits behind the tail, wherever the tail is: the
    mapping is a page longer than the ring. *)
Lemma packet_mapped r s s1 (l : list Z) :
  sendable r s s1 -> zlen l <= 4096 ->
  range_mapped (maps (lib (ac s1))) (udp_tx_buffer (info (lib (ac s1))) + tail_reg r (the_dev s1)) (length l)
  = true.
Proof.
  intros [_ [_ Ebuf _ _ _ _ _ (c & d & Hin)] Ht] Hl. unfold zlen in Hl. rewrite Ebuf.
  apply forallb_forall. intros k Hk%in_seq. apply existsb_exists.
  exists (os_mmap_addr (2 * r + 1), MmapDma c d 12288). split; [by apply list_elem_of_In|].
  cbn [fst snd map_len]. apply andb_true_intro. split; [apply Z.leb_le|apply Z.ltb_lt]; lia.
Qed.

Lemma read32_run q a s :
  consumes W32 q (reg_off W32 a) = false -> exists v, reg_read32 q a s = (Ret v, s).
Proof. intros Hc. unfold reg_read32. eexists. by apply ioread_plain. Qed.

Lemma size_off_plain r f :
  0 <= r < 64 -> consumes W32 IOCACHE (reg_off W32 (IOCACHE_REG r (field_off f))) = false.
Proof. intros Hr. rewrite reg_off_row by done. by apply size_read_plain. Qed.

Lemma write_rx_head_run row v s : exists s', write_rx_head row v s = (Ret tt, s') /\ tails s s'.
Proof.
  unfold write_rx_head, reg_write32. eexists. split; [apply iowrite_run|].
  intros r Hr. rewrite the_set_dev.
  apply read_write_other; [by apply (storage_tx r TX_TAIL)|by left].
Qed.

Ltac skip_read :=
  match goal with
  | |- context [bind (read_timestamp) _ ?x] =>
      let E := fresh in destruct (read_ts_run x) as [? E]; rewrite (run_bind _ _ _ _ _ E); clear E
  | |- context [bind (?m ?row) _ ?x] =>
      let E := fresh in
      assert (exists v, m row x = (Ret v, x)) as [? E]
        by (apply read32_run; first [by apply consumes_none
                                    |by apply (size_off_plain _ TX_RING_SIZE)
                                    |by apply (size_off_plain _ RX_RING_SIZE)]);
      rewrite (run_bind _ _ _ _ _ E); clear E
  end.

(** Queueing the packet: the new tail is published. *)
Lemma latency_block_run r s s1 payload :
  sendable r s s1 -> zlen payload <= 4096 ->
  exists v s2, test_udp_latency_block dozing payload s1 = (Ret v, s2) /\
    0 <= tail_reg r (the_dev s2) < 8 * 1024.
Proof.
  intros Se Hl. pose proof Se as [Hr [Er _ Esz _ _ _ _ _] Ht].
  unfold IOCACHE_CACHE_ENTRY_COUNT in Hr. fold (my_row s1) in Er.
  assert (0 <= my_row s1 < 64) as Hm by lia. destruct (read_tx_run s1 Hm) as (_ & Et & _).
  assert (tx_val TX_TAIL s1 = tail_reg r (the_dev s1)) as Ev by by rewrite <- Er.
  unfold test_udp_latency_block. rewrite (run_bind _ _ _ _ _ (the_row_run s1)). skip_read.
  rewrite (run_bind _ _ _ _ _ Et). do 3 skip_read. rewrite run_get, Ev.
  rewrite (run_bind _ _ _ _ _ (memcpy_to_run _ _ _ (packet_mapped r s s1 payload Se Hl))).
  unfold advance_tail. rewrite Esz. change (8 * 1024 =? 0) with false. cbv iota.
  rewrite (run_bind _ _ _ _ _ (run_ret _ _)). skip_read.
  set (v := u32 _). set (s2 := set_ac _ s1).
  assert (0 <= v < 8 * 1024) as Hv.
  { unfold v. set (y := u32 (_ + _)). pose proof (Z.mod_pos_bound y (8 * 1024)). rewrite u_small; lia. }
  destruct (write_run v s2 Hm) as [Ew _]. change (my_row s2) with (my_row s1) in Ew.
  rewrite (run_bind _ _ _ _ _ Ew). destruct (put_tx_tail_vals v s2 Hm ltac:(lia)) as (Em & Ev2 & _).
  assert (tail_reg r (the_dev (put_tx_tail v s2)) = v) as Ev3 by by rewrite <- Er.
  set (s3 := put_tx_tail v s2) in *. clearbody s3.
  destruct (wait_returns s3) as (ret & s4 & E4); [by rewrite Em|].
  rewrite (run_bind _ _ _ _ _ E4). pose proof (tails_wait s3 r Hr) as T4. rewrite E4 in T4. cbn [snd] in T4.
  do 2 skip_read.
  match goal with |- context [bind (write_rx_head ?a ?b) _ s4] =>
    destruct (write_rx_head_run a b s4) as (s5 & E5 & T5) end.
  rewrite (run_bind _ _ _ _ _ E5).
  destruct (ret =? -1); eexists _, s5; (split; [done|]); by rewrite (T5 r Hr), T4, Ev3.
Qed.

(** Round after round, until the count is reached or SIGINT arrives. *)
Lemma client_loop_block r s fuel o payload left :
  o_mode o = MODE_BLOCKING -> zlen payload <= 4096 ->
  forall i st s1, sendable r s s1 -> exists st' s2, client_loop dozing left fuel i o payload st s1 = (Ret st', s2).
Proof.
  intros Em Hl. induction left as [|left IH]; intros i st s1 Se; cbn [client_loop]; [by eexists _, _|].
  destruct (sigint_run s1) as (b & s2 & Eb & Ea). rewrite (run_bind _ _ _ _ _ Eb).
  destruct b; [by eexists _, _|].
  assert (sendable r s s2) as Se2.
  { apply (sendable_same r s s1 s2 Se).
    - unfold kept. by rewrite Ea.
    - intros q Hq. change (the_dev s2) with (the_dev (ac s2)). by rewrite Ea. }
  unfold client_test. rewrite Em.
  change (bool_decide (MODE_BLOCKING = MODE_POLLING)) with false.
  change (bool_decide (MODE_BLOCKING = MODE_BLOCKING)) with true. cbv iota.
  destruct (latency_block_run r s s2 payload Se2 Hl) as (d & s3 & Ed & Ht).
  pose proof (preserves_latency_block frame dozing payload s2) as K3. rewrite Ed in K3.
  assert (sendable r s s3) as Se3.
  { destruct Se2. split; [done|by eapply connected_kept|done]. }
  rewrite (run_bind _ _ _ _ _ Ed). destruct (d =? 0); [by apply IH|].
  case_match; [by apply IH|].
  assert (0 <= row (info (lib (ac s3))) < 64) as Hr3 by (destruct Se3 as [? []]; unfold IOCACHE_CACHE_ENTRY_COUNT in *; lia).
  rewrite (run_bind _ _ _ _ _ (acc_call_run _ _ _ _ (outside_ticks_run (ac s3) Hr3))).
  apply IH. destruct s3. exact Se3.
Qed.

(** ** The whole program *)

(** Everything before the mode. *)
Lemma session_run ncpu handle fuel o s :
  startable ncpu o s -> handle <> 0 ->
  exists s1, sendable (o_ring o) s s1 /\
    session dozing frame ncpu handle fuel o s = (_ ← run_mode dozing fuel o; teardown frame) s1.
Proof.
  intros St Hh. destruct (open_both ncpu handle o s St Hh) as (s0 & s1 & E0 & E1 & Cn & Et).
  destruct St as [Hreset [conn Hconn] Hcpu Hn [Hr _ _ _ _ _ _ _ _ _ _] _ _ _ _ _ _ _ _].
  destruct (setup_returns conn s1) as [s2 E2].
  pose proof (kept_setup conn s1) as K. pose proof (tails_setup conn s1) as T. rewrite E2 in K, T.
  exists s2. split.
  - apply (sendable_same _ s s1); [|done..]. split; [done|done|].
    destruct Cn as [Er _ _ _ _ _ _ _]. rewrite <- Er.
    change (tail_reg _ _) with (tx_val TX_TAIL s1). rewrite Et. lia.
  - unfold session, pin_to_cpu. destruct (Z.ltb_spec (o_cpu o) 0); [lia|].
    destruct (Z.leb_spec ncpu (o_cpu o)); [lia|]. cbn [orb].
    rewrite (run_bind _ _ _ _ _ (run_ret tt s)). destruct (Z.ltb_spec (o_ntests o) 0); [lia|].
    rewrite (run_bind _ _ _ _ _ E0). cbn [Z.ltb Z.compare].
    rewrite (run_bind _ _ _ _ _ E1). cbn [Z.ltb Z.compare].
    rewrite Hreset. fold (conn_of o). rewrite Hconn.
    rewrite <- (run_bind _ (λ _, _ ← run_mode dozing fuel o; teardown frame) _ _ _ E2).
    by rewrite bind_assoc.
Qed.

Lemma zlen_client_payload n : 0 <= n -> zlen (client_payload n) = n.
Proof. intros Hn. unfold zlen, client_payload. rewrite length_map, length_seq. lia. Qed.

(** The blocking client always comes to its end. *)
Lemma run_mode_block r s fuel o s1 :
  sendable r s s1 -> o_mode o = MODE_BLOCKING -> 0 <= o_payload o <= 4096 ->
  exists rows s2, run_mode dozing fuel o s1 = (Ret rows, s2).
Proof.
  intros Se Em Hp. unfold run_mode. rewrite Em.
  change (bool_decide (MODE_BLOCKING = MODE_LOOP)) with false.
  change (bool_decide (MODE_BLOCKING = MODE_SERVER)) with false.
  change (bool_decide (MODE_BLOCKING = MODE_SINK)) with false. cbv iota.
  destruct (client_loop_block r s fuel o (client_payload (o_payload o)) (Z.to_nat (o_ntests o)) Em)
    with (i := 0%nat) (s1 := s1)
         (st := mk_stats 0 0 0 0 0 0 (repeat 0 (Z.to_nat (o_ntests o))) (repeat 0 (Z.to_nat (o_ntests o))))
    as (st & s2 & E); [rewrite zlen_client_payload; lia|done|].
  rewrite (run_bind _ _ _ _ _ E). by eexists _, _.
Qed.

(** C10: A run of the program on a system that grants what it asks for opens both
    devices and reaches its mode connected; if the mode returns, whatever it did
    to the rings, the program exits with 0 and its row is free, without a
    connection and awake, and every descriptor it opened is closed again; otherwise
    the program ends where the mode ends.  The blocking client always returns as
    long as a packet is at most a page and the device does not move the tails of
    the transmit rings by itself. *)
Theorem udp_exp_session ncpu handle fuel argv o s :
  parse_args argv default_opts = inl o -> startable ncpu o s -> handle <> 0 ->
  let main := udp_exp_main dozing frame ncpu handle fuel argv s in
  exists s1, connected (o_ring o) s s1 /\
    match run_mode dozing fuel o s1 with
    | (Ret _, _) => exists s3, main = (Exit 0, s3) /\ released (o_ring o) s s3
    | (Exit c, s2) => main = (Exit c, s2)
    | (Fault f, s2) => main = (Fault f, s2)
    | (OutOfFuel, s2) => main = (OutOfFuel, s2)
    end /\
    (o_mode o = MODE_BLOCKING -> o_payload o <= 4096 ->
     exists s3, main = (Exit 0, s3) /\ released (o_ring o) s s3).
Proof.
  intros Ep St Hh main. destruct (session_run ncpu handle fuel o s St Hh) as (s1 & Se & Em).
  assert (main = (_ ← run_mode dozing fuel o; teardown frame) s1) as E0.
  { unfold main, udp_exp_main. by rewrite Ep. }
  clearbody main. subst main. exists s1. pose proof Se as [Hr Cn _]. split; [done|].
  destruct St as [_ _ _ _ [_ _ _ _ _ _ _ _ [Hl1 Hl2] _ _] _ _ _ _ Hnd Hf Hfr _].
  assert (forall rows s2, run_mode dozing fuel o s1 = (Ret rows, s2) ->
            exists s3, (_ ← run_mode dozing fuel o; teardown frame) s1 = (Exit 0, s3) /\
                       released (o_ring o) s s3) as Hend.
  { intros rows s2 E. pose proof (preserves_run_mode frame dozing fuel o s1) as K. rewrite E in K.
    rewrite (run_bind _ _ _ _ _ E). apply teardown_run; try done. by eapply connected_kept. }
  split.
  - destruct (run_mode dozing fuel o s1) as [[rows| | |] s2] eqn:E; [by eapply Hend| | |];
      unfold bind; by rewrite E.
  - intros Eb Hp. pose proof (parse_args_inv (length argv) argv default_opts ltac:(lia)
      ltac:(split; vm_compute; intuition discriminate)) as Hok. rewrite Ep in Hok.
    destruct (run_mode_block (o_ring o) s fuel o s1 Se Eb) as (rows & s2 & E);
      [destruct (ok_payload _ Hok); lia|].
    by eapply Hend.
Qed.
End session.

(** ** Example *)

Import SimLib SimAcc RegFile.
Import String.StringSyntax.

Definition command_line : list (list Z) :=
  [chars "--mode"; chars "block"; chars "--ring"; chars "7"; chars "--ntest"; chars "2"].
Definition command_opts : opts :=
  set_mode MODE_BLOCKING (set_nums 0 2 1024 7 0 (1024 * 1024) default_opts).
Definition fresh_process : udp_state regfile := mk_udp (mk_acc process example_windows (acc client) ∅) None.

Lemma fresh_startable :
  startable (H1 := sim_kernel) (H2 := sim_os) (H3 := sim_acc_os) 0 4 command_opts fresh_process.
Proof.
  split; [done| |done|done|exact process_openable|done|exact example_windows_ok| | | | |exact process_mapped|done].
  - assert (bool_decide (is_Some (conn_of command_opts)) = true) as E by (vm_compute; reflexivity).
    by apply bool_decide_eq_true_1 in E.
  - intros i p n. apply (ao_pages _ _ client_openable).
  - intros i. simpl. pose proof (Z.mod_pos_bound (Z.abs i) 1000). lia.
  - by apply (bool_decide_eq_true_1 _).
  - by apply (bool_decide_eq_true_1 _).
Qed.

Lemma udp_exp_session_witness :
  exists s3, udp_exp_main (H0 := sim_kernel) (H1 := sim_os) (H2 := sim_acc_os) (λ d, d) 0 4 1 0
               command_line fresh_process = (Exit 0, s3) /\
    row_owner (the_dev s3) 7 = (0, 0, 0) /\ fds (lib (ac s3)) = [].
Proof.
  destruct (udp_exp_session (H1 := sim_kernel) (H2 := sim_os) (H3 := sim_acc_os) 0 (λ d, d)
    ltac:(done) 4 1 0 command_line command_opts fresh_process ltac:(vm_compute; reflexivity)
    fresh_startable ltac:(done)) as (s1 & _ & _ & Hb).
  destruct (Hb eq_refl ltac:(done)) as (s3 & E & [Ho _ _ Hf]). exists s3.
  split; [exact E|]. split; [exact Ho|exact Hf].
Defined.
