(* ===== verification/InterruptExp.v ===== *)
(** * The interrupt experiment ([lib/interrupt_exp.c])

    One packet is sent by one or more sender threads while a receiver thread
    sleeps for it, and the time between the two is printed.

    The program was written for an earlier version of the libraries, which the
    repository does not contain (it opens the devices with fewer arguments than
    [accnet_lib.h] and [iocache_lib.h] declare, asks for ring sizes no header
    provides, and finds the transmit buffer in another structure).  The functions
    it calls are therefore the class [NetLib].

    Main, the receiver and the senders are interleaved at every access to the
    device, to the clock and to the two shared atomics. *)

From Stdlib Require String.
From S2P Require Import Prelude Prog CLib Common.
Import String.StringSyntax.
Local Open Scope string_scope.
Local Open Scope Z_scope.

(** ** The environment *)

(** What [accnet_open] leaves in the handle that the program uses. *)
Record accnet_info := mk_accnet { udp_tx_size : Z }.

Class NetLib (D : Type) := {
  accnet_open : D -> Z * accnet_info * D;
  iocache_open : D -> Z * D;
  accnet_start_ring : D -> D;
  iocache_setup_connection : connection_info -> D -> D;
  accnet_get_tx_head : D -> Z;
  accnet_get_tx_tail : D -> Z;
  accnet_get_tx_size : D -> Z;
  accnet_get_rx_head : D -> Z;
  accnet_get_rx_tail : D -> Z;
  accnet_get_rx_size : D -> Z;
  accnet_set_tx_tail : Z -> D -> D;
  accnet_set_rx_head : Z -> D -> D;
  (* bytes to udp_tx_buffer + offset; [None] if they are not all mapped *)
  copy_to_tx : Z -> list Z -> D -> option D;
  (* [None] while the caller sleeps *)
  iocache_wait_on_rx : D -> option (Z * D);
  accnet_close : D -> D;
  iocache_close : D -> D
}.

(** Results of system calls, each 0 or an error number. *)
Class System := {
  sys_mlockall : Z;
  sys_setscheduler : Z -> Z;         (* by priority *)
  sys_setpriority : Z;
  sys_malloc : nat -> bool;          (* the [n]-th allocation succeeds *)
  sys_garbage : connection_info;     (* what the allocated connection holds *)
  sys_pthread_create : nat -> Z;     (* receiver, then senders *)
  sys_stack : Z                      (* bytes available for [payload] *)
}.

(** ** Time *)

Definition timespec_to_ns (ts : timespec) : Z := i64 (tv_sec ts * 1000000000 + tv_nsec ts).

Definition timespec_diff (start stop : timespec) : timespec :=
  let sec := i64 (tv_sec stop - tv_sec start) in
  let nsec := i64 (tv_nsec stop - tv_nsec start) in
  if nsec <? 0 then mk_ts (i64 (sec - 1)) (i64 (nsec + 1000000000)) else mk_ts sec nsec.

(** [clock_gettime] when the clock is at [t] nanoseconds. *)
Definition clock_gettime (t : Z) : timespec := mk_ts (t / 1000000000) (t mod 1000000000).

(** ** The command line *)

Record opts := mk_opts { threads : Z; total_bytes : Z; payload_size : Z }.

Definition default_opts : opts := mk_opts 1 1024 1024.

Definition set_value (a v : list Z) (o : opts) : option opts :=
  if streq a "--bytes" then Some (mk_opts (threads o) (strtoull0 v) (payload_size o))
  else if streq a "--payload-size" then Some (mk_opts (threads o) (total_bytes o) (strtoull0 v))
  else if streq a "--threads" then Some (mk_opts (atoi v) (total_bytes o) (payload_size o))
  else None.

(** [inr c]: the program returns [c]. *)
Fixpoint parse_args (argv : list (list Z)) (o : opts) : opts + Z :=
  match argv with
  | [] => inl o
  | a :: rest =>
      let other := if streq a "--help" then inr 0 else inr 1 in
      match rest with
      | [] => other
      | v :: rest' => match set_value a v o with Some o' => parse_args rest' o' | None => other end
      end
  end.

(** ** Scheduling *)

(** How the process runs: memory locked, a FIFO priority, a nice value. *)
Record sched := mk_sched { locked : bool; fifo_prio : option Z; nice : Z }.

Section program.
Context {D : Type} `{NetLib D} `{System}.

Definition lock_memory_or_warn (p : sched) : sched :=
  if sys_mlockall =? 0 then mk_sched true (fifo_prio p) (nice p) else p.

Definition set_rt_fifo_prio (prio : Z) (p : sched) : Z * sched :=
  let e := sys_setscheduler prio in
  if e =? 0 then (0, mk_sched (locked p) (Some prio) (nice p)) else (- e, p).

(** The fallback of [main]: a failure is reported and ignored. *)
Definition raise_priority (p : sched) : sched :=
  let '(err, p1) := set_rt_fifo_prio 99 (lock_memory_or_warn p) in
  if err =? 0 then p1
  else if sys_setpriority =? 0 then mk_sched (locked p1) (fifo_prio p1) (-20) else p1.

(** ** The threads *)

(** The variables they share: the device behind both handles, the two atomics
    and the clock. *)
Record shared := mk_shared { dev : D; t_start_ns : Z; t_end_ns : Z; clock : Z }.

Definition set_dev (d : D) (sh : shared) : shared := mk_shared d (t_start_ns sh) (t_end_ns sh) (clock sh).

Record send_args_t := mk_send_args { sa_total_bytes : Z; sa_payload_size : Z }.

(** The next instruction of a sender. *)
Inductive send_point := SInit | SHead | STail | SSize | SCopy | SVal | SClock | SSet | SStore | SDone.

Record sender := mk_sender { s_pc : send_point; s_args : send_args_t; tx_tail : Z; val : Z; s_ts : timespec }.

#[export] Instance send_point_eq_dec : EqDecision send_point.
Proof. solve_decision. Defined.

Definition new_sender (a : send_args_t) : sender := mk_sender SInit a 0 0 (mk_ts 0 0).

(** The bytes a sender sends: [payload[i] = i & 0xff]. *)
Definition payload (n : Z) : list Z := map (λ k, Z.land (Z.of_nat k) 0xff) (seq 0 (Z.to_nat n)).

Inductive reaction (T : Type) :=
| Go (sh : shared) (t : T)
| Sleep
| Crash (f : fault).
#[global] Arguments Go {T}.
#[global] Arguments Sleep {T}.
#[global] Arguments Crash {T}.

Definition at_pc (p : send_point) (s : sender) : sender := mk_sender p (s_args s) (tx_tail s) (val s) (s_ts s).

(** One instruction of [send_thread].  An array of no bytes or of more than the
    stack holds is undefined. *)
Definition send_thread (acc : accnet_info) (sh : shared) (s : sender) : reaction sender :=
  let n := sa_payload_size (s_args s) in
  match s_pc s with
  | SInit => if (n <=? 0) || (sys_stack <? n) then Crash OutOfBounds else Go sh (at_pc SHead s)
  | SHead => Go sh (at_pc STail s)
  | STail => Go sh (mk_sender SSize (s_args s) (accnet_get_tx_tail (dev sh)) (val s) (s_ts s))
  | SSize => Go sh (at_pc SCopy s)
  | SCopy =>
      match copy_to_tx (tx_tail s) (payload n) (dev sh) with
      | Some d => Go (set_dev d sh) (at_pc SVal s)
      | None => Crash OutOfBounds
      end
  | SVal =>
      if udp_tx_size acc =? 0 then Crash DivByZero
      else Go sh (mk_sender SClock (s_args s) (tx_tail s) (u32 (u64 (tx_tail s + n) mod udp_tx_size acc)) (s_ts s))
  | SClock => Go sh (mk_sender SSet (s_args s) (tx_tail s) (val s) (clock_gettime (clock sh)))
  | SSet => Go (set_dev (accnet_set_tx_tail (val s) (dev sh)) sh) (at_pc SStore s)
  | SStore =>
      Go (mk_shared (dev sh) (timespec_to_ns (s_ts s)) (t_end_ns sh) (clock sh)) (at_pc SDone s)
  | SDone => Sleep
  end.

(** The next instruction of the receiver. *)
Inductive recv_point := RSize | RHead | RWait | RClock | RStore | RTail | RSetHead | RDone.

#[export] Instance recv_point_eq_dec : EqDecision recv_point.
Proof. solve_decision. Defined.

(** [res] and [size] are computed and not used. *)
Record receiver := mk_receiver {
  r_pc : recv_point; rx_size : Z; rx_head : Z; rx_tail : Z; res : Z; size : Z; r_ts : timespec
}.

Definition new_receiver : receiver := mk_receiver RSize 0 0 0 0 0 (mk_ts 0 0).

Definition rx_bytes (rx_head rx_tail rx_size : Z) : Z :=
  i32 (if rx_head <? rx_tail then u32 (rx_tail - rx_head) else u32 (rx_size - u32 (rx_head - rx_tail))).

Definition recv_thread (sh : shared) (r : receiver) : reaction receiver :=
  let '(mk_receiver pc sz hd tl rs n ts) := r in
  match pc with
  | RSize => Go sh (mk_receiver RHead (accnet_get_rx_size (dev sh)) hd tl rs n ts)
  | RHead => Go sh (mk_receiver RWait sz (accnet_get_rx_head (dev sh)) tl rs n ts)
  | RWait =>
      match iocache_wait_on_rx (dev sh) with
      | Some (x, d) => Go (set_dev d sh) (mk_receiver RClock sz hd tl x n ts)
      | None => Sleep
      end
  | RClock => Go sh (mk_receiver RStore sz hd tl rs n (clock_gettime (clock sh)))
  | RStore =>
      Go (mk_shared (dev sh) (t_start_ns sh) (timespec_to_ns ts) (clock sh))
        (mk_receiver RTail sz hd tl rs n ts)
  | RTail =>
      let t := accnet_get_rx_tail (dev sh) in
      Go sh (mk_receiver RSetHead sz hd t rs (rx_bytes hd t sz) ts)
  | RSetHead => Go (set_dev (accnet_set_rx_head tl (dev sh)) sh) (mk_receiver RDone sz hd tl rs n ts)
  | RDone => Sleep
  end.

(** ** Main *)

(** Up to the creation of the threads: [inr c] if [main] returns [c]. *)
Definition setup (argv : list (list Z)) (d : D) : (opts * accnet_info + Z) * D :=
  match parse_args argv default_opts with
  | inr c => (inr c, d)
  | inl o =>
      if negb (sys_malloc 0 && sys_malloc 1 && sys_malloc 2) then (inr 1, d)
      else
        let '(r, acc, d) := accnet_open d in
        if r <? 0 then (inr 1, d)
        else
          let '(r, d) := iocache_open d in
          if r <? 0 then (inr 1, d)
          else
            let d := accnet_start_ring d in
            match conn_from_strings sys_garbage 0x11 (Some (chars "10.0.0.1")) 1234
                    (Some (chars "10.0.0.2")) 1111 with
            | None => (inr 1, d)
            | Some conn => (inl (o, acc), iocache_setup_connection conn d)
            end
  end.

(** Where [main] is; [MCreateSend i] and [MJoinSend i] are rounds of its loops. *)
Inductive main_point :=
| MSetup (argv : list (list Z))
| MCreateRecv
| MAlloc
| MCreateSend (i : nat)
| MJoinSend (i : nat)
| MJoinRecv
| MReport
| MReturned (code : Z)
| MCrashed (f : fault).

(** [report] is the printed latency. *)
Record world := mk_world {
  w_main : main_point; w_sched : sched; w_opts : opts; w_acc : accnet_info; w_sh : shared;
  w_recv : option receiver; w_send : list sender; w_report : option Z
}.

Definition start (argv : list (list Z)) (d : D) (t : Z) : world :=
  mk_world (MSetup argv) (mk_sched false None 0) default_opts (mk_accnet 0) (mk_shared d (-1) (-1) t)
    None [] None.

(** The program when its devices are open and the threads are about to be created. *)
Definition launched (sc : sched) (o : opts) (acc : accnet_info) (d : D) (t : Z) : world :=
  mk_world MCreateRecv sc o acc (mk_shared d (-1) (-1) t) None [] None.

Definition goto (p : main_point) (w : world) : world :=
  mk_world p (w_sched w) (w_opts w) (w_acc w) (w_sh w) (w_recv w) (w_send w) (w_report w).
Definition set_shared (sh : shared) (w : world) : world :=
  mk_world (w_main w) (w_sched w) (w_opts w) (w_acc w) sh (w_recv w) (w_send w) (w_report w).
Definition set_recv (r : receiver) (w : world) : world :=
  mk_world (w_main w) (w_sched w) (w_opts w) (w_acc w) (w_sh w) (Some r) (w_send w) (w_report w).
Definition set_send (l : list sender) (w : world) : world :=
  mk_world (w_main w) (w_sched w) (w_opts w) (w_acc w) (w_sh w) (w_recv w) l (w_report w).

(** [if (threads < 1) threads = 1;] *)
Definition clamp_threads (o : opts) : opts :=
  if threads o <? 1 then mk_opts 1 (total_bytes o) (payload_size o) else o.

(** The arguments of sender [i]. *)
Definition send_args (o : opts) (i : nat) : send_args_t :=
  let per_thread := total_bytes o / threads o in
  let remainder := total_bytes o mod threads o in
  mk_send_args (u64 (per_thread + (if (i =? 0)%nat then remainder else 0))) (payload_size o).

(** One step of [main]; [None] while it waits in [pthread_join] or has ended.
    [sleep(0.2)] between the threads sleeps for [(unsigned) 0.2] = 0 seconds. *)
Definition main_step (w : world) : option world :=
  match w_main w with
  | MSetup argv =>
      let '(r, d) := setup argv (dev (w_sh w)) in
      let sc := match parse_args argv default_opts with
                | inl _ => raise_priority (w_sched w)
                | inr _ => w_sched w
                end in
      let sh := set_dev d (w_sh w) in
      Some (match r with
            | inr c => mk_world (MReturned c) sc (w_opts w) (w_acc w) sh None [] None
            | inl (o, acc) => mk_world MCreateRecv sc o acc sh None [] None
            end)
  | MCreateRecv =>
      Some (if negb (sys_malloc 3 && sys_malloc 4) then goto (MCrashed NullDeref) w
            else if sys_pthread_create 0 =? 0 then set_recv new_receiver (goto MAlloc w)
            else goto (MReturned 1) w)
  | MAlloc =>
      let w := mk_world (w_main w) (w_sched w) (clamp_threads (w_opts w)) (w_acc w) (w_sh w)
                 (w_recv w) (w_send w) (w_report w) in
      Some (if sys_malloc 5 && sys_malloc 6 then goto (MCreateSend 0) w else goto (MReturned 1) w)
  | MCreateSend i =>
      Some (if Z.of_nat i <? threads (w_opts w) then
              if sys_pthread_create (S i) =? 0 then
                set_send (w_send w ++ [new_sender (send_args (w_opts w) i)]) (goto (MCreateSend (S i)) w)
              else goto (MReturned 1) w
            else goto (MJoinSend 0) w)
  | MJoinSend i =>
      if Z.of_nat i <? threads (w_opts w) then
        match w_send w !! i with
        | Some s => if bool_decide (s_pc s = SDone) then Some (goto (MJoinSend (S i)) w) else None
        | None => None
        end
      else Some (goto MJoinRecv w)
  | MJoinRecv =>
      match w_recv w with
      | Some r => if bool_decide (r_pc r = RDone) then Some (goto MReport w) else None
      | None => None
      end
  | MReport =>
      let sh := w_sh w in
      Some (mk_world (MReturned 0) (w_sched w) (w_opts w) (w_acc w)
              (set_dev (iocache_close (accnet_close (dev sh))) sh) (w_recv w) (w_send w)
              (Some (i64 (t_end_ns sh - t_start_ns sh))))
  | MReturned _ | MCrashed _ => None
  end.

Definition running (w : world) : bool :=
  match w_main w with MReturned _ | MCrashed _ => false | _ => true end.

(** What a thread's reaction does to the program. *)
Definition react {T} (put : T -> world -> world) (r : reaction T) (w : world) : option world :=
  match r with
  | Go sh t => Some (put t (set_shared sh w))
  | Sleep => None
  | Crash f => Some (goto (MCrashed f) w)
  end.

Definition recv_step (w : world) : option world :=
  match w_recv w with
  | Some r => react set_recv (recv_thread (w_sh w) r) w
  | None => None
  end.

Definition send_step (i : nat) (w : world) : option world :=
  match w_send w !! i with
  | Some s => react (λ s' w', set_send (<[i := s']> (w_send w')) w') (send_thread (w_acc w) (w_sh w) s) w
  | None => None
  end.

(** What the devices do by themselves. *)
Variable env : D -> D -> Prop.

Inductive step : world -> world -> Prop :=
| st_main w w' : main_step w = Some w' -> step w w'
| st_recv w w' : running w = true -> recv_step w = Some w' -> step w w'
| st_send i w w' : running w = true -> send_step i w = Some w' -> step w w'
| st_tick w t : running w = true -> clock (w_sh w) <= t < 2 ^ 63 ->
    step w (set_shared (mk_shared (dev (w_sh w)) (t_start_ns (w_sh w)) (t_end_ns (w_sh w)) t) w)
| st_env w d : running w = true -> env (dev (w_sh w)) d -> step w (set_shared (set_dev d (w_sh w)) w).
End program.
