(* ===== verification/InterruptExpSpec.v ===== *)
(** * Properties of the interrupt experiment

    The reported latency, the advance of the transmit tail under any interleaving
    of the senders, and the end of every run. *)

From Stdlib Require String.
From S2P Require Import Prelude Prog CLib Common InterruptExp.
Import String.StringSyntax.
Local Open Scope string_scope.
Local Open Scope Z_scope.

(** ** Time *)

Definition normal (ts : timespec) : Prop := 0 <= tv_sec ts < 2 ^ 33 /\ 0 <= tv_nsec ts < 1000000000.

Lemma clock_gettime_ns t : 0 <= t < 2 ^ 63 -> timespec_to_ns (clock_gettime t) = t.
Proof.
  intros Ht. unfold timespec_to_ns, clock_gettime. cbn [tv_sec tv_nsec].
  rewrite Z.mul_comm, <- Z_div_mod_eq_full. apply i_small; lia.
Qed.

(** The difference of two times is the difference in nanoseconds. *)
Lemma timespec_diff_ns a b : normal a -> normal b ->
  timespec_to_ns (timespec_diff a b) = timespec_to_ns b - timespec_to_ns a.
Proof.
  intros [[? ?] [? ?]] [[? ?] [? ?]]. unfold timespec_diff, timespec_to_ns.
  unwrap. case_bool; cbn [tv_sec tv_nsec]; unwrap; lia.
Qed.

(** ** Steps *)

Section spec.
Context {D : Type} `{NetLib D} `{System}.
Context (env : D -> D -> Prop).
Implicit Types w : world (D := D).
Abbreviation runs := (star (step env)).

Lemma recv_step_inv w w' : recv_step w = Some w' ->
  exists r sh r', w_recv w = Some r /\ recv_thread (w_sh w) r = Go sh r' /\ w' = set_recv r' (set_shared sh w).
Proof.
  unfold recv_step. destruct (w_recv w) as [r|]; [|done].
  destruct (recv_thread (w_sh w) r) as [sh r'| |f] eqn:E; cbn; intros [= <-]; [by eauto 6|].
  destruct r as [[]]; cbn in E; try done. by destruct (iocache_wait_on_rx _) as [[]|].
Qed.

Lemma send_step_inv i w w' : send_step i w = Some w' ->
  exists s, w_send w !! i = Some s /\
   ((exists sh s', send_thread (w_acc w) (w_sh w) s = Go sh s' /\
      w' = set_send (<[i := s']> (w_send w)) (set_shared sh w)) \/
    exists f, w' = goto (MCrashed f) w).
Proof.
  unfold send_step. destruct (w_send w !! i) as [s|]; [|done].
  destruct (send_thread (w_acc w) (w_sh w) s) as [sh s'| |f] eqn:E; cbn; intros [= <-]; eauto 8.
Qed.

(** A step of [main] only creates threads, moves on and reports. *)
Inductive main_moves w : world (D := D) -> Prop :=
| mm_recv : w_main w = MCreateRecv -> main_moves w (set_recv new_receiver (goto MAlloc w))
| mm_alloc : w_main w = MAlloc ->
    main_moves w (mk_world (MCreateSend 0) (w_sched w) (clamp_threads (w_opts w)) (w_acc w) (w_sh w)
      (w_recv w) (w_send w) (w_report w))
| mm_send i : w_main w = MCreateSend i -> Z.of_nat i < threads (w_opts w) ->
    main_moves w (set_send (w_send w ++ [new_sender (send_args (w_opts w) i)]) (goto (MCreateSend (S i)) w))
| mm_sent i : w_main w = MCreateSend i -> threads (w_opts w) <= Z.of_nat i -> main_moves w (goto (MJoinSend 0) w)
| mm_join i s : w_main w = MJoinSend i -> Z.of_nat i < threads (w_opts w) ->
    w_send w !! i = Some s -> s_pc s = SDone -> main_moves w (goto (MJoinSend (S i)) w)
| mm_joined i : w_main w = MJoinSend i -> threads (w_opts w) <= Z.of_nat i -> main_moves w (goto MJoinRecv w)
| mm_done r : w_main w = MJoinRecv -> w_recv w = Some r -> r_pc r = RDone -> main_moves w (goto MReport w)
| mm_report : w_main w = MReport ->
    main_moves w (mk_world (MReturned 0) (w_sched w) (w_opts w) (w_acc w)
      (set_dev (iocache_close (accnet_close (dev (w_sh w)))) (w_sh w)) (w_recv w) (w_send w)
      (Some (i64 (t_end_ns (w_sh w) - t_start_ns (w_sh w)))))
| mm_fail p o : (p = MReturned 1 \/ p = MCrashed NullDeref) -> running w = true ->
    (o = w_opts w \/ o = clamp_threads (w_opts w)) ->
    main_moves w (mk_world p (w_sched w) o (w_acc w) (w_sh w) (w_recv w) (w_send w) (w_report w)).

Lemma main_step_moves w w' : (forall argv, w_main w <> MSetup argv) -> main_step w = Some w' -> main_moves w w'.
Proof.
  intros Hset. unfold main_step.
  destruct (w_main w) as [argv| | |i|i| | |c|f] eqn:Em; try done;
    try (assert (running w = true) as Hr by (unfold running; by rewrite Em)).
  - by destruct (Hset argv).
  - destruct (negb _); [intros [= <-]; apply mm_fail; auto|].
    destruct (_ =? 0); intros [= <-]; [by constructor|apply mm_fail; auto].
  - destruct (_ && _); intros [= <-]; [by apply (mm_alloc w)|].
    apply (mm_fail w (MReturned 1) (clamp_threads (w_opts w))); auto.
  - destruct (Z.ltb_spec (Z.of_nat i) (threads (w_opts w))); [|intros [= <-]; by eapply mm_sent].
    destruct (_ =? 0); intros [= <-]; [by constructor|apply mm_fail; auto].
  - destruct (Z.ltb_spec (Z.of_nat i) (threads (w_opts w))); [|intros [= <-]; by eapply mm_joined].
    destruct (w_send w !! i) as [s|] eqn:Es; [|done]. case_bool_decide; [|done].
    intros [= <-]. by eapply mm_join.
  - destruct (w_recv w) as [r|] eqn:Er; [|done]. case_bool_decide; [|done].
    intros [= <-]. by eapply mm_done.
  - intros [= <-]. by constructor.
Qed.

(** ** Control

    Which threads exist at each point of [main], and which have ended. *)

Definition all_done w : Prop := Forall (λ s, s_pc s = SDone) (w_send w).
Definition recv_done w : Prop := exists r, w_recv w = Some r /\ r_pc r = RDone.

Definition control w : Prop :=
  match w_main w with
  | MSetup _ => False
  | MCreateRecv => w_send w = [] /\ w_recv w = None
  | MAlloc => w_send w = [] /\ is_Some (w_recv w)
  | MCreateSend i => length (w_send w) = i /\ 1 <= threads (w_opts w) /\ Z.of_nat i <= threads (w_opts w) /\
      is_Some (w_recv w)
  | MJoinSend i => zlen (w_send w) = threads (w_opts w) /\ 1 <= threads (w_opts w) /\ is_Some (w_recv w) /\
      Forall (λ s, s_pc s = SDone) (take i (w_send w))
  | MJoinRecv => zlen (w_send w) = threads (w_opts w) /\ 1 <= threads (w_opts w) /\ is_Some (w_recv w) /\
      all_done w
  | MReport => zlen (w_send w) = threads (w_opts w) /\ 1 <= threads (w_opts w) /\ recv_done w /\ all_done w
  | MReturned _ => forall v, w_report w = Some v -> all_done w /\ recv_done w /\
      v = i64 (t_end_ns (w_sh w) - t_start_ns (w_sh w))
  | MCrashed _ => w_report w = None
  end /\ (running w = true -> w_report w = None).

Lemma done_insert (l : list sender) i s s' k :
  l !! i = Some s -> s_pc s <> SDone ->
  Forall (λ s, s_pc s = SDone) (take k l) -> Forall (λ s, s_pc s = SDone) (take k (<[i := s']> l)).
Proof.
  intros Hi Hs HF. destruct (decide (i < k)%nat) as [Hk|Hk].
  - destruct Hs. rewrite list.Forall_lookup in HF. apply (HF i). by rewrite lookup_take_lt.
  - rewrite take_insert_ge by lia. done.
Qed.

Lemma done_insert_all (l : list sender) i s s' :
  l !! i = Some s -> s_pc s <> SDone ->
  Forall (λ s, s_pc s = SDone) l -> Forall (λ s, s_pc s = SDone) (<[i := s']> l).
Proof.
  intros Hi Hs HF. rewrite <- (firstn_all (<[i := s']> l)), length_insert.
  eapply done_insert; [done..|]. by rewrite firstn_all.
Qed.

(** Only a thread that has not ended moves. *)
Lemma send_go_not_done acc sh s sh' s' : send_thread acc sh s = Go sh' s' -> s_pc s <> SDone.
Proof. unfold send_thread. by destruct (s_pc s). Qed.

Lemma recv_go_not_done (sh : shared (D := D)) r sh' r' : recv_thread sh r = Go sh' r' -> r_pc r <> RDone.
Proof. by destruct r as [[]]. Qed.

Lemma control_main w w' : control w -> main_moves w w' -> control w'.
Proof.
  unfold control. intros [Hc Hrep] Hm.
  assert (running w = true -> w_report w = None) as Hrun by done.
  destruct Hm as [Em|Em|i Em Hi|i Em Hi|i s Em Hi Hs Hd|i Em Hi|r Em Hr Hd|Em|p o Hp Hr Ho];
    try (rewrite Em in Hc; assert (running w = true) as Hr0 by (unfold running; by rewrite Em));
    cbn -[Z.of_nat] in *.
  - destruct Hc as [-> _]. split; [split; [done|by eexists]|by intros _; apply Hrep].
  - destruct Hc as [-> Hr]. split; [|by intros _; apply Hrep].
    unfold clamp_threads. case_bool; cbn; split_and!; try done; lia.
  - destruct Hc as (Hl & H1 & H2 & Hr). split; [|by intros _; apply Hrep].
    rewrite length_app. cbn. split_and!; try done; lia.
  - destruct Hc as (Hl & H1 & H2 & Hr). split; [|by intros _; apply Hrep].
    split_and!; try done. unfold zlen. lia.
  - destruct Hc as (Hl & H1 & Hr & HF). split; [|by intros _; apply Hrep].
    split_and!; try done. rewrite (take_S_r _ _ _ Hs). apply list.Forall_app. split; [done|].
    by apply list.Forall_singleton.
  - destruct Hc as (Hl & H1 & Hr & HF). split; [|by intros _; apply Hrep].
    split_and!; try done. unfold all_done. cbn. rewrite take_ge in HF; [done|].
    unfold zlen in Hl. lia.
  - destruct Hc as (Hl & H1 & _ & HF). split; [|by intros _; apply Hrep].
    split_and!; try done. exists r. done.
  - destruct Hc as (Hl & H1 & Hrd & HF). split; [|done]. intros v [= <-]. done.
  - split; [|by destruct Hp; subst p].
    destruct Hp; subst p; [|by apply Hrep]. intros v Hv. by rewrite Hrep in Hv.
Qed.

Lemma control_recv w w' : control w -> running w = true -> recv_step w = Some w' -> control w'.
Proof.
  unfold control. intros [Hc Hrep] Hr (r & sh & r' & Er & Hg & ->)%recv_step_inv.
  apply recv_go_not_done in Hg as Hn. split; [|done]. unfold running in Hr. cbn.
  destruct (w_main w); try done; rewrite ?Er in Hc; destruct Hc as [? Hc]; try done.
  - destruct Hc as (? & ? & ?). done.
  - destruct Hc as (? & ? & ?). done.
  - destruct Hc as (? & ? & ?). done.
  - destruct Hc as (? & (r0 & E0 & Hd) & ?). rewrite Er in E0. injection E0 as ->. done.
Qed.

Lemma control_send i w w' : control w -> running w = true -> send_step i w = Some w' -> control w'.
Proof.
  unfold control. intros [Hc Hrep] Hr (s & Es & [(sh & s' & Hg & ->)|[f ->]])%send_step_inv;
    [|split; [by apply Hrep|done]].
  apply send_go_not_done in Hg as Hn. split; [|done]. unfold running in Hr. cbn.
  unfold zlen, all_done in *. cbn.
  destruct (w_main w); try done; rewrite ?length_insert.
  - destruct Hc as [E _]. by rewrite E in Es.
  - destruct Hc as [E _]. by rewrite E in Es.
  - destruct Hc as (? & ? & ? & ?). split_and!; try done.
  - destruct Hc as (? & ? & ? & ?). split_and!; try done; by eapply done_insert.
  - destruct Hc as (? & ? & ? & ?). split_and!; try done; by eapply done_insert_all.
  - destruct Hc as (? & ? & ? & ?). split_and!; try done; by eapply done_insert_all.
Qed.

Lemma control_not_setup w argv : control w -> w_main w <> MSetup argv.
Proof. unfold control. intros [Hc _] E. by rewrite E in Hc. Qed.

Lemma control_step w w' : control w -> step env w w' -> control w'.
Proof.
  intros Hc Hs. destruct Hs as [w w' Hm|w w' Hr Hm|i w w' Hr Hm|w t Hr Ht|w d Hr Hd].
  - eapply control_main; [done|]. apply main_step_moves; [|done]. intros argv. by apply control_not_setup.
  - by eapply control_recv.
  - by eapply control_send.
  - unfold control, running, all_done, recv_done in *. cbn in *. by destruct (w_main w).
  - unfold control, running, all_done, recv_done in *. cbn in *. by destruct (w_main w).
Qed.

Lemma control_launched sc o acc d t : control (launched sc o acc d t).
Proof. done. Qed.

(** ** Every run ends unless no packet arrives *)

Definition send_left (p : send_point) : nat :=
  match p with
  | SInit => 9 | SHead => 8 | STail => 7 | SSize => 6 | SCopy => 5 | SVal => 4 | SClock => 3 | SSet => 2
  | SStore => 1 | SDone => 0
  end.
Definition recv_left (p : recv_point) : nat :=
  match p with
  | RSize => 7 | RHead => 6 | RWait => 5 | RClock => 4 | RStore => 3 | RTail => 2 | RSetHead => 1 | RDone => 0
  end.

(** The steps [main] has left, with those of the threads it still creates. *)
Definition main_left w : nat :=
  let n := Z.to_nat (Z.max 1 (threads (w_opts w))) in
  match w_main w with
  | MSetup _ => 0
  | MCreateRecv => 13 + 11 * n
  | MAlloc => 5 + 11 * n
  | MCreateSend i => 4 + n + 10 * (n - i)
  | MJoinSend i => 3 + (n - i)
  | MJoinRecv => 2
  | MReport => 1
  | MReturned _ | MCrashed _ => 0
  end.

Definition work w : nat :=
  if running w then
    main_left w + from_option (recv_left ∘ r_pc) 0%nat (w_recv w) + sum_list (map (send_left ∘ s_pc) (w_send w))
  else 0.

(** A step of one of the threads, and one of the clock or the devices. *)
Definition program_step w w' : Prop :=
  main_step w = Some w' \/
  running w = true /\ (recv_step w = Some w' \/ exists i, send_step i w = Some w').

Definition idle_step w w' : Prop :=
  running w = true /\
  ((exists t, clock (w_sh w) <= t < 2 ^ 63 /\
      w' = set_shared (mk_shared (dev (w_sh w)) (t_start_ns (w_sh w)) (t_end_ns (w_sh w)) t) w) \/
   exists d, env (dev (w_sh w)) d /\ w' = set_shared (set_dev d (w_sh w)) w).

Lemma step_split w w' : step env w w' <-> program_step w w' \/ idle_step w w'.
Proof.
  unfold program_step, idle_step. split.
  - destruct 1; naive_solver.
  - intros [[?|[? [?|[i ?]]]]|[? [(t & ? & ->)|(d & ? & ->)]]].
    + by apply st_main.
    + by apply st_recv.
    + by eapply st_send.
    + by apply st_tick.
    + by apply st_env.
Qed.

(** A run with [n] steps of the threads. *)
Inductive counted : nat -> world (D := D) -> world -> Prop :=
| c_start w : counted 0 w w
| c_program n w1 w2 w3 : counted n w1 w2 -> program_step w2 w3 -> counted (S n) w1 w3
| c_idle n w1 w2 w3 : counted n w1 w2 -> idle_step w2 w3 -> counted n w1 w3.

Lemma sum_insert (l : list nat) i x y :
  l !! i = Some x -> (sum_list (<[i := y]> l) + x = sum_list l + y)%nat.
Proof.
  intros Hi. rewrite insert_take_drop by by eapply lookup_lt_Some.
  rewrite <- (take_drop_middle l i x Hi) at 3. rewrite !sum_list_with_app. cbn. lia.
Qed.

Lemma work_stopped w : running w = false -> work w = 0%nat.
Proof. unfold work. by intros ->. Qed.

Lemma work_running w : control w -> running w = true -> (0 < work w)%nat.
Proof.
  intros [Hc _] Hr. unfold work. rewrite Hr. unfold main_left. unfold running in Hr.
  destruct (w_main w); try done; lia.
Qed.

Lemma recv_go_left (sh : shared (D := D)) r sh' r' :
  recv_thread sh r = Go sh' r' -> recv_left (r_pc r) = S (recv_left (r_pc r')).
Proof.
  destruct r as [[]]; cbn; try by intros [= _ <-].
  destruct (iocache_wait_on_rx _) as [[]|]; [|done]. by intros [= _ <-].
Qed.

Lemma send_go_left acc sh s sh' s' :
  send_thread acc sh s = Go sh' s' -> send_left (s_pc s) = S (send_left (s_pc s')).
Proof.
  unfold send_thread. destruct (s_pc s); try by intros [= _ <-].
  - destruct (_ || _); [done|]. by intros [= _ <-].
  - destruct (copy_to_tx _ _ _); [|done]. by intros [= _ <-].
  - destruct (_ =? 0); [done|]. by intros [= _ <-].
Qed.

Lemma work_main w w' : control w -> main_moves w w' -> (work w' < work w)%nat.
Proof.
  intros Hc Hm. pose proof (work_running w Hc) as Hpos. destruct Hc as [Hc _].
  destruct Hm as [Em|Em|i Em Hi|i Em Hi|i s Em Hi Hs Hd|i Em Hi|r Em Hr Hd|Em|p o Hp Hr Ho];
    try (assert (running w = true) as Hr0 by (unfold running; by rewrite Em); rewrite Em in Hc);
    [| | | | | | |rewrite work_stopped by done; auto|].
  all: try (unfold work; rewrite Hr0; unfold main_left; rewrite Em; cbn -[Nat.mul]).
  - destruct Hc as [_ ->]. cbn -[Nat.mul]. lia.
  - replace (Z.max 1 (threads (clamp_threads (w_opts w)))) with (Z.max 1 (threads (w_opts w)))
      by (unfold clamp_threads; case_bool; cbn; lia). lia.
  - rewrite map_app, sum_list_with_app. cbn -[Nat.mul]. lia.
  - lia.
  - lia.
  - lia.
  - lia.
  - destruct Hp; subst p; rewrite work_stopped by done; auto.
Qed.

Lemma work_program w w' : control w -> program_step w w' -> (work w' < work w)%nat.
Proof.
  intros Hc [Hm|[Hr [Hm|[i Hm]]]].
  - apply work_main; [done|]. apply main_step_moves; [|done]. intros argv. by apply control_not_setup.
  - apply recv_step_inv in Hm as (r & sh & r' & Er & Hg & ->). apply recv_go_left in Hg.
    unfold work. rewrite Hr. change (running (set_recv r' (set_shared sh w))) with (running w).
    rewrite Hr, Er. change (main_left (set_recv r' (set_shared sh w))) with (main_left w). cbn. lia.
  - pose proof (work_running w Hc Hr) as Hpos.
    apply send_step_inv in Hm as (s & Es & [(sh & s' & Hg & ->)|[f ->]]); [|by rewrite work_stopped].
    apply send_go_left in Hg. set (w' := set_send _ _).
    unfold work. change (running w') with (running w). rewrite Hr.
    change (main_left w') with (main_left w). subst w'. cbn [w_send w_recv set_send set_shared].
    change (map (send_left ∘ s_pc)) with (fmap (M := list) (send_left ∘ s_pc)). rewrite list_fmap_insert.
    pose proof (sum_insert (send_left ∘ s_pc <$> w_send w) i (send_left (s_pc s)) (send_left (s_pc s'))) as Hsum.
    rewrite list_lookup_fmap, Es in Hsum. specialize (Hsum eq_refl). unfold compose in *. lia.
Qed.

Lemma work_idle w w' : idle_step w w' -> work w' = work w.
Proof. by intros [_ [(t & _ & ->)|(d & _ & ->)]]. Qed.

Lemma counted_work n w w' : counted n w w' -> control w -> control w' /\ (n + work w' <= work w)%nat.
Proof.
  induction 1 as [w|n w1 w2 w3 _ IH Hs|n w1 w2 w3 _ IH Hs]; intros Hc; [done|..];
    destruct (IH Hc) as [Hc2 Hn].
  - split; [eapply control_step; [done|]; apply step_split; by left|].
    pose proof (work_program _ _ Hc2 Hs). lia.
  - split; [eapply control_step; [done|]; apply step_split; by right|].
    by rewrite (work_idle _ _ Hs).
Qed.

(** A thread that has not ended can move, the receiver unless it waits. *)
Lemma send_enabled i w s : w_send w !! i = Some s -> s_pc s <> SDone -> is_Some (send_step i w).
Proof.
  intros Es Hd. unfold send_step. rewrite Es. unfold send_thread.
  destruct (s_pc s); try done; try by eexists.
  - by destruct (_ || _); eexists.
  - by destruct (copy_to_tx _ _ _); eexists.
  - by destruct (_ =? 0); eexists.
Qed.

Lemma recv_enabled w r : w_recv w = Some r -> r_pc r <> RDone ->
  is_Some (recv_step w) \/ r_pc r = RWait /\ iocache_wait_on_rx (dev (w_sh w)) = None.
Proof.
  intros Er Hd. unfold recv_step. rewrite Er. destruct r as [[]]; cbn in *; try done; try (left; by eexists).
  destruct (iocache_wait_on_rx _) as [[]|]; [left; by eexists|by right].
Qed.

Lemma program_enabled w : control w -> running w = true ->
  (exists w', program_step w w') \/
  exists r, w_recv w = Some r /\ r_pc r = RWait /\ iocache_wait_on_rx (dev (w_sh w)) = None.
Proof.
  intros [Hc _] Hr. assert (is_Some (main_step w) -> exists w', program_step w w') as Hmain
    by (intros [w' ?]; exists w'; by left).
  assert (forall i, is_Some (send_step i w) -> exists w', program_step w w') as Hsend
    by (intros i [w' ?]; exists w'; right; eauto).
  assert (is_Some (recv_step w) -> exists w', program_step w w') as Hrecv
    by (intros [w' ?]; exists w'; right; eauto).
  unfold main_step in Hmain. unfold running in Hr. destruct (w_main w) as [argv| | |i|i| | |c|f]; try done.
  - left. apply Hmain. by eexists.
  - left. apply Hmain. by eexists.
  - left. apply Hmain. by eexists.
  - left. destruct (Z.ltb_spec (Z.of_nat i) (threads (w_opts w))); [|apply Hmain; by eexists].
    destruct Hc as (Hl & _). destruct (lookup_lt_is_Some_2 (w_send w) i) as [s Es]; [unfold zlen in Hl; lia|].
    rewrite Es in Hmain. destruct (decide (s_pc s = SDone)) as [Hd|Hd].
    + apply Hmain. rewrite bool_decide_true by done. by eexists.
    + eapply Hsend. by eapply send_enabled.
  - destruct Hc as (_ & _ & [r Er] & _). rewrite Er in Hmain. destruct (decide (r_pc r = RDone)) as [Hd|Hd].
    + left. apply Hmain. rewrite bool_decide_true by done. by eexists.
    + destruct (recv_enabled w r Er Hd) as [?|[? ?]]; eauto 6.
  - left. apply Hmain. by eexists.
Qed.

(** ** From the command line to the threads *)

Lemma setup_parsed argv d o acc d1 : setup argv d = (inl (o, acc), d1) -> parse_args argv default_opts = inl o.
Proof.
  unfold setup. destruct (parse_args argv default_opts) as [o'|]; [|done].
  destruct (negb _); [done|]. destruct (accnet_open d) as [[r acc'] d2]. destruct (r <? 0); [done|].
  destruct (iocache_open d2) as [r2 d3]. destruct (r2 <? 0); [done|].
  destruct (conn_from_strings _ _ _ _ _ _); [|done]. by intros [= -> _ _].
Qed.

Lemma stopped_runs w w' : running w = false -> runs w w' -> w' = w.
Proof.
  intros Hr Hs. destruct Hs as [|w w1 w2 Hs _]; [done|].
  destruct Hs as [w w' Hm|w w' Hr' _|i w w' Hr' _|w t Hr' _|w d Hr' _]; try congruence.
  unfold running, main_step in *. by destruct (w_main w).
Qed.

(** A run of the whole program is still before [main], has returned without
    creating a thread, or is a run from the point where the devices are open. *)
Lemma start_runs argv d t w : runs (start argv d t) w -> t < 2 ^ 63 ->
  w_report w = None \/
  exists sc o acc d0 t', parse_args argv default_opts = inl o /\ t <= t' < 2 ^ 63 /\
    (setup argv d0).1 = inl (o, acc) /\ runs (launched sc o acc (setup argv d0).2 t') w.
Proof.
  remember (start argv d t) as w0 eqn:E0. intros Hs. revert d t E0.
  induction Hs as [w0|w0 w1 w2 Hs Hr IH]; intros d t -> Ht; [by left|].
  inversion Hs as [? ? Hm|? ? _ Hm|? ? ? _ Hm|? t' _ Ht'|? d' _ Hd]; subst; try done.
  - unfold main_step in Hm. cbn in Hm. destruct (setup argv d) as [[[o acc]|c] d1] eqn:E; injection Hm as <-.
    + right. pose proof (setup_parsed _ _ _ _ _ E) as Ep. rewrite Ep in Hr.
      exists (raise_priority (mk_sched false None 0)), o, acc, d, t. rewrite E. split_and!; done || lia.
    + left. apply stopped_runs in Hr; [by subst w2|done].
  - destruct (IH d t' eq_refl ltac:(lia)) as [?|(sc & o & acc & d0 & t1 & ? & ? & ? & ?)]; [by left|].
    right. exists sc, o, acc, d0, t1. cbn in Ht'. split_and!; done || lia.
  - by apply (IH d').
Qed.

(** C14: The end of every run, whatever the interleaving, the clock and the devices
    do: with [n] senders the threads take at most [13 + 11 n] steps together, and as
    long as the program has neither returned nor crashed one of them can move,
    unless the receiver is asleep because [iocache_wait_on_rx] has not returned. *)
Theorem interrupt_exp_ends sc o acc d t k w :
  counted k (launched sc o acc d t) w ->
  (k <= 13 + 11 * Z.to_nat (Z.max 1 (threads o)))%nat /\
  (running w = true ->
   (exists w', program_step w w') \/
   exists r, w_recv w = Some r /\ r_pc r = RWait /\ iocache_wait_on_rx (dev (w_sh w)) = None).
Proof.
  intros Hk. destruct (counted_work _ _ _ Hk (control_launched sc o acc d t)) as [Hc Hw].
  split; [|by apply program_enabled].
  unfold work, main_left in Hw. cbn -[Nat.mul] in Hw. lia.
Qed.
End spec.

(** ** The transmit tail

    What the library promises about the tail register: it holds what was written,
    and nothing but [accnet_set_tx_tail] writes it. *)

Class TailLaws (D : Type) `{NetLib D} (env : D -> D -> Prop) := {
  tail_range d : 0 <= accnet_get_tx_tail d < 2 ^ 32;
  tail_set v d : 0 <= v < 2 ^ 32 -> accnet_get_tx_tail (accnet_set_tx_tail v d) = v;
  tail_copy o l d d' : copy_to_tx o l d = Some d' -> accnet_get_tx_tail d' = accnet_get_tx_tail d;
  tail_wait d x d' : iocache_wait_on_rx d = Some (x, d') -> accnet_get_tx_tail d' = accnet_get_tx_tail d;
  tail_head v d : accnet_get_tx_tail (accnet_set_rx_head v d) = accnet_get_tx_tail d;
  tail_env d d' : env d d' -> accnet_get_tx_tail d' = accnet_get_tx_tail d
}.

Section tail.
Context {D : Type} `{NetLib D} `{System} (env : D -> D -> Prop) `{!TailLaws D env}.
Implicit Types w : world (D := D).
Context (t0 : Z) (o : opts) (acc : accnet_info).
Hypothesis Hstack : sys_stack < 2 ^ 63.
Hypothesis Hring : 0 < udp_tx_size acc <= 2 ^ 32.
Hypothesis Ht0 : 0 <= t0 < 2 ^ 32.

(** The tail after [k] payloads. *)
Definition tail_after (k : nat) : Z :=
  if (k =? 0)%nat then t0 else (t0 + Z.of_nat k * payload_size o) mod udp_tx_size acc.

Lemma tail_after_range k : 0 <= tail_after k < 2 ^ 32.
Proof.
  unfold tail_after. destruct (k =? 0)%nat; [done|].
  pose proof (Z.mod_pos_bound (t0 + Z.of_nat k * payload_size o) (udp_tx_size acc)). lia.
Qed.

Lemma tail_after_S k : (tail_after k + payload_size o) mod udp_tx_size acc = tail_after (S k).
Proof.
  unfold tail_after. cbn [Nat.eqb]. destruct (Nat.eqb_spec k 0) as [->|Hk].
  - f_equal. lia.
  - rewrite Zplus_mod_idemp_l. f_equal. lia.
Qed.

(** The senders that have written the tail register. *)
Definition rang (s : sender) : Prop := s_pc s = SStore \/ s_pc s = SDone.
#[local] Instance rang_dec s : Decision (rang s) := _.
Definition rung w : nat := length (filter rang (w_send w)).

(** What a sender has read, and what it is about to write. *)
Definition read_tail (p : send_point) : bool := match p with SInit | SHead | STail => false | _ => true end.

Record sender_ok (n : nat) (s : sender) : Prop := {
  so_args : sa_payload_size (s_args s) = payload_size o;
  so_size : s_pc s <> SInit -> 0 < payload_size o <= sys_stack;
  so_tail : read_tail (s_pc s) = true ->
    exists j, (j <= n)%nat /\ tx_tail s = tail_after j /\
      (s_pc s = SClock \/ s_pc s = SSet -> val s = tail_after (S j))
}.

Record tail_inv w : Prop := {
  ti_acc : w_acc w = acc;
  ti_opts : payload_size (w_opts w) = payload_size o;
  ti_threads : Z.max 1 (threads (w_opts w)) = Z.max 1 (threads o);
  ti_tail : exists k, accnet_get_tx_tail (dev (w_sh w)) = tail_after k /\ (k <= rung w)%nat /\
    ((0 < rung w)%nat -> (0 < k)%nat);
  ti_send : Forall (sender_ok (rung w)) (w_send w)
}.

Lemma sender_ok_mono n m s : (n <= m)%nat -> sender_ok n s -> sender_ok m s.
Proof.
  intros Hnm [? ? Ht]. split; try done. intros Hr. destruct (Ht Hr) as (j & ? & ?). exists j. split; [lia|done].
Qed.

(** The step [Hg] keeps the sender's arguments; what it knows of the tail is left. *)
Ltac sender_goes Hg Hs :=
  injection Hg as <- <-; split; [split; cbn; [done|by intros _; apply Hs|]|cbn; naive_solver].

(** A step of a sender other than the write of the register. *)
Lemma sender_ok_go sh s sh' s' n k :
  send_thread acc sh s = Go sh' s' -> s_pc s <> SSet -> sender_ok n s ->
  accnet_get_tx_tail (dev sh) = tail_after k -> (k <= n)%nat ->
  sender_ok n s' /\ (rang s' <-> rang s) /\ accnet_get_tx_tail (dev sh') = accnet_get_tx_tail (dev sh).
Proof.
  intros Hg Hp [Ha Hs Ht] Hk Hkn. unfold send_thread in Hg. unfold rang.
  destruct (s_pc s) eqn:Ep; try done; cbn in Ht; try destruct (Ht eq_refl) as (j & Hj & E & Hv).
  - destruct (_ || _) eqn:Eb; [done|]. injection Hg as <- <-. apply orb_false_iff in Eb as [Eb1 Eb2].
    rewrite Ha in Eb1, Eb2. split; [split; cbn; [done|lia|done]|]. cbn. naive_solver.
  - by sender_goes Hg Hs.
  - sender_goes Hg Hs. intros _. exists k. naive_solver.
  - sender_goes Hg Hs. intros _. exists j. naive_solver.
  - destruct (copy_to_tx _ _ _) as [d|] eqn:Ec; [|done]. apply tail_copy in Ec.
    sender_goes Hg Hs. intros _. exists j. naive_solver.
  - destruct (Z.eqb_spec (udp_tx_size acc) 0); [done|]. sender_goes Hg Hs.
    intros _. exists j. split; [done|]. split; [done|]. intros _.
    pose proof (tail_after_range j). pose proof (tail_after_range (S j)).
    specialize (Hs ltac:(done)). rewrite Ha, E. rewrite (u_small 64) by (pow2; lia).
    rewrite tail_after_S. by apply u_small.
  - sender_goes Hg Hs. intros _. exists j. naive_solver.
  - sender_goes Hg Hs. intros _. exists j. naive_solver.
Qed.

(** The write: the register holds one payload more than the sender had read. *)
Lemma sender_ok_set sh s sh' s' n :
  send_thread acc sh s = Go sh' s' -> s_pc s = SSet -> sender_ok n s ->
  sender_ok n s' /\ rang s' /\ ~ rang s /\
  exists j, (j <= n)%nat /\ accnet_get_tx_tail (dev sh') = tail_after (S j).
Proof.
  intros Hg Hp [Ha Hs Ht]. unfold send_thread in Hg. rewrite Hp in Hg, Ht, Hs.
  destruct (Ht eq_refl) as (j & Hj & E & Hv). injection Hg as <- <-. unfold rang. rewrite Hp.
  split; [split; cbn; [done|by intros _; apply Hs|intros _; exists j; naive_solver]|].
  split; [by left|]. split; [by intros []|]. exists j. split; [done|].
  cbn [dev set_dev]. rewrite Hv by auto. apply tail_set, (tail_after_range (S j)).
Qed.

Lemma tail_inv_send i w w' : tail_inv w -> send_step i w = Some w' -> running w' = true -> tail_inv w'.
Proof.
  intros [Ea Eo En (k & Ek & Hk & Hk0) HF] (s & Es & [(sh & s' & Hg & ->)|[f ->]])%send_step_inv Hr; [|done].
  rewrite Ea in Hg. assert (sender_ok (rung w) s) as Hs by (rewrite list.Forall_lookup in HF; by eapply HF).
  pose proof (length_filter_insert rang (w_send w) i s s' Es) as Hcount. fold (rung w) in Hcount.
  set (w' := set_send _ _). change (length (filter rang (<[i:=s']> (w_send w)))) with (rung w') in Hcount.
  destruct (decide (s_pc s = SSet)) as [Hp|Hp].
  - destruct (sender_ok_set _ _ _ _ _ Hg Hp Hs) as (Hs' & Hr' & Hn & j & Hj & Ej).
    rewrite decide_False, decide_True in Hcount by done.
    split; [done..|exists (S j); split_and!; [done|lia|lia]|].
    apply Forall_insert; [|by eapply sender_ok_mono; [|exact Hs']; lia].
    eapply Forall_impl; [|exact HF]. intros x. apply sender_ok_mono. lia.
  - destruct (sender_ok_go _ _ _ _ _ _ Hg Hp Hs Ek Hk) as (Hs' & Hr' & Et).
    assert (rung w' = rung w) as Erw by (repeat case_decide; tauto || lia).
    split; [done..|exists k; rewrite Erw; split_and!; [by rewrite <- Ek|done|done]|].
    rewrite Erw. by apply Forall_insert.
Qed.

Lemma tail_inv_recv w w' : tail_inv w -> recv_step w = Some w' -> tail_inv w'.
Proof.
  intros [Ea Eo En (k & Ek & Hk & Hk0) HF] (r & sh & r' & Er & Hg & ->)%recv_step_inv.
  assert (accnet_get_tx_tail (dev sh) = accnet_get_tx_tail (dev (w_sh w))) as Et.
  { destruct r as [[]]; cbn in Hg; try done; try (by injection Hg as <- _).
    - destruct (iocache_wait_on_rx _) as [[x d]|] eqn:Ew; [|done]. injection Hg as <- _. by eapply tail_wait.
    - injection Hg as <- _. apply tail_head. }
  split; [done..| |done]. exists k. split; [by rewrite <- Ek|done].
Qed.

Lemma filter_all {A} (P : A -> Prop) `{!∀ x, Decision (P x)} (l : list A) : Forall P l -> filter P l = l.
Proof. induction 1; [done|]. rewrite filter_cons_True by done. by f_equal. Qed.

Lemma rung_app s l : ~ rang s -> length (filter rang (l ++ [s])) = length (filter rang l).
Proof. intros Hs. rewrite list.filter_app, filter_cons_False by done. by rewrite app_nil_r. Qed.

Lemma tail_inv_main w w' : tail_inv w -> main_moves w w' -> running w' = true -> tail_inv w'.
Proof.
  intros [Ea Eo En Ht HF] Hm Hr.
  destruct Hm as [Em|Em|i Em Hi|i Em Hi|i s Em Hi Hs Hd|i Em Hi|r Em Hr' Hd|Em|p o' Hp Hr' Ho'];
    try by split.
  - split; try done; cbn; unfold clamp_threads; case_bool; cbn; try done; lia.
  - set (s := new_sender _). assert (~ rang s) as Hs by by intros [].
    set (w' := set_send _ _). assert (rung w' = rung w) as Erw by by apply rung_app.
    split; [done..|by rewrite Erw|]. rewrite Erw. apply list.Forall_app. split; [done|].
    apply list.Forall_singleton. by split.
  - by destruct Hp; subst p.
Qed.

Lemma tail_inv_step w w' : control w /\ (running w = true -> tail_inv w) -> step env w w' ->
  control w' /\ (running w' = true -> tail_inv w').
Proof.
  intros [Hc Hi] Hs. split; [by eapply control_step|]. intros Hr.
  destruct Hs as [w w' Hm|w w' Hr' Hm|i w w' Hr' Hm|w t Hr' Ht|w d Hr' Hd].
  - apply main_step_moves in Hm; [|intros argv; by apply control_not_setup].
    eapply tail_inv_main; [|done|done]. apply Hi. unfold running. destruct Hm as [E|E|? E|? E|? ? E|? E|? E|E|? ? ? E ?];
      try by rewrite E.
    exact E.
  - eapply tail_inv_recv; [|done]. by apply Hi.
  - eapply tail_inv_send; [|done|done]. by apply Hi.
  - destruct (Hi Hr') as [? ? ? ? ?]. by split.
  - destruct (Hi Hr') as [? ? ? (k & Ek & ?) ?]. split; try done. exists k. split; [|done].
    cbn. rewrite <- Ek. by apply (tail_env (env := env)).
Qed.

(** C18: The senders do not synchronise: after all of them have ended the tail of the
    ring has advanced by at least one and at most as many payloads as there are
    senders, whatever the interleaving; it is not always all of them. *)
Theorem tail_advance sc d t w :
  accnet_get_tx_tail d = t0 -> star (step env) (launched sc o acc d t) w -> w_main w = MReport ->
  exists k, 1 <= Z.of_nat k <= Z.max 1 (threads o) /\
    accnet_get_tx_tail (dev (w_sh w)) = (t0 + Z.of_nat k * payload_size o) mod udp_tx_size acc.
Proof.
  intros Hd Hs Hm.
  destruct (star_invariant _ (λ w, control w /\ (running w = true -> tail_inv w)) tail_inv_step _ _ Hs) as [Hc Hi].
  { split; [apply control_launched|]. intros _. split; try done. exists 0%nat. split; [done|]. split; cbn; lia. }
  assert (running w = true) as Hr by (unfold running; by rewrite Hm).
  destruct Hc as [Hc _]. rewrite Hm in Hc. destruct Hc as (Hl & H1 & _ & Hall).
  destruct (Hi Hr) as [_ _ En (k & Ek & Hk & Hk0) _].
  assert (Z.of_nat (rung w) = Z.max 1 (threads o)) as Ern.
  { rewrite <- En, <- Hl. unfold rung, zlen in *. rewrite (filter_all rang); [lia|].
    eapply Forall_impl; [|exact Hall]. intros s Hd'. by right. }
  exists k. split; [lia|]. rewrite Ek. unfold tail_after. by destruct (Nat.eqb_spec k 0); [lia|].
Qed.
End tail.

(** ** The latency

    [quiet]: no packet can have arrived.  As long as that is so [iocache_wait_on_rx] does
    not succeed (it may time out and fail), and only writing the tail register makes a
    packet arrive. *)

Class QuietLaws (D : Type) `{NetLib D} (env : D -> D -> Prop) (quiet : D -> Prop) := {
  quiet_wait d x d' : quiet d -> iocache_wait_on_rx d = Some (x, d') -> x <> 0;
  quiet_copy off l d d' : quiet d -> copy_to_tx off l d = Some d' -> quiet d';
  quiet_env d d' : quiet d -> env d d' -> quiet d'
}.

Section latency.
Context {D : Type} `{NetLib D} `{System} (env : D -> D -> Prop) (quiet : D -> Prop) `{!QuietLaws D env quiet}.
Implicit Types w : world (D := D).
Context (t0 n0 : Z).

(** Has the thread read the clock, and has it stored what it read? *)
Definition s_stamped (p : send_point) : bool := match p with SSet | SStore | SDone => true | _ => false end.
Definition r_waiting (p : recv_point) : bool := match p with RSize | RHead | RWait => true | _ => false end.
Definition r_stamped (p : recv_point) : bool :=
  match p with RStore | RTail | RSetHead | RDone => true | _ => false end.
Definition r_stored (p : recv_point) : bool := match p with RTail | RSetHead | RDone => true | _ => false end.

(** A reading of the clock in this run, not after [b]. *)
Definition read_by (b : Z) (ts : timespec) : Prop := exists a, ts = clock_gettime a /\ t0 <= a <= b.

(** Some sender has rung, and read the clock not after [b]. *)
Definition rang_by (b : Z) (l : list sender) : Prop :=
  exists i s, l !! i = Some s /\ rang s /\ read_by b (s_ts s).

Definition unheard (sh : shared (D := D)) (r : option receiver) : Prop :=
  match r with
  | Some r => if r_waiting (r_pc r) then quiet (dev sh) else res r <> 0
  | None => quiet (dev sh)
  end.

Definition receiver_timed (sh : shared (D := D)) (l : list sender) (r : receiver) : Prop :=
  (r_waiting (r_pc r) = false -> res r = 0 -> rang_by (clock sh) l) /\
  (r_stamped (r_pc r) = true -> exists b, r_ts r = clock_gettime b /\ t0 <= b <= clock sh /\
    (r_stored (r_pc r) = true -> t_end_ns sh = b) /\ (res r = 0 -> rang_by b l)).

Record timed w : Prop := {
  ti_count : zlen (w_send w) <= Z.max 1 n0 /\ threads (w_opts w) <= Z.max 1 n0;
  ti_some : w_report w <> None -> w_send w <> [];
  ti_clock : t0 <= clock (w_sh w) < 2 ^ 63;
  ti_quiet : Forall (λ s, ~ rang s) (w_send w) -> unheard (w_sh w) (w_recv w);
  ti_sender : Forall (λ s, s_stamped (s_pc s) = true -> read_by (clock (w_sh w)) (s_ts s)) (w_send w);
  ti_start i s : w_send w !! i = Some s -> s_pc s = SDone ->
    exists j s', w_send w !! j = Some s' /\ s_pc s' = SDone /\ t_start_ns (w_sh w) = timespec_to_ns (s_ts s');
  ti_receiver : forall r, w_recv w = Some r -> receiver_timed (w_sh w) (w_send w) r
}.

Hypothesis Ht0 : 0 <= t0.

Lemma read_by_le b b' ts : read_by b ts -> b <= b' -> read_by b' ts.
Proof. intros (a & ? & ?) ?. exists a. split; [done|lia]. Qed.

Lemma rang_by_le b b' l : rang_by b l -> b <= b' -> rang_by b' l.
Proof. intros (i & s & ? & ? & ?) ?. exists i, s. split_and!; [done..|by eapply read_by_le]. Qed.

Lemma rang_by_app b l l' : rang_by b l -> rang_by b (l ++ l').
Proof. intros (i & s & Hi & Hs). exists i, s. split; [by apply lookup_app_l_Some|done]. Qed.

(** One of the senders has rung: that has been read, too. *)
Lemma rang_timed w : timed w -> ~ Forall (λ s, ~ rang s) (w_send w) -> rang_by (clock (w_sh w)) (w_send w).
Proof.
  intros [_ _ _ _ Hs _ _] HF.
  assert (exists i s, w_send w !! i = Some s /\ rang s) as (i & s & Hi & Hr).
  { clear Hs. induction (w_send w) as [|s l IH]; [by destruct HF|].
    destruct (decide (rang s)); [by exists 0%nat, s|].
    destruct IH as (i & s' & ? & ?); [intros HF'; apply HF; by constructor|]. by exists (S i), s'. }
  exists i, s. split_and!; [done..|]. rewrite list.Forall_lookup in Hs. apply (Hs i s Hi).
  by destruct Hr as [-> | ->].
Qed.

Lemma timed_main w w' : control w -> timed w -> main_moves w w' -> timed w'.
Proof.
  intros [Hc Hrep] Hi Hm. pose proof Hi as [[Hn Ht] He Hk Hq Hs Hd Hr].
  destruct Hm as [Em|Em|i Em Hi'|i Em Hi'|i s Em Hi' Hs' Hd'|i Em Hi'|r Em Hr' Hd'|Em|p o' Hp Hr' Ho'];
    try (rewrite Em in Hc); try by split.
  - destruct Hc as [Es Er]. rewrite Er in Hq. split; try done; cbn. intros r [= <-]. by split.
  - split; try done. cbn. split; [done|]. unfold clamp_threads. case_bool; cbn; lia.
  - destruct Hc as (El & _). split; try done; cbn.
    + split; [unfold zlen in *; rewrite length_app; cbn; lia|done].
    + intros _ E. by apply app_nil in E as [_ ?].
    + intros [HF _]%Forall_app. by apply Hq.
    + apply Forall_app. split; [done|]. by forall_list.
    + intros k s [Hl|[_ Hl]]%lookup_app_Some Hp.
      * destruct (Hd k s Hl Hp) as (j & s' & ? & ? & ?). exists j, s'. split; [by apply lookup_app_l_Some|done].
      * by apply list_lookup_singleton_Some in Hl as [_ <-].
    + intros r Er. destruct (Hr r Er) as [Hu Hv2]. split.
      * intros Hw Hz. by apply rang_by_app, Hu.
      * intros Hst. destruct (Hv2 Hst) as (b & ? & ? & ? & Hb). exists b. split_and!; try done; try lia.
        intros Hz. by apply rang_by_app, Hb.
  - destruct Hc as (El & Hu & (r0 & Er0 & Hd0) & Hall).
    split; try done; cbn.
    + intros _ E0. rewrite E0 in El. cbn in El. unfold zlen in El. cbn in El. lia.
    + intros HF. unfold all_done in Hall. unfold zlen in El.
      destruct (w_send w) as [|s l]; cbn in El; [lia|].
      apply list.Forall_cons in HF as [HF _]. apply list.Forall_cons in Hall as [Hall _].
      destruct HF. by right.
  - split; try done. cbn. split; [done|]. unfold clamp_threads in Ho'.
    destruct Ho'; subst o'; [done|]. case_bool; cbn; lia.
Qed.

Lemma timed_recv w w' : timed w -> recv_step w = Some w' -> timed w'.
Proof.
  intros Hi (r & sh & r' & Er & Hg & ->)%recv_step_inv. pose proof Hi as [Hn He Hk Hq Hs Hd Hr].
  destruct (Hr r Er) as [Hw Hst]. rewrite Er in Hq. destruct r as [pc sz hd tl rs n ts].
  destruct pc; cbn in Hg; try done; cbn in Hq, Hw, Hst.
  - injection Hg as <- <-. split; try done; cbn. by intros r [= <-].
  - injection Hg as <- <-. split; try done; cbn. by intros r [= <-].
  - destruct (iocache_wait_on_rx _) as [[x d]|] eqn:Ew; [|done]. injection Hg as <- <-.
    assert (x = 0 -> ~ Forall (λ s, ~ rang s) (w_send w)) as Hx.
    { intros -> HF. by apply (quiet_wait _ _ _ (Hq HF)) in Ew. }
    split; try done; cbn; [by intros HF ->; apply Hx|].
    intros r [= <-]. split; [|done]. intros _ Hz. by apply rang_timed, Hx.
  - injection Hg as <- <-. split; try done. intros r [= <-]. split; [done|]. intros _.
    exists (clock (w_sh w)). cbn. split_and!; try done; try lia. intros Hz. by apply Hw.
  - injection Hg as <- <-. destruct (Hst eq_refl) as (b & Eb & Hb & _ & HF).
    split; try done; cbn. intros r [= <-]. split; [done|]. intros _. exists b. cbn.
    split_and!; try done; try lia. intros _. subst ts. apply clock_gettime_ns. lia.
  - injection Hg as <- <-. split; try done; cbn. by intros r [= <-].
  - injection Hg as <- <-. split; try done; cbn. by intros r [= <-].
Qed.

(** What one instruction of a sender does to the clocks. *)
Lemma send_effect acc sh s sh' s' :
  send_thread (D := D) acc sh s = Go sh' s' -> t0 <= clock sh ->
  clock sh' = clock sh /\ t_end_ns sh' = t_end_ns sh /\ s_pc s <> SDone /\
  (rang s -> rang s') /\ (~ rang s' -> quiet (dev sh) -> quiet (dev sh')) /\
  (s_stamped (s_pc s) = true -> s_ts s' = s_ts s) /\
  (s_stamped (s_pc s') = true -> s_stamped (s_pc s) = true \/ read_by (clock sh) (s_ts s')) /\
  t_start_ns sh' = (if bool_decide (s_pc s' = SDone) then timespec_to_ns (s_ts s') else t_start_ns sh).
Proof.
  unfold send_thread, rang. intros Hg Ht. destruct (s_pc s) eqn:Ep; try done.
  - destruct (_ || _); [done|]. injection Hg as <- <-. split_and!; try done; by intros [].
  - injection Hg as <- <-. split_and!; try done; by intros [].
  - injection Hg as <- <-. split_and!; try done; by intros [].
  - injection Hg as <- <-. split_and!; try done; by intros [].
  - destruct (copy_to_tx _ _ _) as [d|] eqn:Ec; [|done]. injection Hg as <- <-.
    split_and!; try done; try (by intros []). intros _ Hq. by eapply quiet_copy.
  - destruct (_ =? 0); [done|]. injection Hg as <- <-. split_and!; try done; by intros [].
  - injection Hg as <- <-. split_and!; try done; try (by intros []).
    intros _. right. exists (clock sh). cbn. split; [done|lia].
  - injection Hg as <- <-. split_and!; try done; try (by intros []); try by left.
    intros Hn. by destruct Hn; left.
  - injection Hg as <- <-. split_and!; try done; try by right. by left.
Qed.

Lemma timed_send i w w' : timed w -> send_step i w = Some w' -> timed w'.
Proof.
  intros Hi (s & Es & [(sh & s' & Hg & ->)|[f ->]])%send_step_inv; [|by destruct Hi].
  destruct Hi as [Hn He Hk Hq Hs Hd Hr].
  destruct (send_effect _ _ _ _ _ Hg ltac:(lia)) as (Ec & Ee & Hnd & Hra & Hqu & Hts & Hstm & Est).
  rewrite list.Forall_lookup in Hs. pose proof (Hs i s Es) as Hsi.
  assert (forall b, rang_by b (w_send w) -> rang_by b (<[i := s']> (w_send w))) as Hrb.
  { intros b (j & s0 & Hj & Hr0 & Hb). destruct (decide (j = i)) as [->|Hne].
    - rewrite Es in Hj. injection Hj as <-. exists i, s'. rewrite list_lookup_insert_eq by by eapply lookup_lt_Some.
      split_and!; [done|by apply Hra|]. rewrite Hts; [done|]. by destruct Hr0 as [-> | ->].
    - exists j, s0. by rewrite list_lookup_insert_ne. }
  split; cbn; rewrite ?Ec.
  - unfold zlen in *. by rewrite length_insert.
  - intros Hrep E0. apply (He Hrep). apply (f_equal length) in E0. rewrite length_insert in E0.
    by apply nil_length_inv.
  - done.
  - intros HF. rewrite list.Forall_lookup in HF.
    assert (~ rang s') as Hns.
    { apply (HF i). by rewrite list_lookup_insert_eq by by eapply lookup_lt_Some. }
    assert (Forall (λ s, ~ rang s) (w_send w)) as HF0.
    { apply list.Forall_lookup. intros j s0 Hj. destruct (decide (j = i)) as [->|Hne].
      - rewrite Es in Hj. injection Hj as <-. tauto.
      - apply (HF j). by rewrite list_lookup_insert_ne. }
    specialize (Hq HF0). unfold unheard in *. destruct (w_recv w) as [r|]; [|by apply Hqu].
    destruct (r_waiting (r_pc r)); [by apply Hqu|done].
  - apply list.Forall_lookup. intros j s0 Hj Hp. destruct (decide (j = i)) as [->|Hne].
    + rewrite list_lookup_insert_eq in Hj by by eapply lookup_lt_Some. injection Hj as <-.
      destruct (Hstm Hp) as [Hp0|]; [|done]. rewrite Hts by done. by apply Hsi.
    + rewrite list_lookup_insert_ne in Hj by done. by apply (Hs j).
  - intros j s0 Hj Hp. rewrite Est. case_bool_decide as Hp'.
    + exists i, s'. split; [|done]. by rewrite list_lookup_insert_eq by by eapply lookup_lt_Some.
    + assert (j <> i) as Hne.
      { intros ->. rewrite list_lookup_insert_eq in Hj by by eapply lookup_lt_Some. congruence. }
      rewrite list_lookup_insert_ne in Hj by done.
      destruct (Hd j s0 Hj Hp) as (k & s1 & Hk1 & Hp1 & E1). exists k, s1.
      rewrite list_lookup_insert_ne; [done|]. intros <-. congruence.
  - intros r Er. destruct (Hr r Er) as [Hw Hst]. split.
    + rewrite Ec. intros Hw' Hz. by apply Hrb, Hw.
    + intros Hp. destruct (Hst Hp) as (b & ? & ? & ? & Hb). exists b. rewrite Ec, Ee.
      split_and!; try done; try lia. intros Hz. by apply Hrb, Hb.
Qed.

Lemma timed_step w w' : control w /\ timed w -> step env w w' -> control w' /\ timed w'.
Proof.
  intros [Hc Hi] Hs. split; [by eapply control_step|].
  destruct Hs as [w w' Hm|w w' Hr' Hm|i w w' Hr' Hm|w t Hr' Ht|w d Hr' Hd].
  - apply main_step_moves in Hm; [|intros argv; by apply control_not_setup]. by eapply timed_main.
  - by eapply timed_recv.
  - by eapply timed_send.
  - destruct Hi as [Hn He Hk Hq Hs Hd Hr]. split; try done; cbn; [lia|..].
    + eapply Forall_impl; [|exact Hs]. intros s Hst Hp. eapply read_by_le; [by apply Hst|lia].
    + intros r Er. destruct (Hr r Er) as [Hw Hst]. split; cbn.
      * intros Hw' Hz. eapply rang_by_le; [by apply Hw|lia].
      * intros Hp. destruct (Hst Hp) as (b & ? & ? & ? & ?). exists b. split_and!; try done; lia.
  - destruct Hi as [Hn He Hk Hq Hs Hd' Hr]. split; try done; cbn.
    intros HF. specialize (Hq HF). unfold unheard in *. cbn.
    destruct (w_recv w) as [r|]; [|by eapply quiet_env].
    destruct (r_waiting (r_pc r)); [by eapply quiet_env|done].
Qed.

(** What is reported when [main] has returned. *)
Lemma timed_report sc o acc d w v :
  threads o = n0 -> quiet d -> star (step env) (launched sc o acc d t0) w -> t0 < 2 ^ 63 ->
  w_report w = Some v ->
  exists s r a b, s ∈ w_send w /\ w_recv w = Some r /\
    s_ts s = clock_gettime a /\ r_ts r = clock_gettime b /\ t0 <= a /\ t0 <= b /\ v = b - a /\
    (res r = 0 -> (exists s' a', s' ∈ w_send w /\ s_ts s' = clock_gettime a' /\ t0 <= a' <= b) /\
                  (n0 <= 1 -> 0 <= v)).
Proof.
  intros Hn Hq Hs Ht Hv.
  destruct (star_invariant _ (λ w, control w /\ timed w) timed_step _ _ Hs) as [[Hc Hrep] Hi].
  { split; [apply control_launched|]. split; cbn; try done; unfold zlen; cbn; try lia. }
  assert (all_done w /\ recv_done w /\ v = i64 (t_end_ns (w_sh w) - t_start_ns (w_sh w)))
    as (Hall & (r & Er & Hd) & ->).
  { unfold running in Hrep. destruct (w_main w); try (rewrite Hrep in Hv by done; done); [by apply Hc|].
    by rewrite Hc in Hv. }
  destruct Hi as [[Hcnt _] Hne Hk _ Hst Hstart Hrt].
  destruct (Hrt r Er) as [_ Hr2]. destruct (Hr2 ltac:(by rewrite Hd)) as (b & Eb & Hb & Ee & HF).
  assert (exists s0, w_send w !! 0%nat = Some s0) as [s0 E0].
  { destruct (w_send w) as [|s0 l]; [by destruct Hne; [congruence|]|]. by exists s0. }
  unfold all_done in Hall. rewrite list.Forall_lookup in Hall, Hst.
  destruct (Hstart 0%nat s0 E0 (Hall _ _ E0)) as (j & s & Hj & Hp & Es).
  destruct (Hst j s Hj ltac:(by rewrite Hp)) as (a & Ea & Ha).
  assert (t_start_ns (w_sh w) = a) as Eta by (rewrite Es, Ea; apply clock_gettime_ns; lia).
  rewrite Eta, Ee by by rewrite Hd.
  assert (i64 (b - a) = b - a) as -> by (apply i_small; change (2 ^ (64 - 1)) with (2 ^ 63); lia).
  exists s, r, a, b. split; [by eapply list_elem_of_lookup_2|]. split_and!; try done; try lia.
  intros Hz. destruct (HF Hz) as (k & s' & Hk' & _ & a' & Ea' & Ha').
  split; [exists s', a'; split_and!; try done; try lia; by eapply list_elem_of_lookup_2|].
  intros Hn1. assert (j = k) as <-.
  { apply lookup_lt_Some in Hj, Hk'. unfold zlen in Hcnt. lia. }
  rewrite Hj in Hk'. injection Hk' as <-. rewrite Ea in Ea'.
  assert (a = a') as <- by (rewrite <- (clock_gettime_ns a), <- (clock_gettime_ns a') by lia; congruence).
  lia.
Qed.
End latency.

(** C13: The latency that is printed.  The program runs from its command line with any
    number of senders, opening the devices leaves them without a packet, and no wait
    succeeds before a packet was sent.  Whatever the interleaving, the number reported is
    the difference of two readings of the clock in this run, one of a sender and the
    receiver's after its wait.  If the wait succeeded, some sender had read its clock
    before, and with one sender the number is not negative; if the wait timed out, which
    the receiver does not look at, nothing is known of the sign. *)
Theorem one_shot_latency {D} `{NetLib D} `{System} (env : D -> D -> Prop) (quiet : D -> Prop)
    `{!QuietLaws D env quiet} argv d t w v :
  (forall d1, quiet (setup argv d1).2) -> 0 <= t < 2 ^ 63 ->
  star (step env) (start argv d t) w -> w_report w = Some v ->
  exists o s r a b, parse_args argv default_opts = inl o /\ s ∈ w_send w /\ w_recv w = Some r /\
    s_ts s = clock_gettime a /\ r_ts r = clock_gettime b /\ t <= a /\ t <= b /\ v = b - a /\
    (res r = 0 -> (exists s' a', s' ∈ w_send w /\ s_ts s' = clock_gettime a' /\ t <= a' <= b) /\
                  (threads o <= 1 -> 0 <= v)).
Proof.
  intros Hq Ht Hs Hv.
  destruct (start_runs env argv d t w Hs ltac:(lia)) as [E|(sc & o & acc & d0 & t' & Ep & Ht' & _ & Hr)];
    [by rewrite E in Hv|].
  destruct (timed_report env quiet t' (threads o) ltac:(lia) sc o acc _ w v eq_refl (Hq d0) Hr ltac:(lia) Hv)
    as (s & r & a & b & ? & ? & ? & ? & ? & ? & ? & Hw).
  exists o, s, r, a, b. split_and!; try done; try lia. intros Hz.
  destruct (Hw Hz) as [(s' & a' & ? & ? & ?) ?]. split; [exists s', a'; split_and!; done || lia|done].
Qed.

(** ** The division of the bytes *)

(** The shares of the senders add up to the number of bytes asked for; all but
    the first are equal. *)
Theorem send_args_partition o :
  0 <= total_bytes o < 2 ^ 64 -> 1 <= threads o ->
  foldr Z.add 0 (map (λ i, sa_total_bytes (send_args o i)) (seq 0 (Z.to_nat (threads o)))) = total_bytes o.
Proof.
  intros Hb Ht. destruct (Z.to_nat (threads o)) as [|n] eqn:En; [lia|]. cbn [seq map foldr].
  set (q := total_bytes o / threads o). set (m := total_bytes o mod threads o).
  assert (total_bytes o = threads o * q + m) as E by apply Z_div_mod_eq_full.
  assert (0 <= m < threads o) as Hm by (apply Z.mod_pos_bound; lia).
  assert (0 <= q) as Hq by (apply Z.div_pos; lia).
  assert (foldr Z.add 0 (map (λ i, sa_total_bytes (send_args o i)) (seq 1 n)) = Z.of_nat n * q) as ->.
  { assert (forall k, (0 < k)%nat ->
      foldr Z.add 0 (map (λ i, sa_total_bytes (send_args o i)) (seq k n)) = Z.of_nat n * q) as Hg; [|by apply Hg; lia].
    assert (q < 2 ^ 64) as Hq2 by nia.
    clear En E. induction n as [|n IH]; intros k Hk; [done|]. cbn [seq map foldr]. rewrite IH by lia.
    unfold send_args. cbn [sa_total_bytes]. rewrite (proj2 (Nat.eqb_neq k 0)) by lia. fold q.
    rewrite Z.add_0_r, u_small by lia. lia. }
  unfold send_args. cbn [sa_total_bytes Nat.eqb]. fold q m. rewrite u_small by nia. nia.
Qed.

(** ** Schedules

    A run can be given as a list of choices, which makes it computable. *)

Inductive choice := CMain | CRecv | CSend (i : nat) | CTick (t : Z).

Section schedule.
Context {D : Type} `{NetLib D} `{System} (env : D -> D -> Prop).

Definition choose (c : choice) (w : world (D := D)) : option world :=
  match c with
  | CMain => main_step w
  | CRecv => if running w then recv_step w else None
  | CSend i => if running w then send_step i w else None
  | CTick t =>
      if running w && (clock (w_sh w) <=? t) && (t <? 2 ^ 63) then
        Some (set_shared (mk_shared (dev (w_sh w)) (t_start_ns (w_sh w)) (t_end_ns (w_sh w)) t) w)
      else None
  end.

Fixpoint follow (l : list choice) (w : world (D := D)) : option world :=
  match l with
  | [] => Some w
  | c :: l' => w1 ← choose c w; follow l' w1
  end%stdpp.

Lemma follow_star l : forall w w', follow l w = Some w' -> star (step env) w w'.
Proof.
  induction l as [|c l IH]; intros w w'; cbn; [intros [= <-]; constructor|].
  destruct (choose c w) as [w1|] eqn:E; [|done]. cbn. intros Hl.
  apply star_step with w1; [|by apply IH].
  destruct c as [| |i|t]; cbn in E; try (destruct (running w) eqn:Er; [|done]).
  - by apply st_main.
  - by apply st_recv.
  - by eapply st_send.
  - destruct (_ && _) eqn:Ec; [|done]. apply andb_true_iff in Ec as [Ec1 Ec2]. cbn in Ec1.
    injection E as <-. apply st_tick; [done|lia].
Qed.
End schedule.

(** ** A card that returns what is sent *)

Module Loopback.
Record card := mk_card { c_tail : Z; c_rx : Z; c_buf : list (Z * list Z) }.

(** [patient]: the wait returns only when there is a packet, otherwise it may fail. *)
Definition lib (patient : bool) : NetLib card := {|
  accnet_open d := (0, mk_accnet 8192, mk_card (c_tail d) 0 (c_buf d));
  iocache_open d := (0, d);
  accnet_start_ring d := d;
  iocache_setup_connection _ d := d;
  accnet_get_tx_head d := u32 (c_tail d);
  accnet_get_tx_tail d := u32 (c_tail d);
  accnet_get_tx_size _ := 8192;
  accnet_get_rx_head d := 0;
  accnet_get_rx_tail d := c_rx d;
  accnet_get_rx_size _ := 8192;
  accnet_set_tx_tail v d := mk_card v (c_rx d + 1) (c_buf d);
  accnet_set_rx_head _ d := d;
  copy_to_tx off l d := if off + zlen l <=? 16384 then Some (mk_card (c_tail d) (c_rx d) ((off, l) :: c_buf d)) else None;
  iocache_wait_on_rx d := if 0 <? c_rx d then Some (0, d) else if patient then None else Some (-1, d);
  accnet_close d := d;
  iocache_close d := d
|}.

Definition sys : System :=
  {| sys_mlockall := 0; sys_setscheduler _ := 1; sys_setpriority := 0; sys_malloc _ := true;
     sys_garbage := mk_conn 0 0 0 0 0 0 0; sys_pthread_create _ := 0; sys_stack := 8388608 |}.

Definition d0 : card := mk_card 100 0 [].
Definition quiet (d : card) : Prop := c_rx d <= 0.
Definition still (d d' : card) : Prop := d = d'.

#[export] Instance still_tail b : @TailLaws card (lib b) still.
Proof.
  split; cbn.
  - intros d. apply u_range. lia.
  - intros v d Hv. by apply u_small.
  - intros off l d d'. case_bool; [|done]. by intros [= <-].
  - intros d x d'. destruct (0 <? c_rx d); [|destruct b; [done|]]; by intros [= _ <-].
  - done.
  - by intros d d' ->.
Qed.

#[export] Instance still_quiet b : @QuietLaws card (lib b) still quiet.
Proof.
  unfold quiet. split; cbn.
  - intros d x d' Hd. destruct (Z.ltb_spec 0 (c_rx d)); [lia|]. destruct b; [done|]. by intros [= <- _].
  - intros off l d d' Hd. case_bool; [|done]. by intros [= <-].
  - by intros d d' ? <-.
Qed.

Definition args (l : list String.string) : list (list Z) := map chars l.

Definition run (b : bool) (sch : list choice) (o : opts) : option (world (D := card)) :=
  @follow card (lib b) sys sch (launched (mk_sched true None (-20)) o (mk_accnet 8192) d0 5).

Lemma run_star b sch o w : run b sch o = Some w ->
  star (@step card (lib b) sys still) (launched (mk_sched true None (-20)) o (mk_accnet 8192) d0 5) w.
Proof. apply follow_star. Qed.

Definition run_main (sch : list choice) (l : list String.string) : option (world (D := card)) :=
  @follow card (lib true) sys sch (start (args l) d0 5).

Lemma run_main_star sch l w : run_main sch l = Some w ->
  star (@step card (lib true) sys still) (start (args l) d0 5) w.
Proof. apply follow_star. Qed.

(** The sender's nine steps and the receiver's seven. *)
Definition whole (i : nat) : list choice := repeat (CSend i) 9.
Definition receive : list choice := repeat CRecv 7.

(** One packet: the receiver goes to sleep, the sender rings at time 7, the
    receiver wakes at time 9. *)
Definition one_packet : list choice :=
  [CMain; CMain; CRecv; CRecv; CMain; CTick 7] ++ whole 0 ++ [CTick 9] ++ repeat CRecv 5 ++
  [CMain; CMain; CMain; CMain; CMain].

(** Two senders, one after the other, or the second while the first is between
    reading the tail and writing it. *)
Definition two : opts := mk_opts 2 1024 64.
Definition create_two : list choice := repeat CMain 5.
Definition join_two : list choice := receive ++ repeat CMain 4.
Definition in_turn : list choice := create_two ++ whole 0 ++ whole 1 ++ join_two.
Definition interleaved : list choice :=
  create_two ++ repeat (CSend 0) 3 ++ whole 1 ++ repeat (CSend 0) 6 ++ join_two.

Definition final_tail (o : option (world (D := card))) : option Z :=
  match o with
  | Some w => match w_main w with MReport => Some (c_tail (dev (w_sh w))) | _ => None end
  | None => None
  end.

(** A sender that runs while another is between its read and its write of the
    tail is lost: both put their payload at the same place. *)
Theorem senders_race :
  final_tail (run true in_turn two) = Some (100 + 2 * 64) /\
  final_tail (run true interleaved two) = Some (100 + 64) /\
  (c_buf ∘ dev ∘ w_sh <$> run true interleaved two) = Some [(100, payload 64); (100, payload 64)].
Proof. by vm_compute. Qed.

(** The result of the wait is not looked at: if it fails before the packet is
    sent, the reported latency is negative. *)
Theorem failed_wait_reported :
  (w_report <$> run false ([CMain; CMain] ++ receive ++ [CTick 7; CMain] ++ whole 0 ++ repeat CMain 5)
     default_opts) = Some (Some (-2)).
Proof. by vm_compute. Qed.

Lemma interrupt_exp_ends_witness :
  exists w' : world (D := card),
    @program_step card (lib true) sys (launched (mk_sched true None (-20)) two (mk_accnet 8192) d0 5) w'.
Proof.
  pose proof (@interrupt_exp_ends card (lib true) sys still (mk_sched true None (-20)) two (mk_accnet 8192) d0 5 0
    (launched (mk_sched true None (-20)) two (mk_accnet 8192) d0 5) ltac:(constructor)) as [_ Hp].
  destruct (Hp eq_refl) as [Hw|(r & Er & _)]; [exact Hw|discriminate Er].
Defined.

Lemma tail_advance_witness :
  exists k, 1 <= Z.of_nat k <= 2 /\ 164 = (100 + Z.of_nat k * 64) mod 8192.
Proof.
  destruct (run true interleaved two) as [w|] eqn:E; [|vm_compute in E; discriminate E].
  assert (w_main w = MReport /\ c_tail (dev (w_sh w)) = 164) as [Em Et].
  { apply (f_equal (λ o, match o with Some w => (w_main w, c_tail (dev (w_sh w))) | None => (MAlloc, 0) end)) in E.
    vm_compute in E. injection E. auto. }
  apply run_star in E.
  destruct (@tail_advance card (lib true) sys still _ 100 two (mk_accnet 8192) ltac:(done) ltac:(done) ltac:(done)
    (mk_sched true None (-20)) d0 5 w eq_refl E Em) as (k & Hk & Ek).
  exists k. split; [exact Hk|]. cbn [accnet_get_tx_tail lib] in Ek. rewrite Et in Ek. exact Ek.
Defined.

Definition cmdline : list String.string := ["--payload-size"; "0x40"; "--threads"; "0"].

Lemma cmdline_quiet d : quiet (@setup card (lib true) sys (args cmdline) d).2.
Proof. by vm_compute. Qed.

Lemma one_shot_latency_witness : exists a b, 5 <= a /\ 5 <= b /\ 2 = b - a.
Proof.
  destruct (run_main (CMain :: one_packet) cmdline) as [w|] eqn:E;
    [|vm_compute in E; discriminate E].
  assert (w_report w = Some 2) as Er.
  { apply (f_equal (λ o, match o with Some w => w_report w | None => None end)) in E.
    vm_compute in E. auto. }
  apply run_main_star in E.
  destruct (@one_shot_latency card (lib true) sys still quiet _ (args cmdline) d0 5 w 2
    cmdline_quiet ltac:(lia) E Er) as (o & s & r & a & b & _ & _ & _ & _ & _ & Ha & Hb & Ev & _).
  exists a, b. split; [exact Ha|]. split; [exact Hb|exact Ev].
Defined.

Lemma send_args_partition_witness :
  foldr Z.add 0 (map (λ i, sa_total_bytes (send_args (mk_opts 3 1024 64) i)) (seq 0 3)) = 1024.
Proof. apply (send_args_partition (mk_opts 3 1024 64)); done. Defined.
End Loopback.
