(* ===== verification/Qsort.v ===== *)
(** * The quicksort workload ([qsort/qsort_main.c])

    The array and the explicit stack of [sort] are lists with checked accesses:
    an index outside of them is the fault [OutOfBounds].  A pointer into the array
    is its index.  Loops take a number of rounds computed from their bounds;
    [QsortSpec] proves that it is enough.  The progress dots and messages are left
    out, the counters that drive them are kept.  [rand] and [malloc] are
    parameters of [main]. *)

From S2P Require Import Prelude Prog.

Definition INSERTION_THRESHOLD : Z := 10.
Definition NSTACK : Z := 50.

Record qs_state := mk_qs {
  arr : list Z;
  stack : list Z;
  ins_count : Z;
  print_count : Z
}.

Abbreviation M := (prog qs_state).

Definition set_arr (l : list Z) (s : qs_state) : qs_state :=
  mk_qs l (stack s) (ins_count s) (print_count s).
Definition set_stack (l : list Z) (s : qs_state) : qs_state :=
  mk_qs (arr s) l (ins_count s) (print_count s).

(** ** Memory accesses *)

Definition rd (k : Z) : M Z := s ← get; deref (zlookup (arr s) k) OutOfBounds.
Definition wr (k v : Z) : M unit :=
  _ ← rd k; modify (λ s, set_arr (<[Z.to_nat k := v]> (arr s)) s).
Definition stack_rd (k : Z) : M Z := s ← get; deref (zlookup (stack s) k) OutOfBounds.
Definition stack_wr (k v : Z) : M unit :=
  _ ← stack_rd k; modify (λ s, set_stack (<[Z.to_nat k := v]> (stack s)) s).

Definition SWAP (a b : Z) : M unit :=
  temp ← rd a; x ← rd b; wr a x;; wr b temp.
Definition SWAP_IF_GREATER (a b : Z) : M unit :=
  x ← rd a; y ← rd b; when (y <? x) (SWAP a b).

(** ** The simple sorts *)

(** [while (value < *(j-1)) { *j = *(j-1); if (--j == arr) break; }] *)
Fixpoint shift_up (fuel : nat) (base j value : Z) : M Z :=
  match fuel with
  | O => diverge
  | S f =>
      v ← rd (j - 1);
      if value <? v then
        wr j v;;
        if j - 1 =? base then mret (j - 1) else shift_up f base (j - 1) value
      else mret j
  end.

Definition insert_one (base i : Z) : M unit :=
  value ← rd i;
  j ← shift_up (Z.to_nat (i - base)) base i value;
  wr j value.

(** The progress counters. *)
Definition count_call : M unit :=
  modify (λ s, let c := i64 (ins_count s + 1) in
    mk_qs (arr s) (stack s) c
      (if Z.rem c 65536 =? 0 then i64 (print_count s + 1) else print_count s)).

(** [base]: the index of [arr]. *)
Definition insertion_sort (n base : Z) : M unit :=
  count_call;;
  for_loop (Z.to_nat (n - 1)) (base + 1) (insert_one base).

Definition selection_sort (n base : Z) : M unit :=
  for_loop (Z.to_nat (n - 1)) base (λ i,
    for_loop (Z.to_nat (base + n - (i + 1))) (i + 1) (SWAP_IF_GREATER i)).

(** ** Partitioning *)

(** [while ( *i++ < a );] *)
Fixpoint scan_up (fuel : nat) (i a : Z) : M Z :=
  match fuel with
  | O => diverge
  | S f => v ← rd i; if v <? a then scan_up f (i + 1) a else mret (i + 1)
  end.

(** [while ( *(j-- - 2) > a );] *)
Fixpoint scan_down (fuel : nat) (j a : Z) : M Z :=
  match fuel with
  | O => diverge
  | S f => v ← rd (j - 2); if a <? v then scan_down f (j - 1) a else mret (j - 1)
  end.

(** The innermost loop; the final [i] and [j]. *)
Fixpoint partition_loop (fuel scans : nat) (i j a : Z) : M (Z * Z) :=
  match fuel with
  | O => diverge
  | S f =>
      i ← scan_up scans i a;
      j ← scan_down scans j a;
      if j <? i then mret (i, j)
      else SWAP (i - 1) (j - 1);; partition_loop f scans i j a
  end.

(** Median of three, partitioning and placement of the pivot. *)
Definition partition (l ir : Z) : M (Z * Z) :=
  SWAP ((l + ir) / 2 - 1) l;;
  SWAP_IF_GREATER (l - 1) (ir - 1);;
  SWAP_IF_GREATER l (ir - 1);;
  SWAP_IF_GREATER (l - 1) l;;
  a ← rd l;
  let rounds := Z.to_nat (ir - l + 1) in
  '(i, j) ← partition_loop rounds rounds (l + 1) ir a;
  x ← rd (j - 1);
  wr l x;;
  wr (j - 1) a;;
  mret (i, j).

(** ** [sort] *)

Fixpoint sort_loop (fuel : nat) (stackp l ir : Z) : M unit :=
  match fuel with
  | O => diverge
  | S f =>
      if ir - l <? INSERTION_THRESHOLD then
        insertion_sort (ir - l + 1) (l - 1);;
        if stackp =? 0 then mret tt
        else
          ir ← stack_rd stackp;
          l ← stack_rd (stackp - 1);
          sort_loop f (stackp - 2) l ir
      else
        '(i, j) ← partition l ir;
        let stackp := stackp + 2 in
        if j - l <=? ir - i + 1 then
          stack_wr stackp ir;;
          stack_wr (stackp - 1) i;;
          sort_loop f stackp l (j - 1)
        else
          stack_wr stackp (j - 1);;
          stack_wr (stackp - 1) l;;
          sort_loop f stackp i ir
  end.

(** The automatic variable [stack] is uninitialised: any contents [junk]. *)
Definition sort (junk : list Z) (n : Z) : M unit :=
  modify (set_stack junk);;
  sort_loop (Z.to_nat (2 * n + 2)) 0 1 n.

(** ** [check_sort] and [main] *)

(** [i < n - 1] compares a [size_t]: for [n = 0] the bound is 2^64 - 1. *)
Fixpoint check_from (fuel : nat) (i bound : Z) : M bool :=
  if i <? bound then
    match fuel with
    | O => diverge
    | S f =>
        x ← rd i;
        y ← rd (i + 1);
        if y <? x then mret false else check_from f (i + 1) bound
    end
  else mret true.
Definition check_sort (n : Z) : M bool :=
  check_from (Z.to_nat n + 1) 0 (u64 (n - 1)).

Definition EXIT_SUCCESS : Z := 0.
Definition EXIT_FAILURE : Z := 1.

(** [arg]: the value of [atol(argv[1])] when there is one argument; [rand k] is
    the [k]-th random number and [malloc] the block of [n] elements, if any. *)
Definition qsort_main (junk : list Z) (rand : nat -> Z) (malloc : Z -> option (list Z))
    (arg : option Z) : M Z :=
  match arg with
  | None => mret EXIT_FAILURE
  | Some v =>
      let sz := u64 v in
      let n := sz / 4 in
      block ← deref (if n =? 0 then Some [] else malloc n) NullDeref;
      modify (set_arr block);;
      for_loop (Z.to_nat n) 0 (λ i, wr i (rand (Z.to_nat i)));;
      sort junk n;;
      b ← check_sort n;
      mret (if (b : bool) then EXIT_SUCCESS else EXIT_FAILURE)
  end.

Example sort_small :
  (sort (repeat 7 50) 12 (mk_qs [5; 3; 9; 1; 1; 8; -4; 7; 2; 6; 0; 3] [] 0 0)).1 = Ret tt /\
  arr (sort (repeat 7 50) 12 (mk_qs [5; 3; 9; 1; 1; 8; -4; 7; 2; 6; 0; 3] [] 0 0)).2
  = [-4; 0; 1; 1; 2; 3; 3; 5; 6; 7; 8; 9].
Proof. vm_compute. by split. Qed.
