(* ===== verification/QsortSpec.v ===== *)
(** * Correctness of the quicksort workload

    [sort] terminates without leaving the array or its 50-slot stack and leaves
    the sorted permutation of the array; [selection_sort] computes the same. *)

From stdpp Require Import sorting.
From S2P Require Import Prelude Prog Qsort.

(** ** Elements, updates and swaps *)

Definition elt (a : list Z) (k : Z) : Z := a !!! Z.to_nat k.
Definition upd (a : list Z) (k v : Z) : list Z := <[Z.to_nat k := v]> a.
Definition swapped (a : list Z) (i j : Z) : list Z := upd (upd a i (elt a j)) j (elt a i).

Lemma zlookup_elt a k : 0 <= k < zlen a -> zlookup a k = Some (elt a k).
Proof.
  unfold zlen. intros Hk. unfold zlookup, elt. rewrite (proj2 (Z.leb_le 0 k)) by lia.
  apply list_lookup_lookup_total_lt. lia.
Qed.

Lemma zlen_upd a k v : zlen (upd a k v) = zlen a.
Proof. unfold zlen, upd. by rewrite length_insert. Qed.

Lemma elt_upd a i v k : 0 <= i < zlen a -> 0 <= k ->
  elt (upd a i v) k = if k =? i then v else elt a k.
Proof.
  unfold zlen, elt, upd. intros Hi Hk. destruct (Z.eqb_spec k i) as [->|Hne].
  - apply list_lookup_total_insert_eq. lia.
  - apply list_lookup_total_insert_ne. lia.
Qed.

Lemma upd_elt a i : 0 <= i < zlen a -> upd a i (elt a i) = a.
Proof.
  unfold zlen, elt, upd. intros Hi. apply list_insert_id, list_lookup_lookup_total_lt. lia.
Qed.

Lemma zlen_swapped a i j : zlen (swapped a i j) = zlen a.
Proof. unfold swapped. by rewrite !zlen_upd. Qed.

Lemma elt_swapped a i j k : 0 <= i < zlen a -> 0 <= j < zlen a -> 0 <= k ->
  elt (swapped a i j) k = if k =? j then elt a i else if k =? i then elt a j else elt a k.
Proof.
  intros Hi Hj Hk. unfold swapped. rewrite elt_upd by (rewrite ?zlen_upd; lia).
  destruct (k =? j); [done|]. by rewrite elt_upd.
Qed.

Hint Rewrite zlen_upd zlen_swapped : qsort.

Lemma list_eq_elt a b : zlen a = zlen b ->
  (forall k, 0 <= k < zlen a -> elt a k = elt b k) -> a = b.
Proof.
  unfold zlen, elt. intros Hl Hk. apply list_eq_same_length with (length a); [lia|done|].
  intros i x y Hi Hx Hy. specialize (Hk (Z.of_nat i) ltac:(lia)). rewrite Nat2Z.id in Hk.
  apply list_lookup_total_correct in Hx, Hy. congruence.
Qed.

Lemma swapped_perm a i j : 0 <= i < zlen a -> 0 <= j < zlen a -> a ≡ₚ swapped a i j.
Proof.
  intros Hi Hj. apply Permutation_inj.
  split; [pose proof (zlen_swapped a i j); unfold zlen in *; lia|].
  set (f := λ k, if decide (k = Z.to_nat i) then Z.to_nat j
                 else if decide (k = Z.to_nat j) then Z.to_nat i else k).
  exists f. split.
  - intros x y. unfold f. repeat case_decide; lia.
  - intros k. unfold swapped, upd, elt, f, zlen in *.
    destruct (decide (k < length a)%nat) as [Hk|Hk].
    + repeat case_decide; subst; rewrite !list_lookup_insert; rewrite ?length_insert;
        repeat case_decide; subst; try lia; try (apply list_lookup_lookup_total_lt; lia);
        try done; f_equal; lia.
    + rewrite (lookup_ge_None_2 a k) by lia. symmetry.
      repeat case_decide; subst; try lia. by apply lookup_ge_None_2; rewrite !length_insert; lia.
Qed.

(** ** Rearranging a segment

    [b] is a permutation of [a] that moves only elements of the segment
    [lo, hi). *)

Record perm_on (lo hi : Z) (a b : list Z) : Prop := {
  po_perm : a ≡ₚ b;
  po_frame : forall k, 0 <= k -> k < lo \/ hi <= k -> elt b k = elt a k;
  po_vals : forall k, lo <= k < hi -> exists m, lo <= m < hi /\ elt b k = elt a m
}.

Lemma perm_on_zlen lo hi a b : perm_on lo hi a b -> zlen b = zlen a.
Proof. intros [Hp _ _]. unfold zlen. by rewrite Hp. Qed.

Lemma perm_on_refl lo hi a : perm_on lo hi a a.
Proof. split; eauto. Qed.

Lemma perm_on_trans lo hi a b c : perm_on lo hi a b -> perm_on lo hi b c -> perm_on lo hi a c.
Proof.
  intros [P1 F1 V1] [P2 F2 V2]. split.
  - by rewrite P1.
  - intros k H0 Hk. by rewrite F2, F1.
  - intros k Hk. destruct (V2 k Hk) as (m & Hm & ->). by apply V1.
Qed.

Lemma perm_on_weaken lo hi lo' hi' a b :
  0 <= lo' -> lo' <= lo -> hi <= hi' -> perm_on lo hi a b -> perm_on lo' hi' a b.
Proof.
  intros H0 Hlo Hhi [P F V]. split; [done|intros; apply F; lia|].
  intros k Hk. destruct (decide (lo <= k < hi)) as [Hin|Hout].
  - destruct (V k Hin) as (m & Hm & E). exists m. split; [lia|done].
  - exists k. split; [lia|]. apply F; lia.
Qed.

Lemma perm_on_swapped lo hi a i j :
  0 <= lo -> hi <= zlen a -> lo <= i < hi -> lo <= j < hi -> perm_on lo hi a (swapped a i j).
Proof.
  intros Hlo Hhi Hi Hj. split; [apply swapped_perm; lia| |].
  - intros k H0 Hk. rewrite elt_swapped by lia. repeat case_bool; lia.
  - intros k Hk. rewrite elt_swapped by lia. repeat case_bool; eauto.
Qed.

Definition sorted_on (lo hi : Z) (a : list Z) : Prop :=
  forall k m, lo <= k -> k <= m -> m < hi -> elt a k <= elt a m.

(** ** The instructions *)

Section runs.
Implicit Types s : qs_state.

Lemma rd_run k s : 0 <= k < zlen (arr s) -> rd k s = (Ret (elt (arr s) k), s).
Proof. intros Hk. unfold rd. by rewrite run_get, zlookup_elt. Qed.

Lemma wr_run k v s : 0 <= k < zlen (arr s) -> wr k v s = (Ret tt, set_arr (upd (arr s) k v) s).
Proof. intros Hk. unfold wr. by rewrite (run_bind _ _ _ _ _ (rd_run k s Hk)). Qed.

Lemma stack_rd_run k s : 0 <= k < zlen (stack s) -> stack_rd k s = (Ret (elt (stack s) k), s).
Proof. intros Hk. unfold stack_rd. by rewrite run_get, zlookup_elt. Qed.

Lemma stack_wr_run k v s :
  0 <= k < zlen (stack s) -> stack_wr k v s = (Ret tt, set_stack (upd (stack s) k v) s).
Proof. intros Hk. unfold stack_wr. by rewrite (run_bind _ _ _ _ _ (stack_rd_run k s Hk)). Qed.

Lemma SWAP_run i j s : 0 <= i < zlen (arr s) -> 0 <= j < zlen (arr s) ->
  SWAP i j s = (Ret tt, set_arr (swapped (arr s) i j) s).
Proof.
  intros Hi Hj. unfold SWAP.
  rewrite (run_bind _ _ _ _ _ (rd_run i s Hi)), (run_bind _ _ _ _ _ (rd_run j s Hj)).
  rewrite (run_bind _ _ _ _ _ (wr_run i _ s Hi)), wr_run by (cbn [arr set_arr]; rewrite zlen_upd; lia).
  done.
Qed.

(** The array after [SWAP_IF_GREATER]. *)
Definition ordered_pair (a : list Z) (i j : Z) : list Z :=
  if elt a j <? elt a i then swapped a i j else a.

Lemma SWAP_IF_GREATER_run i j s : 0 <= i < zlen (arr s) -> 0 <= j < zlen (arr s) ->
  SWAP_IF_GREATER i j s = (Ret tt, set_arr (ordered_pair (arr s) i j) s).
Proof.
  intros Hi Hj. unfold SWAP_IF_GREATER, ordered_pair.
  rewrite (run_bind _ _ _ _ _ (rd_run i s Hi)), (run_bind _ _ _ _ _ (rd_run j s Hj)).
  unfold when. destruct (_ <? _); [by apply SWAP_run|by destruct s].
Qed.

Lemma zlen_ordered_pair a i j : zlen (ordered_pair a i j) = zlen a.
Proof. unfold ordered_pair. case_match; by rewrite ?zlen_swapped. Qed.

Lemma elt_ordered_pair a i j k : 0 <= i < zlen a -> 0 <= j < zlen a -> i <> j -> 0 <= k ->
  elt (ordered_pair a i j) k
  = if k =? i then Z.min (elt a i) (elt a j)
    else if k =? j then Z.max (elt a i) (elt a j) else elt a k.
Proof.
  intros Hi Hj Hne Hk. unfold ordered_pair. destruct (Z.ltb_spec (elt a j) (elt a i)).
  - rewrite elt_swapped by lia. repeat case_bool; subst; lia.
  - repeat case_bool; subst; lia.
Qed.

Lemma perm_on_ordered_pair lo hi a i j :
  0 <= lo -> hi <= zlen a -> lo <= i < hi -> lo <= j < hi -> perm_on lo hi a (ordered_pair a i j).
Proof.
  intros. unfold ordered_pair. case_match; [by apply perm_on_swapped|apply perm_on_refl].
Qed.
End runs.

(** ** Insertion sort *)

(** The elements above [value] are moved up by one; [j'] is the free place. *)
Record shifted (base j value : Z) (a : list Z) (j' : Z) (a' : list Z) : Prop := {
  sh_range : base <= j' <= j;
  sh_perm : perm_on base (j + 1) (upd a j value) (upd a' j' value);
  sh_below : forall k, base <= k < j' -> elt a' k = elt a k;
  sh_above : forall k, j' < k <= j -> elt a' k = elt a (k - 1) /\ value < elt a' k;
  sh_frame : forall k, j < k -> elt a' k = elt a k;
  sh_stop : j' = base \/ elt a (j' - 1) <= value
}.

Lemma upd_swap a j v : 0 < j < zlen a ->
  upd (upd a j (elt a (j - 1))) (j - 1) v = swapped (upd a j v) (j - 1) j.
Proof.
  intros Hj. apply list_eq_elt; [by rewrite zlen_swapped, !zlen_upd|].
  rewrite !zlen_upd. intros k Hk. rewrite elt_swapped by (rewrite ?zlen_upd; lia).
  rewrite !elt_upd by (rewrite ?zlen_upd; lia). repeat case_bool; subst; try lia; done.
Qed.

Lemma shift_up_run base value : 0 <= base -> forall fuel j s,
  base < j < zlen (arr s) -> j - base <= Z.of_nat fuel ->
  exists j' a', shift_up fuel base j value s = (Ret j', set_arr a' s) /\
    shifted base j value (arr s) j' a'.
Proof.
  intros Hb fuel. induction fuel as [|f IH]; intros j s Hj Hf; [lia|]. cbn [shift_up].
  rewrite (run_bind _ _ _ _ _ (rd_run (j - 1) s ltac:(lia))).
  destruct (Z.ltb_spec value (elt (arr s) (j - 1))) as [Hv|Hv].
  - set (v := elt (arr s) (j - 1)) in *. rewrite (run_bind _ _ _ _ _ (wr_run j v s ltac:(lia))).
    set (s1 := set_arr (upd (arr s) j v) s).
    assert (forall k, 0 <= k -> elt (arr s1) k = if k =? j then v else elt (arr s) k) as E1
      by (intros k Hk; apply elt_upd; lia).
    assert (perm_on base (j + 1) (upd (arr s) j value) (upd (arr s1) (j - 1) value)) as HP.
    { unfold s1, v. cbn [arr set_arr]. rewrite upd_swap by lia.
      apply perm_on_swapped; rewrite ?zlen_upd; lia. }
    destruct (Z.eqb_spec (j - 1) base) as [Hjb|Hjb].
    + exists (j - 1), (arr s1). split; [by destruct s|]. split; [lia|done| | | |lia].
      * intros k Hk. lia.
      * intros k Hk. replace k with j by lia. rewrite E1, Z.eqb_refl by lia. done.
      * intros k Hk. rewrite E1 by lia. case_bool; [lia|done].
    + destruct (IH (j - 1) s1) as (j' & a' & E & [R P B A F St]).
      { unfold s1. cbn [arr set_arr]. rewrite zlen_upd. lia. }
      { lia. }
      exists j', a'. split; [by rewrite E|]. split; [lia| | | | |].
      * eapply perm_on_trans; [exact HP|]. eapply perm_on_weaken; [| | |exact P]; lia.
      * intros k Hk. rewrite B, E1 by lia. case_bool; [lia|done].
      * intros k Hk. destruct (decide (k = j)) as [->|Hkj].
        -- rewrite F, E1, Z.eqb_refl by lia. done.
        -- destruct (A k ltac:(lia)) as [Ek Hk']. split; [|done].
           rewrite Ek, E1 by lia. case_bool; [lia|done].
      * intros k Hk. rewrite F, E1 by lia. case_bool; [lia|done].
      * destruct (decide (j' = base)) as [->|Hjn]; [by left|].
        destruct St as [->|St]; [by left|]. rewrite E1 in St by lia.
        destruct (Z.eqb_spec (j' - 1) j); [lia|]. by right.
  - exists j, (arr s). split; [by destruct s|]. split; [lia|apply perm_on_refl|done| |done|by right].
    intros k Hk. lia.
Qed.

Lemma insert_one_run base i s : 0 <= base -> base < i < zlen (arr s) -> sorted_on base i (arr s) ->
  exists a', insert_one base i s = (Ret tt, set_arr a' s) /\
    perm_on base (i + 1) (arr s) a' /\ sorted_on base (i + 1) a'.
Proof.
  intros Hb Hi Hs. unfold insert_one. rewrite (run_bind _ _ _ _ _ (rd_run i s ltac:(lia))).
  set (value := elt (arr s) i).
  destruct (shift_up_run base value Hb (Z.to_nat (i - base)) i s) as (j & a1 & E & [R P B A _ St]);
    [lia|lia|].
  unfold value in P at 1. rewrite upd_elt in P by lia.
  assert (zlen a1 = zlen (arr s)) as Hl by (rewrite <- (perm_on_zlen _ _ _ _ P), zlen_upd; done).
  rewrite (run_bind _ _ _ _ _ E), wr_run by (cbn [arr set_arr]; lia).
  exists (upd a1 j value). split; [by destruct s|]. split; [done|].
  assert (forall k, base <= k < j -> elt a1 k <= value) as Hlow.
  { intros k Hk. destruct St as [->|St]; [lia|]. rewrite B by lia.
    transitivity (elt (arr s) (j - 1)); [apply Hs; lia|done]. }
  intros k m Hk Hkm Hm. rewrite !elt_upd by lia. repeat case_bool; subst; try lia.
  - destruct (A m ltac:(lia)). lia.
  - apply Hlow. lia.
  - destruct (decide (m < j)) as [Hmj|Hmj]; [rewrite !B by lia; apply Hs; lia|].
    destruct (A m ltac:(lia)) as [-> Hvm]. destruct (decide (k < j)) as [Hkj|Hkj].
    + rewrite B by lia. apply Hs; lia.
    + destruct (A k ltac:(lia)) as [-> _]. apply Hs; lia.
Qed.

(** The result of a sort of the segment [lo, hi). *)
Definition segment_sorted (lo hi : Z) (s s' : qs_state) : Prop :=
  stack s' = stack s /\ perm_on lo hi (arr s) (arr s') /\ sorted_on lo hi (arr s').

Lemma insertion_sort_run n base s : 0 <= base -> 0 <= n -> base + n <= zlen (arr s) ->
  exists s', insertion_sort n base s = (Ret tt, s') /\ segment_sorted base (base + n) s s'.
Proof.
  intros Hb Hn Hl. unfold insertion_sort, count_call. rewrite run_modify.
  set (s0 := mk_qs _ _ _ _).
  destruct (for_loop_inv (insert_one base)
    (λ i s', stack s' = stack s /\ perm_on base i (arr s) (arr s') /\ sorted_on base i (arr s'))
    (Z.to_nat (n - 1)) (base + 1) s0) as (s' & E & Hst & HP & HS).
  - intros i s1 Hi (Hst & HP & HS). pose proof (perm_on_zlen _ _ _ _ HP) as Hz.
    destruct (insert_one_run base i s1 Hb ltac:(lia) HS) as (a' & E & HP' & HS').
    exists (set_arr a' s1). split; [exact E|]. split; [done|]. split; [|done].
    eapply perm_on_trans; [|exact HP']. eapply perm_on_weaken; [| | |exact HP]; lia.
  - split; [done|]. split; [apply perm_on_refl|]. intros k m ???. cbn. replace m with k by lia. lia.
  - exists s'. split; [exact E|]. destruct (decide (n = 0)) as [->|Hn0].
    + assert (s' = s0) as -> by (injection E; done). split; [done|]. split; [apply perm_on_refl|].
      intros k m ???. lia.
    + replace (base + 1 + Z.of_nat (Z.to_nat (n - 1))) with (base + n) in * by lia. done.
Qed.

(** ** Selection sort *)

(** After the inner loop the [i]-th place holds the least of the rest. *)
Lemma select_run lo hi i s : 0 <= lo <= i -> i < hi <= zlen (arr s) ->
  sorted_on lo i (arr s) ->
  (forall k m, lo <= k < i -> i <= m < hi -> elt (arr s) k <= elt (arr s) m) ->
  exists s', for_loop (Z.to_nat (hi - (i + 1))) (i + 1) (SWAP_IF_GREATER i) s = (Ret tt, s') /\
    stack s' = stack s /\ perm_on lo hi (arr s) (arr s') /\ sorted_on lo (i + 1) (arr s') /\
    (forall k m, lo <= k < i + 1 -> i + 1 <= m < hi -> elt (arr s') k <= elt (arr s') m).
Proof.
  intros Hlo Hhi HS HC.
  destruct (for_loop_inv (SWAP_IF_GREATER i)
    (λ j s', stack s' = stack s /\ perm_on i hi (arr s) (arr s') /\
             forall m, i < m < j -> elt (arr s') i <= elt (arr s') m)
    (Z.to_nat (hi - (i + 1))) (i + 1) s) as (s' & E & Hst & HP & HM).
  - intros j s1 Hj (Hst & HP & HM). pose proof (perm_on_zlen _ _ _ _ HP) as Hz.
    eexists. split; [apply SWAP_IF_GREATER_run; lia|]. split; [done|]. split.
    + eapply perm_on_trans; [exact HP|]. apply perm_on_ordered_pair; lia.
    + intros m Hm. cbn [arr set_arr]. rewrite !elt_ordered_pair by lia.
      destruct (decide (m = j)) as [->|Hmj]; [repeat case_bool; lia|].
      specialize (HM m ltac:(lia)). repeat case_bool; lia.
  - split; [done|]. split; [apply perm_on_refl|]. intros m Hm. lia.
  - replace (i + 1 + Z.of_nat (Z.to_nat (hi - (i + 1)))) with hi in * by lia.
    exists s'. split; [exact E|]. split; [done|].
    split; [eapply perm_on_weaken; [| | |exact HP]; lia|].
    assert (forall k, lo <= k < i -> elt (arr s') k = elt (arr s) k) as HF
      by (intros; apply (po_frame _ _ _ _ HP); lia).
    assert (forall k m, lo <= k < i -> i <= m < hi -> elt (arr s') k <= elt (arr s') m) as HC'.
    { intros k m Hk Hm. rewrite HF by lia. destruct (po_vals _ _ _ _ HP m Hm) as (m' & Hm' & ->).
      by apply HC. }
    split.
    + intros k m Hk Hkm Hm. destruct (decide (m = i)) as [->|Hmi].
      * destruct (decide (k = i)) as [->|Hki]; [lia|]. apply HC'; lia.
      * rewrite !HF by lia. apply HS; lia.
    + intros k m Hk Hm. destruct (decide (k = i)) as [->|Hki]; [apply HM; lia|]. apply HC'; lia.
Qed.

Lemma selection_sort_run n base s : 0 <= base -> 0 <= n -> base + n <= zlen (arr s) ->
  exists s', selection_sort n base s = (Ret tt, s') /\ segment_sorted base (base + n) s s'.
Proof.
  intros Hb Hn Hl. unfold selection_sort. set (hi := base + n) in *.
  edestruct (for_loop_inv (λ i, for_loop (Z.to_nat (hi - (i + 1))) (i + 1) (SWAP_IF_GREATER i))
    (λ i s', stack s' = stack s /\ perm_on base hi (arr s) (arr s') /\ sorted_on base i (arr s') /\
             forall k m, base <= k < i -> i <= m < hi -> elt (arr s') k <= elt (arr s') m)
    (Z.to_nat (n - 1)) base s) as (s' & E & Hst & HP & HS & HC).
  - intros i s1 Hi (Hst & HP & HS & HC). pose proof (perm_on_zlen _ _ _ _ HP) as Hz.
    destruct (select_run base hi i s1) as (s2 & E & Hst2 & HP2 & HS2 & HC2); [lia|lia|done|done|].
    exists s2. split; [exact E|]. split; [congruence|]. split; [by eapply perm_on_trans|done].
  - split; [done|]. split; [apply perm_on_refl|]. split; [intros k m ???; lia|intros; lia].
  - exists s'. split; [exact E|]. split; [done|]. split; [done|].
    intros k m Hk Hkm Hm. destruct (decide (k = m)) as [->|]; [lia|].
    destruct (decide (m < base + Z.of_nat (Z.to_nat (n - 1)))) as [|]; [apply HS; lia|apply HC; lia].
Qed.

(** ** Partitioning *)

Lemma scan_up_run a m : forall fuel i s,
  0 <= i <= m -> m < zlen (arr s) -> a <= elt (arr s) m -> m - i < Z.of_nat fuel ->
  exists i', scan_up fuel i a s = (Ret i', s) /\ i < i' <= m + 1 /\
    (forall k, i <= k < i' - 1 -> elt (arr s) k < a) /\ a <= elt (arr s) (i' - 1).
Proof.
  intros fuel. induction fuel as [|f IH]; intros i s Hi Hm Ha Hf; [lia|]. cbn [scan_up].
  rewrite (run_bind _ _ _ _ _ (rd_run i s ltac:(lia))).
  destruct (Z.ltb_spec (elt (arr s) i) a) as [Hlt|Hge].
  - assert (i <> m) by (intros ->; lia).
    destruct (IH (i + 1) s ltac:(lia) Hm Ha ltac:(lia)) as (i' & E & Hi' & HL & HR).
    exists i'. split; [exact E|]. split; [lia|]. split; [|done].
    intros k Hk. destruct (decide (k = i)) as [->|]; [done|]. apply HL. lia.
  - exists (i + 1). split; [done|]. split; [lia|]. split; [intros; lia|].
    by replace (i + 1 - 1) with i by lia.
Qed.

Lemma scan_down_run a m : forall fuel j s,
  0 <= m <= j - 2 -> j - 2 < zlen (arr s) -> elt (arr s) m <= a -> j - 2 - m < Z.of_nat fuel ->
  exists j', scan_down fuel j a s = (Ret j', s) /\ m + 1 <= j' < j /\
    (forall k, j' <= k <= j - 2 -> a < elt (arr s) k) /\ elt (arr s) (j' - 1) <= a.
Proof.
  intros fuel. induction fuel as [|f IH]; intros j s Hj Hm Ha Hf; [lia|]. cbn [scan_down].
  rewrite (run_bind _ _ _ _ _ (rd_run (j - 2) s ltac:(lia))).
  destruct (Z.ltb_spec a (elt (arr s) (j - 2))) as [Hlt|Hge].
  - assert (j - 2 <> m) by (intros E; rewrite E in Hlt; lia).
    destruct (IH (j - 1) s ltac:(lia) ltac:(lia) Ha ltac:(lia)) as (j' & E & Hj' & HL & HR).
    exists j'. split; [exact E|]. split; [lia|]. split; [|done].
    intros k Hk. destruct (decide (k = j - 2)) as [->|]; [done|]. apply HL. lia.
  - exists (j - 1). split; [done|]. split; [lia|]. split; [intros; lia|].
    by replace (j - 1 - 1) with (j - 2) by lia.
Qed.

(** The two pointers have not crossed: what is left of [i] is at most the pivot,
    what is right of [j] is at least the pivot. *)
Record scanning (l ir a : Z) (b : list Z) (i j : Z) : Prop := {
  sc_low : forall k, l <= k < i -> elt b k <= a;
  sc_high : forall k, j - 1 <= k < ir -> a <= elt b k;
  sc_pivot : elt b l = a;
  sc_range : l + 1 <= i <= j /\ i <= ir - 1 /\ l + 2 <= j <= ir
}.

(** The pointers have crossed. *)
Record crossed (l ir a : Z) (b : list Z) (i j : Z) : Prop := {
  cr_low : forall k, l <= k < i - 1 -> elt b k <= a;
  cr_high : forall k, j <= k < ir -> a <= elt b k;
  cr_pivot : elt b l = a;
  cr_range : l + 1 <= j < i /\ i <= ir /\ j <= ir - 1
}.

Lemma partition_loop_run l ir a scans : 0 <= l -> ir - l <= Z.of_nat scans -> forall fuel i j s,
  ir <= zlen (arr s) -> scanning l ir a (arr s) i j -> ir - i < Z.of_nat fuel ->
  exists i' j' b, partition_loop fuel scans i j a s = (Ret (i', j'), set_arr b s) /\
    perm_on (l + 1) ir (arr s) b /\ crossed l ir a b i' j'.
Proof.
  intros Hl Hsc fuel. induction fuel as [|f IH]; intros i j s Hir [L H P R] Hf; [lia|].
  cbn [partition_loop].
  destruct (scan_up_run a (ir - 1) scans i s) as (i1 & Ei & Hi1 & Li & Gi);
    [lia|lia|apply H; lia|lia|].
  destruct (scan_down_run a l scans j s) as (j1 & Ej & Hj1 & Lj & Gj); [lia|lia|lia|lia|].
  rewrite (run_bind _ _ _ _ _ Ei), (run_bind _ _ _ _ _ Ej).
  assert (forall k, l <= k < i1 - 1 -> elt (arr s) k <= a) as L'.
  { intros k Hk. destruct (decide (k < i)); [apply L; lia|]. specialize (Li k ltac:(lia)). lia. }
  assert (forall k, j1 <= k < ir -> a <= elt (arr s) k) as H'.
  { intros k Hk. destruct (decide (j - 1 <= k)); [apply H; lia|]. specialize (Lj k ltac:(lia)). lia. }
  destruct (Z.ltb_spec j1 i1) as [Hc|Hc].
  - exists i1, j1, (arr s). split; [by destruct s|]. split; [apply perm_on_refl|]. split; [done|done|done|lia].
  - rewrite (run_bind _ _ _ _ _ (SWAP_run (i1 - 1) (j1 - 1) s ltac:(lia) ltac:(lia))).
    set (s1 := set_arr _ s).
    assert (forall k, 0 <= k -> elt (arr s1) k =
      if k =? j1 - 1 then elt (arr s) (i1 - 1) else
      if k =? i1 - 1 then elt (arr s) (j1 - 1) else elt (arr s) k) as E1
      by (intros; apply elt_swapped; lia).
    assert (zlen (arr s1) = zlen (arr s)) as Hz by apply zlen_swapped.
    destruct (IH i1 j1 s1) as (i' & j' & b & E & HP & HC); [lia| |lia|].
    + split; [| | |lia].
      * intros k Hk. rewrite E1 by lia. repeat case_bool; subst; try lia.
        -- replace (i1 - 1) with (j1 - 1) by lia. lia.
        -- apply L'. lia.
      * intros k Hk. rewrite E1 by lia. repeat case_bool; subst; try lia. apply H'. lia.
      * rewrite E1 by lia. repeat case_bool; subst; lia.
    + exists i', j', b. split; [by rewrite E|]. split; [|done].
      eapply perm_on_trans; [|exact HP]. apply perm_on_swapped; lia.
Qed.

(** A partitioned segment: the left part [l-1, j-1) is at most, the right part
    [i-1, ir) at least the pivot, which fills the places between. *)
Record partitioned (l ir a : Z) (b : list Z) (i j : Z) : Prop := {
  pt_left : forall k, l - 1 <= k < j - 1 -> elt b k <= a;
  pt_mid : forall k, j - 1 <= k < i - 1 -> elt b k = a;
  pt_right : forall k, i - 1 <= k < ir -> a <= elt b k;
  pt_range : l + 1 <= j < i /\ i <= ir /\ j <= ir - 1
}.

(** The three comparisons leave the median in the middle place. *)
Definition median3 (b : list Z) (l ir : Z) : list Z :=
  ordered_pair (ordered_pair (ordered_pair (swapped b ((l + ir) / 2 - 1) l)
    (l - 1) (ir - 1)) l (ir - 1)) (l - 1) l.

Lemma median3_spec b l ir : 1 <= l -> ir <= zlen b -> 10 <= ir - l ->
  perm_on (l - 1) ir b (median3 b l ir) /\
  elt (median3 b l ir) (l - 1) <= elt (median3 b l ir) l <= elt (median3 b l ir) (ir - 1).
Proof.
  intros Hl Hir Hd. unfold median3.
  assert (l <= (l + ir) / 2 - 1 + 1 /\ (l + ir) / 2 <= ir) as Hm by zdm.
  set (b0 := swapped b ((l + ir) / 2 - 1) l).
  set (b1 := ordered_pair b0 (l - 1) (ir - 1)). set (b2 := ordered_pair b1 l (ir - 1)).
  assert (zlen b0 = zlen b) as Z0 by apply zlen_swapped.
  assert (zlen b1 = zlen b) as Z1 by (unfold b1; rewrite zlen_ordered_pair; done).
  assert (zlen b2 = zlen b) as Z2 by (unfold b2; rewrite zlen_ordered_pair; done).
  split.
  - apply (perm_on_trans _ _ _ b0); [apply perm_on_swapped; lia|].
    apply (perm_on_trans _ _ _ b1); [apply perm_on_ordered_pair; lia|].
    apply (perm_on_trans _ _ _ b2); apply perm_on_ordered_pair; lia.
  - rewrite !(elt_ordered_pair b2) by lia. unfold b2. rewrite !(elt_ordered_pair b1) by lia.
    unfold b1. rewrite !(elt_ordered_pair b0) by lia. repeat case_bool; lia.
Qed.

Lemma partition_run l ir s : 1 <= l -> ir <= zlen (arr s) -> 10 <= ir - l ->
  exists i j a b, partition l ir s = (Ret (i, j), set_arr b s) /\
    perm_on (l - 1) ir (arr s) b /\ partitioned l ir a b i j.
Proof.
  intros Hl Hir Hd. destruct (median3_spec (arr s) l ir Hl Hir Hd) as [HP0 HM].
  assert (l <= (l + ir) / 2 - 1 + 1 /\ (l + ir) / 2 <= ir) as Hm by zdm.
  unfold partition. rewrite (run_bind _ _ _ _ _ (SWAP_run ((l + ir) / 2 - 1) l s ltac:(lia) ltac:(lia))).
  do 3 (match goal with |- context [bind (SWAP_IF_GREATER ?i ?j) _ ?x] =>
    rewrite (run_bind _ _ _ _ _ (SWAP_IF_GREATER_run i j x
      ltac:(cbn [arr set_arr]; rewrite ?zlen_ordered_pair, ?zlen_swapped; lia)
      ltac:(cbn [arr set_arr]; rewrite ?zlen_ordered_pair, ?zlen_swapped; lia))) end).
  set (s1 := set_arr _ _). change (arr s1) with (median3 (arr s) l ir) in *.
  assert (s1 = set_arr (median3 (arr s) l ir) s) as Es1 by done. clearbody s1. subst s1.
  set (b1 := median3 (arr s) l ir) in *. set (s1 := set_arr b1 s).
  pose proof (perm_on_zlen _ _ _ _ HP0) as Z1.
  rewrite (run_bind _ _ _ _ _ (rd_run l s1 ltac:(cbn [arr set_arr s1]; lia))).
  change (arr s1) with b1. set (a := elt b1 l) in *.
  destruct (partition_loop_run l ir a (Z.to_nat (ir - l + 1)) ltac:(lia) ltac:(lia)
    (Z.to_nat (ir - l + 1)) (l + 1) ir s1) as (i & j & b2 & E & HP & [CL CH CP CR]).
  { cbn [arr set_arr s1]. lia. }
  { change (arr s1) with b1. split; [| |done|lia].
    - intros k Hk. replace k with l by lia. lia.
    - intros k Hk. replace k with (ir - 1) by lia. lia. }
  { lia. }
  rewrite (run_bind _ _ _ _ _ E). change (set_arr b2 s1) with (set_arr b2 s).
  pose proof (perm_on_zlen _ _ _ _ HP) as Z2. change (arr s1) with b1 in *.
  rewrite (run_bind _ _ _ _ _ (rd_run (j - 1) (set_arr b2 s) ltac:(cbn [arr set_arr]; lia))).
  rewrite (run_bind _ _ _ _ _ (wr_run l _ (set_arr b2 s) ltac:(cbn [arr set_arr]; lia))).
  match goal with |- context [bind (wr (j - 1) a) _ ?x] =>
    rewrite (run_bind _ _ _ _ _ (wr_run (j - 1) a x ltac:(cbn [arr set_arr]; rewrite zlen_upd; lia))) end.
  cbn [arr set_arr]. rewrite <- CP. change (upd (upd b2 l (elt b2 (j - 1))) (j - 1) (elt b2 l))
    with (swapped b2 l (j - 1)).
  exists i, j, a, (swapped b2 l (j - 1)). split; [by destruct s|]. split.
  { eapply perm_on_trans; [exact HP0|]. eapply perm_on_trans; [|apply perm_on_swapped; lia].
    eapply perm_on_weaken; [| | |exact HP]; lia. }
  assert (elt b2 (l - 1) <= a) as Hfirst
    by (rewrite (po_frame _ _ _ _ HP) by lia; unfold a; lia).
  split; [| | |lia]; intros k Hk; rewrite elt_swapped by lia.
  - repeat case_bool; subst; try lia; [apply CL; lia|].
    destruct (decide (k = l - 1)) as [->|]; [done|]. apply CL. lia.
  - repeat case_bool; subst; try lia. specialize (CL k ltac:(lia)). specialize (CH k ltac:(lia)). lia.
  - repeat case_bool; subst; try lia. apply CH. lia.
Qed.

(** ** The main loop

    A segment [(l, ir)] of the array stands for the places [l-1, ir).  The
    current segment and those on the stack are pending: every pair of places is
    in order unless one pending segment holds both. *)

Definition seg_in (p : Z * Z) (k m : Z) : Prop := p.1 - 1 <= k /\ m < p.2.
Definition seg_len (p : Z * Z) : Z := p.2 - p.1 + 1.
Definition apart (p q : Z * Z) : Prop := p.2 < q.1 \/ q.2 < p.1.
Definition seg_ok (n : Z) (p : Z * Z) : Prop := 1 <= p.1 /\ p.1 <= p.2 + 1 /\ p.2 <= n.

Definition in_order (a : list Z) (segs : list (Z * Z)) : Prop :=
  forall k m, 0 <= k -> k <= m -> m < zlen a ->
    Exists (λ p, seg_in p k m) segs \/ elt a k <= elt a m.

(** Work on the first segment that leaves only [new] of it pending. *)
Lemma in_order_step a b p new segs :
  seg_ok (zlen a) p -> Forall (apart p) segs -> perm_on (p.1 - 1) p.2 a b ->
  (forall k m, p.1 - 1 <= k -> k <= m -> m < p.2 ->
     Exists (λ q, seg_in q k m) new \/ elt b k <= elt b m) ->
  in_order a (p :: segs) -> in_order b (new ++ segs).
Proof.
  destruct p as [l ir]. unfold seg_ok. cbn [fst snd]. intros Hok Hap HP Hnew HO k m Hk Hkm Hm.
  rewrite (perm_on_zlen _ _ _ _ HP) in Hm. rewrite Exists_app.
  rewrite list.Forall_forall in Hap.
  assert (forall k' m', 0 <= k' -> k' <= m' -> m' < zlen a -> (k' < l - 1 /\ m' < ir \/ ir <= m') ->
    (l - 1 <= k' < ir \/ l - 1 <= m' < ir -> elt a k' <= elt a m') /\
    (Exists (λ q, seg_in q k' m') segs \/ elt a k' <= elt a m')) as Hold.
  { intros k' m' H0 Hle Hlt Hout. destruct (HO k' m' H0 Hle Hlt) as [HE|HE]; [|auto].
    apply Exists_cons in HE as [[E1 E2]|HE]; [cbn in E1, E2; lia|]. split; [|by left].
    intros Hin. apply Exists_exists in HE as ([x y] & Hq & E1 & E2). cbn in E1, E2.
    apply list_elem_of_In in Hq. destruct (Hap _ Hq) as [HA|HA]; cbn in HA; lia. }
  assert (forall x, 0 <= x -> exists y, elt b x = elt a y /\
    (l - 1 <= x < ir /\ l - 1 <= y < ir \/ ~ (l - 1 <= x < ir) /\ y = x)) as Hval.
  { intros x Hx. destruct (decide (l - 1 <= x < ir)) as [Hin|Hout].
    - destruct (po_vals _ _ _ _ HP x Hin) as (y & Hy & E). exists y. auto.
    - exists x. split; [apply (po_frame _ _ _ _ HP); lia|]. by right. }
  destruct (decide (l - 1 <= k /\ m < ir)) as [Hin|Hout].
  { destruct (Hnew k m) as [HE|HE]; [lia|lia|lia|by left; left|by right]. }
  destruct (Hval k Hk) as (k' & Ek & Hk'), (Hval m ltac:(lia)) as (m' & Em & Hm').
  rewrite Ek, Em. destruct (Hold k' m') as [H1 H2]; [lia|lia|lia|lia|].
  destruct Hk' as [[? ?]|[? ->]]; [right; apply H1; lia|].
  destruct Hm' as [[? ?]|[? ->]]; [right; apply H1; lia|].
  destruct H2 as [HE|HE]; [left; by right|by right].
Qed.

(** The pushed segments, the top one first: where they are stored, and that
    the one at depth [d] is at most the [2^d]-th part of the array. *)
Fixpoint stack_holds (n : Z) (st : list Z) (segs : list (Z * Z)) : Prop :=
  match segs with
  | [] => True
  | p :: rest =>
      elt st (2 * zlen rest + 1) = p.1 /\ elt st (2 * zlen rest + 2) = p.2 /\
      seg_len p * 2 ^ zlen rest <= n /\ stack_holds n st rest
  end.

Lemma stack_holds_upd n st segs k v :
  2 * zlen segs < k < zlen st -> stack_holds n st segs -> stack_holds n (upd st k v) segs.
Proof.
  induction segs as [|p rest IH]; [done|]. unfold zlen in *. cbn [length stack_holds].
  intros Hk (E1 & E2 & Hn & Hr). unfold zlen in *.
  rewrite !elt_upd by (unfold zlen; lia). repeat case_bool; try lia.
  split; [done|]. split; [done|]. split; [done|]. apply IH; [lia|done].
Qed.

(** Bounds the number of rounds that are left. *)
Definition weight (segs : list (Z * Z)) : Z := foldr (λ p w, 2 * seg_len p + 1 + w) 0 segs.

Lemma weight_cons p segs : weight (p :: segs) = 2 * seg_len p + 1 + weight segs.
Proof. done. Qed.

Record loop_ok (n : Z) (s : qs_state) (cur : Z * Z) (segs : list (Z * Z)) : Prop := {
  lo_len : zlen (arr s) = n /\ n < 11 * 2 ^ 24;
  lo_stack : zlen (stack s) = NSTACK;
  lo_segs : Forall (seg_ok n) (cur :: segs);
  lo_apart : ForallOrdPairs apart (cur :: segs);
  lo_order : in_order (arr s) (cur :: segs);
  lo_size : seg_len cur * 2 ^ zlen segs <= n;
  lo_depth : zlen segs <= 24;
  lo_holds : stack_holds n (stack s) segs
}.

(** A segment that is split is too large for the stack to be full. *)
Lemma split_depth n c d : 0 <= d -> 11 <= c -> c * 2 ^ d <= n -> n < 11 * 2 ^ 24 -> d < 24.
Proof.
  intros Hd Hc Hn Hlt. apply (Z.pow_lt_mono_r_iff 2); [lia|lia|].
  pose proof (Z.pow_pos_nonneg 2 d). nia.
Qed.

(** A segment is finished: nothing of it is pending any more. *)
Lemma loop_ok_pop n s s' cur next segs :
  segment_sorted (cur.1 - 1) cur.2 s s' ->
  loop_ok n s cur (next :: segs) -> loop_ok n s' next segs.
Proof.
  intros (Est & HP & HS) [[Hl Hn] Hst Hok Hap HO Hsz Hd (E1 & E2 & Hsz' & Hh)].
  apply list.Forall_cons in Hok as [Hc Hok]. inversion_clear Hap as [|? ? Ha Hap'].
  split; rewrite ?Est; try done.
  - by rewrite (perm_on_zlen _ _ _ _ HP).
  - apply (in_order_step (arr s) (arr s') cur [] (next :: segs)); try done; [by rewrite Hl|].
    intros k m ???. right. by apply HS.
  - unfold zlen in *. cbn [length] in Hd. lia.
Qed.

(** A segment is split in two that are apart: [small] comes next, [large] is
    pushed. *)
Lemma loop_ok_push n s b st cur small large segs :
  seg_ok n small -> seg_ok n large -> apart small large ->
  (forall q, apart cur q -> apart small q /\ apart large q) ->
  0 <= seg_len small -> 2 * seg_len small <= seg_len cur -> seg_len large <= seg_len cur ->
  perm_on (cur.1 - 1) cur.2 (arr s) b ->
  (forall k m, cur.1 - 1 <= k -> k <= m -> m < cur.2 ->
     Exists (λ q, seg_in q k m) [small; large] \/ elt b k <= elt b m) ->
  zlen segs < 24 -> zlen st = NSTACK -> stack_holds n st (large :: segs) ->
  loop_ok n s cur segs -> loop_ok n (set_stack st (set_arr b s)) small (large :: segs).
Proof.
  intros Hs Hlg Hsl Hcq H0 H2 Hle HP Hnew Hd Hst Hh [[Hl Hn] _ Hok Hap HO Hsz _ _].
  apply list.Forall_cons in Hok as [Hc Hok]. inversion_clear Hap as [|? ? Ha Hap'].
  split; cbn [arr stack set_arr set_stack]; try done.
  - by rewrite (perm_on_zlen _ _ _ _ HP).
  - do 2 (apply list.Forall_cons; split; [done|]). done.
  - constructor; [constructor|constructor]; try done;
      eapply Forall_impl; [|exact Ha| |exact Ha]; intros q Hq; by apply Hcq.
  - apply (in_order_step (arr s) b cur [small; large] segs); try done. by rewrite Hl.
  - unfold zlen. cbn [length]. rewrite Nat2Z.inj_succ, Z.pow_succ_r by lia. fold (zlen segs).
    pose proof (Z.pow_pos_nonneg 2 (zlen segs)). unfold zlen in *. nia.
  - unfold zlen in *. cbn [length]. lia.
Qed.

Lemma seg_len_nonneg n p : seg_ok n p -> 0 <= seg_len p.
Proof. unfold seg_ok, seg_len. lia. Qed.

Lemma weight_nonneg n segs : Forall (seg_ok n) segs -> 0 <= weight segs.
Proof.
  induction 1 as [|p segs Hp _ IH]; [done|]. rewrite weight_cons.
  pose proof (seg_len_nonneg n p Hp). lia.
Qed.

(** The pairs inside a partitioned segment. *)
Lemma partitioned_pairs l ir a b i j k m :
  partitioned l ir a b i j -> l - 1 <= k -> k <= m -> m < ir ->
  seg_in (l, j - 1) k m \/ seg_in (i, ir) k m \/ elt b k <= elt b m.
Proof.
  intros [L M R Hr] Hk Hkm Hm. unfold seg_in. cbn [fst snd].
  destruct (decide (m < j - 1)); [left; lia|]. destruct (decide (i - 1 <= k)); [right; left; lia|].
  right; right. transitivity a.
  - destruct (decide (k < j - 1)); [apply L; lia|rewrite M; lia].
  - destruct (decide (m < i - 1)); [rewrite M; lia|apply R; lia].
Qed.

(** Pushing [p] on a stack that holds [segs]. *)
Lemma push_run n p segs s {B} (k : M B) :
  zlen (stack s) = NSTACK -> zlen segs < 24 -> stack_holds n (stack s) segs ->
  seg_len p * 2 ^ zlen segs <= n ->
  exists st, zlen st = NSTACK /\ stack_holds n st (p :: segs) /\
    (stack_wr (2 * zlen segs + 2) p.2;; stack_wr (2 * zlen segs + 2 - 1) p.1;; k) s
    = k (set_stack st s).
Proof.
  intros Hst Hd Hh Hsz. unfold NSTACK in *.
  assert (0 <= zlen segs) by (unfold zlen; lia).
  exists (upd (upd (stack s) (2 * zlen segs + 2) p.2) (2 * zlen segs + 2 - 1) p.1).
  split; [by rewrite !zlen_upd|]. split.
  - cbn [stack_holds]. rewrite !elt_upd by (rewrite ?zlen_upd; lia).
    repeat case_bool; try lia. split; [done|]. split; [done|]. split; [done|].
    apply stack_holds_upd; [rewrite zlen_upd; lia|]. apply stack_holds_upd; [lia|done].
  - rewrite (run_bind _ _ _ _ _ (stack_wr_run (2 * zlen segs + 2) p.2 s ltac:(lia))).
    match goal with |- context [bind (stack_wr ?a ?v) _ ?x] =>
      rewrite (run_bind _ _ _ _ _ (stack_wr_run a v x ltac:(cbn [stack set_stack]; rewrite zlen_upd; lia))) end.
    done.
Qed.

(** One split, given that the rest of the loop works for [f] rounds. *)
Lemma sort_push_run n f l ir segs s b small large :
  (forall cur segs s, loop_ok n s cur segs -> weight (cur :: segs) <= Z.of_nat f ->
     exists s', sort_loop f (2 * zlen segs) cur.1 cur.2 s = (Ret tt, s') /\
       arr s ≡ₚ arr s' /\ in_order (arr s') []) ->
  loop_ok n s (l, ir) segs -> weight ((l, ir) :: segs) <= Z.of_nat (S f) -> 10 <= ir - l ->
  perm_on (l - 1) ir (arr s) b ->
  (forall k m, l - 1 <= k -> k <= m -> m < ir ->
     seg_in small k m \/ seg_in large k m \/ elt b k <= elt b m) ->
  seg_ok n small -> seg_ok n large -> apart small large ->
  (forall q, apart (l, ir) q -> apart small q /\ apart large q) ->
  seg_len small <= seg_len large -> seg_len small + seg_len large <= ir - l ->
  exists s', (stack_wr (2 * zlen segs + 2) large.2;; stack_wr (2 * zlen segs + 2 - 1) large.1;;
              sort_loop f (2 * zlen segs + 2) small.1 small.2) (set_arr b s) = (Ret tt, s') /\
    arr s ≡ₚ arr s' /\ in_order (arr s') [].
Proof.
  intros IH Hok Hw Hge HP Hpairs Hs Hlg Hsl Hq Hle Hsum.
  pose proof Hok as [[Hlen Hmax] Hst _ _ _ Hsz Hd Hh]. rewrite weight_cons in Hw.
  pose proof (seg_len_nonneg _ _ Hs). pose proof (seg_len_nonneg _ _ Hlg).
  unfold seg_len in Hsz, Hw. cbn [fst snd] in Hsz, Hw.
  assert (0 <= zlen segs) by (unfold zlen; lia). pose proof (Z.pow_pos_nonneg 2 (zlen segs)).
  assert (zlen segs < 24) as Hd' by (eapply split_depth; [lia| |exact Hsz|done]; lia).
  destruct (push_run n large segs (set_arr b s) (sort_loop f (2 * zlen segs + 2) small.1 small.2))
    as (st & Hz & Hh' & ->); [done|done|done|nia|].
  destruct (IH small (large :: segs) (set_stack st (set_arr b s))) as (s' & E' & HP' & HO').
  - apply (loop_ok_push n s b st (l, ir)); try done; unfold seg_len in *; cbn [fst snd]; try lia.
    intros k m Hk Hkm Hm. rewrite !Exists_cons, Exists_nil.
    destruct (Hpairs k m Hk Hkm Hm) as [?|[?|?]]; auto.
  - rewrite !weight_cons. lia.
  - exists s'. split; [|split; [|done]].
    + rewrite <- E'. f_equal. unfold zlen. cbn [length]. lia.
    + by rewrite (po_perm _ _ _ _ HP).
Qed.

Lemma sort_loop_run n : forall fuel cur segs s,
  loop_ok n s cur segs -> weight (cur :: segs) <= Z.of_nat fuel ->
  exists s', sort_loop fuel (2 * zlen segs) cur.1 cur.2 s = (Ret tt, s') /\
    arr s ≡ₚ arr s' /\ in_order (arr s') [].
Proof.
  intros fuel. induction fuel as [|f IH]; intros [l ir] segs s Hok Hw0; pose proof Hw0 as Hw; rewrite weight_cons in Hw;
    pose proof Hok as [[Hlen Hmax] Hst [Hcur Hsegs]%list.Forall_cons Hap HO Hsz Hd Hh];
    pose proof (seg_len_nonneg _ _ Hcur); pose proof (weight_nonneg _ _ Hsegs); [lia|].
  destruct Hcur as (Hl1 & Hl2 & Hir). unfold seg_len in *. cbn [fst snd] in *. cbn [sort_loop].
  destruct (Z.ltb_spec (ir - l) INSERTION_THRESHOLD) as [Hlt|Hge].
  - destruct (insertion_sort_run (ir - l + 1) (l - 1) s) as (s1 & E1 & HS1); [lia|lia|lia|].
    rewrite (run_bind _ _ _ _ _ E1). replace (l - 1 + (ir - l + 1)) with ir in HS1 by lia.
    pose proof HS1 as (Est & HP & HS).
    destruct segs as [|[l' ir'] rest].
    + exists s1. split; [done|]. split; [apply HP|].
      apply (in_order_step (arr s) (arr s1) (l, ir) [] []); try done; [by rewrite Hlen|].
      intros k m ???. right. by apply HS.
    + apply (loop_ok_pop n s s1 (l, ir)) in Hok; [|done].
      destruct Hh as (Es1 & Es2 & _ & _). cbn [fst snd] in *.
      assert (2 * zlen ((l', ir') :: rest) = 2 * zlen rest + 2) as Ez by (unfold zlen; cbn [length]; lia).
      assert (0 <= zlen rest) by (unfold zlen; lia). unfold NSTACK in *.
      rewrite Ez. destruct (Z.eqb_spec (2 * zlen rest + 2) 0) as [Hz|_]; [lia|].
      rewrite (run_bind _ _ _ _ _ (stack_rd_run (2 * zlen rest + 2) s1 ltac:(rewrite Est; lia))).
      rewrite (run_bind _ _ _ _ _ (stack_rd_run (2 * zlen rest + 2 - 1) s1 ltac:(rewrite Est; lia))).
      rewrite Est, Es2. replace (2 * zlen rest + 2 - 1) with (2 * zlen rest + 1) by lia. rewrite Es1.
      replace (2 * zlen rest + 2 - 2) with (2 * zlen rest) by lia.
      destruct (IH (l', ir') rest s1 Hok ltac:(lia)) as (s' & E & HP' & HO').
      exists s'. split; [exact E|]. split; [by rewrite (po_perm _ _ _ _ HP)|done].
  - unfold INSERTION_THRESHOLD in Hge.
    destruct (partition_run l ir s) as (i & j & a & b & E & HP & Hpt); [lia|lia|lia|].
    rewrite (run_bind _ _ _ _ _ E). pose proof Hpt as [_ _ _ Hr].
    pose proof (partitioned_pairs l ir a b i j) as Hpairs.
    destruct (Z.leb_spec (j - l) (ir - i + 1)) as [Hcmp|Hcmp].
    + apply (sort_push_run n f l ir segs s b (l, j - 1) (i, ir)); try done;
        unfold seg_ok, apart, seg_len; cbn [fst snd]; try lia. intros. by apply Hpairs.
    + apply (sort_push_run n f l ir segs s b (i, ir) (l, j - 1)); try done;
        unfold seg_ok, apart, seg_len; cbn [fst snd]; try lia.
      intros k m Hk Hkm Hm. destruct (Hpairs k m Hpt Hk Hkm Hm) as [?|[?|?]]; auto.
Qed.

(** ** The results *)

(** The specification: the sorted permutation. *)
Definition sorted_list (l : list Z) : list Z := merge_sort Z.le l.

Lemma in_order_sorted a : in_order a [] -> StronglySorted Z.le a.
Proof.
  intros HO. assert (forall k m, 0 <= k -> k <= m -> m < zlen a -> elt a k <= elt a m) as HS.
  { intros k m H0 Hkm Hm. destruct (HO k m H0 Hkm Hm) as [HE|HE]; [by apply Exists_nil in HE|done]. }
  clear HO. induction a as [|x a IH]; constructor.
  - apply IH. intros k m H0 Hkm Hm. specialize (HS (k + 1) (m + 1)).
    unfold elt, zlen in *. cbn [length] in HS. rewrite !Z2Nat.inj_add in HS by lia.
    rewrite !Nat.add_1_r in HS. apply HS; lia.
  - apply list.Forall_forall. intros y [i Hi]%list_elem_of_lookup.
    specialize (HS 0 (Z.of_nat i + 1)). unfold elt, zlen in *. cbn [length] in HS.
    pose proof (lookup_lt_Some _ _ _ Hi). replace (Z.to_nat (Z.of_nat i + 1)) with (S i) in HS by lia.
    change ((x :: a) !!! S i) with (a !!! i) in HS. change ((x :: a) !!! Z.to_nat 0) with x in HS.
    rewrite (list_lookup_total_correct a i y Hi) in HS. apply HS; lia.
Qed.

(** A sorted permutation is the sorted list. *)
Lemma sorted_unique a b : a ≡ₚ b -> StronglySorted Z.le b -> b = sorted_list a.
Proof.
  intros HP HS. apply (StronglySorted_unique Z.le); [done|apply (StronglySorted_merge_sort Z.le)|].
  unfold sorted_list. by rewrite merge_sort_Permutation.
Qed.

Lemma sorted_on_all a b : perm_on 0 (zlen a) a b -> sorted_on 0 (zlen a) b -> b = sorted_list a.
Proof.
  intros HP HS. apply sorted_unique; [apply HP|]. apply in_order_sorted.
  intros k m ??. rewrite (perm_on_zlen _ _ _ _ HP). right. by apply HS.
Qed.

Lemma sort_run junk n s :
  zlen junk = NSTACK -> n = zlen (arr s) -> n < 11 * 2 ^ 24 ->
  exists s', sort junk n s = (Ret tt, s') /\ arr s' = sorted_list (arr s).
Proof.
  intros Hj Hn Hmax. unfold sort. rewrite run_modify. set (s0 := set_stack junk s).
  assert (0 <= n) by (unfold zlen in Hn; lia).
  destruct (sort_loop_run n (Z.to_nat (2 * n + 2)) (1, n) [] s0) as (s' & E & HP & HO).
  - split; try done.
    + apply list.Forall_cons. split; [|done]. unfold seg_ok. cbn. lia.
    + repeat constructor.
    + intros k m ???. left. apply Exists_cons_hd. unfold seg_in. cbn in *. lia.
    + unfold seg_len, zlen. cbn. lia.
  - rewrite weight_cons. unfold seg_len, weight. cbn. lia.
  - exists s'. split; [exact E|]. apply sorted_unique; [exact HP|]. by apply in_order_sorted.
Qed.

(** C6: [sort] terminates without touching a place outside of the array or of its
    stack of 50 pointers, for every array of fewer than [11 * 2^24] elements, and
    leaves the sorted permutation of the array. *)
Theorem sort_correct junk n s :
  zlen junk = NSTACK -> n = zlen (arr s) -> n < 11 * 2 ^ 24 ->
  exists s', sort junk n s = (Ret tt, s') /\ arr s ≡ₚ arr s' /\ StronglySorted Z.le (arr s').
Proof.
  intros Hj Hn Hmax. destruct (sort_run junk n s Hj Hn Hmax) as (s' & E & Ea).
  exists s'. split; [exact E|]. rewrite Ea. unfold sorted_list.
  split; [by rewrite merge_sort_Permutation|apply (StronglySorted_merge_sort Z.le)].
Qed.

(** C24: The three sorts agree: on every array the quicksort, the insertion sort and
    the selection sort compute the same list, that of a merge sort. *)
Theorem sorts_equivalent junk n s :
  zlen junk = NSTACK -> n = zlen (arr s) -> n < 11 * 2 ^ 24 ->
  exists s1 s2 s3, sort junk n s = (Ret tt, s1) /\ insertion_sort n 0 s = (Ret tt, s2) /\
    selection_sort n 0 s = (Ret tt, s3) /\
    arr s1 = sorted_list (arr s) /\ arr s2 = sorted_list (arr s) /\ arr s3 = sorted_list (arr s).
Proof.
  intros Hj Hn Hmax. assert (0 <= n) by (unfold zlen in Hn; lia).
  destruct (sort_run junk n s Hj Hn Hmax) as (s1 & E1 & Ea).
  destruct (insertion_sort_run n 0 s) as (s2 & E2 & _ & P2 & S2); [lia|lia|lia|].
  destruct (selection_sort_run n 0 s) as (s3 & E3 & _ & P3 & S3); [lia|lia|lia|].
  rewrite Z.add_0_l in *. subst n. exists s1, s2, s3.
  do 4 (split; [done|]). split; by apply sorted_on_all.
Qed.

(** ** [check_sort] and [main] *)

Lemma check_from_run bound : forall fuel i s,
  0 <= i -> bound < zlen (arr s) -> bound - i <= Z.of_nat fuel ->
  exists b, check_from fuel i bound s = (Ret b, s) /\
    (b = true <-> forall k, i <= k < bound -> elt (arr s) k <= elt (arr s) (k + 1)).
Proof.
  intros fuel. induction fuel as [|f IH]; intros i s Hi Hb Hf; cbn [check_from];
    destruct (Z.ltb_spec i bound) as [Hlt|Hge]; [lia| | |].
  1,3: by exists true; split; [|split; [intros; lia|]].
  rewrite (run_bind _ _ _ _ _ (rd_run i s ltac:(lia))),
    (run_bind _ _ _ _ _ (rd_run (i + 1) s ltac:(lia))).
  destruct (Z.ltb_spec (elt (arr s) (i + 1)) (elt (arr s) i)) as [Hd|Hd].
  - exists false. split; [done|]. split; [done|]. intros HA. specialize (HA i). lia.
  - destruct (IH (i + 1) s ltac:(lia) Hb ltac:(lia)) as (b & E & Hiff).
    exists b. split; [exact E|]. rewrite Hiff. split; intros HA k Hk; [|apply HA; lia].
    destruct (decide (k = i)) as [->|]; [done|]. apply HA. lia.
Qed.

Lemma sorted_elt a k m : StronglySorted Z.le a -> 0 <= k -> k <= m -> m < zlen a -> elt a k <= elt a m.
Proof.
  intros HS. revert k m. induction HS as [|x a HS IH HF]; intros k m Hk Hkm Hm; [unfold zlen in Hm; cbn in Hm; lia|].
  rewrite list.Forall_forall in HF. unfold elt, zlen in *. cbn [length] in Hm.
  destruct (Z.to_nat m) as [|m'] eqn:Em.
  - by replace (Z.to_nat k) with 0%nat by lia.
  - destruct (Z.to_nat k) as [|k'] eqn:Ek; cbn [lookup_total list_lookup_total].
    + apply HF, list_elem_of_lookup_total. exists m'. split; [lia|done].
    + specialize (IH (Z.of_nat k') (Z.of_nat m')). rewrite !Nat2Z.id in IH. apply IH; lia.
Qed.

Lemma check_sort_run n s : n = zlen (arr s) -> 0 < n < 2 ^ 64 ->
  exists b, check_sort n s = (Ret b, s) /\ (b = true <-> StronglySorted Z.le (arr s)).
Proof.
  intros Hn Hr. unfold check_sort. rewrite u_small by lia.
  destruct (check_from_run (n - 1) (Z.to_nat n + 1) 0 s) as (b & E & Hb); [lia|lia|lia|].
  exists b. split; [exact E|]. rewrite Hb. split.
  - intros HA. apply in_order_sorted. intros k m Hk Hkm Hm. right.
    replace m with (k + Z.of_nat (Z.to_nat (m - k))) in * by lia.
    induction (Z.to_nat (m - k)) as [|d IHd]; [by rewrite Z.add_0_r|].
    etransitivity; [apply IHd; lia|].
    replace (k + Z.of_nat (S d)) with (k + Z.of_nat d + 1) by lia. apply HA. lia.
  - intros HS k Hk. apply sorted_elt; [done|lia..].
Qed.

(** Filling the array. *)
Lemma fill_run (rand : nat -> Z) s : exists s',
  for_loop (length (arr s)) 0 (λ i, wr i (rand (Z.to_nat i))) s = (Ret tt, s') /\
  arr s' = map rand (seq 0 (length (arr s))).
Proof.
  destruct (for_loop_inv (λ i, wr i (rand (Z.to_nat i)))
    (λ i s', zlen (arr s') = zlen (arr s) /\
             forall k, 0 <= k < i -> elt (arr s') k = rand (Z.to_nat k)) (length (arr s)) 0 s)
    as (s' & E & Hz & HA).
  - intros i s1 Hi [Hz HA]. unfold zlen in Hz.
    eexists. split; [apply wr_run; unfold zlen; lia|]. cbn [arr set_arr]. rewrite zlen_upd.
    split; [unfold zlen; lia|]. intros k Hk. rewrite elt_upd by (unfold zlen; lia).
    destruct (Z.eqb_spec k i) as [->|]; [done|]. apply HA. lia.
  - split; [done|]. intros; lia.
  - exists s'. split; [exact E|]. apply list_eq_elt.
    + rewrite Hz. unfold zlen. by rewrite length_map, length_seq.
    + rewrite Hz. unfold zlen. intros k Hk. rewrite HA by lia. unfold elt.
      symmetry. apply list_lookup_total_correct. change (map rand) with (fmap (M := list) rand).
      rewrite list_lookup_fmap, lookup_seq_lt by lia. done.
Qed.

(** The program exits with success for every array of 1 to [11 * 2^24 - 1]
    elements it can allocate, and the array is then the sorted permutation of the
    random numbers. *)
Theorem qsort_main_success junk rand malloc v block s :
  zlen junk = NSTACK -> 1 <= v / 4 < 11 * 2 ^ 24 -> malloc (v / 4) = Some block -> zlen block = v / 4 ->
  exists s', qsort_main junk rand malloc (Some v) s = (Ret EXIT_SUCCESS, s') /\
    arr s' = sorted_list (map rand (seq 0 (Z.to_nat (v / 4)))).
Proof.
  intros Hj Hv Hm Hb. unfold qsort_main. assert (4 <= v < 2 ^ 40) as Hv' by zdm.
  rewrite u_small by lia. set (n := v / 4) in *. cbv zeta.
  rewrite (proj2 (Z.eqb_neq n 0)) by lia.
  rewrite Hm, (run_bind _ _ _ _ _ (run_ret block s : deref (Some block) NullDeref s = _)), run_modify.
  assert (Z.to_nat n = length block) as El by (unfold zlen in Hb; lia). rewrite El.
  destruct (fill_run rand (set_arr block s)) as (s1 & E1 & A1). cbn [arr set_arr] in E1, A1.
  rewrite (run_bind _ _ _ _ _ E1).
  assert (n = zlen (arr s1)) as Hn1.
  { rewrite A1. unfold zlen in *. rewrite length_map, length_seq. lia. }
  destruct (sort_run junk n s1 Hj Hn1 ltac:(lia)) as (s2 & E2 & A2). rewrite (run_bind _ _ _ _ _ E2).
  assert (arr s1 ≡ₚ arr s2 /\ StronglySorted Z.le (arr s2)) as [HP HS].
  { rewrite A2. unfold sorted_list.
    split; [by rewrite merge_sort_Permutation|apply (StronglySorted_merge_sort Z.le)]. }
  destruct (check_sort_run n s2) as (b & E3 & Hb3); [unfold zlen in *; by rewrite <- HP|lia|].
  rewrite (run_bind _ _ _ _ _ E3), (proj2 Hb3 HS). exists s2. split; [done|]. by rewrite A2, A1.
Qed.

(** An empty array is sorted but cannot be checked: for sizes below four bytes
    the bound of [check_sort] is [2^64 - 1] and the program reads beyond the
    array. *)
Theorem qsort_main_empty junk rand malloc v s :
  zlen junk = NSTACK -> 0 <= v < 4 ->
  exists s', qsort_main junk rand malloc (Some v) s = (Fault OutOfBounds, s') /\ arr s' = [].
Proof.
  intros Hj Hv. unfold qsort_main. rewrite u_small by lia. replace (v / 4) with 0 by zdm. cbv zeta.
  change (0 =? 0) with true. cbv iota. rewrite (run_bind _ _ _ _ _ (run_ret [] s : deref (Some []) NullDeref s = _)), run_modify.
  change (Z.to_nat 0) with 0%nat. cbn [for_loop]. set (s1 := set_arr [] s).
  rewrite (run_bind _ _ _ _ _ (run_ret tt s1)). unfold s1.
  destruct (sort_run junk 0 (set_arr [] s) Hj eq_refl ltac:(lia)) as (s2 & E2 & A2).
  rewrite (run_bind _ _ _ _ _ E2). exists s2. split; [|by rewrite A2].
  apply run_bind_fault. unfold check_sort. change (u64 (0 - 1)) with (2 ^ 64 - 1).
  cbn [Z.to_nat Nat.add check_from]. change (0 <? 2 ^ 64 - 1) with true. cbv iota.
  apply run_bind_fault. unfold rd. by rewrite run_get, A2.
Qed.

(** ** Examples *)

Definition sample : qs_state := mk_qs [5; 3; 9; 1; 1; 8; -4; 7; 2; 6; 0; 3; 12; 4] [] 0 0.

Lemma sort_correct_witness :
  exists s', sort (repeat 0 50) 14 sample = (Ret tt, s') /\ StronglySorted Z.le (arr s').
Proof.
  destruct (sort_correct (repeat 0 50) 14 sample) as (s' & E & _ & HS); [done|done|done|].
  exists s'. split; [exact E|exact HS].
Defined.

Lemma sorts_equivalent_witness :
  exists s1 s3, sort (repeat 0 50) 14 sample = (Ret tt, s1) /\ selection_sort 14 0 sample = (Ret tt, s3) /\
    arr s1 = arr s3.
Proof.
  destruct (sorts_equivalent (repeat 0 50) 14 sample)
    as (s1 & s2 & s3 & E1 & _ & E3 & A1 & _ & A3); [done|done|done|].
  exists s1, s3. split; [exact E1|]. split; [exact E3|]. congruence.
Defined.

Lemma qsort_main_success_witness :
  exists s', qsort_main (repeat 0 50) (λ k, Z.of_nat (7 * k) mod 11) (λ n, Some (repeat 0 (Z.to_nat n)))
    (Some 50) sample = (Ret EXIT_SUCCESS, s').
Proof.
  destruct (qsort_main_success (repeat 0 50) (λ k, Z.of_nat (7 * k) mod 11)
    (λ n, Some (repeat 0 (Z.to_nat n))) 50 (repeat 0 12) sample) as (s' & E & _); [done..|].
  exists s'. exact E.
Defined.

Lemma qsort_main_empty_witness :
  exists s', qsort_main (repeat 0 50) (λ _, 0) (λ _, None) (Some 3) sample = (Fault OutOfBounds, s').
Proof.
  destruct (qsort_main_empty (repeat 0 50) (λ _, 0) (λ _, None) 3 sample) as (s' & E & _); [done|done|].
  exists s'. exact E.
Defined.
