(* ===== verification/QsortUtil.v ===== *)
(** * The helpers of the quicksort workload ([qsort/util.h])

    [verify] and [verifyDouble] compare an array with a reference, two elements per
    round; [lfsr] is a shift register.  Doubles are values of a type with a
    comparison, which need not be reflexive.  The barrier of the same header is in
    [Barrier]. *)

From S2P Require Import Prelude Prog.

(** ** Comparison of arrays *)

Section verify.
Context {A : Type}.
Implicit Types test ref : list A.
Abbreviation M := (prog unit).

Definition rd_elt (l : list A) (i : Z) : M A := deref (zlookup l i) OutOfBounds.

(** What differs after the last pair. *)
Definition verify_last (neqb : A -> A -> bool) (n : Z) test ref : M Z :=
  if negb (n mod 2 =? 0) then
    t ← rd_elt test (n - 1);
    v ← rd_elt ref (n - 1);
    mret (if neqb t v then n else 0)
  else mret 0.

(** [for (i = 0; i < n/2*2; i += 2)], [rounds] pairs being left. *)
Fixpoint verify_loop (neqb : A -> A -> bool) (rounds : nat) (i n : Z) test ref : M Z :=
  match rounds with
  | O => verify_last neqb n test ref
  | S rounds' =>
      t0 ← rd_elt test i;
      t1 ← rd_elt test (i + 1);
      v0 ← rd_elt ref i;
      v1 ← rd_elt ref (i + 1);
      if neqb t0 v0 then mret (i + 1)
      else if neqb t1 v1 then mret (i + 2)
      else verify_loop neqb rounds' (i + 2) n test ref
  end.

(** The loop of [verifyDouble]: [return i + 1 + eq1]. *)
Fixpoint verifyDouble_loop (eqb : A -> A -> bool) (rounds : nat) (i n : Z) test ref : M Z :=
  match rounds with
  | O => verify_last (λ t v, negb (eqb t v)) n test ref
  | S rounds' =>
      t0 ← rd_elt test i;
      t1 ← rd_elt test (i + 1);
      v0 ← rd_elt ref i;
      v1 ← rd_elt ref (i + 1);
      let eq1 := eqb t0 v0 in
      let eq2 := eqb t1 v1 in
      if negb (eq1 && eq2) then mret (i + 1 + Z.b2z eq1)
      else verifyDouble_loop eqb rounds' (i + 2) n test ref
  end.

Definition verifyDouble (eqb : A -> A -> bool) (n : Z) test ref : M Z :=
  verifyDouble_loop eqb (Z.to_nat (n / 2)) 0 n test ref.

(** The reference: one more than the first index at which they differ, or 0. *)
Fixpoint first_diff (neqb : A -> A -> bool) (i : Z) test ref : Z :=
  match test, ref with
  | t :: test', v :: ref' => if neqb t v then i + 1 else first_diff neqb (i + 1) test' ref'
  | _, _ => 0
  end.
End verify.

Definition verify (n : Z) (test ref : list Z) : prog unit Z :=
  verify_loop (λ t v, negb (t =? v)) (Z.to_nat (n / 2)) 0 n test ref.

Section verify_spec.
Context {A : Type}.
Implicit Types test ref : list A.

Lemma rd_elt_run (l : list A) pre x post s : l = pre ++ x :: post ->
  rd_elt l (zlen pre) s = (Ret x, s).
Proof.
  intros ->. unfold rd_elt, zlookup, zlen. rewrite (proj2 (Z.leb_le 0 _)) by lia.
  rewrite Nat2Z.id, list_lookup_middle by done. done.
Qed.

(** The part of the arrays from [zlen pre] on, which has [n - zlen pre] elements. *)
Lemma verify_loop_run neqb rounds : forall (pre1 pre2 test ref : list A) s,
  length pre1 = length pre2 -> length test = length ref ->
  (length test = 2 * rounds \/ length test = 2 * rounds + 1)%nat -> zlen pre1 mod 2 = 0 ->
  verify_loop neqb rounds (zlen pre1) (zlen (pre1 ++ test)) (pre1 ++ test) (pre2 ++ ref) s
  = (Ret (first_diff neqb (zlen pre1) test ref), s).
Proof.
  induction rounds as [|r IH]; intros pre1 pre2 test ref s Hp Hl Hr Hm; cbn [verify_loop].
  - unfold verify_last. destruct test as [|t [|? ?]]; [..|cbn in Hr; lia]; (destruct ref as [|v [|? ?]]; cbn in Hl; try lia).
    + rewrite !app_nil_r, Hm. done.
    + assert (zlen (pre1 ++ [t]) = zlen pre1 + 1) as -> by (unfold zlen; rewrite length_app; cbn; lia).
      assert ((zlen pre1 + 1) mod 2 = 1) as -> by zdm. cbn [negb Z.eqb].
      rewrite Z.add_simpl_r, (run_bind _ _ _ _ _ (rd_elt_run _ pre1 t [] s eq_refl)).
      replace (zlen pre1) with (zlen pre2) at 1 by (unfold zlen; lia).
      rewrite (run_bind _ _ _ _ _ (rd_elt_run _ pre2 v [] s eq_refl)). cbn [first_diff]. done.
  - destruct test as [|t0 [|t1 test]]; [cbn in Hr; lia..|]. destruct ref as [|v0 [|v1 ref]]; [cbn in Hl; lia..|].
    assert (zlen pre1 + 1 = zlen (pre1 ++ [t0]) /\ zlen pre1 + 2 = zlen (pre1 ++ [t0; t1])) as [E1 E2]
      by (unfold zlen; rewrite !length_app; cbn; lia).
    assert (zlen pre1 = zlen pre2 /\ zlen (pre1 ++ [t0]) = zlen (pre2 ++ [v0])) as [E3 E4]
      by (unfold zlen; rewrite !length_app; cbn; lia).
    rewrite (run_bind _ _ _ _ _ (rd_elt_run _ pre1 t0 (t1 :: test) s eq_refl)).
    rewrite E1, (run_bind _ _ _ _ _ (rd_elt_run _ (pre1 ++ [t0]) t1 test s ltac:(by rewrite <- app_assoc))).
    rewrite E3 at 1. rewrite (run_bind _ _ _ _ _ (rd_elt_run _ pre2 v0 (v1 :: ref) s eq_refl)).
    rewrite E4 at 1. rewrite (run_bind _ _ _ _ _ (rd_elt_run _ (pre2 ++ [v0]) v1 ref s ltac:(by rewrite <- app_assoc))).
    cbn [first_diff]. rewrite <- E1. destruct (neqb t0 v0); [done|].
    replace (zlen pre1 + 1 + 1) with (zlen pre1 + 2) by lia. destruct (neqb t1 v1); [done|]. rewrite E2.
    replace (pre1 ++ t0 :: t1 :: test) with ((pre1 ++ [t0; t1]) ++ test) by by rewrite <- app_assoc.
    replace (pre2 ++ v0 :: v1 :: ref) with ((pre2 ++ [v0; v1]) ++ ref) by by rewrite <- app_assoc.
    apply IH; [rewrite !length_app; cbn; lia|cbn in Hl; lia|cbn in Hr; lia|rewrite <- E2; zdm].
Qed.

Lemma halves {B} (l : list B) :
  (length l = 2 * Z.to_nat (zlen l / 2) \/ length l = 2 * Z.to_nat (zlen l / 2) + 1)%nat.
Proof. unfold zlen. zdm. Qed.

(** The two loops decide in the same way. *)
Lemma verifyDouble_loop_eq eqb rounds : forall i n (test ref : list A) s,
  verifyDouble_loop eqb rounds i n test ref s
  = verify_loop (λ t v, negb (eqb t v)) rounds i n test ref s.
Proof.
  induction rounds as [|r IH]; intros i n test ref s; [done|]. cbn [verifyDouble_loop verify_loop].
  unfold bind. destruct (rd_elt test i s) as [[t0| | |] s1]; [|done..].
  destruct (rd_elt test (i + 1) s1) as [[t1| | |] s2]; [|done..].
  destruct (rd_elt ref i s2) as [[v0| | |] s3]; [|done..].
  destruct (rd_elt ref (i + 1) s3) as [[v1| | |] s4]; [|done..].
  cbv zeta. destruct (eqb t0 v0), (eqb t1 v1); cbn [negb andb Z.b2z]; rewrite ?IH; try done.
  - by replace (i + 1 + 1) with (i + 2) by lia.
  - by rewrite Z.add_0_r.
  - by rewrite Z.add_0_r.
Qed.
End verify_spec.

(** C25: Both unrolled comparisons compute the reference: one more than the index of
    the first difference, 0 when there is none, without leaving the arrays. *)
Theorem verify_first_difference {A} (eqb : A -> A -> bool) (test ref : list Z) (dtest dref : list A) s :
  length test = length ref -> length dtest = length dref ->
  verify (zlen test) test ref s = (Ret (first_diff (λ t v, negb (t =? v)) 0 test ref), s) /\
  verifyDouble eqb (zlen dtest) dtest dref s
  = (Ret (first_diff (λ t v, negb (eqb t v)) 0 dtest dref), s).
Proof.
  intros Hl Hd. split.
  - apply (verify_loop_run _ _ [] [] test ref); [done|done|apply halves|done].
  - unfold verifyDouble. rewrite verifyDouble_loop_eq.
    apply (verify_loop_run _ _ [] [] dtest dref); [done|done|apply halves|done].
Qed.

Lemma verify_first_difference_witness :
  verify 5 [1; 2; 3; 4; 5] [1; 2; 3; 7; 5] tt = (Ret 4, tt).
Proof.
  exact (proj1 (verify_first_difference Z.eqb [1; 2; 3; 4; 5] [1; 2; 3; 7; 5] [] [] tt eq_refl eq_refl)).
Defined.

(** ** The shift register *)

Definition lfsr (x : Z) : Z :=
  let bit := Z.land (Z.lxor x (Z.shiftr x 1)) 1 in
  Z.lor (Z.shiftr x 1) (u64 (Z.shiftl bit 62)).

(** The state before: bit 0 is recovered from the bit shifted in. *)
Definition lfsr_back (y : Z) : Z :=
  Z.lor (Z.shiftl (Z.land y (Z.ones 62)) 1) (Z.lxor (Z.shiftr y 62) (Z.land y 1)).

Lemma lfsr_val x : 0 <= x < 2 ^ 63 -> lfsr x = (x mod 2 + x / 2 mod 2) mod 2 * 2 ^ 62 + x / 2.
Proof.
  intros Hx. unfold lfsr. change (Z.land ?a 1) with (Z.land a (Z.ones 1)). rewrite Z.land_ones, Z.shiftr_div_pow2 by lia.
  change (2 ^ 1) with 2.
  assert (Z.lxor x (x / 2) mod 2 = (x mod 2 + x / 2 mod 2) mod 2) as ->.
  { rewrite <- !Z.bit0_mod, Z.lxor_spec. by destruct (Z.testbit x 0), (Z.testbit (x / 2) 0). }
  set (b := (_ + _) mod 2). assert (0 <= b < 2) by (apply Z.mod_pos_bound; lia).
  rewrite Z.lor_comm, u_small by (rewrite Z.shiftl_mul_pow2; lia).
  apply lor_shiftl_add; [lia|zdm].
Qed.

Lemma lfsr_back_val b h : 0 <= b < 2 -> 0 <= h < 2 ^ 62 ->
  lfsr_back (b * 2 ^ 62 + h) = 2 * h + (b + h mod 2) mod 2.
Proof.
  intros Hb Hh. unfold lfsr_back. set (y := b * 2 ^ 62 + h).
  change (Z.land ?a 1) with (Z.land a (Z.ones 1)). rewrite !Z.land_ones, Z.shiftr_div_pow2 by lia. change (2 ^ 1) with 2.
  assert (y mod 2 ^ 62 = h) as -> by (symmetry; apply Z.mod_unique with b; unfold y; lia).
  assert (y / 2 ^ 62 = b) as -> by (symmetry; apply Z.div_unique with h; unfold y; lia).
  assert (y mod 2 = h mod 2) as ->.
  { unfold y. replace (b * 2 ^ 62 + h) with (h + b * 2 ^ 61 * 2) by lia. apply Z.mod_add. lia. }
  assert (0 <= h mod 2 < 2) by (apply Z.mod_pos_bound; lia).
  assert (Z.lxor b (h mod 2) = (b + h mod 2) mod 2) as ->.
  { assert (b = 0 \/ b = 1) as [-> | ->] by lia; assert (h mod 2 = 0 \/ h mod 2 = 1) as [-> | ->] by lia; done. }
  rewrite lor_shiftl_add by (pose proof (Z.mod_pos_bound (b + h mod 2) 2); lia). lia.
Qed.

(** The register permutes the 63-bit states: a step can be undone, and the
    state 0 is never entered from another one. *)
Theorem lfsr_roundtrip x :
  0 <= x < 2 ^ 63 ->
  0 <= lfsr x < 2 ^ 63 /\ lfsr_back (lfsr x) = x /\ (lfsr x = 0 -> x = 0).
Proof.
  intros Hx. rewrite lfsr_val by done. set (b := (_ + _) mod 2).
  assert (0 <= b < 2) by (apply Z.mod_pos_bound; lia). assert (0 <= x / 2 < 2 ^ 62) by zdm.
  assert (lfsr_back (b * 2 ^ 62 + x / 2) = x) as E.
  { rewrite lfsr_back_val by lia. unfold b. rewrite Z.add_mod_idemp_l by lia.
    replace (x mod 2 + x / 2 mod 2 + x / 2 mod 2) with (x mod 2 + x / 2 mod 2 * 2) by lia.
    rewrite Z.mod_add, Z.mod_mod by lia. zdm. }
  split; [lia|]. split; [exact E|]. intros Hz. rewrite Hz in E. rewrite <- E. reflexivity.
Qed.

Lemma lfsr_roundtrip_witness : lfsr_back (lfsr 0x123456789abcdef) = 0x123456789abcdef.
Proof. by apply lfsr_roundtrip. Defined.
