(* ===== verification/Barrier.v ===== *)
(** * The barrier of the quicksort workload ([barrier] of [qsort/util.h])

    A sense-reversing barrier for [ncores] threads.  The shared variables [sense]
    and [count] are read and written by atomic steps ([volatile] and
    [__sync_fetch_and_add], with full fences); [threadsense] is the thread's own.
    The executions are all interleavings of the steps of the threads, each of
    which calls [barrier] over and over. *)

From S2P Require Import Prelude Prog.

(** Where a thread is: outside, before the addition, before [count = 0], before
    [sense = threadsense], in the loop. *)
Inductive point := Outside | Adding | Resetting | Releasing | Spinning.

#[export] Instance point_eq_dec : EqDecision point.
Proof. solve_decision. Defined.

(** [episodes] counts the calls that have returned; the code does not keep it. *)
Record thread := mk_thread { pc : point; threadsense : bool; episodes : nat }.

Record bstate := mk_b { sense : bool; count : Z; threads : list thread }.

(** The next atomic action of a thread on [sense] and [count]; [None]: it goes
    round the loop once more. *)
Definition barrier (ncores : Z) (sn : bool) (cnt : Z) (t : thread) : option (bool * Z * thread) :=
  let '(mk_thread p ts e) := t in
  match p with
  | Outside => Some (sn, cnt, mk_thread Adding (negb ts) e)
  | Adding => Some (sn, i32 (cnt + 1), mk_thread (if cnt =? ncores - 1 then Resetting else Spinning) ts e)
  | Resetting => Some (sn, 0, mk_thread Releasing ts e)
  | Releasing => Some (ts, cnt, mk_thread Outside ts (S e))
  | Spinning => if eqb sn ts then Some (sn, cnt, mk_thread Outside ts (S e)) else None
  end.

Inductive barrier_step (ncores : Z) : bstate -> bstate -> Prop :=
| bs_thread s i t sn cnt t' :
    threads s !! i = Some t -> barrier ncores (sense s) (count s) t = Some (sn, cnt, t') ->
    barrier_step ncores s (mk_b sn cnt (<[i := t']> (threads s))).

Definition barrier_start (n : nat) : bstate :=
  mk_b false 0 (repeat (mk_thread Outside false 0) n).

(** ** The phases *)

(** What a thread does in phase [k], in which [k] episodes have been released. *)
Inductive status := Early | Arrived | Closing | Opening | Leaving.

#[export] Instance status_eq_dec : EqDecision status.
Proof. solve_decision. Defined.

Definition status_of (k : nat) (t : thread) : option status :=
  match pc t with
  | Outside => if bool_decide (episodes t = k /\ threadsense t = Nat.odd k) then Some Early else None
  | Adding => if bool_decide (episodes t = k /\ threadsense t = Nat.even k) then Some Early else None
  | Resetting => if bool_decide (episodes t = k /\ threadsense t = Nat.even k) then Some Closing else None
  | Releasing => if bool_decide (episodes t = k /\ threadsense t = Nat.even k) then Some Opening else None
  | Spinning =>
      if bool_decide (episodes t = k /\ threadsense t = Nat.even k) then Some Arrived
      else if bool_decide (S (episodes t) = k /\ threadsense t = Nat.odd k) then Some Leaving else None
  end.

Definition num (k : nat) (st : status) (l : list thread) : nat :=
  length (filter (λ t, status_of k t = Some st) l).

Record barrier_inv (n : nat) (k : nat) (s : bstate) : Prop := {
  bi_len : length (threads s) = n;
  bi_sense : sense s = Nat.odd k;
  bi_all : Forall (λ t, is_Some (status_of k t)) (threads s);
  bi_one : (num k Closing (threads s) + num k Opening (threads s) <= 1)%nat;
  bi_last : (num k Closing (threads s) + num k Opening (threads s) = 1 -> num k Arrived (threads s) + 1 = n)%nat;
  bi_few : (num k Closing (threads s) + num k Opening (threads s) = 0 -> num k Arrived (threads s) < n)%nat;
  bi_count : count s = if bool_decide (num k Opening (threads s) = 1%nat) then 0
                       else Z.of_nat (num k Arrived (threads s) + num k Closing (threads s))
}.

Definition one (o : option status) (st : status) : nat := if bool_decide (o = Some st) then 1 else 0.

Lemma num_insert k st l i t t' : l !! i = Some t ->
  (num k st (<[i := t']> l) + one (status_of k t) st = num k st l + one (status_of k t') st)%nat.
Proof.
  intros Hi. unfold num, one.
  pose proof (length_filter_insert (λ t, status_of k t = Some st) l i t t' Hi).
  repeat case_bool_decide; repeat case_decide; done || lia.
Qed.

Lemma num_repeat k st t n : status_of k t <> Some st -> num k st (repeat t n) = 0%nat.
Proof.
  intros Ht. unfold num. induction n as [|n IH]; [done|]. cbn [repeat]. by rewrite filter_cons_False.
Qed.

Lemma barrier_inv_start n : (0 < n)%nat -> barrier_inv n 0 (barrier_start n).
Proof.
  intros Hn. assert (forall st, st <> Early -> num 0 st (threads (barrier_start n)) = 0%nat) as Hz
    by (intros st Hst; apply num_repeat; change (Some Early <> Some st); congruence).
  split; rewrite ?(Hz Closing), ?(Hz Opening), ?(Hz Arrived) by done; try done; try lia.
  - apply repeat_length.
  - apply list.Forall_forall. intros t Ht%list_elem_of_In%repeat_spec. subst t. by eexists.
Qed.

Lemma num_pos k st l j t : l !! j = Some t -> status_of k t = Some st -> (1 <= num k st l)%nat.
Proof.
  intros Hj Hs. unfold num.
  assert (t ∈ filter (λ t, status_of k t = Some st) l) as Ht
    by (apply list_elem_of_filter; split; [done|by eapply list_elem_of_lookup_2]).
  destruct (filter _ l); [by apply not_elem_of_nil in Ht|cbn; lia].
Qed.

Lemma num_zero k st l : Forall (λ t, status_of k t <> Some st) l -> num k st l = 0%nat.
Proof. intros HF. unfold num. induction HF; [done|]. by rewrite filter_cons_False. Qed.

Lemma num_all k st l : Forall (λ t, status_of k t = Some st) l -> num k st l = length l.
Proof.
  intros HF. unfold num. induction HF; [done|]. rewrite filter_cons_True by done. cbn [length]. by f_equal.
Qed.

Lemma num_total k l : Forall (λ t, is_Some (status_of k t)) l ->
  (num k Early l + num k Arrived l + num k Closing l + num k Opening l + num k Leaving l = length l)%nat.
Proof.
  unfold num. induction 1 as [|t l [st Hst] _ IH]; [done|]. rewrite !filter_cons, Hst. cbn [length].
  destruct st; repeat case_decide; cbn [length]; try congruence; lia.
Qed.

(** The statuses by the point reached. *)
Lemma status_some k t st : status_of k t = Some st ->
  (pc t = Outside /\ episodes t = k /\ threadsense t = Nat.odd k /\ st = Early) \/
  (pc t = Adding /\ episodes t = k /\ threadsense t = Nat.even k /\ st = Early) \/
  (pc t = Resetting /\ episodes t = k /\ threadsense t = Nat.even k /\ st = Closing) \/
  (pc t = Releasing /\ episodes t = k /\ threadsense t = Nat.even k /\ st = Opening) \/
  (pc t = Spinning /\ episodes t = k /\ threadsense t = Nat.even k /\ st = Arrived) \/
  (pc t = Spinning /\ S (episodes t) = k /\ threadsense t = Nat.odd k /\ st = Leaving).
Proof.
  unfold status_of. destruct (pc t); repeat case_bool_decide; intros [= <-]; naive_solver.
Qed.

Ltac status_here := unfold status_of; cbn [pc episodes threadsense]; by rewrite bool_decide_true by done.

Lemma status_leaving k e : S e = k -> status_of k (mk_thread Spinning (Nat.odd k) e) = Some Leaving.
Proof.
  intros <-. unfold status_of. cbn [pc episodes threadsense].
  by rewrite bool_decide_false, bool_decide_true by (lia || done).
Qed.

(** A thread changes its status from [st] to [st'] within a phase. *)
Lemma inv_move n k s i t t' st st' cnt :
  barrier_inv n k s -> threads s !! i = Some t ->
  status_of k t = Some st -> status_of k t' = Some st' ->
  (forall c o a,
     (c + one (Some st) Closing = num k Closing (threads s) + one (Some st') Closing)%nat ->
     (o + one (Some st) Opening = num k Opening (threads s) + one (Some st') Opening)%nat ->
     (a + one (Some st) Arrived = num k Arrived (threads s) + one (Some st') Arrived)%nat ->
     (c + o <= 1 /\ (c + o = 1 -> a + 1 = n) /\ (c + o = 0 -> a < n))%nat /\
     cnt = if bool_decide (o = 1%nat) then 0 else Z.of_nat (a + c)) ->
  barrier_inv n k (mk_b (sense s) cnt (<[i := t']> (threads s))).
Proof.
  intros [Hl Hs Ha _ _ _ _] Hi Ht Ht' Hn.
  pose proof (λ x, num_insert k x _ i t t' Hi) as N. rewrite Ht, Ht' in N.
  destruct (Hn _ _ _ (N Closing) (N Opening) (N Arrived)) as [(H1 & H2 & H3) H4].
  split; cbn [threads sense count]; try done.
  - by rewrite length_insert.
  - apply list.Forall_insert; [done|]. by eexists.
Qed.

Ltac ones :=
  repeat match goal with
  | H : context [one (Some ?a) ?b] |- _ =>
      let v := eval vm_compute in (one (Some a) b) in change (one (Some a) b) with v in H
  end.

(** The release starts the next phase. *)
Lemma inv_release n k s i t : barrier_inv n k s -> threads s !! i = Some t ->
  status_of k t = Some Opening ->
  barrier_inv n (S k) (mk_b (Nat.even k) (count s)
    (<[i := mk_thread Outside (Nat.even k) (S k)]> (threads s))).
Proof.
  intros [Hl Hs Ha H1 H2 H3 Hc] Hi Ht. set (t' := mk_thread _ _ _). set (l' := <[i := t']> (threads s)).
  pose proof (num_pos k Opening _ i t Hi Ht) as Ho. pose proof (num_total k _ Ha) as Htot.
  assert (num k Opening (threads s) = 1 /\ num k Early (threads s) = 0 /\ num k Closing (threads s) = 0 /\
    num k Leaving (threads s) = 0)%nat as (HO & HE & HC & HL) by lia.
  assert (status_of (S k) t' = Some Early) as Ht' by (unfold t'; rewrite <- Nat.odd_succ; status_here).
  assert (Forall (λ x, status_of (S k) x = Some Early \/ status_of (S k) x = Some Leaving) l') as HF.
  { apply list.Forall_lookup. intros j x Hj. unfold l' in Hj.
    destruct (decide (i = j)) as [<-|Hij].
    { rewrite list_lookup_insert_eq in Hj by by eapply lookup_lt_Some. injection Hj as <-. by left. }
    rewrite list_lookup_insert_ne in Hj by done. right.
    destruct (proj1 (list.Forall_lookup _ _) Ha j x Hj) as [st Hst].
    assert (st = Arrived) as ->.
    { destruct st; [|done|..]; pose proof (num_pos k _ _ j x Hj Hst); try lia.
      pose proof (num_insert k Opening _ i t t' Hi) as HI.
      assert (l' !! j = Some x) as Hj' by (unfold l'; by rewrite list_lookup_insert_ne).
      pose proof (num_pos k Opening l' j x Hj' Hst) as Hp. fold l' in HI. unfold one in HI.
      rewrite (bool_decide_true (status_of k t = Some Opening)) in HI by done.
      rewrite bool_decide_false in HI; [lia|]. unfold t', status_of. cbn [pc].
      rewrite bool_decide_false; [done|]. cbn. lia. }
    apply status_some in Hst. destruct x as [p ts e]. cbn [pc episodes threadsense] in Hst.
    destruct Hst as [?|[?|[?|[?|[(-> & -> & -> & _)|?]]]]]; try naive_solver.
    rewrite <- Nat.odd_succ. by apply status_leaving. }
  assert (forall st, st <> Early -> st <> Leaving -> num (S k) st l' = 0%nat) as Hz.
  { intros st E1 E2. apply num_zero. eapply Forall_impl; [|exact HF]. intros x [-> | ->]; congruence. }
  rewrite (bool_decide_true (num k Opening (threads s) = 1%nat)) in Hc by done.
  assert (0 < n)%nat by (apply lookup_lt_Some in Hi; lia).
  split; cbn [threads sense count]; fold l'; rewrite ?(Hz Closing), ?(Hz Opening), ?(Hz Arrived) by done; try lia.
  - unfold l'. by rewrite length_insert.
  - by rewrite Nat.odd_succ.
  - eapply Forall_impl; [|exact HF]. intros x [-> | ->]; eauto.
  - done.
Qed.

Section steps.
Context (n : nat).
Hypothesis n_small : Z.of_nat n < 2 ^ 31.

(** A step stays in its phase, except that of the thread that releases it. *)
Lemma barrier_step_phase k s i t sn cnt t' :
  barrier_inv n k s -> threads s !! i = Some t ->
  barrier (Z.of_nat n) (sense s) (count s) t = Some (sn, cnt, t') ->
  let s' := mk_b sn cnt (<[i := t']> (threads s)) in
  barrier_inv n k s' \/ (barrier_inv n (S k) s' /\ episodes t = k).
Proof.
  intros HI Hi Hb. cbv zeta. pose proof HI as [Hl Hs Ha H1 H2 H3 Hc].
  destruct (proj1 (list.Forall_lookup _ _) Ha i t Hi) as [st Hst]. pose proof (num_total k _ Ha) as Htot.
  pose proof (status_some k t st Hst) as Hcase. pose proof (num_pos k st _ i t Hi Hst) as Hpos.
  destruct t as [p ts e]. cbn [pc episodes threadsense] in Hcase. cbn [barrier] in Hb.
  destruct Hcase as [(-> & -> & -> & Est)|[(-> & -> & -> & Est)|[(-> & -> & -> & Est)|[(-> & -> & -> & Est)|
    [(-> & -> & -> & Est)|(-> & <- & -> & Est)]]]]]; subst st.
  - left. injection Hb as <- <- <-. eapply (inv_move n k s i _ _ Early Early); [done|done|done| |].
    { rewrite Nat.negb_odd. status_here. }
    intros c o a E1 E2 E3. ones. replace c with (num k Closing (threads s)) by lia.
    replace o with (num k Opening (threads s)) by lia. replace a with (num k Arrived (threads s)) by lia.
    split; [lia|exact Hc].
  - left. injection Hb as <- <- <-.
    assert (num k Closing (threads s) = 0 /\ num k Opening (threads s) = 0)%nat as [EC EO] by lia.
    rewrite EC, EO, bool_decide_false, Nat.add_0_r in Hc by done. rewrite i_small by (cbn; lia).
    destruct (Z.eqb_spec (count s) (Z.of_nat n - 1)) as [E|E].
    + eapply (inv_move n k s i _ _ Early Closing); [done|done|done|status_here|].
      intros c o a E1 E2 E3. ones. rewrite bool_decide_false by lia. lia.
    + eapply (inv_move n k s i _ _ Early Arrived); [done|done|done|status_here|].
      intros c o a E1 E2 E3. ones. rewrite bool_decide_false by lia. lia.
  - left. injection Hb as <- <- <-. eapply (inv_move n k s i _ _ Closing Opening); [done|done|done|status_here|].
    intros c o a E1 E2 E3. ones. rewrite bool_decide_true by lia. lia.
  - right. injection Hb as <- <- <-. split; [|done]. by eapply inv_release.
  - rewrite Hs, <- Nat.negb_even in Hb. by destruct (Nat.even k).
  - left. replace (eqb (sense s) (Nat.odd (S e))) with true in Hb by (rewrite Hs; by destruct (Nat.odd (S e))).
    injection Hb as <- <- <-.
    eapply (inv_move n (S e) s i _ _ Leaving Early); [done|done|done|status_here|].
    intros c o a E1 E2 E3. ones. replace c with (num (S e) Closing (threads s)) by lia.
    replace o with (num (S e) Opening (threads s)) by lia. replace a with (num (S e) Arrived (threads s)) by lia.
    split; [lia|exact Hc].
Qed.

Lemma barrier_step_inv s s' :
  (exists k, barrier_inv n k s) -> barrier_step (Z.of_nat n) s s' -> exists k, barrier_inv n k s'.
Proof.
  intros [k HI] Hs. destruct Hs as [s i t sn cnt t' Hi Hb].
  destruct (barrier_step_phase k s i t sn cnt t' HI Hi Hb) as [H|[H _]]; eauto.
Qed.

Lemma barrier_reachable s : (0 < n)%nat -> star (barrier_step (Z.of_nat n)) (barrier_start n) s ->
  exists k, barrier_inv n k s.
Proof.
  intros Hn Hs. eapply (star_invariant _ (λ s, exists k, barrier_inv n k s)); [apply barrier_step_inv|exact Hs|].
  exists 0%nat. by apply barrier_inv_start.
Qed.

(** *** Progress *)

(** The steps a thread can still take before it has left [goal] times. *)
Definition work (goal : nat) (t : thread) : nat :=
  6 * (goal - episodes t) +
  match pc t with Outside => 5 | Adding => 4 | Resetting => 3 | Releasing => 2 | Spinning => 1 end.
Definition total_work (goal : nat) (l : list thread) : nat := foldr (λ t m, work goal t + m)%nat 0%nat l.

Lemma total_work_insert goal l i t t' : l !! i = Some t ->
  (total_work goal (<[i := t']> l) + work goal t = total_work goal l + work goal t')%nat.
Proof.
  unfold total_work. revert i. induction l as [|x l IH]; intros [|i] Hi; try done.
  - injection Hi as ->. change (<[0%nat := t']> (t :: l)) with (t' :: l). cbn [foldr]. lia.
  - change (<[S i := t']> (x :: l)) with (x :: <[i := t']> l). specialize (IH i Hi). cbn [foldr]. lia.
Qed.

Lemma barrier_work goal sn cnt t sn' cnt' t' : (episodes t < goal)%nat ->
  barrier (Z.of_nat n) sn cnt t = Some (sn', cnt', t') -> (work goal t' < work goal t)%nat.
Proof.
  destruct t as [p ts e]. intros Hg. cbn [episodes] in Hg. unfold work. cbn [barrier pc episodes].
  destruct p; [..|destruct (eqb sn ts)]; intros [= <- <- <-]; cbn [pc episodes]; try lia. destruct (_ =? _); lia.
Qed.

(** A thread that has not left [goal] times yet and can act. *)
Lemma barrier_enabled k goal s : barrier_inv n k s -> (k <= goal)%nat ->
  Exists (λ t, episodes t < goal)%nat (threads s) ->
  exists i t r, threads s !! i = Some t /\ (episodes t < goal)%nat /\
    barrier (Z.of_nat n) (sense s) (count s) t = Some r.
Proof.
  intros [Hl Hs Ha H1 H2 H3 Hc] Hk Hex.
  destruct (decide (Exists (λ t, episodes t < goal /\ (pc t <> Spinning \/ status_of k t = Some Leaving))%nat (threads s)))
    as [He|Hn].
  - apply list.Exists_exists in He as (t & [i Hi]%list_elem_of_lookup_1 & Hg & Hp). exists i, t.
    destruct t as [p ts e]. cbn [barrier pc] in *. destruct p; [by eauto..|].
    destruct Hp as [?|Hp]; [done|]. apply status_some in Hp. cbn [pc episodes threadsense] in Hp.
    destruct Hp as [?|[?|[?|[?|[?|(_ & <- & -> & _)]]]]]; try naive_solver.
    rewrite Hs. replace (eqb _ _) with true by (by destruct (Nat.odd (S e))). by eauto.
  - exfalso. rewrite <- Forall_Exists_neg in Hn.
    assert (forall j x, threads s !! j = Some x -> status_of k x = Some Arrived \/ episodes x = goal) as Hall.
    { intros j x Hj. rewrite list.Forall_lookup in Hn, Ha. specialize (Hn j x Hj). destruct (Ha j x Hj) as [st Hst].
      pose proof (status_some k x st Hst) as Hc'. destruct (decide (episodes x = goal)); [by right|left].
      assert (pc x = Spinning /\ st <> Leaving) as [Hp Hnl].
      { split; [apply dec_stable; intros Hp|intros ->]; apply Hn; (split; [|auto]); naive_solver lia. }
      rewrite Hst. f_equal. destruct Hc' as [?|[?|[?|[?|[?|?]]]]]; destruct_and!; congruence. }
    apply list.Exists_exists in Hex as (t & [i Hi]%list_elem_of_lookup_1 & Hg).
    destruct (Hall i t Hi) as [Hst|]; [|lia].
    assert (episodes t = k) as <-.
    { apply status_some in Hst. destruct Hst as [?|[?|[?|[?|[?|?]]]]]; destruct_and!; congruence. }
    assert (Forall (λ x, status_of (episodes t) x = Some Arrived) (threads s)) as HF.
    { apply list.Forall_lookup. intros j x Hj. destruct (Hall j x Hj) as [|Hx]; [done|]. exfalso.
      rewrite list.Forall_lookup in Ha. destruct (Ha j x Hj) as [st Hst']. apply status_some in Hst'. naive_solver lia. }
    assert (num (episodes t) Arrived (threads s) = n) as Hfull.
    { rewrite <- Hl. by apply num_all. }
    pose proof (num_total _ _ Ha). lia.
Qed.

Lemma barrier_leaves goal sn cnt t sn' cnt' t' : (episodes t < goal)%nat ->
  barrier (Z.of_nat n) sn cnt t = Some (sn', cnt', t') ->
  (episodes t' <= goal)%nat /\ (episodes t' = goal -> pc t' = Outside).
Proof.
  destruct t as [p ts e]. intros Hg. cbn [episodes barrier] in *.
  destruct p; [..|destruct (eqb sn ts)]; intros [= <- <- <-]; cbn [pc episodes]; (split; [lia|]); intros; (done || lia).
Qed.

Lemma barrier_run_to goal m : forall k s, (total_work goal (threads s) < m)%nat ->
  barrier_inv n k s -> (k <= goal)%nat ->
  Forall (λ t, episodes t <= goal /\ (episodes t = goal -> pc t = Outside))%nat (threads s) ->
  exists s', star (barrier_step (Z.of_nat n)) s s' /\
    Forall (λ t, pc t = Outside /\ episodes t = goal) (threads s').
Proof.
  induction m as [|m IH]; intros k s Hm HI Hk HF; [lia|].
  destruct (decide (Exists (λ t, episodes t < goal)%nat (threads s))) as [He|Hn].
  - destruct (barrier_enabled k goal s HI Hk He) as (i & t & [[sn cnt] t'] & Hi & Hg & Hb).
    pose proof (total_work_insert goal _ i t t' Hi) as Hw. pose proof (barrier_work goal _ _ _ _ _ _ Hg Hb) as Hw'.
    assert (exists k', barrier_inv n k' (mk_b sn cnt (<[i := t']> (threads s))) /\ (k' <= goal)%nat) as (k' & HI' & Hk').
    { destruct (barrier_step_phase k s i t sn cnt t' HI Hi Hb) as [H|[H He']]; [by exists k|].
      exists (S k). split; [done|lia]. }
    destruct (IH k' (mk_b sn cnt (<[i := t']> (threads s)))) as (s' & Hst & Hf); [cbn [threads]; lia|done|done| |].
    { cbn [threads]. apply list.Forall_insert; [done|by eapply barrier_leaves]. }
    exists s'. split; [|done]. eapply star_step; [by eapply bs_thread|done].
  - exists s. split; [constructor|]. rewrite <- Forall_Exists_neg in Hn. rewrite list.Forall_lookup in HF, Hn |- *.
    intros j x Hj. destruct (HF j x Hj) as [Hle Ho]. specialize (Hn j x Hj). cbn in Hn.
    assert (episodes x = goal) as Hx by lia. split; [by apply Ho|done].
Qed.
End steps.

(** C16: The barrier holds the threads together: in every reachable state a thread that
    has returned more often than another one is exactly one call ahead, and the
    other one has already arrived at that call and is free to leave. *)
Theorem barrier_synchronises n s i j ti tj :
  (0 < n)%nat -> Z.of_nat n < 2 ^ 31 -> star (barrier_step (Z.of_nat n)) (barrier_start n) s ->
  threads s !! i = Some ti -> threads s !! j = Some tj -> (episodes tj < episodes ti)%nat ->
  episodes ti = S (episodes tj) /\ pc tj = Spinning /\ threadsense tj = sense s.
Proof.
  intros Hn Hs Hr Hi Hj Hlt. destruct (barrier_reachable n Hs s Hn Hr) as [k [_ Hk Ha _ _ _ _]].
  rewrite list.Forall_lookup in Ha. destruct (Ha i ti Hi) as [a Hti], (Ha j tj Hj) as [b Htj].
  apply status_some in Hti, Htj. rewrite Hk.
  destruct Htj as [?|[?|[?|[?|[?|?]]]]]; destruct Hti as [?|[?|[?|[?|[?|?]]]]]; destruct_and!; subst; (lia || auto).
Qed.

(** C17: No thread waits for ever: from every reachable state the threads can be run so
    that all of them are outside and have returned equally often, once more than
    the foremost of them before. *)
Theorem barrier_completes n s :
  (0 < n)%nat -> Z.of_nat n < 2 ^ 31 -> star (barrier_step (Z.of_nat n)) (barrier_start n) s ->
  exists s' e, star (barrier_step (Z.of_nat n)) s s' /\
    Forall (λ t, pc t = Outside /\ episodes t = S e) (threads s') /\
    Forall (λ t, episodes t <= e)%nat (threads s).
Proof.
  intros Hn Hs Hr. destruct (barrier_reachable n Hs s Hn Hr) as [k HI]. pose proof HI as [_ _ Ha _ _ _ _].
  assert (Forall (λ t, episodes t <= k)%nat (threads s)) as Hle.
  { eapply Forall_impl; [|exact Ha]. intros t [st Hst]. apply status_some in Hst.
    destruct Hst as [?|[?|[?|[?|[?|?]]]]]; destruct_and!; cbn; lia. }
  destruct (barrier_run_to n Hs (S k) _ k s (Nat.lt_succ_diag_r _) HI) as (s' & Hst & HF); [lia| |].
  { eapply Forall_impl; [|exact Hle]. intros t Ht. cbn in Ht. split; [lia|]. intros E. lia. }
  by exists s', k.
Qed.

(** ** Examples *)

(** Thread 1 has returned, thread 0 is about to. *)
Definition released : bstate := mk_b true 0 [mk_thread Spinning true 0; mk_thread Outside true 1].

Lemma released_reachable : star (barrier_step 2) (barrier_start 2) released.
Proof.
  assert (forall s i r, match threads s !! i with
            | Some t => match barrier 2 (sense s) (count s) t with
                        | Some (sn, cnt, t') => r = mk_b sn cnt (<[i := t']> (threads s))
                        | None => False end
            | None => False end -> barrier_step 2 s r) as step.
  { intros s i r H. destruct (threads s !! i) as [t|] eqn:Hi; [|done].
    destruct (barrier 2 (sense s) (count s) t) as [[[sn cnt] t']|] eqn:Hb; [|done]. subst r. by eapply bs_thread. }
  do 2 (eapply star_step; [by apply (step _ 0%nat)|]). do 4 (eapply star_step; [by apply (step _ 1%nat)|]).
  apply star_refl.
Qed.

Lemma barrier_synchronises_witness : 1%nat = S 0 /\ Spinning = Spinning /\ true = true.
Proof.
  exact (barrier_synchronises 2 released 1 0 (mk_thread Outside true 1) (mk_thread Spinning true 0)
    ltac:(lia) ltac:(lia) released_reachable eq_refl eq_refl ltac:(cbn; lia)).
Defined.

Lemma barrier_completes_witness :
  exists s' e, star (barrier_step 2) released s' /\
    Forall (λ t, pc t = Outside /\ episodes t = S e) (threads s') /\ (1 <= e)%nat.
Proof.
  destruct (barrier_completes 2 released) as (s' & e & Hs & Hf & Hle); [lia|lia|apply released_reachable|].
  exists s', e. split; [exact Hs|]. split; [exact Hf|]. by apply list.Forall_cons in Hle as [_ [H _]%list.Forall_cons].
Defined.
