(* ===== verification/BareLib.v ===== *)
(** * The runtime of the bare-metal tests ([test/bare/syscalls.c])

    The C library of the programs that run without an operating system: output
    through the host, formatted printing, memory and string functions, a random
    number generator, the counters and the entry point.  ([test/rocc/syscalls.c] is
    a copy without the generator and with another format in [_init].)

    Memory is a finite map from addresses to bytes; an access outside it is a
    fault.  [char] is unsigned, as on RISC-V.  The [SYS_write] requests handed to the
    host are recorded, with the bytes they point to; the host, which is not part
    of the repository, is taken to answer each of them. *)

From Stdlib Require String.
From S2P Require Import Prelude Prog UserMem CLib.
Import String.StringSyntax.
Local Open Scope string_scope.
Local Open Scope Z_scope.

Definition NUM_COUNTERS : nat := 2.

(** [buf] and [buflen] are the static variables of [putchar]. *)
Record machine := mk_machine {
  mem : gmap Z Z;
  console : list (list Z);           (* the write requests, in order *)
  buf : list Z; buflen : Z;
  counters : list Z; counter_names : list (list Z);
  random_state : Z;
  tohost : Z
}.

Definition set_mem (m : gmap Z Z) (s : machine) : machine :=
  mk_machine m (console s) (buf s) (buflen s) (counters s) (counter_names s) (random_state s) (tohost s).
Definition set_console (c : list (list Z)) (s : machine) : machine :=
  mk_machine (mem s) c (buf s) (buflen s) (counters s) (counter_names s) (random_state s) (tohost s).
Definition set_buf (b : list Z) (n : Z) (s : machine) : machine :=
  mk_machine (mem s) (console s) b n (counters s) (counter_names s) (random_state s) (tohost s).
Definition set_counters (c : list Z) (l : list (list Z)) (s : machine) : machine :=
  mk_machine (mem s) (console s) (buf s) (buflen s) c l (random_state s) (tohost s).
Definition set_random (x : Z) (s : machine) : machine :=
  mk_machine (mem s) (console s) (buf s) (buflen s) (counters s) (counter_names s) x (tohost s).
Definition set_tohost (x : Z) (s : machine) : machine :=
  mk_machine (mem s) (console s) (buf s) (buflen s) (counters s) (counter_names s) (random_state s) x.

Abbreviation M := (prog machine).

(** ** Memory *)

Definition load (a : Z) : M Z := s ← get; deref (mem s !! a) OutOfBounds.
Definition store (a v : Z) : M unit :=
  s ← get;
  match mem s !! a with
  | Some _ => modify (set_mem (<[a := u8 v]> (mem s)))
  | None => fail OutOfBounds
  end.

(** A word is eight bytes, little endian. *)
Definition load_word (a : Z) : M Z :=
  s ← get; l ← deref (load_bytes 8 a (mem s)) OutOfBounds; mret (le_combine l).
Definition store_word (a v : Z) : M unit :=
  s ← get;
  match copy_to_user (mem s) a (le_split 8 v) with
  | (true, m) => modify (set_mem m)
  | (false, _) => fail OutOfBounds
  end.

(** The loops of [memcpy]. *)
Definition copy_bytes (dest src : Z) (n : nat) : M unit :=
  for_loop n 0 (λ k, c ← load (src + k); store (dest + k) c).
Definition copy_words (dest src : Z) (n : nat) : M unit :=
  for_loop n 0 (λ k, w ← load_word (src + 8 * k); store_word (dest + 8 * k) w).

Definition memcpy (dest src len : Z) : M Z :=
  (if Z.land (Z.lor (Z.lor dest src) len) (8 - 1) =? 0 then copy_words dest src (Z.to_nat (len / 8))
   else copy_bytes dest src (Z.to_nat len));;
  mret dest.

(** The byte in all eight places of a word. *)
Definition splat (byte : Z) : Z :=
  let word := Z.land byte 0xFF in
  let word := Z.lor word (u64 (Z.shiftl word 8)) in
  let word := Z.lor word (u64 (Z.shiftl word 16)) in
  Z.lor word (u64 (Z.shiftl (u64 (Z.shiftl word 16)) 16)).

Definition memset (dest byte len : Z) : M Z :=
  (if Z.land (Z.lor dest len) (8 - 1) =? 0 then
     for_loop (Z.to_nat (len / 8)) 0 (λ k, store_word (dest + 8 * k) (splat byte))
   else for_loop (Z.to_nat len) 0 (λ k, store (dest + k) byte));;
  mret dest.

(** ** Strings

    The loops end at a zero byte, or fault where the memory ends: no more rounds
    than there are bytes of memory. *)

Definition bytes (s : machine) : nat := S (size (mem s)).

Fixpoint strlen_loop (fuel : nat) (s p : Z) : M Z :=
  match fuel with
  | O => diverge
  | S f => c ← load p; if c =? 0 then mret (p - s) else strlen_loop f s (p + 1)
  end.
Definition strlen (s : Z) : M Z := st ← get; strlen_loop (bytes st) s s.

Fixpoint strnlen_loop (fuel : nat) (s p n : Z) : M Z :=
  match fuel with
  | O => diverge
  | S f =>
      if n =? 0 then mret (p - s)
      else c ← load p; if c =? 0 then mret (p - s) else strnlen_loop f s (p + 1) (n - 1)
  end.
Definition strnlen (s n : Z) : M Z := st ← get; strnlen_loop (bytes st) s s n.

Fixpoint strcmp_loop (fuel : nat) (s1 s2 : Z) : M Z :=
  match fuel with
  | O => diverge
  | S f =>
      c1 ← load s1; c2 ← load s2;
      if negb (c1 =? 0) && (c1 =? c2) then strcmp_loop f (s1 + 1) (s2 + 1) else mret (c1 - c2)
  end.
Definition strcmp (s1 s2 : Z) : M Z := st ← get; strcmp_loop (bytes st) s1 s2.

Fixpoint strcpy_loop (fuel : nat) (d src : Z) : M unit :=
  match fuel with
  | O => diverge
  | S f => c ← load src; store d c;; if c =? 0 then mret tt else strcpy_loop f (d + 1) (src + 1)
  end.
Definition strcpy (dest src : Z) : M Z := st ← get; strcpy_loop (bytes st) dest src;; mret dest.

Fixpoint skip_blanks (fuel : nat) (str : Z) : M Z :=
  match fuel with
  | O => diverge
  | S f => c ← load str; if c =? 32 then skip_blanks f (str + 1) else mret str
  end.
Fixpoint atol_loop (fuel : nat) (str res : Z) : M Z :=
  match fuel with
  | O => diverge
  | S f => c ← load str; if c =? 0 then mret res else atol_loop f (str + 1) (i64 (i64 (res * 10) + (c - 48)))
  end.
Definition atol (str : Z) : M Z :=
  st ← get;
  str ← skip_blanks (bytes st) str;
  c ← load str;
  let sign := c =? 45 in
  let str := if (c =? 45) || (c =? 43) then str + 1 else str in
  res ← atol_loop (bytes st) str 0;
  mret (if (sign : bool) then i64 (- res) else res).

(** ** Output *)

(** [syscall(SYS_write, 1, p, n)] with the [n] bytes [l] at [p]. *)
Definition sys_write (l : list Z) : M unit := modify (λ s, set_console (console s ++ [l]) s).

Definition printstr (s : Z) : M unit :=
  n ← strlen s;
  st ← get;
  l ← deref (load_bytes (Z.to_nat n) s (mem st)) OutOfBounds;
  sys_write l.

Definition putchar (ch : Z) : M unit :=
  s ← get;
  (if (0 <=? buflen s) && (buflen s <? 64) then
     modify (set_buf (<[Z.to_nat (buflen s) := u8 ch]> (buf s)) (buflen s + 1))
   else fail OutOfBounds);;
  s ← get;
  if (ch =? 10) || (buflen s =? 64) then
    sys_write (take (Z.to_nat (buflen s)) (buf s));;
    modify (λ s, set_buf (buf s) 0 s)
  else mret tt.

Definition hexchar (d : Z) : Z := d + (if d <? 10 then 48 else 97 - 10).

(** The 16 characters of [printhex], which fills them from the last to the first. *)
Definition printhex_str (x : Z) : list Z :=
  map (λ k, hexchar (Z.land (Z.shiftr x (4 * Z.of_nat (15 - k))) 0xF)) (seq 0 16).
Definition printhex (x : Z) : M unit := sys_write (printhex_str x).

(** ** Formatted printing

    An argument is a 64-bit slot; for a pointer to a string it comes with the
    characters found there. *)

Record arg := mk_arg { word : Z; text : option (list Z) }.

Definition va_arg (ap : list arg) : option (arg * list arg) :=
  match ap with a :: ap' => Some (a, ap') | [] => None end.

Definition getuint (lflag : Z) (a : arg) : Z := if lflag =? 0 then u32 (word a) else u64 (word a).
Definition getint (lflag : Z) (a : arg) : Z := if lflag =? 0 then i32 (word a) else i64 (word a).

(** [va_arg(ap, char* )]: a null pointer is replaced by a text. *)
Definition getstr (a : arg) : option (list Z) :=
  if word a =? 0 then Some (chars "(null)") else text a.

Record flags := mk_flags { padc : Z; width : Z; precision : Z; lflag : Z; altflag : bool }.
Definition no_flags : flags := mk_flags 32 (-1) (-1) 0 false.

Inductive directive := DChar | DString | DSigned | DUnsigned (base : Z) | DPointer | DPercent | DUnknown.

(** [process_precision] with the number just read. *)
Definition process_precision (p : Z) (f : flags) : flags :=
  if width f <? 0 then mk_flags (padc f) p (-1) (lflag f) (altflag f)
  else mk_flags (padc f) (width f) p (lflag f) (altflag f).

(** [reswitch]: reads an escape behind its [%].  [num] is the number being read.
    [None]: the [*] of a width has no argument. *)
Fixpoint reswitch (fmt : list Z) (num : option Z) (f : flags) (ap : list arg)
  : option (directive * flags * list Z * list arg) :=
  let f1 := match num with Some p => process_precision p f | None => f end in
  match fmt with
  | [] => Some (DUnknown, f1, [], ap)
  | ch :: fmt' =>
      let other :=
        if ch =? 45 (* - *) then reswitch fmt' None (mk_flags 45 (width f1) (precision f1) (lflag f1) (altflag f1)) ap
        else if ch =? 48 (* 0 *) then reswitch fmt' None (mk_flags 48 (width f1) (precision f1) (lflag f1) (altflag f1)) ap
        else if (49 <=? ch) && (ch <=? 57) then reswitch fmt' (Some (ch - 48)) f1 ap
        else if ch =? 42 (* * *) then
          match va_arg ap with
          | Some (a, ap') => reswitch fmt' None (process_precision (i32 (word a)) f1) ap'
          | None => None
          end
        else if ch =? 46 (* . *) then
          reswitch fmt' None (mk_flags (padc f1) (if width f1 <? 0 then 0 else width f1) (precision f1) (lflag f1) (altflag f1)) ap
        else if ch =? 35 (* # *) then reswitch fmt' None (mk_flags (padc f1) (width f1) (precision f1) (lflag f1) true) ap
        else if ch =? 108 (* l *) then reswitch fmt' None (mk_flags (padc f1) (width f1) (precision f1) (i32 (lflag f1 + 1)) (altflag f1)) ap
        else if ch =? 99 (* c *) then Some (DChar, f1, fmt', ap)
        else if ch =? 115 (* s *) then Some (DString, f1, fmt', ap)
        else if ch =? 100 (* d *) then Some (DSigned, f1, fmt', ap)
        else if ch =? 117 (* u *) then Some (DUnsigned 10, f1, fmt', ap)
        else if ch =? 111 (* o *) then Some (DUnsigned 8, f1, fmt', ap)
        else if ch =? 112 (* p *) then Some (DPointer, f1, fmt', ap)
        else if ch =? 120 (* x *) then Some (DUnsigned 16, f1, fmt', ap)
        else if ch =? 37 (* % *) then Some (DPercent, f1, fmt', ap)
        else Some (DUnknown, f1, fmt', ap) in
      match num with
      | Some p =>
          if (48 <=? ch) && (ch <=? 57) then reswitch fmt' (Some (i32 (p * 10 + ch - 48))) f ap else other
      | None => other
      end
  end.

(** The digits of [printnum], the last one first; the array has 64 places. *)
Fixpoint digs (places : nat) (num base : Z) : option (list Z) :=
  match places with
  | O => None
  | S n => if num <? base then Some [num mod base] else l ← digs n (num / base) base; Some (num mod base :: l)
  end%stdpp.

Section printing.
Context {S : Type}.
Variable putch : Z -> prog S unit.

(** [while (n-- > 0) putch(c)] *)
Definition pad (n : Z) (c : Z) : prog S unit := for_loop (Z.to_nat n) 0 (λ _, putch c).

Fixpoint put_all (l : list Z) : prog S unit :=
  match l with [] => mret tt | c :: l' => putch c;; put_all l' end.

Definition printnum (num base width padc : Z) : prog S unit :=
  ds ← deref (digs 64 num base) OutOfBounds;
  pad (width - zlen ds) padc;;
  put_all (map hexchar (rev ds)).

(** [%s]: the characters printed, and the blanks before and behind them. *)
Definition print_string (p : list Z) (f : flags) : prog S unit :=
  let left := (0 <? width f) && negb (padc f =? 45) in
  let cs := if precision f <? 0 then p else take (Z.to_nat (precision f)) p in
  let w := if left then i32 (width f - zlen cs) else width f in
  (if left then pad w (padc f) else mret tt);;
  put_all cs;;
  pad ((if left then Z.min w 0 else w) - zlen cs) 32.

(** One directive with its argument. *)
Definition directive_out (d : directive) (f : flags) (a : arg) : prog S unit :=
  match d with
  | DChar => putch (i32 (word a))
  | DString => p ← deref (getstr a) OutOfBounds; print_string p f
  | DSigned =>
      let num := getint (lflag f) a in
      if num <? 0 then putch 45;; printnum (u64 (- num)) 10 (width f) (padc f)
      else printnum num 10 (width f) (padc f)
  | DUnsigned base => printnum (getuint (lflag f) a) base (width f) (padc f)
  | DPointer => putch 48;; putch 120;; printnum (getuint 1 a) 16 (width f) (padc f)
  | DPercent => putch 37
  | DUnknown => mret tt
  end.

(** A round of the loop prints a character or an escape; an unknown escape prints
    its [%] and continues behind it. *)
Fixpoint vprintfmt (fuel : nat) (fmt : list Z) (ap : list arg) : prog S unit :=
  match fuel with
  | O => diverge
  | Datatypes.S n =>
      match fmt with
      | [] => mret tt
      | ch :: fmt' =>
          if negb (ch =? 37) then putch ch;; vprintfmt n fmt' ap
          else
            '(d, f, rest, ap') ← deref (reswitch fmt' None no_flags ap) Uninitialised;
            match d with
            | DUnknown => putch 37;; vprintfmt n fmt' ap'
            | DPercent => putch 37;; vprintfmt n rest ap'
            | _ =>
                '(a, ap'') ← deref (va_arg ap') Uninitialised;
                directive_out d f a;; vprintfmt n rest ap''
            end
      end
  end.
End printing.

Definition printf (fmt : list Z) (ap : list arg) : M Z :=
  vprintfmt putchar (S (length fmt)) fmt ap;; mret 0.

(** [sprintf_putch] writes to [*str] and advances it: the second component. *)
Definition sprintf_putch (ch : Z) : prog (machine * Z) unit := λ '(s, str),
  let '(o, s') := store str ch s in
  match o with Ret _ => (Ret tt, (s', str + 1)) | Exit c => (Exit c, (s', str)) | Fault e => (Fault e, (s', str))
  | OutOfFuel => (OutOfFuel, (s', str)) end.

Definition sprintf (str0 : Z) (fmt : list Z) (ap : list arg) : M Z := λ s,
  let '(o, (s1, str)) := vprintfmt sprintf_putch (S (length fmt)) fmt ap (s, str0) in
  match o with
  | Ret _ => (store str 0;; mret (str - str0)) s1
  | Exit c => (Exit c, s1) | Fault e => (Fault e, s1) | OutOfFuel => (OutOfFuel, s1)
  end.

(** ** Random numbers and time *)

Definition srandom (seed : Z) : M unit :=
  let x := u32 seed in modify (set_random (Z.lor x (u64 (Z.shiftl x 32)))).

Definition xorshift (x : Z) : Z :=
  let x := Z.lxor x (Z.shiftr x 12) in
  let x := Z.lxor x (u64 (Z.shiftl x 25)) in
  Z.lxor x (u64 (Z.shiftl x 27)).

Definition random : M Z :=
  s ← get; let x := xorshift (random_state s) in modify (set_random x);; mret x.

(** [rdtime] is read as microseconds; [tloc] may be null. *)
Definition time (rdtime tloc : Z) : M Z :=
  let secs := rdtime / 1000000 in
  (if tloc =? 0 then mret tt else store_word tloc secs);; mret secs.

(** ** Counters, exit and entry *)

Definition ctr_names : list (list Z) := [chars "mcycle"; chars "minstret"].

(** [READ_CTR] for counter [i] with the value read from the machine. *)
Definition read_ctr (enable : bool) (i : nat) (csr : Z) : M unit :=
  s ← get;
  old ← deref (counters s !! i) OutOfBounds;
  name ← deref (ctr_names !! i) OutOfBounds;
  if enable then modify (set_counters (<[i := csr]> (counters s)) (counter_names s))
  else modify (set_counters (<[i := u64 (csr - old)]> (counters s)) (<[i := name]> (counter_names s))).

Definition setStats (enable : bool) (mcycle minstret : Z) : M unit :=
  read_ctr enable 0 mcycle;; read_ctr enable 1 minstret.

(** The program stops; what [putchar] holds back stays there. *)
Definition tohost_exit {A} (code : Z) : M A :=
  modify (set_tohost (Z.lor (u64 (Z.shiftl (u64 code) 1)) 1));; Prog.exit code.
Definition handle_trap {A} : M A := tohost_exit 1337.
Definition exit {A} (code : Z) : M A := tohost_exit code.
Definition SIGABRT : Z := 6.
Definition abort {A} : M A := exit (128 + SIGABRT).

(** The report of the counters into the buffer at [pbuf]; a counter whose name was
    never set has a null name. *)
Definition stat_args (s : machine) (i : nat) : option (list arg) :=
  (c ← counters s !! i; n ← counter_names s !! i;
   Some [mk_arg (if bool_decide (n = []) then 0 else 1) (Some n); mk_arg c None])%stdpp.

Fixpoint report (fmt : list Z) (n i : nat) (pbuf : Z) : M Z :=
  match n with
  | O => mret pbuf
  | S n' =>
      s ← get;
      c ← deref (counters s !! i) OutOfBounds;
      if c =? 0 then report fmt n' (S i) pbuf
      else
        ap ← deref (stat_args s i) OutOfBounds;
        k ← sprintf pbuf fmt ap;
        report fmt n' (S i) (pbuf + k)
  end.

Definition stat_fmt : list Z := chars "%s = %d" ++ [10].
(** The format of [test/rocc/syscalls.c]: [PRIuPTR] is "lu". *)
Definition stat_fmt_rocc : list Z := chars "%s = %lu" ++ [10].

(** The linker gives the addresses and sizes of the thread-local data. *)
Record tls := mk_tls { tp : Z; tls_data : Z; tdata_size : Z; tbss_size : Z }.

Definition init_tls (l : tls) : M unit :=
  _ ← memcpy (tp l) (tls_data l) (tdata_size l);
  _ ← memset (tp l + tdata_size l) 0 (tbss_size l);
  mret tt.

(** [while (cid != 0);] *)
Definition thread_entry (cid : Z) : M unit := if cid =? 0 then mret tt else diverge.

(** [main_] is the program, [frame] the address of [buf]. *)
Definition _init (l : tls) (fmt : list Z) (main_ : M Z) (frame cid : Z) : M unit :=
  init_tls l;;
  thread_entry cid;;
  ret ← main_;
  pbuf ← report fmt NUM_COUNTERS 0 frame;
  (if pbuf =? frame then mret tt else printstr frame);;
  exit ret.
