(* ===== verification/BareLibSpec.v ===== *)
(** * Properties of the bare-metal runtime

    The word loops of [memcpy] and [memset] compute what the byte loops compute;
    the string functions end and return what they promise; [putchar] holds back
    less than a buffer and loses nothing; [printf] and [sprintf] print the same
    characters; [atol] reads what [sprintf] prints; the generator never gets stuck. *)

From Stdlib Require String.
From Stdlib Require Import ZifyBool.
From S2P Require Import Prelude Prog UserMem Common CLib BareLib.
Import String.StringSyntax.
Local Open Scope string_scope.
Local Open Scope Z_scope.

(** ** Memory as a map of bytes *)

Definition byte_mem (m : gmap Z Z) : Prop := map_Forall (λ _ b, is_byte b) m.

(** [l] stored at [a], and the [n] bytes at [a]. *)
Definition put (m : gmap Z Z) (a : Z) (l : list Z) : gmap Z Z := (copy_to_user m a l).2.
Definition take_at (m : gmap Z Z) (a : Z) (n : nat) : list Z := default [] (load_bytes n a m).

Lemma mapped_app m a n1 n2 :
  mapped m a (n1 + n2) <-> mapped m a n1 /\ mapped m (a + Z.of_nat n1) n2.
Proof.
  unfold mapped. split.
  - intros Hm. split; intros k Hk; apply Hm; lia.
  - intros [H1 H2] k Hk. destruct (decide (k < a + Z.of_nat n1)); [apply H1; lia|apply H2; lia].
Qed.

Lemma copy_to_user_put l : forall m a, mapped m a (length l) -> copy_to_user m a l = (true, put m a l).
Proof.
  intros m a Hm. unfold put. destruct (copy_to_user_ok l m a Hm) as (m' & -> & _). done.
Qed.

Lemma put_cons m a b l : is_Some (m !! a) -> put m a (b :: l) = put (<[a := b]> m) (a + 1) l.
Proof. intros [x Hx]. unfold put. cbn. by rewrite Hx. Qed.

Lemma mapped_insert m a b c n : is_Some (m !! a) -> mapped m c n -> mapped (<[a := b]> m) c n.
Proof.
  intros _ Hm k Hk. destruct (decide (k = a)) as [->|Hne]; [rewrite lookup_insert_eq; by eexists|].
  rewrite lookup_insert_ne by done. by apply Hm.
Qed.

Lemma put_app l1 : forall m a l2, mapped m a (length l1 + length l2) ->
  put m a (l1 ++ l2) = put (put m a l1) (a + zlen l1) l2.
Proof.
  unfold zlen. induction l1 as [|b l1 IH]; intros m a l2 Hm; cbn [app length] in *.
  - by rewrite Z.add_0_r.
  - assert (is_Some (m !! a)) as Ha by (apply Hm; lia). rewrite !put_cons by done.
    rewrite IH; [f_equal; lia|]. apply mapped_insert; [done|]. intros k Hk. apply Hm. lia.
Qed.

Lemma put_mapped m a l c n : mapped m c n -> mapped (put m a l) c n.
Proof. apply copy_to_user_mapped. Qed.

Lemma put_lookup l : forall m a k, mapped m a (length l) ->
  put m a l !! k = if (a <=? k) && (k <? a + zlen l) then l !! Z.to_nat (k - a) else m !! k.
Proof.
  unfold zlen. induction l as [|b l IH]; intros m a k Hm; cbn [length] in *.
  - destruct (Z.leb_spec a k), (Z.ltb_spec k (a + Z.of_nat 0)); cbn [andb]; done || lia.
  - rewrite put_cons by (apply Hm; lia).
    rewrite IH by (apply mapped_insert; [apply Hm; lia|intros x Hx; apply Hm; lia]).
    destruct (decide (k = a)) as [->|Hne].
    + destruct ((a + 1 <=? a) && _) eqn:E1; [lia|]. destruct ((a <=? a) && _) eqn:E2; [|lia].
      rewrite lookup_insert_eq, Z.sub_diag. done.
    + rewrite lookup_insert_ne by done.
      destruct ((a + 1 <=? k) && _) eqn:E1, ((a <=? k) && _) eqn:E2; try lia; [|done].
      replace (Z.to_nat (k - a)) with (S (Z.to_nat (k - (a + 1)))) by lia. done.
Qed.

Lemma put_outside m a l k : mapped m a (length l) -> ~ (a <= k < a + zlen l) -> put m a l !! k = m !! k.
Proof. intros Hm Hk. rewrite put_lookup by done. destruct (_ && _) eqn:E; [lia|done]. Qed.

Lemma put_byte_mem m a l : byte_mem m -> Forall is_byte l -> mapped m a (length l) -> byte_mem (put m a l).
Proof.
  intros Hm Hl Hma k b. rewrite put_lookup by done. destruct (_ && _); [|apply Hm].
  rewrite list.Forall_lookup in Hl. apply Hl.
Qed.

Lemma take_at_spec n : forall m a, mapped m a n ->
  load_bytes n a m = Some (take_at m a n) /\ length (take_at m a n) = n /\
  (forall k, (k < n)%nat -> take_at m a n !! k = m !! (a + Z.of_nat k)).
Proof.
  unfold take_at. intros m a Hm. destruct (load_bytes_mapped n a m Hm) as [l El]. rewrite El. cbn.
  split; [done|]. split; [by eapply load_bytes_length|].
  revert a l Hm El. induction n as [|n IH]; intros a l Hm El k Hk; [lia|]. cbn in El.
  destruct (m !! a) as [b|] eqn:Eb; [|done]. cbn in El.
  destruct (load_bytes n (a + 1) m) as [l'|] eqn:E; [|done]. cbn in El. injection El as <-.
  destruct k as [|k]; cbn; [by rewrite Z.add_0_r, Eb|].
  rewrite (IH (a + 1) l'); [f_equal; lia|intros x Hx; apply Hm; lia|done|lia].
Qed.

Lemma take_at_bytes m a n : byte_mem m -> mapped m a n -> Forall is_byte (take_at m a n).
Proof.
  intros Hm Hma. destruct (take_at_spec n m a Hma) as (_ & Hl & Hk).
  apply list.Forall_lookup. intros k b Hb. apply lookup_lt_Some in Hb as Hlt. rewrite Hk in Hb by lia. by eapply Hm.
Qed.

(** ** Loads and stores *)

Lemma set_mem_id s : set_mem (mem s) s = s.
Proof. by destruct s. Qed.

Lemma load_run a b s : mem s !! a = Some b -> load a s = (Ret b, s).
Proof. intros E. unfold load. by rewrite run_get, E. Qed.

Lemma store_run a v s : is_Some (mem s !! a) -> store a v s = (Ret tt, set_mem (<[a := u8 v]> (mem s)) s).
Proof. intros [b E]. unfold store. by rewrite run_get, E. Qed.

Lemma load_word_run a s : mapped (mem s) a 8 -> load_word a s = (Ret (le_combine (take_at (mem s) a 8)), s).
Proof.
  intros Hm. unfold load_word. rewrite run_get. destruct (take_at_spec 8 _ _ Hm) as (-> & _ & _). done.
Qed.

Lemma store_word_run a v s : mapped (mem s) a 8 ->
  store_word a v s = (Ret tt, set_mem (put (mem s) a (le_split 8 v)) s).
Proof.
  intros Hm. unfold store_word. rewrite run_get, copy_to_user_put by by rewrite length_le_split. done.
Qed.

Lemma for_loop_app {S} (body : Z -> prog S unit) n1 : forall n2 i s,
  for_loop (n1 + n2) i body s = bind (for_loop n1 i body) (λ _, for_loop n2 (i + Z.of_nat n1) body) s.
Proof.
  induction n1 as [|n1 IH]; intros n2 i s; cbn [Nat.add for_loop].
  - by rewrite Z.add_0_r.
  - rewrite bind_assoc. unfold bind at 1 2. destruct (body i s) as [[[]| | |] s1]; try done.
    rewrite IH. unfold bind. destruct (for_loop n1 (i + 1) body s1) as [[]]; try done. f_equal. lia.
Qed.

(** ** [memcpy] *)

(** The byte loop, when it does not overwrite what it still has to read. *)
Lemma copy_bytes_run n : forall d src i s,
  byte_mem (mem s) -> mapped (mem s) (src + i) n -> mapped (mem s) (d + i) n ->
  ~ (src < d < src + Z.of_nat n) ->
  for_loop n i (λ k, c ← load (src + k); store (d + k) c) s
  = (Ret tt, set_mem (put (mem s) (d + i) (take_at (mem s) (src + i) n)) s).
Proof.
  induction n as [|n IH] using nat_ind; intros d src i s Hb Hs Hd Ho.
  - cbn. by rewrite set_mem_id.
  - replace (S n) with (n + 1)%nat by lia. rewrite for_loop_app.
    replace (S n) with (n + 1)%nat in * by lia.
    apply mapped_app in Hs as [Hs1 Hs2]. apply mapped_app in Hd as [Hd1 Hd2].
    rewrite (run_bind _ _ _ _ _ (IH d src i s Hb Hs1 Hd1 ltac:(lia))).
    cbn [for_loop]. set (m1 := put _ _ _).
    destruct (take_at_spec n (mem s) (src + i) Hs1) as (E1 & L1 & K1).
    destruct (take_at_spec (n + 1) (mem s) (src + i)) as (E2 & L2 & K2); [by apply mapped_app|].
    destruct (Hs2 (src + i + Z.of_nat n) ltac:(lia)) as [b Eb].
    assert (take_at (mem s) (src + i) (n + 1) = take_at (mem s) (src + i) n ++ [b]) as Et.
    { apply list_eq. intros k. destruct (decide (k < n)%nat).
      - rewrite lookup_app_l by lia. by rewrite K1, K2 by lia.
      - destruct (decide (k = n)) as [->|]; [|rewrite !lookup_ge_None_2; [done|rewrite length_app; cbn; lia|lia]].
        rewrite K2, lookup_app_r, L1, Nat.sub_diag by lia. done. }
    rewrite Et, put_app by (rewrite L1; cbn; by apply mapped_app). fold m1. unfold zlen. rewrite L1.
    assert (m1 !! (src + (i + Z.of_nat n)) = Some b) as El.
    { unfold m1. rewrite put_lookup by (by rewrite L1). unfold zlen. rewrite L1.
      destruct (_ && _) eqn:Ec; [lia|]. rewrite <- Eb. f_equal. lia. }
    erewrite (run_bind _ _ (set_mem m1 s) tt);
      [|rewrite (run_bind _ _ _ _ _ (load_run _ _ (set_mem m1 s) El)); apply store_run; cbn;
        apply (put_mapped _ _ _ _ _ Hd2); lia].
    cbn [mem set_mem].
    assert (is_byte b) as Hbb by by eapply Hb. unfold is_byte in Hbb.
    rewrite u_small by (pow2; lia). rewrite put_cons by (apply (put_mapped _ _ _ _ _ Hd2); lia).
    replace (d + (i + Z.of_nat n)) with (d + i + Z.of_nat n) by lia. done.
Qed.

Lemma copy_word_run a b s : byte_mem (mem s) -> mapped (mem s) a 8 -> mapped (mem s) b 8 ->
  bind (load_word a) (store_word b) s = (Ret tt, set_mem (put (mem s) b (take_at (mem s) a 8)) s).
Proof.
  intros Hb Ha Hd. rewrite (run_bind _ _ _ _ _ (load_word_run a s Ha)), store_word_run by done.
  destruct (take_at_spec 8 _ _ Ha) as (_ & Hl & _).
  pose proof (le_split_combine _ (take_at_bytes _ _ 8 Hb Ha)) as E. rewrite Hl in E. by rewrite E.
Qed.

Lemma copy_words_bytes d src n : forall k s,
  (d - src) mod 8 = 0 -> byte_mem (mem s) ->
  mapped (mem s) (src + 8 * k) (8 * n) -> mapped (mem s) (d + 8 * k) (8 * n) ->
  for_loop n k (λ k, w ← load_word (src + 8 * k); store_word (d + 8 * k) w) s
  = for_loop (8 * n) (8 * k) (λ k, c ← load (src + k); store (d + k) c) s.
Proof.
  induction n as [|n IH]; intros k s Ha Hb Hs Hd; [done|].
  replace (8 * S n)%nat with (8 + 8 * n)%nat in * by lia.
  apply mapped_app in Hs as [Hs1 Hs2]. apply mapped_app in Hd as [Hd1 Hd2].
  cbn [for_loop]. rewrite for_loop_app.
  rewrite (run_bind _ _ _ _ _ (copy_word_run _ _ _ Hb Hs1 Hd1)).
  rewrite (run_bind _ _ _ _ _ (copy_bytes_run 8 d src (8 * k) s Hb Hs1 Hd1 ltac:(zdm))).
  destruct (take_at_spec 8 _ _ Hs1) as (_ & Hl & _).
  rewrite IH; [f_equal; lia|done|..]; cbn [mem set_mem].
  - apply put_byte_mem; [done|by apply take_at_bytes|by rewrite Hl].
  - apply put_mapped. by replace (src + 8 * (k + 1)) with (src + 8 * k + Z.of_nat 8) by lia.
  - apply put_mapped. by replace (d + 8 * (k + 1)) with (d + 8 * k + Z.of_nat 8) by lia.
Qed.

(** The test on the low bits of three numbers at once. *)
Lemma low_bits x : Z.land x (8 - 1) = x mod 8.
Proof. change (8 - 1) with (2 ^ 3 - 1). apply land_pow2_mask. lia. Qed.

Lemma lor_aligned x y : Z.lor x y mod 8 = 0 <-> x mod 8 = 0 /\ y mod 8 = 0.
Proof.
  rewrite <- !low_bits, Z.land_lor_distr_l. apply Z.lor_eq_0_iff.
Qed.

(** C21: [memcpy] is the byte loop: whatever the alignment and the overlap of the two
    areas, copying words gives the memory that copying bytes gives.  When the
    destination does not begin inside the source the result is a copy of it, and
    nothing else changes. *)
Theorem memcpy_spec dest src n s :
  byte_mem (mem s) -> mapped (mem s) src n -> mapped (mem s) dest n ->
  memcpy dest src (Z.of_nat n) s = (copy_bytes dest src n;; mret dest) s /\
  (~ (src < dest < src + Z.of_nat n) -> exists s', memcpy dest src (Z.of_nat n) s = (Ret dest, s') /\
     load_bytes n dest (mem s') = load_bytes n src (mem s) /\
     (forall k, ~ (dest <= k < dest + Z.of_nat n) -> mem s' !! k = mem s !! k)).
Proof.
  intros Hb Hs Hd.
  assert (memcpy dest src (Z.of_nat n) s = (copy_bytes dest src n;; mret dest) s) as Eq.
  { unfold memcpy. rewrite Nat2Z.id, low_bits.
    destruct (Z.eqb_spec (Z.lor (Z.lor dest src) (Z.of_nat n) mod 8) 0) as [Ha|_]; [|done].
    rewrite !lor_aligned in Ha. destruct Ha as [[Ha1 Ha2] Ha3].
    unfold copy_words, copy_bytes. unfold bind at 1 3.
    replace n with (8 * Z.to_nat (Z.of_nat n / 8))%nat at 2 by zdm.
    rewrite (copy_words_bytes dest src _ 0); [done|zdm|done|..]; rewrite Z.mul_0_r, Z.add_0_r;
      by replace (8 * Z.to_nat (Z.of_nat n / 8))%nat with n by zdm. }
  split; [done|]. intros Ho. rewrite Eq.
  exists (set_mem (put (mem s) dest (take_at (mem s) src n)) s).
  destruct (take_at_spec n _ _ Hs) as (E1 & Hl & _).
  pose proof (copy_bytes_run n dest src 0 s Hb) as Er. rewrite !Z.add_0_r in Er.
  unfold copy_bytes. rewrite (run_bind _ _ _ _ _ (Er Hs Hd Ho)). split; [done|]. cbn [mem set_mem].
  destruct (copy_to_user_ok (take_at (mem s) src n) (mem s) dest) as (m' & Ec & Hload & Hf); [by rewrite Hl|].
  unfold put. rewrite Ec, E1. cbn [snd]. rewrite Hl in Hload, Hf. done.
Qed.

(** ** [memset] *)

Lemma splat_bytes b : le_split 8 (splat b) = repeat (u8 b) 8.
Proof.
  assert (splat b = splat (u8 b)) as ->.
  { unfold splat. change 0xFF with (2 ^ 8 - 1). rewrite !land_pow2_mask by lia.
    change (u8 b) with (b mod 2 ^ 8). by rewrite Z.mod_mod by lia. }
  assert (u8 b ∈ seqZ 0 256) as Hin by (apply elem_of_seqZ; pose proof (u_range 8 b ltac:(lia)); pow2; lia).
  assert (Forall (λ c, le_split 8 (splat c) = repeat c 8) (seqZ 0 256)) as HF
    by (apply (bool_decide_eq_true_1 _); vm_compute; reflexivity).
  rewrite list.Forall_forall in HF. by apply HF.
Qed.

Lemma set_bytes_run n : forall d b i s, mapped (mem s) (d + i) n ->
  for_loop n i (λ k, store (d + k) b) s = (Ret tt, set_mem (put (mem s) (d + i) (repeat (u8 b) n)) s).
Proof.
  induction n as [|n IH]; intros d b i s Hd; [cbn; by rewrite set_mem_id|]. cbn [for_loop repeat].
  rewrite (run_bind _ _ _ _ _ (store_run (d + i) b s (Hd (d + i) ltac:(lia)))). rewrite IH.
  - cbn [mem set_mem]. rewrite put_cons by (apply Hd; lia). by rewrite Z.add_assoc.
  - cbn [mem set_mem]. apply mapped_insert; [apply Hd; lia|]. intros k Hk. apply Hd. lia.
Qed.

Lemma set_words_run n : forall d b k s, mapped (mem s) (d + 8 * k) (8 * n) ->
  for_loop n k (λ k, store_word (d + 8 * k) (splat b)) s
  = (Ret tt, set_mem (put (mem s) (d + 8 * k) (repeat (u8 b) (8 * n))) s).
Proof.
  induction n as [|n IH]; intros d b k s Hd; [cbn; by rewrite set_mem_id|]. cbn [for_loop].
  replace (8 * S n)%nat with (8 + 8 * n)%nat in * by lia. apply mapped_app in Hd as Hd'. destruct Hd' as [Hd1 Hd2].
  rewrite (run_bind _ _ _ _ _ (store_word_run _ _ s Hd1)), splat_bytes. rewrite IH.
  - cbn [mem set_mem]. rewrite repeat_app, put_app by (by rewrite !repeat_length).
    unfold zlen. rewrite repeat_length. by replace (d + 8 * (k + 1)) with (d + 8 * k + Z.of_nat 8) by lia.
  - cbn [mem set_mem]. apply put_mapped. by replace (d + 8 * (k + 1)) with (d + 8 * k + Z.of_nat 8) by lia.
Qed.

(** [memset] fills the area with the low byte of its argument, by words or by
    bytes, and changes nothing else. *)
Theorem memset_spec dest byte n s :
  mapped (mem s) dest n ->
  exists s', memset dest byte (Z.of_nat n) s = (Ret dest, s') /\
    load_bytes n dest (mem s') = Some (repeat (u8 byte) n) /\
    (forall k, ~ (dest <= k < dest + Z.of_nat n) -> mem s' !! k = mem s !! k).
Proof.
  intros Hd. exists (set_mem (put (mem s) dest (repeat (u8 byte) n)) s).
  destruct (copy_to_user_ok (repeat (u8 byte) n) (mem s) dest) as (m' & Ec & Hload & Hf);
    [by rewrite repeat_length|]. rewrite repeat_length in Hload, Hf.
  split; [|unfold put; rewrite Ec; done]. unfold memset. rewrite Nat2Z.id, low_bits.
  destruct (Z.eqb_spec (Z.lor dest (Z.of_nat n) mod 8) 0) as [Ha|_].
  - rewrite lor_aligned in Ha.
    pose proof (set_words_run (Z.to_nat (Z.of_nat n / 8)) dest byte 0 s) as Er.
    rewrite Z.mul_0_r, Z.add_0_r in Er. replace (8 * Z.to_nat (Z.of_nat n / 8))%nat with n in Er by zdm.
    by rewrite (run_bind _ _ _ _ _ (Er Hd)).
  - pose proof (set_bytes_run n dest byte 0 s) as Er. rewrite Z.add_0_r in Er.
    by rewrite (run_bind _ _ _ _ _ (Er Hd)).
Qed.

(** ** Strings *)

(** The string [l] and its terminator are at [a]. *)
Definition string_at (m : gmap Z Z) (a : Z) (l : list Z) : Prop :=
  load_bytes (S (length l)) a m = Some (l ++ [0]) /\ Forall (λ c, c <> 0) l.

Lemma load_bytes_lookup n : forall a m l k, load_bytes n a m = Some l -> (k < n)%nat ->
  m !! (a + Z.of_nat k) = l !! k.
Proof.
  induction n as [|n IH]; intros a m l k E Hk; [lia|]. cbn in E.
  destruct (m !! a) as [b|] eqn:Eb; [|done]. cbn in E.
  destruct (load_bytes n (a + 1) m) as [l'|] eqn:E'; [|done]. cbn in E. injection E as <-.
  destruct k as [|k]; [by rewrite Z.add_0_r|]. change ((b :: l') !! S k) with (l' !! k).
  rewrite <- (IH _ _ _ k E') by lia. f_equal. lia.
Qed.

Lemma string_at_char m a l k c : string_at m a l -> l !! k = Some c -> m !! (a + Z.of_nat k) = Some c /\ c <> 0.
Proof.
  intros [E HF] Hk. apply lookup_lt_Some in Hk as Hlt.
  rewrite (load_bytes_lookup _ _ _ _ k E) by lia. rewrite lookup_app_l by done. split; [done|].
  rewrite list.Forall_lookup in HF. by eapply HF.
Qed.

Lemma string_at_end m a l : string_at m a l -> m !! (a + zlen l) = Some 0.
Proof.
  intros [E _]. unfold zlen. rewrite (load_bytes_lookup _ _ _ _ (length l) E) by lia.
  by rewrite lookup_app_r, Nat.sub_diag by done.
Qed.

Lemma string_at_cons m a c l : string_at m a (c :: l) <-> m !! a = Some c /\ c <> 0 /\ string_at m (a + 1) l.
Proof.
  unfold string_at. cbn [length app].
  change (load_bytes (S (S (length l))) a m)
    with (b ← m !! a; l' ← load_bytes (S (length l)) (a + 1) m; Some (b :: l'))%stdpp.
  rewrite list.Forall_cons. destruct (m !! a) as [b|]; [cbn [mbind option_bind]|cbn; naive_solver].
  destruct (load_bytes (S (length l)) (a + 1) m) as [l'|]; cbn [mbind option_bind]; [|naive_solver].
  split; [intros [[= -> ->] [? ?]]; done|intros ([= ->] & ? & [= ->] & ?); done].
Qed.

Lemma string_at_nil m a : string_at m a [] <-> m !! a = Some 0.
Proof.
  unfold string_at. cbn. destruct (m !! a) as [b|]; cbn; [|naive_solver].
  split; [by intros [[= ->] _]|by intros [= ->]].
Qed.

(** As many bytes as are mapped in a row are in the memory. *)
Lemma mapped_size m a n : mapped m a n -> (n <= size m)%nat.
Proof.
  intros Hm. set (X := list_to_set (map (λ k, a + Z.of_nat k) (seq 0 n)) : gset Z).
  assert (size X = n) as HX.
  { unfold X. rewrite size_list_to_set, map_length, length_seq; [done|].
    apply NoDup_fmap_2; [intros x y; lia|apply NoDup_seq]. }
  rewrite <- HX, <- size_dom. apply subseteq_size. intros k Hk. unfold X in Hk.
  apply elem_of_list_to_set, list_elem_of_fmap in Hk as (j & -> & Hj). apply elem_of_seq in Hj.
  apply elem_of_dom. apply Hm. lia.
Qed.

Lemma mapped_snoc m a n : mapped m a n -> is_Some (m !! (a + Z.of_nat n)) -> mapped m a (S n).
Proof.
  intros Hm Hn k Hk. destruct (decide (k = a + Z.of_nat n)) as [->|]; [done|]. apply Hm. lia.
Qed.

(** From [p], [n] bytes behind the start, the loop finds the rest of the string. *)
Lemma strlen_loop_spec f : forall a n s,
  mapped (mem s) a n -> (f + n = bytes s)%nat ->
  (exists l, string_at (mem s) (a + Z.of_nat n) l /\
     strlen_loop f a (a + Z.of_nat n) s = (Ret (Z.of_nat n + zlen l), s)) \/
  (strlen_loop f a (a + Z.of_nat n) s = (Fault OutOfBounds, s) /\
   forall l, ~ string_at (mem s) (a + Z.of_nat n) l).
Proof.
  induction f as [|f IH]; intros a n s Hm Hf.
  - apply mapped_size in Hm. unfold bytes in Hf. lia.
  - cbn [strlen_loop]. destruct (mem s !! (a + Z.of_nat n)) as [c|] eqn:Ec.
    + rewrite (run_bind _ _ _ _ _ (load_run _ _ _ Ec)). destruct (Z.eqb_spec c 0) as [->|Hc].
      * left. exists []. split; [by apply string_at_nil|]. unfold mret, prog_ret, zlen. cbn. do 2 f_equal. lia.
      * replace (a + Z.of_nat n + 1) with (a + Z.of_nat (S n)) by lia.
        destruct (IH a (S n) s) as [(l & Hl & E)|[E Hn]]; [apply mapped_snoc; [done|by eexists]|lia|..].
        -- left. exists (c :: l). split.
           ++ apply string_at_cons. split; [done|]. split; [done|].
              by replace (a + Z.of_nat n + 1) with (a + Z.of_nat (S n)) by lia.
           ++ rewrite E. do 2 f_equal. unfold zlen. cbn. lia.
        -- right. split; [done|]. intros [|c' l'] Hs; [apply string_at_nil in Hs; congruence|].
           apply string_at_cons in Hs as (_ & _ & Hs). apply (Hn l').
           by replace (a + Z.of_nat (S n)) with (a + Z.of_nat n + 1) by lia.
    + right. split; [unfold load, bind, get, deref; by rewrite Ec|]. intros [|c' l'] Hs;
        [apply string_at_nil in Hs|apply string_at_cons in Hs as (Hs & _)]; congruence.
Qed.

(** [strlen] ends on every memory: with the length of the string at [a], or with a
    fault when there is none because the memory ends first. *)
Theorem strlen_spec a s :
  (exists l, string_at (mem s) a l /\ strlen a s = (Ret (zlen l), s)) \/
  (strlen a s = (Fault OutOfBounds, s) /\ forall l, ~ string_at (mem s) a l).
Proof.
  unfold strlen. rewrite run_get. pose proof (strlen_loop_spec (bytes s) a 0 s) as Hl.
  rewrite Z.add_0_r in Hl. apply Hl; [intros k Hk; lia|lia].
Qed.

Lemma string_at_mapped m a l : string_at m a l -> mapped m a (S (length l)).
Proof.
  intros [E _] k Hk. replace k with (a + Z.of_nat (Z.to_nat (k - a))) by lia.
  rewrite (load_bytes_lookup _ _ _ _ _ E) by lia. apply lookup_lt_is_Some_2. rewrite length_app. cbn. lia.
Qed.

(** A string fits in the rounds of the loops. *)
Lemma string_at_rounds s a l : string_at (mem s) a l -> (length l < bytes s)%nat.
Proof. intros Hs%string_at_mapped%mapped_size. unfold bytes. lia. Qed.

Lemma string_at_byte s a l : byte_mem (mem s) -> string_at (mem s) a l -> Forall is_byte l.
Proof.
  intros Hb Hs. apply list.Forall_lookup. intros k c Hk. destruct (string_at_char _ _ _ _ _ Hs Hk) as [E _].
  by eapply Hb.
Qed.

Lemma strcmp_loop_spec f : forall a b l1 l2 s,
  string_at (mem s) a l1 -> string_at (mem s) b l2 -> (length l1 < f)%nat ->
  exists pre c1 r1 c2 r2, strcmp_loop f a b s = (Ret (c1 - c2), s) /\
    l1 ++ [0] = pre ++ c1 :: r1 /\ l2 ++ [0] = pre ++ c2 :: r2 /\ (c1 = c2 -> l1 = l2).
Proof.
  induction f as [|f IH]; intros a b l1 l2 s H1 H2 Hf; [lia|]. cbn [strcmp_loop].
  assert (exists c1 r1, l1 ++ [0] = c1 :: r1 /\ mem s !! a = Some c1) as (c1 & r1 & E1 & M1).
  { destruct l1; [apply string_at_nil in H1|apply string_at_cons in H1 as (H1 & _)]; cbn; eauto. }
  assert (exists c2 r2, l2 ++ [0] = c2 :: r2 /\ mem s !! b = Some c2) as (c2 & r2 & E2 & M2).
  { destruct l2; [apply string_at_nil in H2|apply string_at_cons in H2 as (H2 & _)]; cbn; eauto. }
  rewrite (run_bind _ _ _ _ _ (load_run _ _ _ M1)), (run_bind _ _ _ _ _ (load_run _ _ _ M2)).
  destruct (negb (c1 =? 0) && (c1 =? c2)) eqn:Ec.
  - destruct l1 as [|x1 l1]; cbn in E1; injection E1 as Ex1 Er1; [lia|].
    destruct l2 as [|x2 l2]; cbn in E2; injection E2 as Ex2 Er2; [lia|]. subst x1 x2 r1 r2.
    assert (c1 = c2) as <- by lia.
    apply string_at_cons in H1 as (_ & _ & H1). apply string_at_cons in H2 as (_ & _ & H2).
    destruct (IH _ _ _ _ _ H1 H2) as (pre & d1 & q1 & d2 & q2 & -> & P1 & P2 & P3); [cbn in Hf; lia|].
    exists (c1 :: pre), d1, q1, d2, q2. cbn. rewrite P1, P2. split_and!; try done. intros Hd. f_equal. by apply P3.
  - exists [], c1, r1, c2, r2. split_and!; try done. intros ->.
    assert (c2 = 0) as -> by lia.
    assert (forall x l m p r, string_at m p (x :: l) -> (x :: l) ++ [0] = 0 :: r -> False) as Hz
      by (intros x l m p r (_ & Hx & _)%string_at_cons E; by injection E).
    destruct l1, l2; try done; exfalso; eauto.
Qed.

(** [strcmp] compares two strings: the result is the difference of the first two
    characters that differ (the terminators count), and zero exactly for equal
    strings. *)
Theorem strcmp_spec a b l1 l2 s :
  string_at (mem s) a l1 -> string_at (mem s) b l2 ->
  exists v, strcmp a b s = (Ret v, s) /\ (v = 0 <-> l1 = l2) /\
    exists pre c1 r1 c2 r2, v = c1 - c2 /\ l1 ++ [0] = pre ++ c1 :: r1 /\ l2 ++ [0] = pre ++ c2 :: r2.
Proof.
  intros H1 H2. unfold strcmp. rewrite run_get.
  destruct (strcmp_loop_spec (bytes s) a b l1 l2 s H1 H2 (string_at_rounds _ _ _ H1))
    as (pre & c1 & r1 & c2 & r2 & -> & E1 & E2 & E3).
  exists (c1 - c2). split; [done|]. split; [|eauto 10]. split; [intros; apply E3; lia|].
  intros ->. rewrite E1 in E2. apply app_inv_head in E2. injection E2 as -> _. lia.
Qed.

Lemma string_at_insert m a l k v : string_at m a l -> ~ (a <= k <= a + zlen l) -> string_at (<[k := v]> m) a l.
Proof.
  unfold zlen. intros [E HF] Hk. split; [|done]. rewrite load_bytes_frame; [done|lia].
Qed.

Lemma strcpy_loop_spec f : forall d a l s,
  byte_mem (mem s) -> string_at (mem s) a l -> mapped (mem s) d (S (length l)) ->
  (d + zlen l < a \/ a + zlen l < d) -> (length l < f)%nat ->
  strcpy_loop f d a s = (Ret tt, set_mem (put (mem s) d (l ++ [0])) s).
Proof.
  unfold zlen. induction f as [|f IH]; intros d a l s Hb Hs Hd Ho Hf; [lia|]. cbn [strcpy_loop].
  assert (is_Some (mem s !! d)) as Hd0 by (apply Hd; lia).
  destruct l as [|c l].
  - apply string_at_nil in Hs. rewrite (run_bind _ _ _ _ _ (load_run _ _ _ Hs)).
    rewrite (run_bind _ _ _ _ _ (store_run _ _ _ Hd0)). cbn [app]. by rewrite put_cons by done.
  - pose proof (string_at_byte _ _ _ Hb Hs) as Hc. apply list.Forall_cons in Hc as [Hc _].
    unfold is_byte in Hc. apply string_at_cons in Hs as (Ha & Hc0 & Hs). cbn [length] in *.
    rewrite (run_bind _ _ _ _ _ (load_run _ _ _ Ha)), (run_bind _ _ _ _ _ (store_run _ _ _ Hd0)).
    rewrite (proj2 (Z.eqb_neq c 0)) by done. rewrite u_small by (pow2; lia). rewrite (IH _ _ l).
    + cbn [mem set_mem app]. by rewrite put_cons by done.
    + cbn [mem set_mem]. apply map_Forall_insert_2; [done|done].
    + cbn [mem set_mem]. apply string_at_insert; [done|]. unfold zlen. lia.
    + cbn [mem set_mem]. apply mapped_insert; [done|]. intros k Hk. apply Hd. lia.
    + lia.
    + lia.
Qed.

(** [strcpy] copies a string, with its terminator, to a place that does not
    overlap it. *)
Theorem strcpy_spec d a l s :
  byte_mem (mem s) -> string_at (mem s) a l -> mapped (mem s) d (S (length l)) ->
  (d + zlen l < a \/ a + zlen l < d) ->
  exists s', strcpy d a s = (Ret d, s') /\ string_at (mem s') d l /\
    (forall k, ~ (d <= k <= d + zlen l) -> mem s' !! k = mem s !! k).
Proof.
  intros Hb Hs Hd Ho. exists (set_mem (put (mem s) d (l ++ [0])) s).
  unfold strcpy. rewrite run_get.
  rewrite (run_bind _ _ _ _ _ (strcpy_loop_spec (bytes s) d a l s Hb Hs Hd Ho (string_at_rounds _ _ _ Hs))).
  assert (length (l ++ [0]) = S (length l)) as El by (rewrite length_app; cbn; lia).
  destruct (copy_to_user_ok (l ++ [0]) (mem s) d) as (m' & Ec & Hload & Hf); [by rewrite El|].
  rewrite El in Hload, Hf. unfold put. rewrite Ec. cbn [mem set_mem snd]. split; [done|].
  split; [split; [done|apply Hs]|]. unfold zlen. intros k Hk. apply Hf. lia.
Qed.

(** ** The console *)

(** What has been printed: the bytes of the system calls and those held back. *)
Definition printed (s : machine) : list Z := concat (console s) ++ take (Z.to_nat (buflen s)) (buf s).

Record console_ok (s : machine) : Prop := {
  co_len : length (buf s) = 64%nat;
  co_held : 0 <= buflen s < 64;
  co_calls : Forall (λ l, (0 < length l <= 64)%nat) (console s)
}.

Lemma take_insert_last {A} (l : list A) n x : (n < length l)%nat -> take (S n) (<[n := x]> l) = take n l ++ [x].
Proof.
  intros Hn. rewrite (take_S_r _ _ x) by by rewrite list_lookup_insert_eq. by rewrite take_insert_ge by lia.
Qed.

(** One character: it is printed behind the others, and fewer than 64 are held back. *)
Lemma putchar_run ch s : console_ok s ->
  exists s', putchar ch s = (Ret tt, s') /\ console_ok s' /\ printed s' = printed s ++ [u8 ch] /\ mem s' = mem s.
Proof.
  intros [Hl Hh Hc]. unfold putchar. rewrite run_get.
  rewrite (proj2 (Z.leb_le 0 (buflen s))), (proj2 (Z.ltb_lt (buflen s) 64)) by lia. cbn [andb].
  rewrite run_modify, run_get. set (s1 := set_buf _ _ s).
  assert (take (Z.to_nat (buflen s1)) (buf s1) = take (Z.to_nat (buflen s)) (buf s) ++ [u8 ch]) as Et.
  { cbn. replace (Z.to_nat (buflen s + 1)) with (S (Z.to_nat (buflen s))) by lia. apply take_insert_last. lia. }
  assert (length (buf s1) = 64%nat) as Hl1 by (cbn; by rewrite length_insert).
  destruct ((ch =? 10) || (buflen s1 =? 64)) eqn:Ef.
  - unfold sys_write. rewrite run_modify. eexists. split; [done|]. unfold printed. cbn.
    split; [split; cbn; [done|lia|]|].
    + apply list.Forall_app. split; [done|]. forall_list. cbn in Et. rewrite Et, length_app, length_take. cbn. lia.
    + cbn in Et. rewrite concat_app. cbn. rewrite Et, !app_nil_r, app_assoc. done.
  - exists s1. split; [done|]. split; [split; cbn in *; [done|lia|done]|]. split; [|done].
    unfold printed. rewrite Et. cbn. by rewrite app_assoc.
Qed.

(** ** What a format prints

    The characters alone: [vprintfmt] run on a list to which they are appended. *)

Definition log (c : Z) : prog (list Z) unit := modify (λ l, l ++ [c]).
Definition format (fmt : list Z) (ap : list arg) : outcome unit * list Z :=
  vprintfmt log (S (length fmt)) fmt ap [].

(** [putch] behaves like [log] as long as the output [fits]. *)
Section simulation.
Context {S : Type} (putch : Z -> prog S unit) (R : S -> list Z -> Prop) (fits : list Z -> Prop).
Hypothesis fits_prefix : forall l k, fits (l ++ k) -> fits l.
Hypothesis putch_ok : forall s l c, R s l -> fits (l ++ [c]) ->
  exists s', putch c s = (Ret tt, s') /\ R s' (l ++ [c]).

Definition sim {A} (m : prog S A) (n : prog (list Z) A) : Prop :=
  (forall l a l', n l = (Ret a, l') -> exists k, l' = l ++ k) /\
  (forall s l a l', R s l -> n l = (Ret a, l') -> fits l' -> exists s', m s = (Ret a, s') /\ R s' l').

Lemma sim_ret {A} (a : A) : sim (mret a) (mret a).
Proof.
  split.
  - intros l b l' [= _ <-]. exists []. by rewrite app_nil_r.
  - intros s l b l' HR [= <- <-] _. by exists s.
Qed.

Lemma sim_fail {A} f : sim (A := A) (fail f) (fail f).
Proof. by split. Qed.

Lemma sim_diverge {A} : sim (A := A) diverge diverge.
Proof. by split. Qed.

Lemma sim_putch c : sim (putch c) (log c).
Proof.
  split.
  - intros l a l' [= _ <-]. eauto.
  - intros s l a l' HR [= <- <-] Hf. by apply putch_ok.
Qed.

Lemma sim_bind {A B} m n (k : A -> prog S B) (h : A -> prog (list Z) B) :
  sim m n -> (forall a, sim (k a) (h a)) -> sim (bind m k) (bind n h).
Proof.
  intros [Hn Hm] Hk. split.
  - intros l b l' (a & l1 & E1 & E2)%bind_Ret_inv. destruct (Hn _ _ _ E1) as [k1 ->].
    destruct (proj1 (Hk a) _ _ _ E2) as [k2 ->]. exists (k1 ++ k2). by rewrite app_assoc.
  - intros s l b l' HR (a & l1 & E1 & E2)%bind_Ret_inv Hf.
    destruct (proj1 (Hk a) _ _ _ E2) as [k2 ->].
    destruct (Hm _ _ _ _ HR E1 (fits_prefix _ _ Hf)) as (s1 & Em & HR1).
    rewrite (run_bind _ _ _ _ _ Em). by eapply (proj2 (Hk a)).
Qed.

Lemma sim_deref {A} (o : option A) f : sim (deref o f) (deref o f).
Proof. destruct o; [apply sim_ret|apply sim_fail]. Qed.

Lemma sim_loop n : forall i (body : Z -> prog S unit) (body' : Z -> prog (list Z) unit),
  (forall k, sim (body k) (body' k)) -> sim (for_loop n i body) (for_loop n i body').
Proof.
  induction n as [|n IH]; intros i body body' Hb; cbn [for_loop]; [apply sim_ret|].
  apply sim_bind; [done|]. intros _. by apply IH.
Qed.

Lemma sim_pad n c : sim (pad putch n c) (pad log n c).
Proof. apply sim_loop. intros _. apply sim_putch. Qed.

Lemma sim_put_all l : sim (put_all putch l) (put_all log l).
Proof.
  induction l as [|c l IH]; [apply sim_ret|]. apply sim_bind; [apply sim_putch|]. by intros _.
Qed.

Lemma sim_printnum num base w p : sim (printnum putch num base w p) (printnum log num base w p).
Proof.
  apply sim_bind; [apply sim_deref|]. intros ds. apply sim_bind; [apply sim_pad|]. intros _. apply sim_put_all.
Qed.

Lemma sim_directive d f a : sim (directive_out putch d f a) (directive_out log d f a).
Proof.
  destruct d; cbn [directive_out]; try apply sim_putch; try apply sim_printnum; try apply sim_ret.
  - apply sim_bind; [apply sim_deref|]. intros p. unfold print_string.
    apply sim_bind; [destruct (_ && _); [apply sim_pad|apply sim_ret]|]. intros _.
    apply sim_bind; [apply sim_put_all|]. intros _. apply sim_pad.
  - destruct (_ <? 0); [|apply sim_printnum]. apply sim_bind; [apply sim_putch|]. intros _. apply sim_printnum.
  - apply sim_bind; [apply sim_putch|]. intros _. apply sim_bind; [apply sim_putch|]. intros _. apply sim_printnum.
Qed.

Lemma sim_vprintfmt n : forall fmt ap, sim (vprintfmt putch n fmt ap) (vprintfmt log n fmt ap).
Proof.
  induction n as [|n IH]; intros fmt ap; cbn [vprintfmt]; [apply sim_diverge|].
  destruct fmt as [|ch fmt']; [apply sim_ret|].
  assert (forall c f a, sim (putch c;; vprintfmt putch n f a) (log c;; vprintfmt log n f a)) as Hput
    by (intros; apply sim_bind; [apply sim_putch|intros _; apply IH]).
  destruct (negb _); [apply Hput|]. apply sim_bind; [apply sim_deref|]. intros [[[d f] rest] ap'].
  assert (sim (bind (deref (va_arg ap') Uninitialised) (λ '(a, ap''), directive_out putch d f a;; vprintfmt putch n rest ap''))
              (bind (deref (va_arg ap') Uninitialised) (λ '(a, ap''), directive_out log d f a;; vprintfmt log n rest ap'')))
    as Harg.
  { apply sim_bind; [apply sim_deref|]. intros [a ap'']. apply sim_bind; [apply sim_directive|]. intros _. apply IH. }
  destruct d; try exact Harg; apply Hput.
Qed.
End simulation.

Lemma printf_run fmt ap out s :
  console_ok s -> format fmt ap = (Ret tt, out) ->
  exists s', printf fmt ap s = (Ret 0, s') /\ console_ok s' /\ printed s' = printed s ++ map u8 out /\ mem s' = mem s.
Proof.
  intros Hok Hf.
  destruct (sim_vprintfmt putchar (λ s1 l, console_ok s1 /\ printed s1 = printed s ++ map u8 l /\ mem s1 = mem s)
    (λ _, True) ltac:(done)) with (n := S (length fmt)) (fmt := fmt) (ap := ap) as [_ Hs].
  { intros s1 l c (Hok1 & Hp & Hm) _. destruct (putchar_run c s1 Hok1) as (s2 & E & Hok2 & Hp2 & Hm2).
    exists s2. split; [done|]. split; [done|]. rewrite Hp2, Hp, Hm2, map_app, <- app_assoc. done. }
  destruct (Hs s [] tt out) as (s' & E & ? & ? & ?); [|exact Hf|done|].
  - cbn. by rewrite app_nil_r.
  - exists s'. unfold printf. by rewrite (run_bind _ _ _ _ _ E).
Qed.

Lemma sprintf_run str fmt ap out s :
  mapped (mem s) str (S (length out)) -> format fmt ap = (Ret tt, out) ->
  sprintf str fmt ap s = (Ret (zlen out), set_mem (put (mem s) str (map u8 out ++ [0])) s).
Proof.
  intros Hm Hf.
  destruct (sim_vprintfmt sprintf_putch
    (λ '(s1, p) l, s1 = set_mem (put (mem s) str (map u8 l)) s /\ p = str + zlen l)
    (λ l, (length l <= length out)%nat)) with (n := S (length fmt)) (fmt := fmt) (ap := ap) as [_ Hs].
  { intros l k. rewrite length_app. lia. }
  { intros [s1 p] l c [-> ->] Hl. rewrite length_app in Hl. cbn in Hl.
    assert (is_Some (mem (set_mem (put (mem s) str (map u8 l)) s) !! (str + zlen l))) as Hp
      by (apply (put_mapped _ _ _ _ _ Hm); unfold zlen; lia).
    exists (set_mem (put (mem s) str (map u8 (l ++ [c]))) s, str + zlen l + 1).
    unfold sprintf_putch. rewrite (store_run _ _ _ Hp). cbn [mem set_mem] in *. split.
    - do 2 f_equal. unfold set_mem. cbn. f_equal. rewrite map_app, put_app by (rewrite map_length; cbn; intros k Hk; apply Hm; lia).
      unfold zlen. rewrite map_length. cbn [map]. by rewrite put_cons by done.
    - split; [done|]. unfold zlen. rewrite length_app. cbn. lia. }
  destruct (Hs (s, str) [] tt out) as ([s1 p] & E & -> & ->); [|exact Hf|done|].
  { split; [by destruct s|unfold zlen; cbn; lia]. }
  unfold sprintf. rewrite E.
  assert (is_Some (mem (set_mem (put (mem s) str (map u8 out)) s) !! (str + zlen out))) as Hp
    by (apply (put_mapped _ _ _ _ _ Hm); unfold zlen; lia).
  rewrite (run_bind _ _ _ _ _ (store_run _ _ _ Hp)). cbn [mem set_mem] in *. unfold mret, prog_ret, set_mem. cbn.
  f_equal; [f_equal; lia|]. f_equal. rewrite put_app by (rewrite map_length; cbn; intros k Hk; apply Hm; lia).
  unfold zlen. rewrite map_length. by rewrite put_cons by done.
Qed.

(** An escape is read within the format. *)
Lemma reswitch_rest fmt : forall num f ap d f' rest ap',
  reswitch fmt num f ap = Some (d, f', rest, ap') -> (length rest <= length fmt)%nat.
Proof.
  induction fmt as [|ch fmt IH]; intros num f ap d f' rest ap' E; [cbn in E; by injection E as <- <- <- <-|].
  cbn [length]. cbn [reswitch] in E.
  assert (forall num f ap d f' rest ap', reswitch fmt num f ap = Some (d, f', rest, ap') ->
    (length rest <= S (length fmt))%nat) as IH' by (intros; etrans; [by eapply IH|lia]).
  repeat match type of E with
  | (if ?b then _ else _) = _ => destruct b
  | match ?o with Some _ => _ | None => _ end = _ => destruct o as [[]|] || destruct o
  end; try done; try (by eapply IH'); injection E as <- <- <- <-; lia.
Qed.

Lemma no_fuel_bind {S A B} (m : prog S A) (k : A -> prog S B) s :
  (m s).1 <> OutOfFuel -> (forall a s', (k a s').1 <> OutOfFuel) -> (bind m k s).1 <> OutOfFuel.
Proof. intros Hm Hk. unfold bind. by destruct (m s) as [[] s']. Qed.

Lemma no_fuel_deref {S A} (o : option A) f (s : S) : (deref o f s).1 <> OutOfFuel.
Proof. by destruct o. Qed.

Lemma no_fuel_loop {S} n : forall i (body : Z -> prog S unit),
  (forall k s, (body k s).1 <> OutOfFuel) -> forall s, (for_loop n i body s).1 <> OutOfFuel.
Proof.
  induction n as [|n IH]; intros i body Hb s; [done|]. apply no_fuel_bind; [done|]. intros _ s'. by apply IH.
Qed.

Lemma no_fuel_put_all l s : (put_all log l s).1 <> OutOfFuel.
Proof. revert s. induction l as [|c l IH]; intros s; [done|]. by apply no_fuel_bind. Qed.

Lemma no_fuel_printnum num base w p s : (printnum log num base w p s).1 <> OutOfFuel.
Proof.
  apply no_fuel_bind; [apply no_fuel_deref|]. intros ds s1. apply no_fuel_bind; [by apply no_fuel_loop|].
  intros _ s2. apply no_fuel_put_all.
Qed.

Lemma no_fuel_directive d f a s : (directive_out log d f a s).1 <> OutOfFuel.
Proof.
  destruct d; cbn [directive_out]; try done; try apply no_fuel_printnum.
  - apply no_fuel_bind; [apply no_fuel_deref|]. intros p s1. unfold print_string.
    apply no_fuel_bind; [destruct (_ && _); [by apply no_fuel_loop|done]|]. intros _ s2.
    apply no_fuel_bind; [apply no_fuel_put_all|]. intros _ s3. by apply no_fuel_loop.
  - destruct (_ <? 0); [|apply no_fuel_printnum]. apply no_fuel_bind; [done|]. intros. apply no_fuel_printnum.
Qed.

(** As many rounds as the format has characters, and one, are enough. *)
Lemma vprintfmt_rounds n : forall fmt ap s, (length fmt < n)%nat -> (vprintfmt log n fmt ap s).1 <> OutOfFuel.
Proof.
  induction n as [|n IH]; intros fmt ap s Hn; [lia|]. cbn [vprintfmt].
  destruct fmt as [|ch fmt']; [done|]. cbn [length] in Hn.
  assert (forall c ap s, ((log c;; vprintfmt log n fmt' ap) s).1 <> OutOfFuel) as Hput
    by (intros; apply no_fuel_bind; [done|intros; apply IH; lia]).
  destruct (negb _); [apply Hput|].
  destruct (reswitch fmt' None no_flags ap) as [[[[d f] rest] ap']|] eqn:Er; [|done].
  apply reswitch_rest in Er. cbn [deref].
  rewrite (run_bind (mret (d, f, rest, ap')) _ s (d, f, rest, ap') s eq_refl).
  assert (forall s, (bind (deref (va_arg ap') Uninitialised)
      (λ '(a, ap''), directive_out log d f a;; vprintfmt log n rest ap'') s).1 <> OutOfFuel) as Harg.
  { intros s0. apply no_fuel_bind; [apply no_fuel_deref|]. intros [a ap''] s1.
    apply no_fuel_bind; [apply no_fuel_directive|]. intros _ s2. apply IH. lia. }
  destruct d; try apply Harg; [|apply Hput].
  apply no_fuel_bind; [done|]. intros _ s1. apply IH. lia.
Qed.

(** C23: Printing to the console and printing to memory are the same function.  A format
    is always worked off: it prints some characters, or an argument is missing or
    not a string.  If it prints [out], [printf] adds [out] to what the console
    shows, holding back fewer than 64 of its characters, and [sprintf] puts [out] and
    a terminator into a buffer that is long enough, and returns the length. *)
Theorem printf_sprintf_agree fmt ap s str :
  console_ok s ->
  exists o out, format fmt ap = (o, out) /\ o <> OutOfFuel /\
    (o = Ret tt ->
     (exists s', printf fmt ap s = (Ret 0, s') /\ console_ok s' /\ printed s' = printed s ++ map u8 out) /\
     (mapped (mem s) str (S (length out)) -> exists s', sprintf str fmt ap s = (Ret (zlen out), s') /\
        load_bytes (S (length out)) str (mem s') = Some (map u8 out ++ [0]) /\
        forall k, ~ (str <= k <= str + zlen out) -> mem s' !! k = mem s !! k)).
Proof.
  intros Hok. destruct (format fmt ap) as [o out] eqn:Ef. exists o, out. split; [done|]. split.
  - pose proof (vprintfmt_rounds (S (length fmt)) fmt ap [] ltac:(lia)) as Hr.
    unfold format in Ef. by rewrite Ef in Hr.
  - intros ->. split; [destruct (printf_run fmt ap out s Hok Ef) as (s' & ? & ? & ? & _); eauto|].
    intros Hm. eexists. split; [by apply sprintf_run|]. cbn [mem set_mem].
    assert (length (map u8 out ++ [0]) = S (length out)) as El by (rewrite length_app, map_length; cbn; lia).
    destruct (copy_to_user_ok (map u8 out ++ [0]) (mem s) str) as (m' & Ec & Hload & Hfr); [by rewrite El|].
    rewrite El in Hload, Hfr. unfold put. rewrite Ec. split; [done|]. intros k Hk. apply Hfr. unfold zlen in Hk. lia.
Qed.

(** ** Numbers *)

(** The value of digits, the last one first. *)
Definition digits_value (base : Z) (l : list Z) : Z := foldr (λ d a, d + base * a) 0 l.

Lemma digs_spec base n : 2 <= base -> forall num, 0 <= num < base ^ Z.of_nat n -> (0 < n)%nat ->
  exists l, digs n num base = Some l /\ Forall (λ d, 0 <= d < base) l /\ digits_value base l = num /\
    (0 < length l <= n)%nat.
Proof.
  intros Hb. induction n as [|n IH]; intros num Hn H0; [lia|]. cbn [digs].
  destruct (Z.ltb_spec num base) as [Hs|Hs].
  - exists [num mod base]. rewrite Z.mod_small by lia. split_and!; cbn; try done; try lia.
    forall_list. lia.
  - rewrite Nat2Z.inj_succ, Z.pow_succ_r in Hn by lia.
    destruct n as [|n]; [cbn in Hn; nia|].
    destruct (IH (num / base)) as (l & El & HF & Hv & Hl).
    { split; [apply Z.div_pos; lia|apply Z.div_lt_upper_bound; lia]. }
    { lia. }
    rewrite El. cbn [mbind option_bind]. exists (num mod base :: l).
    pose proof (Z.mod_pos_bound num base ltac:(lia)).
    split_and!; [done|by constructor| |cbn; lia|cbn; lia].
    unfold digits_value in *. cbn [foldr]. rewrite Hv. pose proof (Z.div_mod num base). lia.
Qed.

(** 64 places are enough for every 64-bit number. *)
Lemma digs_64 base num : 2 <= base -> 0 <= num < 2 ^ 64 ->
  exists l, digs 64 num base = Some l /\ Forall (λ d, 0 <= d < base) l /\ digits_value base l = num /\
    (0 < length l)%nat.
Proof.
  intros Hb Hn. destruct (digs_spec base 64 Hb num) as (l & ? & ? & ? & ? & ?); [|lia|eauto 10].
  assert (2 ^ 64 <= base ^ 64) by (apply Z.pow_le_mono_l; lia). cbn [Z.of_nat]. lia.
Qed.

Lemma foldl_digits base l : foldl (λ a d, base * a + d) 0 (rev l) = digits_value base l.
Proof.
  unfold digits_value. induction l as [|d l IH]; [done|]. cbn [rev foldr]. rewrite foldl_snoc, IH. lia.
Qed.

(** [i64] is a homomorphism. *)
Lemma i64_add x y : i64 (i64 x + y) = i64 (x + y).
Proof. unfold Word.i. zdm. Qed.

Lemma i64_step acc d : i64 (i64 (i64 acc * 10) + d) = i64 (10 * acc + d).
Proof. unfold Word.i. zdm. Qed.

Lemma load_string_head m a l : string_at m a l -> exists c, m !! a = Some c /\ c = hd 0 l.
Proof. destruct l; [intros ?%string_at_nil|intros (? & _)%string_at_cons]; eauto. Qed.

Lemma atol_loop_spec f : forall a l acc s, string_at (mem s) a l -> (length l < f)%nat ->
  atol_loop f a (i64 acc) s = (Ret (i64 (foldl (λ a c, 10 * a + (c - 48)) acc l)), s).
Proof.
  induction f as [|f IH]; intros a l acc s Hs Hf; [lia|]. cbn [atol_loop]. destruct l as [|c l].
  - apply string_at_nil in Hs. by rewrite (run_bind _ _ _ _ _ (load_run _ _ _ Hs)).
  - apply string_at_cons in Hs as (Ha & Hc & Hs). rewrite (run_bind _ _ _ _ _ (load_run _ _ _ Ha)).
    rewrite (proj2 (Z.eqb_neq c 0)) by done. rewrite i64_step. cbn [length] in Hf. cbn [foldl].
    apply IH; [done|lia].
Qed.

(** [atol] on a sign and decimal digits. *)
Lemma atol_spec a (neg : bool) l s :
  string_at (mem s) a ((if neg then [45] else []) ++ map (λ d, 48 + d) l) -> Forall (λ d, 0 <= d < 10) l ->
  l <> [] -> 0 <= foldl (λ a d, 10 * a + d) 0 l < 2 ^ 63 ->
  atol a s = (Ret (if neg then - foldl (λ a d, 10 * a + d) 0 l else foldl (λ a d, 10 * a + d) 0 l), s).
Proof.
  intros Hs HF Hne Hv. unfold atol. rewrite run_get.
  pose proof (string_at_rounds _ _ _ Hs) as Hr.
  destruct (load_string_head _ _ _ Hs) as (c & Hc & Ec).
  assert (c <> 32 /\ (c = 45 <-> neg = true) /\ c <> 43) as (Hc1 & Hc2 & Hc3).
  { destruct neg; cbn in Ec; [by subst c|]. destruct l as [|d l]; [done|].
    apply list.Forall_cons in HF as [Hd _]. cbn in Ec. split_and!; lia || (split; lia || done). }
  assert (skip_blanks (bytes s) a s = (Ret a, s)) as Esk.
  { destruct (bytes s); [lia|]. cbn [skip_blanks]. rewrite (run_bind _ _ _ _ _ (load_run _ _ _ Hc)).
    by rewrite (proj2 (Z.eqb_neq c 32)). }
  rewrite (run_bind _ _ _ _ _ Esk), (run_bind _ _ _ _ _ (load_run _ _ _ Hc)).
  assert (foldl (λ a c, 10 * a + (c - 48)) 0 (map (λ d, 48 + d) l) = foldl (λ a d, 10 * a + d) 0 l) as Efold.
  { generalize 0 as acc. clear. induction l as [|d l IH]; intros acc; [done|]. cbn [map foldl].
    rewrite IH. f_equal. lia. }
  change 0 with (i64 0) at 3.
  assert (exists l0, string_at (mem s) (if (c =? 45) || (c =? 43) then a + 1 else a) l0 /\ l0 = map (λ d, 48 + d) l)
    as (l0 & Hs0 & ->).
  { rewrite (proj2 (Z.eqb_neq c 43)) by done. rewrite orb_false_r. destruct neg.
    - rewrite (proj2 (Z.eqb_eq c 45)) by tauto. cbn [app] in Hs. apply string_at_cons in Hs as (_ & _ & Hs). eauto.
    - rewrite (proj2 (Z.eqb_neq c 45)) by (intros E; apply Hc2 in E; done). eauto. }
  rewrite (run_bind _ _ _ _ _ (atol_loop_spec (bytes s) _ _ 0 s Hs0 ltac:(rewrite length_app in Hr; lia))).
  rewrite Efold. set (v := foldl _ 0 l) in *. unfold mret, prog_ret.
  rewrite (i_small 64 v) by (change (2 ^ (64 - 1)) with (2 ^ 63); lia).
  destruct neg.
  - rewrite (proj2 (Z.eqb_eq c 45)) by tauto. rewrite i_small; [done|lia|change (2 ^ (64 - 1)) with (2 ^ 63); lia].
  - rewrite (proj2 (Z.eqb_neq c 45)); [done|]. intros E. apply Hc2 in E. done.
Qed.

Lemma digs_more base n : forall num l k, digs n num base = Some l -> digs (n + k) num base = Some l.
Proof.
  induction n as [|n IH]; intros num l k; [done|]. cbn [digs Nat.add]. destruct (num <? base); [done|].
  destruct (digs n (num / base) base) as [l'|] eqn:E; [|done]. by rewrite (IH _ _ k E).
Qed.

(** The decimal digits of a number of at most [n] places. *)
Lemma decimal_digits n num : (0 < n <= 64)%nat -> 0 <= num < 10 ^ Z.of_nat n ->
  exists l, digs 64 num 10 = Some l /\ Forall (λ d, 0 <= d < 10) l /\ digits_value 10 l = num /\
    (0 < length l <= n)%nat.
Proof.
  intros Hn Hv. destruct (digs_spec 10 n ltac:(lia) num Hv ltac:(lia)) as (l & El & ? & ? & ?).
  exists l. split; [|done]. replace 64%nat with (n + (64 - n))%nat by lia. by apply digs_more.
Qed.

Lemma log_put_all l : forall out, put_all log l out = (Ret tt, out ++ l).
Proof.
  induction l as [|c l IH]; intros out; cbn [put_all]; [by rewrite app_nil_r|].
  unfold log. rewrite run_modify. fold log. rewrite IH, <- app_assoc. done.
Qed.

Lemma hexchar_decimal l : Forall (λ d, 0 <= d < 10) l -> map hexchar l = map (λ d, 48 + d) l.
Proof.
  induction 1 as [|d l Hd HF IH]; [done|]. cbn [map]. rewrite IH. unfold hexchar.
  rewrite (proj2 (Z.ltb_lt d 10)) by lia. f_equal. lia.
Qed.

(** A number without width: its digits. *)
Lemma log_printnum num l out padc w : digs 64 num 10 = Some l -> Forall (λ d, 0 <= d < 10) l -> w <= 0 ->
  printnum log num 10 w padc out = (Ret tt, out ++ map (λ d, 48 + d) (rev l)).
Proof.
  intros El HF Hw. unfold printnum. rewrite El. cbn [deref]. rewrite (run_bind (mret l) _ out l out eq_refl).
  unfold pad. replace (Z.to_nat (w - zlen l)) with 0%nat by (unfold zlen; lia). cbn [for_loop].
  rewrite (run_bind (mret tt) _ out tt out eq_refl), log_put_all, hexchar_decimal; [done|].
  by apply Forall_rev.
Qed.

(** The text of a signed number, and what [%d] and [%ld] print. *)
Definition decimal_text (v : Z) (l : list Z) : list Z :=
  (if v <? 0 then [45] else []) ++ map (λ d, 48 + d) (rev l).

Lemma log_signed f a v l out : getint (lflag f) a = v -> -2 ^ 63 <= v < 2 ^ 63 -> width f <= 0 ->
  digs 64 (Z.abs v) 10 = Some l -> Forall (λ d, 0 <= d < 10) l ->
  directive_out log DSigned f a out = (Ret tt, out ++ decimal_text v l).
Proof.
  intros Ev Hv Hw El HF. cbn [directive_out]. rewrite Ev. unfold decimal_text.
  destruct (Z.ltb_spec v 0) as [Hneg|Hpos].
  - unfold log at 1. rewrite run_modify, u_small by (pow2; lia). replace (- v) with (Z.abs v) by lia.
    rewrite (log_printnum _ l) by done. by rewrite <- app_assoc.
  - replace v with (Z.abs v) at 1 by lia. by rewrite (log_printnum _ l).
Qed.

Lemma decimal_text_bytes v l : Forall (λ d, 0 <= d < 10) l ->
  map u8 (decimal_text v l) = decimal_text v l /\ Forall (λ c, c <> 0) (decimal_text v l).
Proof.
  intros HF. assert (Forall (λ c, 0 < c < 256) (decimal_text v l)) as Hc.
  { unfold decimal_text. apply list.Forall_app. split; [destruct (_ <? 0); forall_list; lia|].
    apply Forall_fmap, Forall_rev. eapply Forall_impl; [|exact HF]. cbn. lia. }
  split; [|eapply Forall_impl; [|exact Hc]; cbn; lia].
  induction Hc as [|c k Hc _ IH]; [done|]. cbn [map]. rewrite IH. f_equal. apply u_small. pow2. lia.
Qed.

(** C22: Printing a number and reading it back: [sprintf(str, "%ld", v)] writes at most
    20 characters and a terminator, from which [atol] returns [v]. *)
Theorem sprintf_atol_roundtrip v str s :
  - 2 ^ 63 < v < 2 ^ 63 -> mapped (mem s) str 21 ->
  exists n s', sprintf str (chars "%ld") [mk_arg (u64 v) None] s = (Ret n, s') /\ n <= 20 /\
    atol str s' = (Ret v, s').
Proof.
  intros Hv Hm. destruct (decimal_digits 19 (Z.abs v)) as (l & El & HF & Hval & Hl);
    [lia|change (10 ^ Z.of_nat 19) with 10000000000000000000; lia|].
  assert (format (chars "%ld") [mk_arg (u64 v) None] = (Ret tt, decimal_text v l)) as Ef.
  { assert (getint 1 (mk_arg (u64 v) None) = v) as Eg.
    { unfold getint. cbn [Z.eqb word]. unfold Word.i, Word.u. change (2 ^ (64 - 1)) with (2 ^ 63). zdm. }
    assert (format (chars "%ld") [mk_arg (u64 v) None]
      = (directive_out log DSigned (mk_flags 32 (-1) (-1) 1 false) (mk_arg (u64 v) None);;
         vprintfmt log 3 [] []) []) as -> by reflexivity.
    rewrite (run_bind _ _ _ _ _ (log_signed (mk_flags 32 (-1) (-1) 1 false) _ v l [] Eg ltac:(lia) ltac:(done) El HF)).
    done. }
  destruct (decimal_text_bytes v l HF) as [Eu Hnz].
  assert (length (decimal_text v l) <= 20)%nat as Hlen.
  { unfold decimal_text. rewrite length_app, map_length, length_rev. destruct (v <? 0); cbn; lia. }
  assert (mapped (mem s) str (S (length (decimal_text v l)))) as Hm' by (eapply mapped_le; [|exact Hm]; lia).
  eexists _, _. split; [by apply sprintf_run|]. split; [unfold zlen; lia|]. rewrite Eu.
  set (s' := set_mem _ s).
  assert (string_at (mem s') str (decimal_text v l)) as Hs.
  { split; [|done]. unfold s'. cbn [mem set_mem]. unfold put.
    assert (length (decimal_text v l ++ [0]) = S (length (decimal_text v l))) as Ell by (rewrite length_app; cbn; lia).
    destruct (copy_to_user_ok (decimal_text v l ++ [0]) (mem s) str) as (m' & Ec & Hload & _); [by rewrite Ell|].
    rewrite Ec, <- Ell. exact Hload. }
  unfold decimal_text in Hs.
  rewrite (atol_spec str (v <? 0) (rev l) s'); [|exact Hs|by apply Forall_rev| |].
  - rewrite foldl_digits, Hval. destruct (Z.ltb_spec v 0); do 2 f_equal; lia.
  - intros E. apply (f_equal length) in E. rewrite length_rev in E. cbn in E. lia.
  - rewrite foldl_digits, Hval. lia.
Qed.

(** ** The report of the counters *)

Lemma log_char n ch fmt ap out : ch <> 37 ->
  vprintfmt log (S n) (ch :: fmt) ap out = vprintfmt log n fmt ap (out ++ [ch]).
Proof. intros Hc. cbn [vprintfmt]. by rewrite (proj2 (Z.eqb_neq ch 37)). Qed.

Lemma log_string a p f out : getstr a = Some p -> width f = -1 -> precision f = -1 ->
  directive_out log DString f a out = (Ret tt, out ++ p).
Proof.
  intros Ep Hw Hp. cbn [directive_out]. rewrite Ep. cbn [deref]. rewrite (run_bind (mret p) _ out p out eq_refl).
  unfold print_string. rewrite Hw, Hp. change (0 <? -1) with false. change (-1 <? 0) with true. cbn [andb].
  rewrite (run_bind (mret tt) _ out tt out eq_refl), (run_bind _ _ _ _ _ (log_put_all p out)).
  unfold pad. by replace (Z.to_nat (-1 - zlen p)) with 0%nat by (unfold zlen; lia).
Qed.

Definition stat_name (n : list Z) : list Z := if bool_decide (n = []) then chars "(null)" else n.

(** A line of the report: the name, three characters, at most 20 digits, a newline. *)
Lemma stat_line fmt n c : fmt = stat_fmt \/ fmt = stat_fmt_rocc -> 0 <= c < 2 ^ 64 ->
  exists out, format fmt [mk_arg (if bool_decide (n = []) then 0 else 1) (Some n); mk_arg c None] = (Ret tt, out) /\
    (length out <= length (stat_name n) + 24)%nat.
Proof.
  intros Hfmt Hc. set (a := mk_arg _ (Some n)). set (b := mk_arg c None).
  assert (getstr a = Some (stat_name n)) as Ea by (unfold getstr, stat_name, a; by case_bool_decide).
  assert (exists d, (forall out, (if bool_decide (fmt = stat_fmt) then
        directive_out log DSigned (mk_flags 32 (-1) (-1) 0 false) b out
      else directive_out log (DUnsigned 10) (mk_flags 32 (-1) (-1) 1 false) b out)
      = (Ret tt, out ++ d)) /\ (length d <= 20)%nat) as (d & Hd & Hl).
  { destruct Hfmt as [-> | ->].
    - rewrite bool_decide_true by done. pose proof (i32_range c) as Hi.
      destruct (decimal_digits 19 (Z.abs (i32 c))) as (l & El & HF & _ & Hlen);
        [lia|change (10 ^ Z.of_nat 19) with 10000000000000000000; lia|].
      exists (decimal_text (i32 c) l). split.
      + intros out. apply log_signed; [done|lia|done|done|done].
      + unfold decimal_text. rewrite length_app, map_length, length_rev. destruct (_ <? 0); cbn; lia.
    - rewrite bool_decide_false by done.
      destruct (decimal_digits 20 c) as (l & El & HF & _ & Hlen);
        [lia|change (10 ^ Z.of_nat 20) with 100000000000000000000; lia|].
      exists (map (λ d, 48 + d) (rev l)). split; [|rewrite map_length, length_rev; lia].
      intros out. cbn [directive_out lflag width padc]. unfold getuint, b. cbn [Z.eqb word].
      rewrite u_small by done. by apply log_printnum. }
  exists (stat_name n ++ [32; 61; 32] ++ d ++ [10]). split; [|rewrite !length_app; cbn; lia].
  assert (exists k, format fmt [a; b] = (directive_out log DString no_flags a;;
      vprintfmt log (S (S (S (S (S (S k)))))) ([32; 61; 32] ++ (if bool_decide (fmt = stat_fmt) then chars "%d" else chars "%lu") ++ [10]) [b]) []
      ) as (k & ->) by (destruct Hfmt as [-> | ->]; [exists 2%nat|exists 3%nat]; reflexivity).
  rewrite (run_bind _ _ _ _ _ (log_string a _ no_flags [] Ea eq_refl eq_refl)). cbn [app].
  rewrite !log_char by done. rewrite <- !app_assoc. cbn [app].
  specialize (Hd (stat_name n ++ [32; 61; 32])).
  assert (vprintfmt log (S (S (S k))) ((if bool_decide (fmt = stat_fmt) then chars "%d" else chars "%lu") ++ [10]) [b]
      (stat_name n ++ [32; 61; 32])
    = ((if bool_decide (fmt = stat_fmt) then directive_out log DSigned (mk_flags 32 (-1) (-1) 0 false) b
        else directive_out log (DUnsigned 10) (mk_flags 32 (-1) (-1) 1 false) b);;
       vprintfmt log (S (S k)) [10] []) (stat_name n ++ [32; 61; 32])) as ->
    by (case_bool_decide; reflexivity).
  rewrite (run_bind _ _ _ tt ((stat_name n ++ [32; 61; 32]) ++ d)) by (rewrite <- Hd; by case_bool_decide).
  rewrite log_char by done. cbn [vprintfmt]. by rewrite <- !app_assoc.
Qed.

(** One counter: a line of at most its name and 24 characters, if it is not zero. *)
Lemma report_step fmt n i p s c nm :
  fmt = stat_fmt \/ fmt = stat_fmt_rocc -> counters s !! i = Some c -> counter_names s !! i = Some nm ->
  0 <= c < 2 ^ 64 -> mapped (mem s) p (S (length (stat_name nm) + 24)) ->
  exists k out, report fmt (S n) i p s = report fmt n (S i) (p + k) (set_mem (put (mem s) p out) s) /\
    0 <= k <= zlen (stat_name nm) + 24 /\ (length out <= S (length (stat_name nm) + 24))%nat.
Proof.
  intros Hfmt Ec En Hc Hm. cbn [report]. rewrite run_get, Ec. cbn [deref].
  rewrite (run_bind (mret c) _ s c s eq_refl). destruct (Z.eqb_spec c 0) as [->|Hc0].
  - exists 0, []. rewrite Z.add_0_r. split; [by destruct s|]. unfold zlen. cbn. lia.
  - assert (stat_args s i = Some [mk_arg (if bool_decide (nm = []) then 0 else 1) (Some nm); mk_arg c None]) as Eap
      by (unfold stat_args; by rewrite Ec, En).
    rewrite Eap. cbn [deref]. rewrite (run_bind (mret _) _ s _ s eq_refl).
    destruct (stat_line fmt nm c Hfmt Hc) as (out & Ef & Hl).
    assert (mapped (mem s) p (S (length out))) as Hm' by (eapply mapped_le; [|exact Hm]; lia).
    rewrite (run_bind _ _ _ _ _ (sprintf_run p fmt _ out s Hm' Ef)).
    exists (zlen out), (map u8 out ++ [0]). split; [done|]. rewrite length_app, map_length. unfold zlen. cbn. lia.
Qed.

(** C38: The buffer of [_init]: with the counters that [setStats] keeps, of any value,
    the two lines and the terminator need at most 63 of the 64 bytes, for the
    format of either runtime; no byte outside the buffer is written. *)
Theorem init_report_fits fmt frame s c0 c1 n0 n1 :
  fmt = stat_fmt \/ fmt = stat_fmt_rocc ->
  counters s = [c0; c1] -> 0 <= c0 < 2 ^ 64 -> 0 <= c1 < 2 ^ 64 ->
  counter_names s = [n0; n1] -> n0 = [] \/ n0 = chars "mcycle" -> n1 = [] \/ n1 = chars "minstret" ->
  mapped (mem s) frame (NUM_COUNTERS * 32) ->
  exists pbuf s', report fmt NUM_COUNTERS 0 frame s = (Ret pbuf, s') /\ frame <= pbuf <= frame + 62 /\
    (forall k, ~ (frame <= k < frame + 64) -> mem s' !! k = mem s !! k).
Proof.
  unfold NUM_COUNTERS. intros Hfmt Ec H0 H1 En Hn0 Hn1 Hm.
  assert (length (stat_name n0) = 6 /\ length (stat_name n1) <= 8)%nat as [L0 L1].
  { destruct Hn0 as [-> | ->], Hn1 as [-> | ->]; vm_compute; lia. }
  destruct (report_step fmt 1 0 frame s c0 n0 Hfmt) as (k0 & out0 & E0 & Hk0 & Hl0);
    [by rewrite Ec|by rewrite En|done|intros k Hk; apply Hm; lia|].
  rewrite E0. set (s1 := set_mem _ s).
  assert (mapped (mem s1) frame 64) as Hm1 by by apply put_mapped. unfold zlen in *.
  destruct (report_step fmt 0 1 (frame + k0) s1 c1 n1 Hfmt) as (k1 & out1 & E1 & Hk1 & Hl1);
    [by cbn; rewrite Ec|by cbn; rewrite En|done|intros k Hk; apply Hm1; lia|].
  rewrite E1. eexists _, _. split; [done|]. unfold zlen in *. split; [lia|]. intros k Hk. cbn [mem set_mem].
  rewrite put_outside; [|intros j Hj; apply Hm1; lia|unfold zlen; lia].
  apply put_outside; [intros j Hj; apply Hm; lia|unfold zlen; lia].
Qed.

(** ** Random numbers *)

Lemma lxor_shiftr_inj x y k : 0 <= x -> 0 <= y -> 0 < k ->
  Z.lxor x (Z.shiftr x k) = Z.lxor y (Z.shiftr y k) -> x = y.
Proof.
  intros Hx Hy Hk E. set (n := Z.log2 (Z.max x y) + 1).
  assert (forall j, n <= j -> Z.testbit x j = false /\ Z.testbit y j = false) as Hhigh.
  { intros j Hj. assert (Z.log2 x <= Z.log2 (Z.max x y) /\ Z.log2 y <= Z.log2 (Z.max x y))
      by (split; apply Z.log2_le_mono; lia).
    split; apply Z.bits_above_log2; lia. }
  assert (0 <= n) by (pose proof (Z.log2_nonneg (Z.max x y)); lia).
  apply Z.bits_inj'. intros j Hj.
  assert (forall i j, j + Z.of_nat i = n -> 0 <= j -> forall q, j <= q -> Z.testbit x q = Z.testbit y q) as Hall.
  { clear j Hj. induction i as [|i IH]; intros j Hj Hj0 q Hq; [destruct (Hhigh q ltac:(lia)) as [-> ->]; done|].
    destruct (decide (q = j)) as [->|]; [|apply (IH (j + 1)); lia].
    apply (f_equal (λ z, Z.testbit z j)) in E. rewrite !Z.lxor_spec, !Z.shiftr_spec in E by lia.
    rewrite (IH (j + 1) ltac:(lia) ltac:(lia) (j + k) ltac:(lia)) in E.
    destruct (Z.testbit x j), (Z.testbit y j), (Z.testbit y (j + k)); done. }
  apply (Hall (Z.to_nat n) 0); lia.
Qed.

Lemma u64_testbit x j : 0 <= j < 64 -> Z.testbit (u64 x) j = Z.testbit x j.
Proof. intros Hj. unfold Word.u. apply Z.mod_pow2_bits_low. lia. Qed.

Lemma lxor_shiftl_inj x y k : 0 <= x < 2 ^ 64 -> 0 <= y < 2 ^ 64 -> 0 < k ->
  Z.lxor x (u64 (Z.shiftl x k)) = Z.lxor y (u64 (Z.shiftl y k)) -> x = y.
Proof.
  intros Hx Hy Hk E. apply Z.bits_inj'. intros j Hj. destruct (Z.leb_spec 64 j) as [H64|H64].
  - assert (forall z, 0 <= z < 2 ^ 64 -> Z.testbit z j = false) as Hz; [|by rewrite !Hz].
    intros z Hz. rewrite <- (Z.mod_small z (2 ^ 64)) by done. by apply Z.mod_pow2_bits_high.
  - revert j Hj H64. apply (Zlt_lower_bound_ind (λ j, j < 64 -> Z.testbit x j = Z.testbit y j) 0).
    intros j IH Hj H64. apply (f_equal (λ z, Z.testbit z j)) in E.
    rewrite !Z.lxor_spec, !u64_testbit, !Z.shiftl_spec in E by lia.
    assert (Z.testbit x (j - k) = Z.testbit y (j - k)) as Ejk.
    { destruct (Z.ltb_spec (j - k) 0); [by rewrite !Z.testbit_neg_r|apply IH; lia]. }
    rewrite Ejk in E. destruct (Z.testbit x j), (Z.testbit y j), (Z.testbit y (j - k)); done.
Qed.

Lemma lxor_range x y : 0 <= x < 2 ^ 64 -> 0 <= y < 2 ^ 64 -> 0 <= Z.lxor x y < 2 ^ 64.
Proof.
  intros Hx Hy. assert (0 <= Z.lxor x y) by (apply Z.lxor_nonneg; lia). split; [done|].
  assert (Z.lxor x y mod 2 ^ 64 = Z.lxor x y) as <-; [|apply Z.mod_pos_bound; lia].
  rewrite <- Z.land_ones by lia. apply Z.bits_inj'. intros j Hj.
  rewrite Z.land_spec, Z.ones_spec by lia.
  case_bool_decide; [by rewrite andb_true_r|]. rewrite andb_false_r, Z.lxor_spec. symmetry.
  rewrite <- (Z.mod_small x (2 ^ 64)), <- (Z.mod_small y (2 ^ 64)), !Z.mod_pow2_bits_high by lia. done.
Qed.

Lemma xorshift_range x : 0 <= x < 2 ^ 64 -> 0 <= xorshift x < 2 ^ 64.
Proof.
  intros Hx. unfold xorshift. assert (0 <= Z.shiftr x 12 < 2 ^ 64) by (rewrite Z.shiftr_div_pow2 by lia; zdm).
  repeat apply lxor_range; try done; apply u_range; lia.
Qed.

(** The generator is injective on the 64-bit states: two sequences never fall
    together.  The state 0 is a fixed point, which no other state reaches; [srandom]
    sets it for the seed 0 only. *)
Theorem random_permutes :
  (forall x y, 0 <= x < 2 ^ 64 -> 0 <= y < 2 ^ 64 -> xorshift x = xorshift y -> x = y) /\
  (forall s, 0 < random_state s < 2 ^ 64 -> exists v s', random s = (Ret v, s') /\ v = random_state s' /\ 0 < v < 2 ^ 64) /\
  (forall s, random_state s = 0 -> random s = (Ret 0, s)) /\
  (forall seed s, exists s', srandom seed s = (Ret tt, s') /\ (random_state s' = 0 <-> u32 seed = 0)).
Proof.
  assert (forall x y, 0 <= x < 2 ^ 64 -> 0 <= y < 2 ^ 64 -> xorshift x = xorshift y -> x = y) as Hinj.
  { intros x y Hx Hy E. unfold xorshift in E.
    assert (forall z, 0 <= z < 2 ^ 64 -> 0 <= Z.lxor z (Z.shiftr z 12) < 2 ^ 64) as Hr
      by (intros z Hz; apply lxor_range; [done|]; rewrite Z.shiftr_div_pow2 by lia; zdm).
    assert (forall z k, 0 <= z < 2 ^ 64 -> 0 <= Z.lxor z (u64 (Z.shiftl z k)) < 2 ^ 64) as Hl
      by (intros z k Hz; apply lxor_range; [done|apply u_range; lia]).
    apply lxor_shiftl_inj in E; [|by apply Hl, Hr|by apply Hl, Hr|lia].
    apply lxor_shiftl_inj in E; [|by apply Hr|by apply Hr|lia].
    by apply lxor_shiftr_inj in E; [|lia..]. }
  split_and!; [done|..].
  - intros s Hs. exists (xorshift (random_state s)), (set_random (xorshift (random_state s)) s).
    split; [done|]. split; [done|].
    pose proof (xorshift_range (random_state s) ltac:(lia)).
    assert (xorshift (random_state s) <> 0); [|lia]. intros E.
    assert (random_state s = 0); [|lia]. apply Hinj; [lia|lia|done].
  - intros s Hs. unfold random. rewrite run_get, Hs. destruct s. cbn in Hs. by subst.
  - intros seed s. eexists. split; [done|]. cbn.
    rewrite Z.lor_eq_0_iff. split; [by intros [-> _]|intros ->; done].
Qed.

(** ** Counters *)

(** Between [setStats(1)] and [setStats(0)]: the counters hold the differences, with
    their names. *)
Theorem setStats_measures s m0 i0 m1 i1 :
  length (counters s) = 2%nat -> length (counter_names s) = 2%nat ->
  exists s1 s2, setStats true m0 i0 s = (Ret tt, s1) /\ setStats false m1 i1 s1 = (Ret tt, s2) /\
    counters s2 = [u64 (m1 - m0); u64 (i1 - i0)] /\ counter_names s2 = ctr_names.
Proof.
  destruct s as [m co b bl cs ns r th]. cbn. intros Hc Hn.
  destruct cs as [|c0 [|c1 [|]]]; try done. destruct ns as [|n0 [|n1 [|]]]; try done.
  eexists _, _. split; [done|]. split; [done|]. done.
Qed.

(** ** Examples *)

Module Sample.
(** 128 bytes of memory, the first of them "abc". *)
Definition memory : gmap Z Z :=
  put (list_to_map (map (λ k, (Z.of_nat k, 0)) (seq 0 128))) 0 (chars "abc").
Definition m0 : machine := mk_machine memory [] (repeat 0 64) 0 [5; 2 ^ 32 - 1] ctr_names 0 0.

Lemma memory_mapped a n : 0 <= a -> a + Z.of_nat n <= 128 -> mapped memory a n.
Proof.
  intros Ha Hn. apply put_mapped. intros k Hk.
  assert (k ∈ map Z.of_nat (seq 0 128)) as Hin.
  { apply list_elem_of_fmap. exists (Z.to_nat k). split; [lia|]. apply elem_of_seq. lia. }
  apply (bool_decide_eq_true_1 (is_Some (list_to_map (M := gmap Z Z) (map (λ k, (Z.of_nat k, 0)) (seq 0 128)) !! k))).
  assert (Forall (λ k, bool_decide (is_Some (list_to_map (M := gmap Z Z) (map (λ k, (Z.of_nat k, 0)) (seq 0 128)) !! k)) = true)
    (map Z.of_nat (seq 0 128))) as HF by (apply (bool_decide_eq_true_1 _); vm_compute; reflexivity).
  rewrite list.Forall_forall in HF. by apply HF.
Qed.

Lemma memory_bytes : byte_mem memory.
Proof. unfold byte_mem, is_byte. apply (bool_decide_eq_true_1 _). vm_compute. reflexivity. Qed.

Lemma m0_console : console_ok m0.
Proof. split; cbn; [done|lia|constructor]. Qed.

Lemma memcpy_spec_witness :
  exists s', memcpy 64 0 8 m0 = (Ret 64, s') /\ load_bytes 8 64 (mem s') = load_bytes 8 0 memory.
Proof.
  destruct (memcpy_spec 64 0 8 m0 memory_bytes (memory_mapped 0 8 ltac:(lia) ltac:(lia))
    (memory_mapped 64 8 ltac:(lia) ltac:(lia))) as [_ Hc].
  destruct (Hc ltac:(lia)) as (s' & E & Hl & _). exists s'. split; [exact E|exact Hl].
Defined.

Lemma memset_spec_witness : exists s', memset 8 300 16 m0 = (Ret 8, s').
Proof.
  destruct (memset_spec 8 300 16 m0 (memory_mapped 8 16 ltac:(lia) ltac:(lia))) as (s' & E & _).
  exists s'. exact E.
Defined.

Lemma sprintf_atol_roundtrip_witness :
  exists n s', sprintf 32 (chars "%ld") [mk_arg (u64 (-120)) None] m0 = (Ret n, s') /\ atol 32 s' = (Ret (-120), s').
Proof.
  destruct (sprintf_atol_roundtrip (-120) 32 m0 ltac:(lia) (memory_mapped 32 21 ltac:(lia) ltac:(lia)))
    as (n & s' & E & _ & Ea).
  exists n, s'. split; [exact E|exact Ea].
Defined.

Lemma printf_sprintf_agree_witness :
  exists o out, format (chars "%5d%%") [mk_arg 42 None] = (o, out) /\ o <> OutOfFuel.
Proof.
  destruct (printf_sprintf_agree (chars "%5d%%") [mk_arg 42 None] m0 0 m0_console) as (o & out & E & Ho & _).
  exists o, out. split; [exact E|exact Ho].
Defined.

Lemma init_report_fits_witness :
  exists pbuf s', report stat_fmt NUM_COUNTERS 0 32 m0 = (Ret pbuf, s') /\ 32 <= pbuf <= 94.
Proof.
  destruct (init_report_fits stat_fmt 32 m0 5 (2 ^ 32 - 1) (chars "mcycle") (chars "minstret")
    ltac:(by left) ltac:(done) ltac:(lia) ltac:(lia) ltac:(done) ltac:(by right) ltac:(by right)
    (memory_mapped 32 64 ltac:(lia) ltac:(lia))) as (pbuf & s' & E & Hp & _).
  exists pbuf, s'. split; [exact E|exact Hp].
Defined.

(** What the formats of the C library would print otherwise: a number with the flag
    for left justification is padded with minus signs on its left, and the sign
    stands before the padding and is not counted. *)
Theorem number_padding :
  format (chars "%-5d") [mk_arg 42 None] = (Ret tt, chars "---42") /\
  format (chars "%5d") [mk_arg (u64 (-42)) None] = (Ret tt, chars "-   42").
Proof. by vm_compute. Qed.

(** A counter of 2^32 - 1 cycles is reported as -1 by the first runtime. *)
Theorem counter_truncated :
  format stat_fmt [mk_arg 1 (Some (chars "mcycle")); mk_arg (2 ^ 32 - 1) None] = (Ret tt, chars "mcycle = -1" ++ [10]) /\
  format stat_fmt_rocc [mk_arg 1 (Some (chars "mcycle")); mk_arg (2 ^ 32 - 1) None]
    = (Ret tt, chars "mcycle = 4294967295" ++ [10]).
Proof. by vm_compute. Qed.

(** Output without a newline at its end is lost when the program exits. *)
Theorem exit_loses_output :
  exists s', (printf (chars "done") [];; exit 0) m0 = (Exit (A := unit) 0, s') /\ console s' = [] /\
    printed s' = chars "done".
Proof. eexists. split; [reflexivity|]. by vm_compute. Qed.
End Sample.
