(* ===== verification/Sockets.v ===== *)
(** * Datagram sockets

    The system calls of the UDP programs, as an interface over the state of the
    network and the clock.  A call may change that state and returns what the
    system call returns; [Script] is the network whose arrivals are given in
    advance and which records what is sent. *)

From S2P Require Import Prelude Prog Common CLib.

Record sockaddr_in := mk_sockaddr { sin_port : Z; sin_addr : list Z }.

#[export] Instance sockaddr_eq_dec : EqDecision sockaddr_in.
Proof. solve_decision. Defined.

(** [htonl(INADDR_ANY)] *)
Definition INADDR_ANY : list Z := [0; 0; 0; 0].

Definition EAGAIN : Z := 11.
Definition EINTR : Z := 4.

Inductive recv_result :=
| Received (src : sockaddr_in) (data : list Z)
| RecvFailed (errno : Z).

Class Sockets (N : Type) := {
  sk_socket : N -> Z * N;
  sk_bind : sockaddr_in -> N -> Z * N;
  sk_connect : sockaddr_in -> N -> Z * N;
  sk_close : N -> Z * N;
  sk_malloc : Z -> N -> bool * N;
  sk_clock : N -> option timespec * N;            (* clock_gettime *)
  sk_sendto : sockaddr_in -> list Z -> N -> Z * N;
  sk_recvfrom : Z -> N -> recv_result * N         (* size of the buffer *)
}.

(** [recvfrom] returns at most the size of the buffer. *)
Class SocketLaws (N : Type) `{Sockets N} := {
  recv_bound size s src data s' :
    0 <= size -> sk_recvfrom size s = (Received src data, s') -> zlen data <= size
}.

Section calls.
Context {N : Type} `{Sockets N}.

Definition sys {A} (f : N -> A * N) : prog N A := λ s, let '(a, s') := f s in (Ret a, s').

Lemma sys_run {A} (f : N -> A * N) s a s' : f s = (a, s') -> sys f s = (Ret a, s').
Proof. unfold sys. by intros ->. Qed.

(** [close(fd)], then the value. *)
Definition closing {A} (v : A) : prog N A := _ ← sys sk_close; mret v.

Lemma sys_bind {A B} (f : N -> A * N) (k : A -> prog N B) s :
  bind (sys f) k s = k (f s).1 (f s).2.
Proof. unfold bind, sys. by destruct (f s). Qed.
End calls.

(** ** A scripted network *)

Module Script.

Record net := mk_net {
  inbox : list recv_result;                  (* what recvfrom will report *)
  outbox : list (sockaddr_in * list Z);      (* what was sent, in order *)
  times : nat -> option Z;                   (* the clock's readings, in ns *)
  reads : nat;
  send_fails : nat -> bool;
  sends : nat;
  setup_fails : bool * bool * bool           (* socket, bind, connect *)
}.

Definition ts_of_ns (ns : Z) : timespec := mk_ts (ns / 1000000000) (ns mod 1000000000).

#[export] Instance script_sockets : Sockets net := {
  sk_socket n := (if (setup_fails n).1.1 then -1 else 3, n);
  sk_bind _ n := (if (setup_fails n).1.2 then -1 else 0, n);
  sk_connect _ n := (if (setup_fails n).2 then -1 else 0, n);
  sk_close n := (0, n);
  sk_malloc _ n := (true, n);
  sk_clock n := (ts_of_ns <$> times n (reads n),
    mk_net (inbox n) (outbox n) (times n) (S (reads n)) (send_fails n) (sends n) (setup_fails n));
  sk_sendto dst data n :=
    if send_fails n (sends n) then
      (-1, mk_net (inbox n) (outbox n) (times n) (reads n) (send_fails n) (S (sends n)) (setup_fails n))
    else
      (zlen data, mk_net (inbox n) (outbox n ++ [(dst, data)]) (times n) (reads n) (send_fails n)
                    (S (sends n)) (setup_fails n));
  sk_recvfrom size n :=
    let n' := mk_net (tl (inbox n)) (outbox n) (times n) (reads n) (send_fails n) (sends n) (setup_fails n) in
    match inbox n with
    | Received src data :: _ => (Received src (take (Z.to_nat size) data), n')
    | RecvFailed e :: _ => (RecvFailed e, n')
    | [] => (RecvFailed EAGAIN, n')
    end
}.

#[export] Instance script_laws : SocketLaws net.
Proof.
  split. intros size s src data s' Hs. cbn. destruct (inbox s) as [|[? d|] l]; intros [=]; subst.
  unfold zlen. rewrite length_take. lia.
Qed.
End Script.
