(* ===== verification/UdpApps.v ===== *)
(** * The UDP applications

    The echo servers ([app/udp_server.c], [lib/udp_server_kernel.c]), the client
    that measures round trips ([app/udp_client.c]) and the one that only sends
    ([app/udp_client_throughput.c]); the others are in [UdpClients].  [getopt_long] is the list of the options it
    returns with their arguments; text output, floating-point averages and socket
    options are left out.  [closing v] closes the socket and returns [v]. *)

From Stdlib Require String.
From S2P Require Import Prelude Prog Common CLib UserMem Sockets.
Import String.StringSyntax.
Local Open Scope string_scope.
Local Open Scope Z_scope.

(** ** The servers *)

Definition BUF_SIZE : Z := 1500.
Definition DEFAULT_ADDR : list Z := chars "0.0.0.0".
Definition DEFAULT_PORT : Z := 1111.

(** A port number or another small number from a whole argument. *)
Definition parse_number (lo hi : Z) (s : list Z) : option Z :=
  let p := strtoll s in
  if bool_decide (s = []) || negb (bool_decide (strtol_end s = [])) || (p <? lo) || (hi <? p)
  then None else Some p.

(** [argv] without the program's name; [inr c]: the program returns [c]. *)
Definition server_args (argv : list (list Z)) : (list Z * Z) + Z :=
  match argv with
  | [] => inl (DEFAULT_ADDR, DEFAULT_PORT)
  | a1 :: rest =>
      if streq a1 "-h" || streq a1 "--help" then inr 0
      else match rest with
           | [] => inl (a1, DEFAULT_PORT)
           | a2 :: rest2 =>
               match parse_number 1 65535 a2 with
               | None => inr 1
               | Some p => match rest2 with [] => inl (a1, p) | _ => inr 1 end
               end
           end
  end.

(** The kernel-socket server also takes a CPU number, which it does not use. *)
Definition kserver_args (argv : list (list Z)) : (list Z * Z) + Z :=
  match argv with
  | [] => inl (DEFAULT_ADDR, DEFAULT_PORT)
  | a1 :: rest =>
      if streq a1 "-h" || streq a1 "--help" then inr 0
      else match rest with
           | [] => inl (a1, DEFAULT_PORT)
           | a2 :: rest2 =>
               match parse_number 1 65535 a2 with
               | None => inr 1
               | Some p =>
                   match rest2 with
                   | [] => inl (a1, p)
                   | a3 :: rest3 =>
                       match parse_number 0 3 a3 with
                       | None => inr 1
                       | Some _ => match rest3 with [] => inl (a1, p) | _ => inr 1 end
                       end
                   end
               end
           end
  end.

(** [buffer[0] = (buffer[0] + 1) & 0xFF] *)
Definition app_reply (data : list Z) : list Z :=
  match data with b :: rest => Z.land (b + 1) 255 :: rest | [] => [] end.
Definition kernel_reply (data : list Z) : list Z := data.

Section server.
Context {N : Type} `{Sockets N}.
Abbreviation M := (prog N).

(** One round of the service loop. *)
Definition serve (reply : list Z -> list Z) : M unit :=
  r ← sys (sk_recvfrom BUF_SIZE);
  match r with
  | RecvFailed _ => mret tt
  | Received src data => _ ← sys (sk_sendto src (reply data)); mret tt
  end.

(** [None]: the server is still running after [rounds] rounds. *)
Definition server_main (args : list (list Z) -> (list Z * Z) + Z) (reply : list Z -> list Z)
    (rounds : nat) (argv : list (list Z)) : M (option Z) :=
  match args argv with
  | inr code => mret (Some code)
  | inl (ip, port) =>
      sockfd ← sys sk_socket;
      if sockfd <? 0 then mret (Some 1)
      else
        match (if streq ip "0.0.0.0" || streq ip "*" then Some INADDR_ANY else inet_pton ip) with
        | None => closing (Some 1)
        | Some a =>
            r ← sys (sk_bind (mk_sockaddr (htons (u16 port)) a));
            if r <? 0 then closing (Some 1)
            else for_loop rounds 0 (λ _, serve reply);; mret None
        end
  end.
Definition udp_server_main := server_main server_args app_reply.
Definition udp_server_kernel_main := server_main kserver_args kernel_reply.
End server.

(** ** The client with embedded timestamps ([udp_client.c]) *)

Definition META_SIZE : Z := 12.   (* sizeof(struct Meta), packed *)

Definition ts2ns (t : timespec) : Z := u64 (u64 (tv_sec t) * 1000000000 + u64 (tv_nsec t)).

Record client_cfg := mk_cfg {
  c_server : list Z; c_dst_port : Z; c_count : Z; c_payload : Z; c_timeout : Z;
  c_src_port : Z; c_src_ip : list Z
}.

Definition client_defaults : client_cfg := mk_cfg [] 0 1024 1500 1000 0 [].

(** One option; [inr c]: the program returns [c].  [strtol] is [strtoll] here. *)
Definition client_option (opt : Z) (arg : list Z) (c : client_cfg) : client_cfg + Z :=
  let v := strtoll arg in
  let '(mk_cfg sv dp n pl tm sp si) := c in
  if streq [opt] "S" then inl (mk_cfg (take 15 arg) dp n pl tm sp si)
  else if streq [opt] "P" then
    if (v <? 1) || (65535 <? v) then inr 1 else inl (mk_cfg sv v n pl tm sp si)
  else if streq [opt] "n" then if v <=? 0 then inr 1 else inl (mk_cfg sv dp v pl tm sp si)
  else if streq [opt] "B" then if v <=? 0 then inr 1 else inl (mk_cfg sv dp n v tm sp si)
  else if streq [opt] "t" then if v <? 1 then inr 1 else inl (mk_cfg sv dp n pl v sp si)
  else if streq [opt] "s" then
    if (v <? 0) || (65535 <? v) then inr 1 else inl (mk_cfg sv dp n pl tm v si)
  else if streq [opt] "I" then inl (mk_cfg sv dp n pl tm sp (take 15 arg))
  else if streq [opt] "h" then inr 0 else inr 1.

Fixpoint client_options (opts : list (Z * list Z)) (c : client_cfg) : client_cfg + Z :=
  match opts with
  | [] =>
      if bool_decide (c_server c = []) || (c_dst_port c =? 0) then inr 1
      else if c_payload c <? 1 + META_SIZE then inr 1 else inl c
  | (opt, arg) :: rest =>
      match client_option opt arg c with
      | inl c' => client_options rest c'
      | inr code => inr code
      end
  end.

Record rtt_stats := mk_rtt { r_min : Z; r_max : Z; r_sum : Z; r_received : Z }.

Definition no_rtt : rtt_stats := mk_rtt (2 ^ 64 - 1) 0 0 0.
Definition add_rtt (rtt : Z) (st : rtt_stats) : rtt_stats :=
  mk_rtt (if rtt <? r_min st then rtt else r_min st) (if r_max st <? rtt then rtt else r_max st)
    (u64 (r_sum st + rtt)) (r_received st + 1).

(** Overwrites the bytes of [buf] from [off] on. *)
Definition store_at (off : nat) (bytes buf : list Z) : list Z :=
  take off buf ++ bytes ++ drop (off + length bytes) buf.

Definition client_buffer (payload : Z) : list Z :=
  <[0%nat := 0x42]> (repeat 0xAB (Z.to_nat payload)).

Section client.
Context {N : Type} `{Sockets N}.
Abbreviation M := (prog N).

(** The measuring loop, test [i] next. *)
Fixpoint ping_loop (left : nat) (i : Z) (dst : sockaddr_in) (payload : Z) (buf : list Z)
    (st : rtt_stats) : M rtt_stats :=
  match left with
  | O => mret st
  | S left' =>
      let buf := store_at 1 (le_split 4 i) buf in
      t ← sys sk_clock;
      match t with
      | None => ping_loop left' (i + 1) dst payload buf st
      | Some ts_send =>
          let buf := store_at 5 (le_split 8 (ts2ns ts_send)) buf in
          n ← sys (sk_sendto dst buf);
          if n <? 0 then ping_loop left' (i + 1) dst payload buf st
          else
            r ← sys (sk_recvfrom payload);
            match r with
            | RecvFailed _ => ping_loop left' (i + 1) dst payload buf st
            | Received _ data =>
                t ← sys sk_clock;
                match t with
                | None => ping_loop left' (i + 1) dst payload buf st
                | Some ts_recv =>
                    if zlen data <? 1 + META_SIZE then ping_loop left' (i + 1) dst payload buf st
                    else
                      let rtt := u64 (ts2ns ts_recv - le_combine (take 8 (drop 5 data))) in
                      ping_loop left' (i + 1) dst payload buf (add_rtt rtt st)
                end
            end
      end
  end.

(** The return value and, when the loop was run, its results. *)
Definition udp_client_main (opts : list (Z * list Z)) : M (Z * option rtt_stats) :=
  match client_options opts client_defaults with
  | inr code => mret (code, None)
  | inl c =>
      fd ← sys sk_socket;
      if fd <? 0 then mret (1, None)
      else
        b ← (if negb (c_src_port c =? 0) || negb (bool_decide (c_src_ip c = [])) then
               match (if bool_decide (c_src_ip c = []) then Some INADDR_ANY else inet_pton (c_src_ip c)) with
               | None => mret false
               | Some a => r ← sys (sk_bind (mk_sockaddr (htons (u16 (c_src_port c))) a)); mret (r =? 0)
               end
             else mret true);
        if negb b then closing (1, None)
        else
          match inet_pton (c_server c) with
          | None => closing (1, None)
          | Some a =>
              m1 ← sys (sk_malloc (c_payload c));
              m2 ← sys (sk_malloc (c_payload c));
              if negb m1 || negb m2 then closing (1, None)
              else
                st ← ping_loop (Z.to_nat (c_count c)) 0 (mk_sockaddr (htons (u16 (c_dst_port c))) a)
                       (c_payload c) (client_buffer (c_payload c)) no_rtt;
                closing (0, Some st)
          end
  end.

(** ** The throughput client ([udp_client_throughput.c]) *)

(** [for (i = 0; i < ntest; i++) if (sendto(...) < 0) break;]: the number sent. *)
Fixpoint send_loop (left : nat) (dst : sockaddr_in) (buf : list Z) : M nat :=
  match left with
  | O => mret 0%nat
  | S left' =>
      n ← sys (sk_sendto dst buf);
      if n <? 0 then mret 0%nat else k ← send_loop left' dst buf; mret (S k)
  end.

End client.

Record thr_cfg := mk_thr { t_server : list Z; t_port : Z; t_ntest : Z; t_bytes : Z; t_src_port : Z }.

Definition thr_option (opt : Z) (arg : list Z) (c : thr_cfg) : thr_cfg + Z :=
  let v := strtoll arg in
  let '(mk_thr sv p n b sp) := c in
  if streq [opt] "S" then inl (mk_thr (take 15 arg) p n b sp)
  else if streq [opt] "P" then if (v <? 1) || (65535 <? v) then inr 1 else inl (mk_thr sv v n b sp)
  else if streq [opt] "n" then if v <=? 0 then inr 1 else inl (mk_thr sv p v b sp)
  else if streq [opt] "B" then if v <=? 0 then inr 1 else inl (mk_thr sv p n v sp)
  else if streq [opt] "s" then if (v <? 1) || (65535 <? v) then inr 1 else inl (mk_thr sv p n b v)
  else if streq [opt] "h" then inr 0 else inr 1.

Fixpoint thr_options (opts : list (Z * list Z)) (c : thr_cfg) : thr_cfg + Z :=
  match opts with
  | [] =>
      if bool_decide (t_server c = []) || (t_port c =? 0) || (t_ntest c <=? 0) || (t_bytes c <=? 0)
      then inr 1 else inl c
  | (opt, arg) :: rest =>
      match thr_option opt arg c with
      | inl c' => thr_options rest c'
      | inr code => inr code
      end
  end.

Section thr.
Context {N : Type} `{Sockets N}.
Abbreviation M := (prog N).

Definition udp_thr_main (opts : list (Z * list Z)) : M Z :=
  match thr_options opts (mk_thr [] 0 0 0 0) with
  | inr code => mret code
  | inl c =>
      fd ← sys sk_socket;
      if fd <? 0 then mret 1
      else
        b ← (if negb (t_src_port c =? 0) then
               r ← sys (sk_bind (mk_sockaddr (htons (u16 (t_src_port c))) INADDR_ANY)); mret (r =? 0)
             else mret true);
        if negb b then closing 1
        else
          match inet_pton (t_server c) with
          | None => closing 1
          | Some a =>
              m ← sys (sk_malloc (t_bytes c));
              if negb m then closing 1
              else
                _ ← send_loop (Z.to_nat (t_ntest c)) (mk_sockaddr (htons (u16 (t_port c))) a)
                      (repeat 0xAB (Z.to_nat (t_bytes c)));
                closing 0
          end
  end.
End thr.
