(* ===== verification/UdpClients.v ===== *)
(** * The benchmarking clients over kernel sockets

    [lib/udp_client_kernel.c], one connection, and [app/udp_mt_client.c], one
    thread and one socket per port.  The threads share nothing but the constants
    of their contexts, so that each runs over a network state of its own.  Result
    files are the lists of their rows. *)

From Stdlib Require String.
From S2P Require Import Prelude Prog Common CLib UserMem Sockets UdpApps.
Import String.StringSyntax.
Local Open Scope string_scope.
Local Open Scope Z_scope.

(** ** [lib/udp_client_kernel.c] *)

Definition MAX_PAYLOAD : Z := 1472.
Definition SERVER_IP : list Z := chars "10.0.0.2".
Definition SERVER_PORT : Z := 1111.

(** [strncmp(a, prefix, strlen(prefix)) == 0]: what follows the prefix. *)
Definition after_prefix (a prefix : list Z) : option (list Z) :=
  if bool_decide (take (length prefix) a = prefix) then Some (drop (length prefix) a) else None.

(** The number of tests and the payload size; [inr c]: return [c]. *)
Fixpoint kernel_args (argv : list (list Z)) (ntest payload : Z) : (Z * Z) + Z :=
  match argv with
  | [] => inl (ntest, payload)
  | a :: rest =>
      let other :=
        match after_prefix a (chars "--ntest=") with
        | Some v => kernel_args rest (atoi v) payload
        | None =>
            match after_prefix a (chars "--payload-size=") with
            | Some v => kernel_args rest ntest (atoi v)
            | None => inr (if streq a "-h" || streq a "--help" then 0 else 1)
            end
        end in
      match rest with
      | v :: rest' =>
          if streq a "--ntest" then kernel_args rest' (atoi v) payload
          else if streq a "--payload-size" then kernel_args rest' ntest (atoi v)
          else other
      | [] => other
      end
  end.

Definition ts_diff_ns (a b : timespec) : Z :=
  (tv_sec a - tv_sec b) * 1000000000 + (tv_nsec a - tv_nsec b).

(** The statistics; [k_rows] are the packets in the result file, oldest first. *)
Record kstats := mk_k { k_min : Z; k_max : Z; k_sum : Z; k_ok : Z; k_rows : list (Z * Z) }.

Definition k_add (i rtt : Z) (st : kstats) : kstats :=
  mk_k (if k_ok st =? 0 then rtt else if rtt <? k_min st then rtt else k_min st)
       (if k_ok st =? 0 then rtt else if k_max st <? rtt then rtt else k_max st)
       (k_sum st + rtt) (k_ok st + 1) (k_rows st ++ [(i, rtt)]).

Section kernel.
Context {N : Type} `{Sockets N}.
Abbreviation M := (prog N).

Fixpoint kping_loop (left : nat) (i : Z) (dst : sockaddr_in) (payload : Z) (st : kstats) : M kstats :=
  match left with
  | O => mret st
  | S left' =>
      let buf := <[0%nat := Z.land i 255]> (repeat 0 (Z.to_nat payload)) in
      t ← sys sk_clock;
      match t with
      | None => mret st
      | Some t0 =>
          sent ← sys (sk_sendto dst buf);
          if negb (sent =? payload) then kping_loop left' (i + 1) dst payload st
          else
            r ← sys (sk_recvfrom payload);
            t ← sys sk_clock;
            match t with
            | None => mret st
            | Some t1 =>
                match r with
                | RecvFailed _ => kping_loop left' (i + 1) dst payload st
                | Received src data =>
                    if negb (zlen data =? payload) then kping_loop left' (i + 1) dst payload st
                    else if bool_decide (src <> dst) then kping_loop left' (i + 1) dst payload st
                    else kping_loop left' (i + 1) dst payload (k_add i (ts_diff_ns t1 t0) st)
                end
            end
      end
  end.

(** [fopen_ok]: the result file can be created. *)
Definition udp_client_kernel_main (fopen_ok : bool) (argv : list (list Z)) : M (Z * option kstats) :=
  match kernel_args argv 64 64 with
  | inr code => mret (code, None)
  | inl (ntest, payload) =>
      if ntest <=? 0 then mret (1, None)
      else if (payload <=? 0) || (MAX_PAYLOAD <? payload) then mret (1, None)
      else if negb fopen_ok then mret (1, None)
      else
        sock ← sys sk_socket;
        if sock <? 0 then mret (1, None)
        else
          match inet_pton SERVER_IP with
          | None => mret (1, None)
          | Some a =>
              m ← sys (sk_malloc payload);
              if negb m then mret (1, None)
              else
                st ← kping_loop (Z.to_nat ntest) 0 (mk_sockaddr (htons SERVER_PORT) a) payload
                       (mk_k 0 0 0 0 []);
                closing (0, Some st)
          end
  end.
End kernel.

(** ** [app/udp_mt_client.c] *)

(** The results of a thread: the times in nanoseconds, -1 for none. *)
Record thread_res := mk_res { rtt_us : list Z; ok : Z; timeouts : Z }.

Definition tsdiff_ns (a b : timespec) : Z :=
  (tv_sec b - tv_sec a) * 1000000000 + (tv_nsec b - tv_nsec a).

Section mt.
Context {N : Type} `{Sockets N}.
Abbreviation M := (prog N).

(** Test [i]; [buf] is also the receive buffer. *)
Fixpoint mt_loop (left : nat) (i : nat) (dst : sockaddr_in) (size : Z) (buf : list Z) (r : thread_res)
    : M thread_res :=
  match left with
  | O => mret r
  | S left' =>
      let buf := if 4 <=? size then store_at 0 (le_split 4 (htonl (u32 (Z.of_nat i)))) buf else buf in
      let failed := mk_res (<[i := -1]> (rtt_us r)) (ok r) (timeouts r) in
      t ← sys sk_clock;
      match t with
      | None => mt_loop left' (S i) dst size buf failed
      | Some t0 =>
          sret ← sys (sk_sendto dst buf);
          if sret <? 0 then mt_loop left' (S i) dst size buf failed
          else
            rret ← sys (sk_recvfrom size);
            let buf := match rret with Received _ data => store_at 0 data buf | RecvFailed _ => buf end in
            t ← sys sk_clock;
            match t with
            | None => mt_loop left' (S i) dst size buf failed
            | Some t1 =>
                match rret with
                | RecvFailed e =>
                    mt_loop left' (S i) dst size buf
                      (mk_res (<[i := -1]> (rtt_us r)) (ok r)
                         (if e =? EAGAIN then timeouts r + 1 else timeouts r))
                | Received _ _ =>
                    mt_loop left' (S i) dst size buf
                      (mk_res (<[i := tsdiff_ns t0 t1]> (rtt_us r)) (ok r + 1) (timeouts r))
                end
            end
      end
  end.

(** [count] requests of [size] bytes to [dport]. *)
Definition thread_main (server : list Z) (dport count size : Z) : M thread_res :=
  let none := mk_res (repeat (-1) (Z.to_nat count)) 0 0 in
  fd ← sys sk_socket;
  if fd <? 0 then mret none
  else
    match inet_pton server with
    | None => closing none
    | Some a =>
        r ← sys (sk_bind (mk_sockaddr (htons dport) INADDR_ANY));
        if r <? 0 then closing none
        else
          r ← sys (sk_connect (mk_sockaddr (htons dport) a));
          if r <? 0 then closing none
          else
            m ← sys (sk_malloc size);
            if negb m then closing none
            else
              res ← mt_loop (Z.to_nat count) 0 (mk_sockaddr (htons dport) a) size
                      (map (λ k, Z.of_nat k mod 256) (seq 0 (Z.to_nat size))) none;
              closing res
    end.

Record mt_cfg := mk_mt {
  m_server : list Z; m_threads : Z; m_count : Z; m_size : Z; m_base : Z; m_timeout : Z; m_out : option (list Z)
}.

Definition mt_option (opt : Z) (arg : list Z) (c : mt_cfg) : mt_cfg + Z :=
  let '(mk_mt sv th n sz b tm o) := c in
  if streq [opt] "s" then inl (mk_mt (take 63 arg) th n sz b tm o)
  else if streq [opt] "t" then inl (mk_mt sv (atoi arg) n sz b tm o)
  else if streq [opt] "c" then inl (mk_mt sv th (atoi arg) sz b tm o)
  else if streq [opt] "z" then inl (mk_mt sv th n (strtoull arg) b tm o)
  else if streq [opt] "p" then inl (mk_mt sv th n sz (u16 (atoi arg)) tm o)
  else if streq [opt] "m" then inl (mk_mt sv th n sz b (atoi arg) o)
  else if streq [opt] "o" then inl (mk_mt sv th n sz b tm (Some (take 511 arg)))
  else inr (if streq [opt] "h" then 0 else 1).

Fixpoint mt_options (opts : list (Z * list Z)) (c : mt_cfg) : mt_cfg + Z :=
  match opts with
  | [] =>
      if bool_decide (m_server c = []) then inr 1
      else if (m_threads c <=? 0) || (m_count c <=? 0) || (m_size c =? 0) then inr 1 else inl c
  | (opt, arg) :: rest =>
      match mt_option opt arg c with
      | inl c' => mt_options rest c'
      | inr code => inr code
      end
  end.

Definition mt_port (c : mt_cfg) (i : nat) : Z := u16 (m_base c + Z.of_nat i).

(** Thread [i] over its network [nets i]; a thread that cannot be created leaves
    its table as it was initialised. *)
Definition run_thread (created : nat -> bool) (nets : nat -> N) (c : mt_cfg) (i : nat) : outcome thread_res :=
  if created i then (thread_main (m_server c) (mt_port c i) (m_count c) (m_size c) (nets i)).1
  else Ret (mk_res (repeat (-1) (Z.to_nat (m_count c))) 0 0).

(** [double us = ns / 1000.0], printed with [%.2f]: hundredths of a microsecond. *)
Definition us_text (ns : Z) : Z := print_f2 (double_div (double_of ns) 1000).

(** A row of the result file: packet, size, time, port; the time [None] is the text -1. *)
Definition csv_row : Type := Z * Z * option Z * Z.

Definition csv_rows (c : mt_cfg) (i : nat) (r : thread_res) : list csv_row :=
  imap (λ k ns, (Z.of_nat k, m_size c, if ns <? 0 then None else Some (us_text ns), mt_port c i)) (rtt_us r).

Definition mt_defaults : mt_cfg := mk_mt [] 64 1024 1024 1200 1000 None.

(** All threads, in order; the result file is written after the last one. *)
Fixpoint run_threads (created : nat -> bool) (nets : nat -> N) (c : mt_cfg) (l : list nat)
    : outcome (list csv_row) :=
  match l with
  | [] => Ret []
  | i :: l' =>
      match run_thread created nets c i, run_threads created nets c l' with
      | Ret r, Ret rows => Ret (csv_rows c i r ++ rows)
      | Ret _, e => e
      | Fault f, _ => Fault f
      | Exit e, _ => Exit e
      | OutOfFuel, _ => OutOfFuel
      end
  end.

(** [alloc_ok]: the contexts and tables can be allocated; [fopen_ok]: the result
    file can be created. *)
Definition udp_mt_main (created : nat -> bool) (nets : nat -> N) (alloc_ok fopen_ok : bool)
    (opts : list (Z * list Z)) : outcome (Z * list csv_row) :=
  match mt_options opts mt_defaults with
  | inr code => Ret (code, [])
  | inl c =>
      if negb alloc_ok then Ret (1, [])
      else
      match run_threads created nets c (seq 0 (Z.to_nat (m_threads c))) with
      | Ret rows => Ret (if fopen_ok then (0, rows) else (1, []))
      | Fault f => Fault f
      | Exit e => Exit e
      | OutOfFuel => OutOfFuel
      end
  end.

(** [print_per_connection_avg]: the sum of the times and their number. *)
Definition connection_sum (r : thread_res) : Z * Z :=
  foldl (λ '(sum, n) ns, if 0 <=? ns then (sum + ns, n + 1) else (sum, n)) (0, 0) (rtt_us r).
End mt.
