(* ===== verification/UdpAppsSpec.v ===== *)
(** * Properties of the UDP applications

    What the servers answer, and what the clients measure when a server answers
    them. *)

From Stdlib Require String.
From S2P Require Import Prelude Prog Common CLib UserMem Sockets UdpApps UdpClients.
Import String.StringSyntax.

(** ** Arguments *)

Lemma parse_number_range lo hi s p : parse_number lo hi s = Some p -> lo <= p <= hi.
Proof.
  unfold parse_number. destruct (_ || _) eqn:E; [done|]. intros [= <-].
  apply orb_false_elim in E as [E E2]. apply orb_false_elim in E as [_ E1].
  apply Z.ltb_ge in E1, E2. lia.
Qed.

Lemma print_dec_head n v rest : (0 < n)%nat -> 0 <= v ->
  exists d l, print_dec n v ++ rest = (48 + d) :: l /\ 0 <= d < 10.
Proof.
  revert v rest. induction n as [|n IH]; intros v rest Hn Hv; [lia|]. cbn [print_dec].
  destruct (Z.ltb_spec v 10); [exists v, rest; split; [done|lia]|].
  destruct n as [|n].
  - exists (v mod 10), rest. split; [done|zdm].
  - rewrite <- app_assoc. apply IH; [lia|zdm].
Qed.

Lemma parse_number_print lo hi v :
  lo <= v <= hi -> 0 <= v < 100000 -> parse_number lo hi (print_dec 5 v) = Some v.
Proof.
  intros Hr Hv. destruct (print_dec_head 5 v [] ltac:(lia) ltac:(lia)) as (d & l & E & Hd).
  rewrite app_nil_r in E.
  destruct (digits_val_print 5 v 0 [] ltac:(cbn; lia) ltac:(lia)) as (k & E1 & E2 & _).
  rewrite app_nil_r in E1, E2. rewrite E in *.
  assert (is_space (48 + d) = false) as Hsp.
  { unfold is_space. apply orb_false_intro; [apply Z.eqb_neq; lia|].
    apply andb_false_intro2. apply Z.leb_gt. lia. }
  assert (skip_spaces ((48 + d) :: l) = (48 + d) :: l) as Hsk by (cbn [skip_spaces]; by rewrite Hsp).
  unfold parse_number, strtoll, strtol_end. rewrite Hsk.
  rewrite !(proj2 (Z.eqb_neq (48 + d) _)) by lia. cbn [orb].
  assert (starts_digit ((48 + d) :: l) = true) as ->.
  { unfold starts_digit. rewrite dec_val_digit by lia. apply bool_decide_eq_true. eauto. }
  rewrite E1, E2. unfold clamp64. rewrite bool_decide_false by done. cbn [digits_val digits_end orb].
  rewrite bool_decide_true by done. cbn [negb orb].
  replace (Z.max (- 2 ^ 63) (Z.min (0 * 10 ^ k + v) (2 ^ 63 - 1))) with v by lia.
  rewrite !(proj2 (Z.ltb_ge _ _)) by lia. done.
Qed.

(** A bind address and a port in decimal are accepted as they are, and every
    configuration a server starts with has a port between 1 and 65535. *)
Theorem server_args_port argv ip p :
  (server_args argv = inl (ip, p) -> 1 <= p <= 65535) /\
  (streq ip "-h" = false -> streq ip "--help" = false -> 1 <= p <= 65535 ->
   server_args [ip; print_dec 5 p] = inl (ip, p) /\ kserver_args [ip; print_dec 5 p] = inl (ip, p)).
Proof.
  split.
  - unfold server_args. destruct argv as [|a1 [|a2 rest]]; try (by intros [= <- <-]);
      destruct (_ || _); try done; [by intros [= <- <-]|].
    destruct (parse_number 1 65535 a2) as [q|] eqn:E; [|done]. apply parse_number_range in E.
    destruct rest; [|done]. by intros [= <- <-].
  - intros H1 H2 Hp. unfold server_args, kserver_args. rewrite H1, H2. cbn [orb].
    by rewrite (parse_number_print 1 65535 p) by lia.
Qed.

(** ** The servers *)

Section server.
Import Script.

(** The replies to the datagrams of [l], the [k]-th send being next. *)
Fixpoint replies (reply : list Z -> list Z) (fails : nat -> bool) (k : nat) (l : list recv_result)
    : list (sockaddr_in * list Z) :=
  match l with
  | [] => []
  | RecvFailed _ :: l' => replies reply fails k l'
  | Received src data :: l' =>
      (if fails k then [] else [(src, reply (take 1500 data))]) ++ replies reply fails (S k) l'
  end.

Lemma serve_run reply (n : net) :
  serve reply n = (Ret tt, (serve reply n).2) /\
  outbox (serve reply n).2 = outbox n ++ replies reply (send_fails n) (sends n) (take 1 (inbox n)) /\
  inbox (serve reply n).2 = tl (inbox n) /\ send_fails (serve reply n).2 = send_fails n /\
  sends (serve reply n).2
  = (sends n + match inbox n with Received _ _ :: _ => 1 | _ => 0 end)%nat.
Proof.
  unfold serve. rewrite sys_bind. cbn [sk_recvfrom script_sockets].
  destruct n as [[|[src data|e] l] ob ti re fa se su];
    cbn [inbox outbox send_fails sends fst snd tl]; rewrite ?app_nil_r, ?Nat.add_0_r; try done.
  rewrite sys_bind. cbn [sk_sendto script_sockets send_fails sends].
  change (Z.to_nat BUF_SIZE) with 1500%nat.
  destruct (fa se) eqn:Ef; cbn [fst snd outbox inbox send_fails sends take replies];
    rewrite ?Ef, ?app_nil_r, ?Nat.add_1_r; done.
Qed.

Lemma serve_rounds reply rounds (n : net) :
  exists n', for_loop rounds 0 (λ _, serve reply) n = (Ret tt, n') /\
    outbox n' = outbox n ++ replies reply (send_fails n) (sends n) (take rounds (inbox n)).
Proof.
  generalize 0. revert n. induction rounds as [|k IH]; intros n z.
  { exists n. cbn. by rewrite app_nil_r. }
  destruct (serve_run reply n) as (E & Eo & Ei & Ef & Es). cbn [for_loop].
  rewrite (run_bind _ _ _ _ _ E). destruct (IH (serve reply n).2 (z + 1)) as (n' & E' & Eo').
  exists n'. split; [exact E'|]. rewrite Eo', Eo, Ei, Ef, Es, <- app_assoc. f_equal.
  destruct (inbox n) as [|[src data|e] l]; cbn [take tl replies];
    rewrite ?Nat.add_0_r, ?Nat.add_1_r, ?take_nil, ?app_nil_r; done.
Qed.

Lemma server_main_run args reply rounds argv ip p (n : net) :
  args argv = inl (ip, p) -> streq ip "0.0.0.0" = true \/ is_Some (inet_pton ip) ->
  (setup_fails n).1 = (false, false) ->
  exists n', server_main args reply rounds argv n = (Ret None, n') /\
    outbox n' = outbox n ++ replies reply (send_fails n) (sends n) (take rounds (inbox n)).
Proof.
  intros Ha Hip Hset.
  assert ((setup_fails n).1.1 = false /\ (setup_fails n).1.2 = false) as [Hs Hb] by by rewrite Hset.
  unfold server_main. rewrite Ha, sys_bind. cbn [sk_socket script_sockets].
  rewrite Hs. cbn [fst snd]. change (3 <? 0) with false. cbv iota.
  assert (exists a, (if streq ip "0.0.0.0" || streq ip "*" then Some INADDR_ANY else inet_pton ip) = Some a)
    as [a ->].
  { destruct Hip as [->|[a Ea]]; [by exists INADDR_ANY|]. destruct (_ || _); eauto. }
  rewrite sys_bind. cbn [sk_bind script_sockets fst snd]. rewrite Hb. change (0 <? 0) with false. cbv iota.
  destruct (serve_rounds reply rounds n) as (n' & E & Eo). exists n'.
  by rewrite (run_bind _ _ _ _ _ E).
Qed.

(** The server of [app/udp_server.c] answers every datagram exactly once, in
    order, to its sender: with its first 1500 bytes, the first byte incremented;
    errors of single calls are survived. *)
Theorem udp_server_serves rounds argv ip p (n : net) :
  server_args argv = inl (ip, p) -> streq ip "0.0.0.0" = true \/ is_Some (inet_pton ip) ->
  (setup_fails n).1 = (false, false) ->
  exists n', udp_server_main rounds argv n = (Ret None, n') /\
    outbox n' = outbox n ++ replies app_reply (send_fails n) (sends n) (take rounds (inbox n)).
Proof. apply server_main_run. Qed.
End server.

(** ** A client and a server *)

Module Echo.

(** The answers of the server to one datagram, by a round of its service loop. *)
Definition server_answer (reply : list Z -> list Z) (data : list Z) : list (list Z) :=
  map snd (Script.outbox (serve (H := Script.script_sockets) reply
    (Script.mk_net [Received (mk_sockaddr 0 []) data] [] (λ _, None) 0 (λ _, false) 0
       (false, false, false))).2).

Lemma server_answer_eq reply data : server_answer reply data = [reply (take 1500 data)].
Proof. done. Qed.

(** A network with one server: the [k]-th reply arrives unless [lost k]; the clock
    shows [clk j] nanoseconds at its [j]-th reading. *)
Record net := mk_echo {
  queue : list (sockaddr_in * list Z);
  clk : nat -> Z;
  reads : nat;
  lost : nat -> bool;
  sends : nat
}.

Section net.
Context (reply : list Z -> list Z).

#[export] Instance echo_sockets : Sockets net := {
  sk_socket n := (3, n);
  sk_bind _ n := (0, n);
  sk_connect _ n := (0, n);
  sk_close n := (0, n);
  sk_malloc _ n := (true, n);
  sk_clock n := (Some (Script.ts_of_ns (clk n (reads n))),
    mk_echo (queue n) (clk n) (S (reads n)) (lost n) (sends n));
  sk_sendto dst data n := (zlen data,
    mk_echo (queue n ++ if lost n (sends n) then [] else map (pair dst) (server_answer reply data))
      (clk n) (reads n) (lost n) (S (sends n)));
  sk_recvfrom size n :=
    let n' := mk_echo (tl (queue n)) (clk n) (reads n) (lost n) (sends n) in
    match queue n with
    | (src, data) :: _ => (Received src (take (Z.to_nat size) data), n')
    | [] => (RecvFailed EAGAIN, n')
    end
}.
End net.
End Echo.
Import Echo.

(** The clock never goes back and fits 64 bits. *)
Definition steady (clk : nat -> Z) : Prop := forall j, 0 <= clk j <= clk (S j) /\ clk j < 2 ^ 63.

(** What the tests number [i] to [i + n - 1] should measure, [j] readings of the
    clock having been made; the second reading is skipped after a loss unless
    [always]. *)
Fixpoint measured (always : bool) (clk : nat -> Z) (lost : nat -> bool) (n i j : nat) : list (option Z) :=
  match n with
  | O => []
  | S n' =>
      if lost i then None :: measured always clk lost n' (S i) (if always then S (S j) else S j)
      else Some (clk (S j) - clk j) :: measured always clk lost n' (S i) (S (S j))
  end.

Lemma measured_range always clk lost : steady clk -> forall n i j,
  Forall (λ o, match o with Some x => 0 <= x < 2 ^ 63 | None => True end) (measured always clk lost n i j).
Proof.
  intros Hc n. induction n as [|n IH]; intros i j; cbn [measured]; [constructor|].
  destruct (lost i); (constructor; [|apply IH]); [done|].
  pose proof (Hc j). pose proof (Hc (S j)). lia.
Qed.

Lemma ts_of_ns_ns ns : 0 <= ns < 2 ^ 63 -> ts2ns (Script.ts_of_ns ns) = ns.
Proof.
  intros Hn. unfold ts2ns, Script.ts_of_ns. cbn [tv_sec tv_nsec].
  rewrite (u_small 64 (ns / 1000000000)), (u_small 64 (ns mod 1000000000)) by zdm.
  rewrite u_small by zdm. zdm.
Qed.

Lemma ts_diff a b : tsdiff_ns (Script.ts_of_ns a) (Script.ts_of_ns b) = b - a /\
  ts_diff_ns (Script.ts_of_ns b) (Script.ts_of_ns a) = b - a.
Proof. unfold tsdiff_ns, ts_diff_ns, Script.ts_of_ns. cbn [tv_sec tv_nsec]. zdm. Qed.

(** The metadata survive the server, which changes byte 0 only. *)
Lemma meta_echo buf ns size :
  13 <= zlen buf -> 13 <= size -> 0 <= ns < 2 ^ 64 ->
  let data := take (Z.to_nat size) (app_reply (take 1500 (store_at 5 (le_split 8 ns) buf))) in
  13 <= zlen data /\ le_combine (take 8 (drop 5 data)) = ns.
Proof.
  intros Hb Hs Hns data. unfold zlen in Hb.
  set (b2 := store_at 5 (le_split 8 ns) buf) in *.
  assert (length (le_split 8 ns) = 8%nat) as Hl8 by apply length_le_split.
  assert (exists x y, b2 = x :: y /\ (12 <= length y)%nat /\ take 8 (drop 4 y) = le_split 8 ns) as (x & y & E & Hy & Et).
  { unfold b2, store_at. destruct buf as [|c [|d [|e [|f [|g rest]]]]]; cbn in Hb; try lia.
    rewrite Hl8. cbn [take app drop Nat.add]. exists c, ([d; e; f; g] ++ le_split 8 ns ++ drop 8 rest).
    split; [done|]. split; [rewrite !length_app, Hl8; cbn; lia|].
    change (take 8 (le_split 8 ns ++ drop 8 rest) = le_split 8 ns).
    rewrite take_app_le, take_ge by lia. done. }
  assert (data = Z.land (x + 1) 255 :: take (Z.to_nat (size - 1)) (take 1499 y)) as Ed.
  { unfold data. rewrite E. cbn [take app_reply].
    replace (Z.to_nat size) with (S (Z.to_nat (size - 1))) by lia. done. }
  rewrite Ed. unfold zlen. cbn [length drop]. rewrite !length_take. split; [lia|].
  rewrite take_take, skipn_firstn_comm, take_take, <- (le_combine_split_small 8 ns) by (cbn; lia).
  f_equal. etransitivity; [|exact Et]. f_equal. lia.
Qed.

(** The statistics of a list of times. *)
Record rtts_summed (mn mx sum count : Z) (l : list Z) : Prop := {
  rs_count : count = zlen l;
  rs_sum : sum = foldr Z.add 0 l;
  rs_bounds : l <> [] -> mn ∈ l /\ mx ∈ l /\ Forall (λ x, mn <= x <= mx) l
}.

Lemma foldr_add_app l1 l2 : foldr Z.add 0 (l1 ++ l2) = foldr Z.add 0 l1 + foldr Z.add 0 l2.
Proof. induction l1 as [|x l1 IH]; cbn; [done|]. rewrite IH. lia. Qed.

Lemma rtts_summed_snoc mn mx sum count l x :
  rtts_summed mn mx sum count l ->
  rtts_summed (if bool_decide (l = []) then x else Z.min mn x)
    (if bool_decide (l = []) then x else Z.max mx x) (sum + x) (count + 1) (l ++ [x]).
Proof.
  intros [Hc Hs Hb]. split.
  - unfold zlen in *. rewrite length_app. cbn. lia.
  - rewrite foldr_add_app. cbn. lia.
  - intros _. case_bool_decide as E.
    + subst l. cbn [app]. rewrite !list_elem_of_singleton, list.Forall_singleton. lia.
    + destruct (Hb E) as (H1 & H2 & HF). rewrite !elem_of_app, !list_elem_of_singleton.
      split; [destruct (Z.min_spec mn x) as [[_ ->]|[_ ->]]; auto|].
      split; [destruct (Z.max_spec mx x) as [[_ ->]|[_ ->]]; auto|].
      assert (mn <= mx) by (rewrite list.Forall_forall in HF; apply (HF mn) in H1; lia).
      apply list.Forall_app. split; [|apply list.Forall_singleton; lia].
      eapply Forall_impl; [|exact HF]. intros y Hy. cbn in Hy |- *. lia.
Qed.

Lemma zlen_store_at off bytes buf : (off + length bytes <= length buf)%nat ->
  length (store_at off bytes buf) = length buf.
Proof. intros Hl. unfold store_at. rewrite !length_app, length_take, length_drop. lia. Qed.

(** *** The client with embedded timestamps *)

(** A step of the statistics, and what they mean as long as the sum fits. *)
Definition add_measured (st : rtt_stats) (o : option Z) : rtt_stats :=
  match o with Some x => add_rtt x st | None => st end.

Lemma add_measured_spec l : forall st l0,
  rtts_summed (r_min st) (r_max st) (r_sum st) (r_received st) l0 ->
  (l0 = [] -> r_min st = 2 ^ 64 - 1 /\ r_max st = 0) ->
  Forall (λ o, match o with Some x => 0 <= x < 2 ^ 63 | None => True end) l ->
  Forall (λ x, 0 <= x) l0 -> foldr Z.add 0 (l0 ++ omap id l) < 2 ^ 64 ->
  let st' := foldl add_measured st l in
  rtts_summed (r_min st') (r_max st') (r_sum st') (r_received st') (l0 ++ omap id l).
Proof.
  induction l as [|o l IH]; intros st l0 Hst H0 HF Hl0 Hsum; cbn [foldl omap list_omap];
    [by rewrite app_nil_r|].
  apply list.Forall_cons in HF as [Hx HF]. destruct o as [x|]; cbn [add_measured id omap list_omap] in *;
    [|by apply IH].
  change (match id (Some x) with Some y => y :: omap id l | None => omap id l end) with (x :: omap id l) in *.
  replace (l0 ++ x :: omap id l) with ((l0 ++ [x]) ++ omap id l) in * by by rewrite <- app_assoc.
  assert (forall m, Forall (λ y, 0 <= y) m -> 0 <= foldr Z.add 0 m) as Hpos.
  { induction 1; cbn; lia. }
  apply IH; [| |done|apply list.Forall_app; split; [done|apply list.Forall_singleton; lia]|done].
  - pose proof (rtts_summed_snoc _ _ _ _ _ x Hst) as Hn. destruct Hst as [Hc Hs Hb].
    unfold add_rtt. cbn [r_min r_max r_sum r_received].
    assert (u64 (r_sum st + x) = r_sum st + x) as ->.
    { apply u_small. rewrite !foldr_add_app in Hsum. cbn [foldr] in Hsum.
      assert (0 <= foldr Z.add 0 (omap id l)) as Hp.
      { apply Hpos. apply list.Forall_forall. intros y Hy. apply list_elem_of_omap in Hy as (o & Ho & E).
        rewrite list.Forall_forall in HF. specialize (HF o Ho). destruct o; [|done].
        injection E as ->. lia. }
      pose proof (Hpos l0 Hl0). lia. }
    destruct (decide (l0 = [])) as [->|Hne].
    + destruct (H0 eq_refl) as [-> ->]. cbn [app] in *. rewrite bool_decide_true in Hn by done.
      destruct (Z.ltb_spec x (2 ^ 64 - 1)); [|lia]. destruct (Z.ltb_spec 0 x); [done|].
      by replace x with 0 in * by lia.
    + rewrite bool_decide_false in Hn by done.
      replace (if x <? r_min st then x else r_min st) with (Z.min (r_min st) x) by (case_bool; lia).
      by replace (if r_max st <? x then x else r_max st) with (Z.max (r_max st) x) by (case_bool; lia).
  - intros E. by destruct l0.
Qed.

Lemma ping_loop_echo dst payload : 13 <= payload -> forall left i buf st (n : net),
  queue n = [] -> steady (clk n) -> zlen buf = payload ->
  exists n', ping_loop (H := echo_sockets app_reply) left i dst payload buf st n
    = (Ret (foldl add_measured st (measured false (clk n) (lost n) left (sends n) (reads n))), n').
Proof.
  intros Hp left. induction left as [|left IH]; intros i buf st n Hq Hc Hb; [by exists n|].
  cbn [ping_loop]. rewrite sys_bind. cbn [sk_clock echo_sockets fst snd].
  set (b1 := store_at 1 (le_split 4 i) buf). pose proof (Hc (reads n)) as Hc1.
  pose proof (Hc (S (reads n))) as Hc2. rewrite ts_of_ns_ns by lia.
  set (b2 := store_at 5 (le_split 8 (clk n (reads n))) b1).
  assert (zlen b1 = payload /\ zlen b2 = payload) as [Hb1 Hb2].
  { unfold b2, b1, zlen in *.
    repeat rewrite zlen_store_at; rewrite ?length_le_split, ?zlen_store_at;
      rewrite ?length_le_split; lia. }
  rewrite sys_bind. cbn [sk_sendto echo_sockets fst snd]. rewrite (proj2 (Z.ltb_ge _ _)) by lia.
  rewrite sys_bind. cbn [sk_recvfrom echo_sockets queue clk reads lost sends].
  rewrite Hq. cbn [app measured foldl]. destruct (lost n (sends n)) eqn:El.
  - cbn [fst snd tl]. match goal with |- context [ping_loop left (i + 1) dst payload b2 st ?m] =>
      destruct (IH (i + 1) b2 st m) as (n' & ->) end; [done|done|done|]. by exists n'.
  - rewrite server_answer_eq. cbn [map fst snd tl]. rewrite sys_bind. cbn [sk_clock echo_sockets fst snd clk reads].
    destruct (meta_echo b1 (clk n (reads n)) payload) as [Hd Em]; [lia|lia|lia|]. fold b2 in Hd, Em.
    unfold META_SIZE. rewrite (proj2 (Z.ltb_ge _ _)) by lia. rewrite Em, ts_of_ns_ns by lia.
    rewrite u_small by lia.
    match goal with |- context [ping_loop left (i + 1) dst payload b2 ?st' ?m] =>
      destruct (IH (i + 1) b2 st' m) as (n' & ->) end; [done|done|done|]. by exists n'.
Qed.

Lemma client_options_ok opts : forall c0 c, client_options opts c0 = inl c -> 13 <= c_payload c.
Proof.
  induction opts as [|[o a] opts IH]; intros c0 c; cbn [client_options].
  - destruct (_ || _); [done|]. destruct (Z.ltb_spec (c_payload c0) (1 + META_SIZE)) as [|Hp]; [done|].
    intros [= <-]. unfold META_SIZE in Hp. lia.
  - destruct (client_option o a c0); [apply IH|done].
Qed.

(** C27: The client against the server: every test whose reply is not lost is
    measured, with the time between its two readings of the clock, although the
    server changes the packet and may truncate it to 1500 bytes; number, sum,
    minimum and maximum are those of the measured times. *)
Theorem udp_client_measures opts c (n : net) :
  client_options opts client_defaults = inl c ->
  is_Some (inet_pton (c_server c)) -> c_src_ip c = [] ->
  queue n = [] -> steady (clk n) ->
  let l := omap id (measured false (clk n) (lost n) (Z.to_nat (c_count c)) (sends n) (reads n)) in
  foldr Z.add 0 l < 2 ^ 64 ->
  exists st n', udp_client_main (H := echo_sockets app_reply) opts n = (Ret (0, Some st), n') /\
    rtts_summed (r_min st) (r_max st) (r_sum st) (r_received st) l.
Proof.
  intros Ho [a Ha] Hsrc Hq Hc l Hsum. pose proof (client_options_ok _ _ _ Ho) as Hp.
  assert (zlen (client_buffer (c_payload c)) = c_payload c) as Hb.
  { unfold zlen, client_buffer. rewrite length_insert, repeat_length. lia. }
  destruct (ping_loop_echo (mk_sockaddr (htons (u16 (c_dst_port c))) a) (c_payload c) Hp
    (Z.to_nat (c_count c)) 0 (client_buffer (c_payload c)) no_rtt n Hq Hc Hb) as (n' & E).
  set (st := foldl _ _ _) in E. exists st, n'. split.
  - unfold udp_client_main. rewrite Ho, sys_bind. cbn [sk_socket echo_sockets fst snd].
    change (3 <? 0) with false. cbv iota. rewrite Hsrc, Ha. rewrite !(bool_decide_true ([] = [])) by done.
    cbn [negb orb]. rewrite orb_false_r.
    destruct (negb (c_src_port c =? 0)).
    + rewrite bind_assoc, sys_bind. cbn [sk_bind echo_sockets fst snd]. rewrite (run_bind _ _ _ _ _ (run_ret _ n)).
      change (negb (0 =? 0)) with false. cbv iota.
      rewrite !sys_bind. cbn [sk_malloc echo_sockets fst snd negb orb].
      by rewrite (run_bind _ _ _ _ _ E).
    + rewrite (run_bind _ _ _ _ _ (run_ret true n)). cbn [negb].
      rewrite !sys_bind. cbn [sk_malloc echo_sockets fst snd negb orb].
      by rewrite (run_bind _ _ _ _ _ E).
  - apply (add_measured_spec _ no_rtt []); [by split|done|by apply measured_range|done|exact Hsum].
Qed.

(** *** The client over the kernel's sockets *)

(** The rows for the measured times from test [i] on. *)
Fixpoint rows_of (i : Z) (l : list (option Z)) : list (Z * Z) :=
  match l with
  | [] => []
  | Some x :: l' => (i, x) :: rows_of (i + 1) l'
  | None :: l' => rows_of (i + 1) l'
  end.

Lemma rows_of_times l : forall i, map snd (rows_of i l) = omap id l.
Proof.
  induction l as [|[x|] l IH]; intros i; [done| |].
  - cbn [rows_of map snd]. rewrite IH. done.
  - cbn [rows_of]. rewrite IH. done.
Qed.

(** The counters of [st] describe its rows. *)
Definition k_summed (st : kstats) : Prop :=
  rtts_summed (k_min st) (k_max st) (k_sum st) (k_ok st) (map snd (k_rows st)).

Lemma k_add_summed i x st : k_summed st -> k_summed (k_add i x st).
Proof.
  intros Hst. pose proof (rtts_summed_snoc _ _ _ _ _ x Hst) as Hn. destruct Hst as [Hc _ _].
  unfold k_summed, k_add. cbn [k_min k_max k_sum k_ok k_rows]. rewrite map_app. cbn [map snd].
  destruct (Z.eqb_spec (k_ok st) 0) as [E|E].
  - rewrite bool_decide_true in Hn; [done|]. apply nil_length_inv. unfold zlen in Hc. lia.
  - rewrite bool_decide_false in Hn by (intros E'; rewrite E' in Hc; by rewrite Hc in E).
    replace (if x <? k_min st then x else k_min st) with (Z.min (k_min st) x) by (case_bool; lia).
    by replace (if k_max st <? x then x else k_max st) with (Z.max (k_max st) x) by (case_bool; lia).
Qed.

Lemma kping_loop_echo dst payload : 0 < payload <= MAX_PAYLOAD -> forall left i st (n : net),
  queue n = [] -> k_summed st ->
  exists st' n', kping_loop (H := echo_sockets kernel_reply) left i dst payload st n = (Ret st', n') /\
    k_rows st' = k_rows st ++ rows_of i (measured true (clk n) (lost n) left (sends n) (reads n)) /\
    k_summed st'.
Proof.
  unfold MAX_PAYLOAD. intros Hp left. induction left as [|left IH]; intros i st n Hq Hst.
  { exists st, n. split; [done|]. by rewrite app_nil_r. }
  cbn [kping_loop]. rewrite sys_bind. cbn [sk_clock echo_sockets fst snd].
  set (buf := <[0%nat := Z.land i 255]> (repeat 0 (Z.to_nat payload))).
  assert (zlen buf = payload) as Hb by (unfold zlen, buf; rewrite length_insert, repeat_length; lia).
  rewrite sys_bind. cbn [sk_sendto echo_sockets fst snd]. rewrite Hb, Z.eqb_refl. cbn [negb].
  rewrite sys_bind. cbn [sk_recvfrom echo_sockets queue clk reads lost sends].
  rewrite Hq. cbn [app measured]. destruct (lost n (sends n)) eqn:El.
  - cbn [fst snd tl]. rewrite sys_bind. cbn [sk_clock echo_sockets fst snd clk reads rows_of].
    match goal with |- context [kping_loop left (i + 1) dst payload st ?m] =>
      destruct (IH (i + 1) st m) as (st' & n' & -> & Hr & Hs) end; [done|done|].
    exists st', n'. split; [done|]. split; [exact Hr|done].
  - rewrite server_answer_eq. cbn [map fst snd tl]. rewrite sys_bind.
    cbn [sk_clock echo_sockets fst snd clk reads rows_of].
    change (kernel_reply (take 1500 buf)) with (take 1500 buf). rewrite take_take, take_ge by (unfold zlen in Hb; lia). rewrite Hb, Z.eqb_refl. cbn [negb].
    rewrite bool_decide_false by (intros Hx; by apply Hx).
    rewrite (proj2 (ts_diff _ _)).
    match goal with |- context [kping_loop left (i + 1) dst payload ?st1 ?m] =>
      destruct (IH (i + 1) st1 m) as (st' & n' & -> & Hr & Hs) end; [done|by apply k_add_summed|].
    exists st', n'. split; [done|]. split; [|done]. rewrite Hr. cbn [k_add k_rows clk lost sends reads].
    by rewrite <- app_assoc.
Qed.

(** The kernel-socket client against the plain echo server: the result file has
    exactly one row per reply that was not lost, with its packet number and time,
    and the printed figures are those of the rows. *)
Theorem udp_client_kernel_rows argv ntest payload (n : net) :
  kernel_args argv 64 64 = inl (ntest, payload) -> 0 < ntest -> 0 < payload <= MAX_PAYLOAD ->
  queue n = [] ->
  exists st n', udp_client_kernel_main (H := echo_sockets kernel_reply) true argv n = (Ret (0, Some st), n') /\
    k_rows st = rows_of 0 (measured true (clk n) (lost n) (Z.to_nat ntest) (sends n) (reads n)) /\
    k_summed st.
Proof.
  intros Ha Hn Hp Hq.
  destruct (inet_pton SERVER_IP) as [a|] eqn:Eip; [|by vm_compute in Eip].
  destruct (kping_loop_echo (mk_sockaddr (htons SERVER_PORT) a) payload Hp (Z.to_nat ntest) 0
    (mk_k 0 0 0 0 []) n Hq) as (st & n' & E & Hr & Hs); [by split|].
  exists st, n'. split; [|done]. unfold udp_client_kernel_main. rewrite Ha.
  rewrite !(proj2 (Z.leb_gt _ _)), (proj2 (Z.ltb_ge MAX_PAYLOAD payload)) by lia. cbn [orb negb].
  rewrite sys_bind. cbn [sk_socket echo_sockets fst snd]. change (3 <? 0) with false. cbv iota.
  rewrite Eip, sys_bind. cbn [sk_malloc echo_sockets fst snd negb]. by rewrite (run_bind _ _ _ _ _ E).
Qed.

(** *** The threads *)






Section threads.
Context (c : mt_cfg) (nets : nat -> net).
Hypothesis server_ok : is_Some (inet_pton (m_server c)).
Hypothesis idle : forall i, queue (nets i) = [] /\ steady (clk (nets i)).


End threads.


(** The throughput client sends the datagram until a send fails. *)
Lemma send_loop_run dst buf : forall left (n : Script.net),
  exists k n', send_loop (H := Script.script_sockets) left dst buf n = (Ret k, n') /\ (k <= left)%nat /\
    Script.outbox n' = Script.outbox n ++ repeat (dst, buf) k /\
    (forall j, (j < k)%nat -> Script.send_fails n (Script.sends n + j) = false) /\
    ((k < left)%nat -> Script.send_fails n (Script.sends n + k) = true).
Proof.
  intros left. induction left as [|left IH]; intros n.
  { exists 0%nat, n. split; [done|]. split; [lia|]. split; [by rewrite app_nil_r|]. split; intros; lia. }
  cbn [send_loop]. rewrite sys_bind. cbn [sk_sendto Script.script_sockets].
  destruct (Script.send_fails n (Script.sends n)) eqn:Ef; cbn [fst snd].
  - exists 0%nat. eexists. split; [reflexivity|]. split; [lia|]. cbn [Script.outbox repeat].
    split; [by rewrite app_nil_r|]. split; [intros; lia|]. intros _. by rewrite Nat.add_0_r.
  - rewrite (proj2 (Z.ltb_ge (zlen buf) 0)) by (unfold zlen; lia).
    match goal with |- context [send_loop left dst buf] =>
      match goal with |- context [bind _ _ ?m] => destruct (IH m) as (k & n' & E & Hk & Ho & Hl & Hf) end end.
    exists (S k), n'. rewrite (run_bind _ _ _ _ _ E). split; [done|]. split; [lia|].
    cbn [Script.outbox Script.send_fails Script.sends] in *. rewrite Ho, <- app_assoc. split; [done|]. split.
    + intros [|j] Hj; [by rewrite Nat.add_0_r|]. rewrite <- Nat.add_succ_comm. apply Hl. lia.
    + intros Hlt. rewrite <- Nat.add_succ_comm. apply Hf. lia.
Qed.

(** ** Examples *)

Definition ticking : net := mk_echo [] (λ j, Z.min (Z.of_nat j * 1000) 1000000) 0 (λ k, Nat.eqb k 1) 0.

Lemma ticking_ok : queue ticking = [] /\ steady (clk ticking).
Proof. split; [done|]. intros j. cbn [clk ticking]. lia. Qed.

Definition client_argv : list (Z * list Z) :=
  [(83, chars "10.0.0.2"); (80, chars "1111"); (110, chars "3")].

Lemma server_args_port_witness : server_args [chars "10.0.0.2"; print_dec 5 2222] = inl (chars "10.0.0.2", 2222).
Proof. by apply (server_args_port [] (chars "10.0.0.2") 2222). Defined.

Lemma udp_server_serves_witness :
  let n := Script.mk_net [Received (mk_sockaddr 7 [1; 2; 3; 4]) [255; 9]] [] (λ _, None) 0 (λ _, false) 0
             (false, false, false) in
  exists n', udp_server_main (H := Script.script_sockets) 5 [] n = (Ret None, n') /\
    Script.outbox n' = [(mk_sockaddr 7 [1; 2; 3; 4], [0; 9])].
Proof.
  intros n. destruct (udp_server_serves 5 [] DEFAULT_ADDR DEFAULT_PORT n) as (n' & E & Ho);
    [done|by left; vm_compute|done|]. exists n'. split; [exact E|]. rewrite Ho. reflexivity.
Defined.

Lemma udp_client_measures_witness :
  exists st n', udp_client_main (H := echo_sockets app_reply) client_argv ticking = (Ret (0, Some st), n') /\
    r_received st = 2.
Proof.
  destruct (udp_client_measures client_argv
    (mk_cfg (chars "10.0.0.2") 1111 3 1500 1000 0 []) ticking) as (st & n' & E & [Hc _ _]);
    [vm_compute; reflexivity|eexists; vm_compute; reflexivity|done|done|apply ticking_ok|done|].
  exists st, n'. split; [exact E|]. rewrite Hc. vm_compute. reflexivity.
Defined.

Lemma udp_client_kernel_rows_witness :
  exists st n', udp_client_kernel_main (H := echo_sockets kernel_reply) true
      [chars "--ntest=3"; chars "--payload-size"; chars "100"] ticking = (Ret (0, Some st), n') /\
    k_rows st = [(0, 1000); (2, 1000)].
Proof.
  destruct (udp_client_kernel_rows [chars "--ntest=3"; chars "--payload-size"; chars "100"] 3 100 ticking)
    as (st & n' & E & Hr & _); [vm_compute; reflexivity|done|done|done|].
  exists st, n'. split; [exact E|]. rewrite Hr. vm_compute. reflexivity.
Defined.


