(* ===== verification/FileTransfer.v ===== *)
(** * The file transfer programs ([file_sender.c], [file_receiver.c])

    The same two programs stand in [lib/] and [app/].  A TCP connection is a
    stream of bytes: what is sent is appended to it, and it is delivered in
    segments of any size, [recv] returning at most the first one.  What the receiver's
    local variables hold before they are written is a parameter.  The file system is a
    map from names to contents. *)

From Stdlib Require String.
From S2P Require Import Prelude Prog Common CLib UserMem.
Import String.StringSyntax.

Definition PORT : Z := 8080.
Definition FT_BUF_SIZE : Z := 4096.

Abbreviation files := (gmap (list Z) (list Z)).

(** ** [basename] *)

Definition SLASH : Z := 47.

Fixpoint drop_slashes (l : list Z) : list Z :=
  match l with c :: l' => if c =? SLASH then drop_slashes l' else l | [] => [] end.

Fixpoint until_slash (l : list Z) : list Z :=
  match l with c :: l' => if c =? SLASH then [] else c :: until_slash l' | [] => [] end.

Definition basename (path : list Z) : list Z :=
  match path with
  | [] => [DOT]
  | _ => match drop_slashes (reverse path) with
         | [] => [SLASH]
         | l => reverse (until_slash l)
         end
  end.

(** What [basename] leaves of its argument: trailing slashes are cut off. *)
Definition basename_arg (path : list Z) : list Z :=
  match drop_slashes (reverse path) with [] => path | l => reverse l end.

(** ** The sender *)

(** [accept k] is the number of bytes the [k]-th [send] takes, or an error. *)
Record send_state := mk_send {
  wire : list Z;
  sent : nat;
  accept : nat -> option nat
}.

Definition send (data : list Z) : prog send_state Z := λ s,
  match accept s (sent s) with
  | None => (Ret (-1), mk_send (wire s) (S (sent s)) (accept s))
  | Some k => let d := take k data in
              (Ret (zlen d), mk_send (wire s ++ d) (S (sent s)) (accept s))
  end.

(** [htonl(len)] as it lies in memory. *)
Definition be32 (v : Z) : list Z := le_split 4 (htonl (u32 v)).

(** [while ((n = fread(...)) > 0)]: [true] when everything was sent. *)
Fixpoint send_file (fuel : nat) (contents : list Z) : prog send_state bool :=
  match fuel with
  | O => diverge
  | S f =>
      let buffer := take (Z.to_nat FT_BUF_SIZE) contents in
      if bool_decide (buffer = []) then mret true
      else
        n ← send buffer;
        if n <? 0 then mret false else send_file f (drop (Z.to_nat FT_BUF_SIZE) contents)
  end.

(** [connects]: the results of [socket] and [connect]. *)
Definition sender_main (fs : files) (connects : bool * bool) (argv : list (list Z)) : prog send_state Z :=
  match argv with
  | [ip; path] =>
      if negb connects.1 then mret (-1)
      else
        match inet_pton ip with
        | None => mret (-1)
        | Some _ =>
            if negb connects.2 then mret (-1)
            else
              let fname := basename path in
              n ← send (be32 (zlen fname));
              if n <? 0 then mret (-1)
              else
                n ← send fname;
                if n <? 0 then mret (-1)
                else
                  match fs !! basename_arg path with
                  | None => mret (-1)
                  | Some contents =>
                      b ← send_file (S (length contents)) contents;
                      mret (if (b : bool) then 0 else -1)
                  end
        end
  | _ => mret (-1)
  end.

(** ** The receiver *)

(** [recv(size)]: at most the first segment. *)
Definition recv (size : Z) (segs : list (list Z)) : list Z * list (list Z) :=
  match segs with
  | [] => ([], [])
  | d :: rest =>
      let k := Z.to_nat size in
      (take k d, match drop k d with [] => rest | d' => d' :: rest end)
  end.

(** The C string in a buffer: up to the first NUL. *)
Fixpoint c_string (buf : list Z) : option (list Z) :=
  match buf with
  | [] => None
  | c :: buf' => if c =? 0 then Some [] else cons c <$> c_string buf'
  end.

(** A variable of which the first bytes are overwritten. *)
Definition overwrite (got old : list Z) : list Z := got ++ drop (length got) old.

(** The variables of one round of the loop before they are written. *)
Record locals := mk_locals { old_len : list Z; old_name : list Z }.

(** 4 and 256 bytes. *)
Definition locals_ok (o : locals) : Prop := length (old_len o) = 4%nat /\ length (old_name o) = 256%nat.

(** [while ((n = recv(...)) > 0) fwrite(...);] *)
Fixpoint receive_file (fuel : nat) (segs : list (list Z)) : option (list Z) :=
  match fuel with
  | O => None
  | S f =>
      let '(d, segs') := recv FT_BUF_SIZE segs in
      match d with
      | [] => Some []
      | _ => app d <$> receive_file f segs'
      end
  end.

Section receiver.
Context (can_open : list Z -> bool).
Abbreviation M := (prog files).

(** One connection; [Some c]: the process returns [c]. *)
Definition receive_one (o : locals) (segs : list (list Z)) : M (option Z) :=
  let '(h, segs) := recv 4 segs in
  if bool_decide (h = []) then mret (Some 1)
  else
    let fname_len := htonl (le_combine (overwrite h (old_len o))) in
    if 256 <=? fname_len then mret (Some 1)
    else
      let '(got, segs) := recv fname_len segs in
      if bool_decide (got = []) then mret (Some 1)
      else
        let buf := <[Z.to_nat fname_len := 0]> (overwrite got (old_name o)) in
        filename ← deref (c_string buf) OutOfBounds;
        if negb (can_open filename) then mret (Some 1)
        else
          match receive_file (S (length (concat segs) + length segs)) segs with
          | None => diverge
          | Some contents => modify (λ fs, <[filename := contents]> fs);; mret None
          end.


End receiver.

(** ** Facts *)

(** A socket that takes whole buffers. *)
Definition takes_all (s : send_state) : Prop := forall k, exists m, accept s k = Some m /\ (4096 <= m)%nat.

Lemma send_takes_all data s : takes_all s -> (length data <= 4096)%nat ->
  send data s = (Ret (zlen data), mk_send (wire s ++ data) (S (sent s)) (accept s)).
Proof.
  intros Ht Hl. unfold send. destruct (Ht (sent s)) as (m & -> & Hm). by rewrite take_ge by lia.
Qed.

Lemma send_file_run fuel : forall contents s, takes_all s -> (length contents < fuel)%nat ->
  exists n, send_file fuel contents s = (Ret true, mk_send (wire s ++ contents) n (accept s)).
Proof.
  induction fuel as [|f IH]; intros contents s Ht Hf; [lia|]. cbn [send_file].
  change (Z.to_nat FT_BUF_SIZE) with 4096%nat. case_bool_decide as Hb.
  - assert (contents = []) as -> by (destruct contents; [done|discriminate Hb]).
    exists (sent s). rewrite app_nil_r. by destruct s.
  - rewrite (run_bind _ _ _ _ _ (send_takes_all (take 4096 contents) s Ht ltac:(rewrite length_take; lia))).
    rewrite (proj2 (Z.ltb_ge (zlen (take 4096 contents)) 0)) by (unfold zlen; lia).
    assert (contents <> []) as Hne by by intros ->. assert (0 < length contents)%nat by (destruct contents; [done|cbn; lia]).
    destruct (IH (drop 4096 contents) (mk_send (wire s ++ take 4096 contents) (S (sent s)) (accept s)))
      as (n & E); [exact Ht|rewrite length_drop; lia|].
    exists n. rewrite E. cbn [wire accept]. by rewrite <- app_assoc, take_drop.
Qed.

(** Every connection's bytes after the header, however they are split. *)
Lemma receive_file_run fuel : forall segs, Forall (λ d, d <> []) segs -> (length (concat segs) + length segs < fuel)%nat ->
  receive_file fuel segs = Some (concat segs).
Proof.
  induction fuel as [|f IH]; intros segs HF Hf; [lia|]. cbn [receive_file].
  destruct segs as [|d rest]; [done|]. apply list.Forall_cons in HF as [Hd HF].
  cbn [recv]. change (Z.to_nat FT_BUF_SIZE) with 4096%nat. cbn [concat length] in Hf |- *.
  rewrite length_app in Hf.
  assert (take 4096 d <> []) as Ht by (destruct d; [done|discriminate]).
  assert (0 < length d)%nat by (destruct d; [done|cbn; lia]).
  destruct (take 4096 d) as [|c t] eqn:Et; [done|]. rewrite <- Et.
  destruct (drop 4096 d) as [|c' d'] eqn:Ed.
  - rewrite IH by (done || lia). cbn. f_equal. f_equal.
    by rewrite <- (take_drop 4096 d) at 2; rewrite Ed, app_nil_r.
  - assert (length (drop 4096 d) + length (take 4096 d) = length d)%nat as Hl.
    { rewrite length_drop, length_take. lia. }
    rewrite Et, Ed in Hl. cbn [length] in Hl.
    rewrite IH; [|by apply list.Forall_cons|cbn [concat]; rewrite length_app; cbn [length]; lia].
    cbn [concat fmap option_fmap option_map]. f_equal. rewrite <- Ed, app_assoc, take_drop. done.
Qed.

Lemma htonl_bytes a b c d : is_byte a -> is_byte b -> is_byte c -> is_byte d ->
  htonl (a + 256 * b + 65536 * c + 16777216 * d) = 16777216 * a + 65536 * b + 256 * c + d.
Proof.
  unfold is_byte, htonl. intros Ha Hb Hc Hd. set (x := a + _ + _ + _).
  assert (x / 256 = b + 256 * c + 65536 * d) as E1 by (symmetry; apply Z.div_unique with a; unfold x; lia).
  assert (x / 65536 = c + 256 * d) as E2 by (symmetry; apply Z.div_unique with (a + 256 * b); unfold x; lia).
  assert (x / 16777216 = d) as E3
    by (symmetry; apply Z.div_unique with (a + 256 * b + 65536 * c); unfold x; lia).
  rewrite E1, E2, E3.
  assert (x mod 256 = a) as -> by (symmetry; apply Z.mod_unique with (b + 256 * c + 65536 * d); unfold x; lia).
  assert ((b + 256 * c + 65536 * d) mod 256 = b) as ->
    by (symmetry; apply Z.mod_unique with (c + 256 * d); lia).
  assert ((c + 256 * d) mod 256 = c) as -> by (symmetry; apply Z.mod_unique with d; lia).
  rewrite Z.mod_small by lia. done.
Qed.

Lemma htonl_htonl v : 0 <= v < 2 ^ 32 -> htonl (htonl v) = v /\ 0 <= htonl v < 2 ^ 32.
Proof.
  intros Hv. set (a := v mod 256). set (b := v / 256 mod 256). set (c := v / 65536 mod 256).
  set (d := v / 16777216).
  assert (v = a + 256 * b + 65536 * c + 16777216 * d) as Ev.
  { unfold a, b, c, d. change 65536 with (256 * 256). change 16777216 with (256 * 256 * 256).
    rewrite <- !Z.div_div by lia. zdm. }
  assert (is_byte a /\ is_byte b /\ is_byte c /\ is_byte d) as (Ha & Hb & Hc & Hd).
  { unfold is_byte, a, b, c, d. repeat split; try (apply Z.mod_pos_bound; lia).
    - apply Z.div_pos; lia.
    - apply Z.div_lt_upper_bound; lia. }
  clearbody a b c d. subst v. rewrite htonl_bytes by done.
  replace (16777216 * a + 65536 * b + 256 * c + d) with (d + 256 * c + 65536 * b + 16777216 * a) by lia.
  rewrite htonl_bytes by done. unfold is_byte in *. lia.
Qed.

Lemma be32_back v : 0 <= v < 2 ^ 32 -> htonl (le_combine (be32 v)) = v.
Proof.
  intros Hv. destruct (htonl_htonl v Hv) as [E Hr]. unfold be32.
  rewrite u_small, le_combine_split_small by (done || exact Hr). done.
Qed.

(** *** What [recv] returns *)

Lemma recv_concat k segs : (recv k segs).1 ++ concat (recv k segs).2 = concat segs.
Proof.
  destruct segs as [|d rest]; [done|]. cbn [recv fst snd concat].
  rewrite <- (take_drop (Z.to_nat k) d) at 3. rewrite <- app_assoc. f_equal.
  by destruct (drop (Z.to_nat k) d).
Qed.

Lemma recv_nonempty k segs : Forall (λ d, d <> []) segs -> Forall (λ d : list Z, d <> []) (recv k segs).2.
Proof.
  intros HF. destruct HF as [|d rest Hd HF]; [done|]. cbn [recv snd].
  destruct (drop (Z.to_nat k) d) eqn:E; [done|]. by constructor.
Qed.

(** A read that delivers all it was asked for. *)
Lemma recv_whole k segs h rest : zlen (recv k segs).1 = zlen h -> concat segs = h ++ rest ->
  (recv k segs).1 = h /\ concat (recv k segs).2 = rest.
Proof.
  intros Hl Hc. pose proof (recv_concat k segs) as E. rewrite Hc in E.
  apply app_inj_1 in E; [done|]. unfold zlen in Hl. lia.
Qed.

Lemma c_string_nul name : Forall (λ c, c <> 0) name -> c_string (name ++ [0]) = Some name.
Proof.
  induction 1 as [|c name Hc _ IH]; [done|]. cbn [app c_string].
  by rewrite (proj2 (Z.eqb_neq c 0) Hc), IH.
Qed.

Lemma drop_slashes_sub l c : c ∈ drop_slashes l -> c ∈ l.
Proof. induction l as [|x l IH]; cbn; [done|]. destruct (_ =? _); rewrite elem_of_cons; auto. Qed.

Lemma until_slash_sub l c : c ∈ until_slash l -> c ∈ l.
Proof.
  induction l as [|x l IH]; cbn; [done|]. destruct (_ =? _); [by intros ?%not_elem_of_nil|].
  rewrite !elem_of_cons. naive_solver.
Qed.

Lemma basename_chars path c : c ∈ basename path -> c ∈ path \/ c = DOT \/ c = SLASH.
Proof.
  unfold basename. destruct path as [|x path]; [rewrite list_elem_of_singleton; auto|].
  destruct (drop_slashes (reverse (x :: path))) as [|y l] eqn:E; [rewrite list_elem_of_singleton; auto|].
  rewrite elem_of_reverse. intros Hc%until_slash_sub. left.
  apply elem_of_reverse, drop_slashes_sub. by rewrite E.
Qed.

(** The first character of the remaining path is no slash. *)
Lemma drop_slashes_head l x l' : drop_slashes l = x :: l' -> x <> SLASH.
Proof.
  induction l as [|y l IH]; cbn; [done|]. destruct (Z.eqb_spec y SLASH); [done|]. by intros [= <- <-].
Qed.

Lemma basename_nonempty path : basename path <> [].
Proof.
  unfold basename. destruct path as [|x path]; [done|].
  destruct (drop_slashes (reverse (x :: path))) as [|y l] eqn:E; [done|].
  apply drop_slashes_head in E. cbn [until_slash]. rewrite (proj2 (Z.eqb_neq y SLASH) E), reverse_cons.
  by destruct (reverse (until_slash l)).
Qed.

(** *** The transfer *)

(** What the sender puts on the wire. *)
Definition message (name contents : list Z) : list Z := be32 (zlen name) ++ name ++ contents.

Lemma sender_run fs ip path contents s :
  takes_all s -> is_Some (inet_pton ip) -> fs !! basename_arg path = Some contents ->
  zlen (basename path) < 256 ->
  exists s', sender_main fs (true, true) [ip; path] s = (Ret 0, s') /\
    wire s' = wire s ++ message (basename path) contents.
Proof.
  intros Ht [a Ha] Hf Hn. unfold sender_main. cbn [negb fst snd]. rewrite Ha. set (name := basename path) in *.
  unfold zlen in Hn.
  rewrite (run_bind _ _ _ _ _ (send_takes_all (be32 (zlen name)) s Ht ltac:(cbn; lia))).
  rewrite (proj2 (Z.ltb_ge (zlen (be32 (zlen name))) 0)) by (unfold zlen; lia).
  match goal with |- context [bind (send name) _ ?s1] =>
    rewrite (run_bind _ _ _ _ _ (send_takes_all name s1 Ht ltac:(lia))) end.
  rewrite (proj2 (Z.ltb_ge (zlen name) 0)) by (unfold zlen; lia). rewrite Hf.
  match goal with |- context [bind (send_file ?f _) _ ?s2] =>
    destruct (send_file_run f contents s2) as (n & E) end; [exact Ht|lia|].
  rewrite (run_bind _ _ _ _ _ E). eexists. split; [reflexivity|]. cbn [wire accept].
  unfold message. by rewrite <- !app_assoc.
Qed.

(** The string in the buffer when the whole name was received. *)
Lemma name_buffer name old :
  Forall (λ c, c <> 0) name -> zlen name < 256 -> length old = 256%nat ->
  c_string (<[Z.to_nat (zlen name) := 0]> (overwrite name old)) = Some name.
Proof.
  intros Hn Hl Ho. unfold overwrite, zlen in *. rewrite Nat2Z.id.
  destruct (drop (length name) old) as [|x l] eqn:E.
  { apply (f_equal length) in E. rewrite length_drop in E. cbn in E. lia. }
  replace (length name) with (length name + 0)%nat at 1 by lia. rewrite insert_app_r. cbn [insert list_insert].
  clear E Hl. induction Hn as [|c name Hc _ IH]; [done|]. cbn [app c_string].
  rewrite (proj2 (Z.eqb_neq c 0) Hc). by rewrite IH.
Qed.

(** What a connection has to deliver for the file to arrive: the message in segments of
    any size, each of the two header fields in one piece. *)
Record delivers (name contents : list Z) (segs : list (list Z)) : Prop := {
  de_bytes : concat segs = message name contents;
  de_nonempty : Forall (λ d, d <> []) segs;
  de_len : zlen (recv 4 segs).1 = 4;
  de_name : zlen (recv (zlen name) (recv 4 segs).2).1 = zlen name
}.

(** A name that fits and is a C string. *)
Definition name_ok (name : list Z) : Prop := name <> [] /\ Forall (λ c, c <> 0) name /\ zlen name < 256.

Lemma receive_one_run can_open name contents segs o fs :
  name_ok name -> can_open name = true -> delivers name contents segs -> locals_ok o ->
  receive_one can_open o segs fs = (Ret None, <[name := contents]> fs).
Proof.
  intros (Hne & Hnz & Hn) Hopen [Hc HF H4 Hname] [Hol Hon]. unfold receive_one.
  destruct (recv_whole 4 segs (be32 (zlen name)) (name ++ contents) H4 Hc) as [Eh Er].
  destruct (recv_whole (zlen name) (recv 4 segs).2 name contents Hname Er) as [En Ec].
  apply (recv_nonempty 4) in HF. apply (recv_nonempty (zlen name)) in HF.
  assert (0 <= zlen name) by (unfold zlen; lia).
  destruct (recv 4 segs) as [h segs1]. cbn [fst snd] in *. subst h.
  rewrite bool_decide_false by done.
  assert (overwrite (be32 (zlen name)) (old_len o) = be32 (zlen name)) as ->.
  { unfold overwrite. rewrite (drop_ge (old_len o)) by (rewrite Hol; cbn; lia). apply app_nil_r. }
  rewrite be32_back by lia. rewrite (proj2 (Z.leb_gt _ _)) by lia.
  destruct (recv (zlen name) segs1) as [got segs2]. cbn [fst snd] in *. subst got.
  rewrite bool_decide_false by done. rewrite name_buffer by done.
  rewrite (run_bind _ _ _ _ _ (run_ret name fs : deref (Some name) OutOfBounds fs = _)).
  rewrite Hopen. cbn [negb]. rewrite receive_file_run, Ec by (done || lia). done.
Qed.

Lemma basename_ok path : Forall (λ c, c <> 0) path -> zlen (basename path) < 256 -> name_ok (basename path).
Proof.
  intros Hnul Hn. split; [apply basename_nonempty|]. split; [|done].
  apply list.Forall_forall. intros c Hin%basename_chars. rewrite list.Forall_forall in Hnul.
  destruct Hin as [Hin|[-> | ->]]; [by apply Hnul|done|done].
Qed.

(** C12: The file arrives: whatever [sender_main] sends, in whatever segments it is
    delivered, the receiver stores the same contents under the last component of
    the path, whatever its variables held, provided that the two header fields each
    arrive in one piece. *)
Theorem file_transfer_roundtrip fs fs' ip path contents s can_open :
  takes_all s -> wire s = [] -> is_Some (inet_pton ip) -> fs !! basename_arg path = Some contents ->
  Forall (λ c, c <> 0) path -> zlen (basename path) < 256 -> can_open (basename path) = true ->
  exists s', sender_main fs (true, true) [ip; path] s = (Ret 0, s') /\
    forall o segs, locals_ok o -> concat segs = wire s' -> Forall (λ d, d <> []) segs ->
      zlen (recv 4 segs).1 = 4 ->
      zlen (recv (zlen (basename path)) (recv 4 segs).2).1 = zlen (basename path) ->
      receive_one can_open o segs fs' = (Ret None, <[basename path := contents]> fs').
Proof.
  intros Ht Hw Hip Hf Hnul Hn Hopen. destruct (sender_run fs ip path contents s Ht Hip Hf Hn) as (s' & E & Ew).
  exists s'. split; [exact E|]. intros o segs Ho Hc HF H4 Hname. rewrite Ew, Hw in Hc. cbn [app] in Hc.
  apply receive_one_run; [by apply basename_ok|done|by split|done].
Qed.

(** *** The server *)





(** A name that arrives in two pieces is taken to be the first piece followed by what the
    buffer held before, and the second piece is taken for the beginning of the file. *)
Theorem split_name_misfiled can_open o n1 n2 contents rest fs :
  let name := n1 ++ n2 in
  locals_ok o -> name_ok name -> n1 <> [] -> n2 <> [] ->
  exists filename,
    c_string (<[Z.to_nat (zlen name) := 0]> (overwrite n1 (old_name o))) = filename /\
    (forall f, filename = Some f -> can_open f = true -> concat rest = contents -> Forall (λ d, d <> []) rest ->
       receive_one can_open o (be32 (zlen name) :: n1 :: n2 :: rest) fs
       = (Ret None, <[f := n2 ++ contents]> fs)).
Proof.
  intros name [Hol Hon] (Hne & Hnz & Hn) H1 H2. eexists. split; [reflexivity|]. intros f Ef Hopen Hr HF.
  assert (0 <= zlen name) by (unfold zlen; lia). unfold receive_one. cbn [recv].
  change (take (Z.to_nat 4) (be32 (zlen name))) with (be32 (zlen name)).
  change (drop (Z.to_nat 4) (be32 (zlen name))) with (@nil Z). rewrite bool_decide_false by done.
  assert (overwrite (be32 (zlen name)) (old_len o) = be32 (zlen name)) as ->.
  { unfold overwrite. rewrite (drop_ge (old_len o)) by (rewrite Hol; cbn; lia). apply app_nil_r. }
  rewrite be32_back by lia. rewrite (proj2 (Z.leb_gt _ _)) by lia. cbn [recv].
  assert (length n1 < Z.to_nat (zlen name))%nat as Hlt.
  { unfold zlen, name. rewrite Nat2Z.id, length_app. destruct n2; [done|cbn; lia]. }
  rewrite (take_ge n1), (drop_ge n1) by lia. rewrite bool_decide_false by done. rewrite Ef.
  rewrite (run_bind _ _ _ _ _ (run_ret f fs : deref (Some f) OutOfBounds fs = _)), Hopen. cbn [negb].
  rewrite receive_file_run; [cbn [concat]; by rewrite Hr| |lia]. by constructor.
Qed.

(** ** Examples *)

Definition a_file : files := {[ chars "a/b.txt" := [10; 20; 30; 40; 50] ]}.
Definition a_socket : send_state := mk_send [] 0 (λ _, Some 5000%nat).
Definition dirty : locals := mk_locals (repeat 77 4) (repeat 77 256).
Definition b_segs : list (list Z) := [[0; 0; 0; 5; 98; 46; 116; 120; 116; 10]; [20; 30]; [40; 50]].

Lemma file_transfer_roundtrip_witness :
  receive_one (λ _, true) dirty b_segs ∅ = (Ret None, {[ chars "b.txt" := [10; 20; 30; 40; 50] ]}).
Proof.
  destruct (file_transfer_roundtrip a_file ∅ (chars "10.0.0.1") (chars "a/b.txt") [10; 20; 30; 40; 50]
    a_socket (λ _, true)) as (s' & E & Hs).
  - intros k. exists 5000%nat. split; [done|lia].
  - done.
  - eexists. vm_compute. reflexivity.
  - vm_compute. reflexivity.
  - apply (bool_decide_eq_true_1 _). vm_compute. reflexivity.
  - vm_compute. reflexivity.
  - done.
  - apply Hs.
    + done.
    + apply (f_equal (λ r, wire r.2)) in E. cbn [snd] in E. rewrite <- E. vm_compute. reflexivity.
    + apply (bool_decide_eq_true_1 _). vm_compute. reflexivity.
    + done.
    + vm_compute. reflexivity.
Defined.




Lemma split_name_misfiled_witness :
  receive_one (λ _, true) (mk_locals (repeat 77 4) (chars "secret" ++ repeat 0 250))
    [be32 5; chars "b."; chars "txt"; [10]] ∅
  = (Ret None, {[ chars "b.cre" := chars "txt" ++ [10] ]}).
Proof.
  destruct (split_name_misfiled (λ _, true) (mk_locals (repeat 77 4) (chars "secret" ++ repeat 0 250))
    (chars "b.") (chars "txt") [10] [[10]] ∅) as (f & Ef & Hf).
  - split; vm_compute; reflexivity.
  - split; [done|]. split; [apply (bool_decide_eq_true_1 _)|]; vm_compute; reflexivity.
  - done.
  - done.
  - apply (Hf (chars "b.cre")); [rewrite <- Ef; vm_compute; reflexivity|done|done|].
    apply (bool_decide_eq_true_1 _). vm_compute. reflexivity.
Defined.
