(* ===== verification/Rdma.v ===== *)
(** * The RDMA ping programs ([app/rdma])

    [client.c] and [server.c], and their variants [client_ts.c] and
    [server_ts.c] that log timestamps: the growing array of rows, the queue of
    receive stamps, and the loops over the completion queue.  The verbs library
    is the stream of what [ibv_poll_cq] reports, the readings of the clock and the
    results of posting work requests; the probe for a device clock is not counted
    as a reading.  Connection set-up is a sequence of calls
    that each end the process when they fail. *)

From Stdlib Require String.
From S2P Require Import Prelude Prog Common CLib UdpApps.
Import String.StringSyntax.

(** ** Rows *)

Record row_t := mk_row { idx : Z; rsize : Z; rx_ns : Z; tx_ns : Z }.
Definition row0 : row_t := mk_row 0 0 0 0.

(** [g_rows] has [g_rows_cap] elements. *)
Record rows := mk_rows { g_rows : list row_t; g_rows_sz : Z; g_rows_cap : Z }.
Definition no_rows : rows := mk_rows [] 0 0.

(** [while (ncap < need) ncap *= 2;] *)
Fixpoint grow_cap (fuel : nat) (ncap need : Z) : option Z :=
  if ncap <? need then
    match fuel with
    | O => None
    | S f => grow_cap f (u64 (ncap * 2)) need
    end
  else Some ncap.

Section alloc.
(** Whether an allocation of so many elements succeeds. *)
Context (can_alloc : Z -> bool).
Abbreviation M := (prog rows).

Definition rows_reserve (need : Z) : M unit :=
  r ← get;
  if need <=? g_rows_cap r then mret tt
  else
    let ncap := if g_rows_cap r =? 0 then 16384 else u64 (g_rows_cap r * 2) in
    match grow_cap 64 ncap need with
    | None => diverge
    | Some ncap =>
        if negb (can_alloc ncap) then exit 2
        else modify (λ r, mk_rows (g_rows r ++ repeat row0 (Z.to_nat (ncap - zlen (g_rows r))))
                            (g_rows_sz r) ncap)
    end.

Definition rows_push (x : row_t) : M unit :=
  r ← get;
  when (g_rows_cap r <? u64 (g_rows_sz r + 1)) (rows_reserve (u64 (g_rows_sz r + 1)));;
  r ← get;
  _ ← deref (zlookup (g_rows r) (g_rows_sz r)) OutOfBounds;
  modify (λ r, mk_rows (<[Z.to_nat (g_rows_sz r) := x]> (g_rows r)) (u64 (g_rows_sz r + 1)) (g_rows_cap r)).
End alloc.

(** The delta columns of the two result files. *)
Definition client_delta (r : row_t) : Z := if tx_ns r <? rx_ns r then rx_ns r - tx_ns r else 0.
Definition server_delta (r : row_t) : Z := if rx_ns r <=? tx_ns r then tx_ns r - rx_ns r else 0.

(** A line of a result file: number, size, the two stamps and the delta. *)
Definition csv_line : Type := Z * Z * Z * Z * Z.

(** The lines of a file, read from the array one by one. *)
Definition csv_lines (delta : row_t -> Z) : prog rows (list csv_line) :=
  r ← get;
  l ← deref (mapM (λ k, zlookup (g_rows r) (Z.of_nat k)) (seq 0 (Z.to_nat (g_rows_sz r)))) OutOfBounds;
  mret (map (λ x, (idx x, rsize x, rx_ns x, tx_ns x, delta x)) l).
Definition write_csv : prog rows (list csv_line) := csv_lines server_delta.
Definition write_csv_and_cleanup : prog rows (list csv_line) := csv_lines client_delta.

(** ** The queue of receive stamps ([server_ts.c]) *)

Record rxq := mk_rxq { q_buf : list Z; q_cap : Z; q_head : Z; q_size : Z }.
Definition rxq_init : rxq := mk_rxq [] 0 0 0.

Section rxq.
Context (can_alloc : Z -> bool).
Abbreviation M := (prog rxq).

(** [for (i = 0; i < rxq_size; i++) n[i] = rxq[rxq_head + i];] needs the live
    window to lie inside the old buffer. *)
Definition rxq_grow_and_compact : M unit :=
  q ← get;
  let newcap := if q_cap q =? 0 then 4096 else u64 (q_cap q * 2) in
  if negb (can_alloc newcap) then exit 2
  else
    let live := take (Z.to_nat (q_size q)) (drop (Z.to_nat (q_head q)) (q_buf q)) in
    if negb (zlen live =? q_size q) || (newcap <? q_size q) then fail OutOfBounds
    else modify (λ _, mk_rxq (live ++ repeat 0 (Z.to_nat (newcap - zlen live))) newcap 0 (q_size q)).

Definition rxq_push (ts : Z) : M unit :=
  q ← get;
  when ((q_cap q =? 0) || (q_cap q <=? q_head q + q_size q)) rxq_grow_and_compact;;
  q ← get;
  _ ← deref (zlookup (q_buf q) (q_head q + q_size q)) OutOfBounds;
  modify (λ q, mk_rxq (<[Z.to_nat (q_head q + q_size q) := ts]> (q_buf q)) (q_cap q) (q_head q) (q_size q + 1)).

(** [None]: the queue is empty. *)
Definition rxq_pop : M (option Z) :=
  q ← get;
  if q_size q =? 0 then mret None
  else
    v ← deref (zlookup (q_buf q) (q_head q)) OutOfBounds;
    modify (λ q, mk_rxq (q_buf q) (q_cap q) (q_head q + 1) (q_size q - 1));;
    q ← get;
    when ((65536 <? q_head q) && (q_size q <? q_cap q / 4)) rxq_grow_and_compact;;
    mret (Some v).
End rxq.

(** ** The completion queue *)

Inductive opcode := IBV_WC_SEND | IBV_WC_RECV.

#[export] Instance opcode_eq_dec : EqDecision opcode.
Proof. solve_decision. Defined.

(** One call of [ibv_poll_cq]. *)
Inductive poll :=
| PollEmpty
| PollError
| Completion (success : bool) (op : opcode).

(** The results of [post_send] and [post_recv] are given by [posts]; [stop] is
    the number of tests of [g_stop] before a signal is seen. *)
Record verbs := mk_verbs {
  polls : list poll;
  clock : nat -> Z;
  ticks : nat;
  posts : nat -> bool;
  posted : nat;
  stop : option nat
}.

(** ** The logging server ([server_ts.c]) *)

Record server_state := mk_srv { vb : verbs; srv_q : rxq; srv_rows : rows; pkt_idx : Z }.

Section server.
Context (can_alloc : Z -> bool).
Abbreviation M := (prog server_state).

Definition set_vb (v : verbs) (s : server_state) : server_state := mk_srv v (srv_q s) (srv_rows s) (pkt_idx s).

Definition next_poll : M (option poll) := λ s,
  let v := vb s in
  match polls v with
  | [] => (Ret None, s)
  | p :: l => (Ret (Some p), set_vb (mk_verbs l (clock v) (ticks v) (posts v) (posted v) (stop v)) s)
  end.
Definition nanos : M Z := λ s,
  let v := vb s in
  (Ret (clock v (ticks v)), set_vb (mk_verbs (polls v) (clock v) (S (ticks v)) (posts v) (posted v) (stop v)) s).
(** [if (ibv_post_...(...)) die(...);] *)
Definition post : M unit := λ s,
  let v := vb s in
  let s' := set_vb (mk_verbs (polls v) (clock v) (ticks v) (posts v) (S (posted v)) (stop v)) s in
  if posts v (posted v) then (Ret tt, s') else (Exit 1, s').
Definition stopped : M bool := λ s,
  let v := vb s in
  match stop v with
  | None => (Ret false, s)
  | Some O => (Ret true, s)
  | Some (S n) => (Ret false, set_vb (mk_verbs (polls v) (clock v) (ticks v) (posts v) (posted v) (Some n)) s)
  end.
Definition on_rxq {A} (m : prog rxq A) : M A := λ s,
  let '(o, q) := m (srv_q s) in (o, mk_srv (vb s) q (srv_rows s) (pkt_idx s)).
Definition on_rows {A} (m : prog rows A) : M A := λ s,
  let '(o, r) := m (srv_rows s) in (o, mk_srv (vb s) (srv_q s) r (pkt_idx s)).

(** A completion. *)
Definition handle_wc (msg_size : Z) (op : opcode) : M unit :=
  match op with
  | IBV_WC_RECV =>
      rx ← nanos;
      on_rxq (rxq_push can_alloc rx);;
      post
  | IBV_WC_SEND =>
      tx ← nanos;
      o ← on_rxq (rxq_pop can_alloc);
      let rx := match o with Some v => v | None => tx end in
      s ← get;
      modify (λ s, mk_srv (vb s) (srv_q s) (srv_rows s) (u64 (pkt_idx s + 1)));;
      on_rows (rows_push can_alloc (mk_row (pkt_idx s) (u32 msg_size) rx tx));;
      post
  end.

(** The poll loop; [OutOfFuel] when the polls that are given are used up. *)
Fixpoint server_ts_loop (fuel : nat) (msg_size : Z) : M unit :=
  match fuel with
  | O => diverge
  | S f =>
      b ← stopped;
      if (b : bool) then mret tt
      else
        p ← next_poll;
        match p with
        | None => diverge
        | Some PollEmpty => server_ts_loop f msg_size
        | Some PollError => exit 1
        | Some (Completion false _) => mret tt
        | Some (Completion true op) => handle_wc msg_size op;; server_ts_loop f msg_size
        end
  end.

(** [server.c]: echo without stamps; no signal handling. *)
Fixpoint server_echo_loop (fuel : nat) : M unit :=
  match fuel with
  | O => diverge
  | S f =>
      p ← next_poll;
      match p with
      | None => diverge
      | Some PollEmpty => server_echo_loop f
      | Some PollError => exit 1
      | Some (Completion false _) => mret tt
      | Some (Completion true _) => post;; server_echo_loop f
      end
  end.

(** ** The clients *)

(** [while (ibv_poll_cq(cq, 1, &wc) == 0) {}] *)
Fixpoint await_wc (fuel : nat) : M poll :=
  match fuel with
  | O => diverge
  | S f =>
      p ← next_poll;
      match p with
      | None => diverge
      | Some PollEmpty => await_wc f
      | Some p => mret p
      end
  end.

(** The test of a completion, [client.c] looking only at the status of the first
    one.  [wc] is the opcode of the successful completion that the variable of that
    name holds, [None] while it is uninitialised; a poll that fails, which ends the
    wait too, leaves it as it is.  The opcode it holds afterwards is returned. *)
Definition expect (check_op : bool) (op : opcode) (wc : option opcode) (p : poll) : M (option opcode) :=
  match (match p with Completion success op' => Some (success, op') | _ => pair true <$> wc end) with
  | None => fail Uninitialised
  | Some (true, op') => if check_op && bool_decide (op' <> op) then exit 1 else mret (Some op')
  | Some (false, _) => exit 1
  end.

(** One round trip with its two stamps; [ts]: the client with timestamps, which
    reads the clock after the completions, not around the whole exchange. *)
Definition ping (ts : bool) (fuel : nat) : M (Z * Z) :=
  t0 ← (if ts then mret 0 else nanos);
  post;;
  p ← await_wc fuel;
  wc ← expect ts IBV_WC_SEND None p;
  t0 ← (if ts then nanos else mret t0);
  p ← await_wc fuel;
  _ ← expect true IBV_WC_RECV wc p;
  t1 ← nanos;
  mret (t0, t1).

(** A round of the warm-up. *)
Definition warmup (ts : bool) (fuel : nat) : M unit :=
  post;;
  p ← await_wc fuel;
  wc ← expect ts IBV_WC_SEND None p;
  p ← await_wc fuel;
  _ ← expect true IBV_WC_RECV wc p;
  post.

(** [(rx >= tx) ? rx - tx : ~0 - (tx - rx) + 1] *)
Definition rtt_of (tx rx : Z) : Z :=
  if tx <=? rx then rx - tx else u64 (2 ^ 64 - 1 - (tx - rx) + 1).

(** The timed loop of [client.c]. *)
Fixpoint client_rdma_loop (left : nat) (fuel : nat) (st : rtt_stats) : M rtt_stats :=
  match left with
  | O => mret st
  | S left' =>
      '(t0, t1) ← ping false fuel;
      post;;
      client_rdma_loop left' fuel (add_rtt (u64 (t1 - t0)) st)
  end.

(** The timed loop of [client_ts.c], which also logs the rows. *)
Fixpoint client_ts_loop (left : nat) (fuel : nat) (i msg_size : Z) (st : rtt_stats) : M rtt_stats :=
  match left with
  | O => mret st
  | S left' =>
      '(tx, rx) ← ping true fuel;
      on_rows (rows_push can_alloc (mk_row (u64 i) (u32 msg_size) rx tx));;
      post;;
      client_ts_loop left' fuel (i + 1) msg_size (add_rtt (rtt_of tx rx) st)
  end.

(** ** Set-up and [main] *)

(** [setup_calls] calls that must succeed; call [k] does unless [fails k]. *)
Definition setup (fails : nat -> bool) (setup_calls : nat) : M unit :=
  for_loop setup_calls 0 (λ k, when (fails (Z.to_nat k)) (exit 1)).

Record rdma_cfg := mk_rcfg { r_ip : option (list Z); r_port : Z; r_msg_size : Z; r_iters : Z }.
Definition rdma_defaults : rdma_cfg := mk_rcfg None 7471 64 10000.

(** [getopt]'s results; unknown options are ignored. *)
Fixpoint rdma_options (opts : list (Z * list Z)) (c : rdma_cfg) : rdma_cfg :=
  match opts with
  | [] => c
  | (o, a) :: rest =>
      rdma_options rest
        (if streq [o] "a" then mk_rcfg (Some a) (r_port c) (r_msg_size c) (r_iters c)
         else if streq [o] "p" then mk_rcfg (r_ip c) (atoi a) (r_msg_size c) (r_iters c)
         else if streq [o] "s" then mk_rcfg (r_ip c) (r_port c) (atoi a) (r_iters c)
         else if streq [o] "n" then mk_rcfg (r_ip c) (r_port c) (r_msg_size c) (atoi a)
         else c)
  end.

(** The statistics and the lines of the result file; [None]: the usage message and
    status 2. *)
Definition rdma_client_main (ts : bool) (fails : nat -> bool) (fuel : nat) (opts : list (Z * list Z))
    : M (option (rtt_stats * list csv_line)) :=
  let c := rdma_options opts rdma_defaults in
  match r_ip c with
  | None => mret None
  | Some ip =>
      setup fails 2;;
      match inet_pton ip with
      | None => exit 1
      | Some _ =>
          setup (λ k, fails (2 + k)%nat) 11;;
          post;;
          setup (λ k, fails (13 + k)%nat) 3;;
          for_loop 100 0 (λ _, warmup ts fuel);;
          st ← (if ts then client_ts_loop (Z.to_nat (r_iters c)) fuel 0 (r_msg_size c) no_rtt
                else client_rdma_loop (Z.to_nat (r_iters c)) fuel no_rtt);
          file ← (if ts then on_rows write_csv_and_cleanup else mret []);
          mret (Some (st, file))
      end
  end.

(** The servers: the status and the lines of the result file, which [server.c] does
    not write; 256 receives are posted before the connection is accepted (64 by
    [server.c]). *)
Definition rdma_server_main (ts : bool) (fails : nat -> bool) (fuel : nat) (opts : list (Z * list Z))
    : M (Z * list csv_line) :=
  let c := rdma_options (filter (λ x, streq [x.1] "n" = false) opts) rdma_defaults in
  match r_ip c with
  | None => mret (2, [])
  | Some ip =>
      setup fails 2;;
      match inet_pton ip with
      | None => exit 1
      | Some _ =>
          setup (λ k, fails (2 + k)%nat) 9;;
          for_loop (if ts then 256 else 64) 0 (λ _, post);;
          setup (λ k, fails (11 + k)%nat) 3;;
          (if ts then server_ts_loop fuel (r_msg_size c) else server_echo_loop fuel);;
          file ← (if ts then on_rows write_csv else mret []);
          mret (0, file)
      end
  end.

(** The four programs. *)
Definition client_main := rdma_client_main false.
Definition client_ts_main := rdma_client_main true.
Definition server_echo_main := rdma_server_main false.
Definition server_ts_main := rdma_server_main true.
End server.
