(* ===== verification/RdmaSpec.v ===== *)
(** * Properties of the RDMA ping programs

    The array of rows grows without losing one, the queue of receive stamps is a
    FIFO queue, the server's log pairs the stamps in order, and the clients depend
    on the order of the two completions of a round trip. *)

From S2P Require Import Prelude Prog CLib UdpApps UdpAppsSpec Rdma.

(** ** Running out of memory *)

Section oom.
Context {S : Type} (refused : S -> Prop).

(** A run either returns with [Q], or ends with status 2 in a state in which the
    allocation that was asked for is [refused]. *)
Definition unless_oom {A} (m : prog S A) (s : S) (Q : A -> S -> Prop) : Prop :=
  (exists s', m s = (Exit 2, s') /\ refused s') \/ (exists a s', m s = (Ret a, s') /\ Q a s').

Lemma unless_oom_bind {A B} (m : prog S A) (k : A -> prog S B) s P Q :
  unless_oom m s P -> (forall a s', P a s' -> unless_oom (k a) s' Q) -> unless_oom (bind m k) s Q.
Proof.
  intros [(s' & E & Hn)|(a & s' & E & HP)] Hk.
  - left. exists s'. unfold bind. by rewrite E.
  - destruct (Hk a s' HP) as [(s2 & E2 & Hn)|(b & s2 & E2 & HQ)]; [left|right];
      [exists s2|exists b, s2]; by rewrite (run_bind _ _ _ _ _ E).
Qed.

Lemma unless_oom_ret {A} (a : A) s (Q : A -> S -> Prop) : Q a s -> unless_oom (mret a) s Q.
Proof. intros HQ. right. by exists a, s. Qed.

Lemma unless_oom_run {A B} (m : prog S A) (k : A -> prog S B) s a s' Q :
  m s = (Ret a, s') -> unless_oom (k a) s' Q -> unless_oom (bind m k) s Q.
Proof. intros E. unfold unless_oom. by rewrite (run_bind _ _ _ _ _ E). Qed.

Lemma unless_oom_conseq {A} (m : prog S A) s (P Q : A -> S -> Prop) :
  unless_oom m s P -> (forall a s', P a s' -> Q a s') -> unless_oom m s Q.
Proof. intros [H|(a & s' & E & HP)] HPQ; [by left|right; eauto]. Qed.



End oom.


(** ** Rows *)

Record rows_ok (r : rows) : Prop := {
  ro_len : zlen (g_rows r) = g_rows_cap r;
  ro_size : 0 <= g_rows_sz r <= g_rows_cap r;
  ro_cap : g_rows_cap r < 2 ^ 60
}.

Definition logged (r : rows) : list row_t := take (Z.to_nat (g_rows_sz r)) (g_rows r).

(** The next array cannot be had: 16384 rows at first, then twice as many. *)
Definition rows_refused (can_alloc : Z -> bool) (r : rows) : Prop :=
  can_alloc (if g_rows_cap r =? 0 then 16384 else g_rows_cap r * 2) = false.


Section rows.
Context (can_alloc : Z -> bool).
(** malloc does not hand out 2^63 bytes or more. *)
Hypothesis alloc_limit : forall n, can_alloc n = true -> n < 2 ^ 60.

Lemma rows_reserve_run r :
  rows_ok r -> g_rows_sz r = g_rows_cap r ->
  unless_oom (rows_refused can_alloc) (rows_reserve can_alloc (g_rows_sz r + 1)) r (λ _ r',
    rows_ok r' /\ g_rows_sz r' = g_rows_sz r /\ g_rows_sz r < g_rows_cap r' /\ logged r' = logged r).
Proof.
  intros [Hl Hs Hc] E. unfold rows_reserve, unless_oom. rewrite run_get.
  rewrite (proj2 (Z.leb_gt _ _)) by lia.
  set (ncap := if g_rows_cap r =? 0 then 16384 else u64 (g_rows_cap r * 2)).
  assert (ncap = if g_rows_cap r =? 0 then 16384 else g_rows_cap r * 2) as En.
  { unfold ncap. destruct (_ =? _); [done|]. apply u_small. lia. }
  assert (g_rows_sz r + 1 <= ncap) as Hn by (rewrite En; destruct (Z.eqb_spec (g_rows_cap r) 0); lia).
  assert (grow_cap 64 ncap (g_rows_sz r + 1) = Some ncap) as ->.
  { cbn [grow_cap]. by rewrite (proj2 (Z.ltb_ge _ _)) by lia. }
  destruct (can_alloc ncap) eqn:Ea; cbn [negb]; [|left; exists r; split; [done|]; unfold rows_refused; by rewrite <- En]. apply alloc_limit in Ea.
  right. eexists _, _. split; [reflexivity|]. clearbody ncap.
  unfold zlen in Hl. split; [split|]; cbn [g_rows g_rows_sz g_rows_cap].
  - unfold zlen. rewrite length_app, repeat_length. lia.
  - lia.
  - lia.
  - split; [done|]. split; [lia|]. unfold logged. cbn [g_rows g_rows_sz]. by rewrite take_app_le by lia.
Qed.

(** A push appends, whether or not the array has to grow. *)
Lemma rows_push_run x r :
  rows_ok r ->
  unless_oom (rows_refused can_alloc) (rows_push can_alloc x) r (λ _ r', rows_ok r' /\ logged r' = logged r ++ [x]).
Proof.
  intros Hok. pose proof Hok as [Hl Hs Hc]. unfold rows_push, unless_oom. rewrite run_get, u_small by lia.
  apply (unless_oom_bind (rows_refused can_alloc) _ _ _ (λ _ r1, rows_ok r1 /\ g_rows_sz r1 = g_rows_sz r /\
    g_rows_sz r < g_rows_cap r1 /\ logged r1 = logged r)).
  { unfold when. destruct (Z.ltb_spec (g_rows_cap r) (g_rows_sz r + 1)).
    - apply rows_reserve_run; [done|lia].
    - apply unless_oom_ret. split; [done|]. split; [done|]. split; [lia|done]. }
  intros _ r1 ([Hl1 Hs1 Hc1] & Es & Hlt & Elog). unfold unless_oom. rewrite run_get. unfold zlen in Hl1.
  destruct (zlookup_lt (g_rows r1) (g_rows_sz r1)) as [y Ey]; [unfold zlen; lia|]. rewrite Ey.
  rewrite (run_bind _ _ _ _ _ (run_ret y r1 : deref (Some y) OutOfBounds r1 = _)).
  right. eexists _, _. split; [reflexivity|]. rewrite u_small by lia.
  split; [split|]; cbn [g_rows g_rows_sz g_rows_cap].
  - unfold zlen. rewrite length_insert. lia.
  - lia.
  - lia.
  - rewrite <- Elog. unfold logged. cbn [g_rows g_rows_sz].
    replace (Z.to_nat (g_rows_sz r1 + 1)) with (S (Z.to_nat (g_rows_sz r1))) by lia.
    rewrite (take_S_r _ _ x) by (apply list_lookup_insert_eq; lia).
    by rewrite take_insert_ge by lia.
Qed.
End rows.

(** ** The queue *)

Record rxq_ok (q : rxq) : Prop := {
  qo_len : zlen (q_buf q) = q_cap q;
  qo_range : 0 <= q_head q /\ 0 <= q_size q /\ q_head q + q_size q <= q_cap q;
  qo_cap : q_cap q < 2 ^ 60
}.

Definition queued (q : rxq) : list Z := take (Z.to_nat (q_size q)) (drop (Z.to_nat (q_head q)) (q_buf q)).

Lemma zlen_queued q : rxq_ok q -> zlen (queued q) = q_size q.
Proof.
  intros [Hl Hr _]. unfold zlen in *. unfold queued. rewrite length_take, length_drop. lia.
Qed.

(** The next buffer cannot be had: 4096 stamps at first, then twice as many. *)
Definition rxq_refused (can_alloc : Z -> bool) (q : rxq) : Prop :=
  can_alloc (if q_cap q =? 0 then 4096 else q_cap q * 2) = false.

Section queue.
Context (can_alloc : Z -> bool).
Hypothesis alloc_limit : forall n, can_alloc n = true -> n < 2 ^ 60.

Lemma grow_run q : rxq_ok q ->
  unless_oom (rxq_refused can_alloc) (rxq_grow_and_compact can_alloc) q (λ _ q',
    rxq_ok q' /\ queued q' = queued q /\ q_size q' = q_size q /\ q_head q' = 0 /\
    q_cap q' = (if q_cap q =? 0 then 4096 else q_cap q * 2)).
Proof.
  intros Hok. pose proof (zlen_queued q Hok) as Hz. pose proof Hok as [Hl Hr Hc].
  unfold rxq_grow_and_compact, unless_oom. rewrite run_get.
  set (newcap := if q_cap q =? 0 then 4096 else u64 (q_cap q * 2)).
  assert (newcap = if q_cap q =? 0 then 4096 else q_cap q * 2) as En.
  { unfold newcap. destruct (Z.eqb_spec (q_cap q) 0); [done|]. apply u_small. lia. }
  assert (q_size q <= newcap) as Hn by (rewrite En; destruct (Z.eqb_spec (q_cap q) 0); lia).
  destruct (can_alloc newcap) eqn:Ea; cbn [negb]; [|left; exists q; split; [done|]; unfold rxq_refused; by rewrite <- En]. apply alloc_limit in Ea.
  right. fold (queued q). rewrite Hz, Z.eqb_refl, (proj2 (Z.ltb_ge _ _)) by lia. cbn [negb orb].
  eexists _, _. split; [reflexivity|]. unfold zlen in Hz.
  split; [split|]; cbn [q_buf q_cap q_head q_size].
  - unfold zlen. rewrite length_app, repeat_length. lia.
  - lia.
  - lia.
  - split; [|done]. unfold queued at 1. cbn [q_buf q_head q_size].
    change (drop (Z.to_nat 0) ?x) with x. rewrite take_app_le, take_ge by lia. done.
Qed.

Lemma rxq_push_run ts q : rxq_ok q ->
  unless_oom (rxq_refused can_alloc) (rxq_push can_alloc ts) q (λ _ q', rxq_ok q' /\ queued q' = queued q ++ [ts]).
Proof.
  intros Hok. unfold rxq_push. unfold unless_oom. rewrite run_get.
  apply (unless_oom_bind (rxq_refused can_alloc) _ _ _ (λ _ q1, rxq_ok q1 /\ queued q1 = queued q /\ q_head q1 + q_size q1 < q_cap q1)).
  - unfold when. destruct (_ || _) eqn:E.
    + destruct (grow_run q Hok) as [Hx|(a & q1 & E1 & Hok1 & Eq & Es & Eh & Ec)]; [by left|].
      right. exists a, q1. split; [done|]. split; [done|]. split; [done|].
      destruct Hok as [_ Hr _]. rewrite Ec, Eh, Es. destruct (Z.eqb_spec (q_cap q) 0); [lia|]. lia.
    + apply unless_oom_ret. split; [done|]. split; [done|].
      apply orb_false_elim in E as [_ E]. apply Z.leb_gt in E. lia.
  - intros _ q1 (Hok1 & Eq & Hlt). pose proof Hok1 as [Hl Hr Hc]. unfold unless_oom. rewrite run_get.
    destruct (zlookup_lt (q_buf q1) (q_head q1 + q_size q1)) as [y Ey]; [lia|]. rewrite Ey.
    right. eexists _, _. split; [reflexivity|]. unfold zlen in Hl.
    split; [split; cbn [q_buf q_cap q_head q_size]; unfold zlen; rewrite ?length_insert; lia|].
    rewrite <- Eq. unfold queued. cbn [q_buf q_cap q_head q_size].
    rewrite drop_insert_ge by lia.
    replace (Z.to_nat (q_size q1 + 1)) with (S (Z.to_nat (q_size q1))) by lia.
    replace (Z.to_nat (q_head q1 + q_size q1) - Z.to_nat (q_head q1))%nat with (Z.to_nat (q_size q1)) by lia.
    rewrite (take_S_r _ _ ts) by (apply list_lookup_insert_eq; rewrite length_drop; lia).
    by rewrite take_insert_ge by lia.
Qed.

Lemma rxq_pop_run q : rxq_ok q ->
  unless_oom (rxq_refused can_alloc) (rxq_pop can_alloc) q (λ o q', rxq_ok q' /\ o = head (queued q) /\ queued q' = tail (queued q)).
Proof.
  intros Hok. pose proof (zlen_queued q Hok) as Hz. pose proof Hok as [Hl Hr Hc].
  unfold rxq_pop, unless_oom. rewrite run_get. destruct (Z.eqb_spec (q_size q) 0) as [E|E].
  - right. eexists _, q. split; [reflexivity|]. rewrite E in Hz.
    assert (queued q = []) as -> by (apply nil_length_inv; unfold zlen in Hz; lia). done.
  - destruct (zlookup_lt (q_buf q) (q_head q)) as [v Ev]; [lia|]. rewrite Ev.
    rewrite (run_bind _ _ _ _ _ (run_ret v q : deref (Some v) OutOfBounds q = _)), run_modify, run_get.
    set (q1 := mk_rxq _ _ _ _).
    assert (queued q = v :: queued q1) as Eq.
    { unfold zlookup in Ev. rewrite (proj2 (Z.leb_le 0 (q_head q))) in Ev by lia.
      unfold queued, q1. cbn [q_buf q_head q_size]. apply drop_S in Ev. rewrite Ev.
      replace (Z.to_nat (q_size q)) with (S (Z.to_nat (q_size q - 1))) by lia. cbn [take]. f_equal.
      f_equal. f_equal. lia. }
    assert (rxq_ok q1) as Hok1 by (split; cbn [q1 q_buf q_cap q_head q_size]; lia).
    change (unless_oom (rxq_refused can_alloc) (when ((65536 <? q_head q1) && (q_size q1 <? q_cap q1 / 4))
      (rxq_grow_and_compact can_alloc);; mret (Some v)) q1
      (λ o q', rxq_ok q' /\ o = head (queued q) /\ queued q' = tail (queued q))).
    apply (unless_oom_bind (rxq_refused can_alloc) _ _ _ (λ _ q2, rxq_ok q2 /\ queued q2 = queued q1)).
    + unfold when. destruct (_ && _); [|by apply unless_oom_ret].
      destruct (grow_run q1 Hok1) as [Hx|(a & q2 & E2 & Hok2 & Eq2 & _)]; [by left|]. right. by exists a, q2.
    + intros _ q2 [Hok2 Eq2]. apply unless_oom_ret. by rewrite Eq, Eq2.
Qed.

Inductive rxq_op := Push (ts : Z) | Pop.

Fixpoint rxq_run (ops : list rxq_op) : prog rxq (list Z) :=
  match ops with
  | [] => mret []
  | Push ts :: ops' => rxq_push can_alloc ts;; rxq_run ops'
  | Pop :: ops' => o ← rxq_pop can_alloc; out ← rxq_run ops'; mret (option_list o ++ out)
  end.

(** The specification: a list, its first element being the oldest. *)
Fixpoint fifo_run (l : list Z) (ops : list rxq_op) : list Z * list Z :=
  match ops with
  | [] => ([], l)
  | Push ts :: ops' => fifo_run (l ++ [ts]) ops'
  | Pop :: ops' => let '(out, l') := fifo_run (tail l) ops' in (option_list (head l) ++ out, l')
  end.

Lemma rxq_run_fifo ops : forall q, rxq_ok q ->
  unless_oom (rxq_refused can_alloc) (rxq_run ops) q (λ out q', rxq_ok q' /\ (out, queued q') = fifo_run (queued q) ops).
Proof.
  induction ops as [|[ts|] ops IH]; intros q Hok; cbn [rxq_run fifo_run].
  - by apply unless_oom_ret.
  - eapply unless_oom_bind; [by apply rxq_push_run|]. intros _ q1 [Hok1 <-]. by apply IH.
  - eapply unless_oom_bind; [by apply rxq_pop_run|]. intros o q1 (Hok1 & -> & <-).
    eapply unless_oom_bind; [by apply IH|]. intros out q2 [Hok2 E]. apply unless_oom_ret.
    split; [done|]. by rewrite <- E.
Qed.
End queue.

(** C11: The queue of receive stamps is a FIFO queue: for every sequence of pushes and
    pops, through all reallocations and compactions, the values popped are those
    of the specification; only when the next buffer cannot be allocated does the
    process exit, with status 2. *)
Theorem rxq_refines_fifo can_alloc ops :
  (forall n, can_alloc n = true -> n < 2 ^ 60) ->
  (exists q', rxq_run can_alloc ops rxq_init = (Exit 2, q') /\ rxq_refused can_alloc q') \/
  (exists q', rxq_run can_alloc ops rxq_init = (Ret (fifo_run [] ops).1, q') /\
     queued q' = (fifo_run [] ops).2).
Proof.
  intros Ha. assert (rxq_ok rxq_init) as Hok by (split; [done|cbn; lia|done]).
  destruct (rxq_run_fifo can_alloc Ha ops rxq_init Hok) as [H|(out & q' & E & _ & EF)]; [by left|].
  right. exists q'. change (queued rxq_init) with (@nil Z) in EF. rewrite <- EF. by split.
Qed.

(** *** The capacity *)

(** A packet that is answered before the next one arrives. *)
Definition push_pop (can_alloc : Z -> bool) : prog rxq unit :=
  rxq_push can_alloc 0;; _ ← rxq_pop can_alloc; mret tt.

Lemma push_pop_run can_alloc buf cap h :
  zlen buf = cap -> 0 <= h < cap -> cap < 2 ^ 60 -> can_alloc (cap * 2) = true ->
  exists buf', push_pop can_alloc (mk_rxq buf cap h 0)
    = (Ret tt, if (65536 <? h + 1) && (0 <? cap / 4) then mk_rxq buf' (cap * 2) 0 0
               else mk_rxq buf' cap (h + 1) 0) /\
    zlen buf' = (if (65536 <? h + 1) && (0 <? cap / 4) then cap * 2 else cap).
Proof.
  intros Hl Hh Hc Ha. unfold push_pop, rxq_push. rewrite bind_assoc, run_get. cbn [q_cap q_head q_size].
  rewrite (proj2 (Z.eqb_neq cap 0)), (proj2 (Z.leb_gt cap (h + 0))) by lia. cbn [orb when].
  rewrite bind_assoc, (run_bind _ _ _ _ _ (run_ret tt _)), bind_assoc, run_get. cbn [q_buf q_cap q_head q_size].
  destruct (zlookup_lt buf (h + 0)) as [y Ey]; [lia|]. rewrite Ey, bind_assoc.
  rewrite (run_bind _ _ _ _ _ (run_ret y _ : deref (Some y) OutOfBounds _ = _)), run_modify.
  cbn [q_buf q_cap q_head q_size]. rewrite Z.add_0_r. set (b1 := <[Z.to_nat h := 0]> buf).
  assert (zlen b1 = cap) as Hl1 by (unfold zlen, b1 in *; by rewrite length_insert).
  unfold rxq_pop. rewrite bind_assoc, run_get. cbn [q_buf q_cap q_head q_size]. change (0 + 1 =? 0) with false.
  cbv iota. destruct (zlookup_lt b1 h) as [z Ez]; [lia|]. rewrite Ez, bind_assoc.
  rewrite (run_bind _ _ _ _ _ (run_ret z _ : deref (Some z) OutOfBounds _ = _)), bind_assoc, run_modify.
  cbn [q_buf q_cap q_head q_size]. rewrite bind_assoc, run_get. cbn [q_buf q_cap q_head q_size].
  change (0 + 1 - 1) with 0. unfold when. destruct (_ && _).
  - unfold rxq_grow_and_compact. rewrite !bind_assoc, run_get. cbn [q_buf q_cap q_head q_size].
    rewrite (proj2 (Z.eqb_neq cap 0)), u_small, Ha by lia. cbn [negb].
    change (take (Z.to_nat 0) _) with (@nil Z). change (zlen [] =? 0) with true. cbn [negb orb].
    rewrite (proj2 (Z.ltb_ge (cap * 2) 0)) by lia. rewrite run_modify.
    eexists. split; [reflexivity|]. unfold zlen. cbn [app length]. rewrite repeat_length. lia.
  - rewrite bind_assoc, (run_bind _ _ _ _ _ (run_ret tt _)). by eexists.
Qed.

(** Compaction doubles the buffer instead of reusing it: a server that answers
    one packet after the other doubles the capacity of a queue that never holds
    more than one stamp every 65537 packets. *)
Theorem rxq_capacity_doubles can_alloc n buf :
  zlen buf = 131072 -> 0 <= n <= 40 -> (forall m, m <= 131072 * 2 ^ n -> can_alloc m = true) ->
  exists buf', for_loop (Z.to_nat (n * 65537)) 0 (λ _, push_pop can_alloc) (mk_rxq buf 131072 0 0)
    = (Ret tt, mk_rxq buf' (131072 * 2 ^ n) 0 0).
Proof.
  intros Hl Hn Ha.
  destruct (for_loop_inv (λ _, push_pop can_alloc)
    (λ j q, exists b, q = mk_rxq b (131072 * 2 ^ (j / 65537)) (j mod 65537) 0 /\
       zlen b = 131072 * 2 ^ (j / 65537)) (Z.to_nat (n * 65537)) 0 (mk_rxq buf 131072 0 0))
    as (q & E & b & -> & _).
  - intros j q Hj (b & -> & Hb). set (k := j / 65537) in *. set (h := j mod 65537) in *.
    assert (j = 65537 * k + h /\ 0 <= h < 65537) as [Ej Hh]
      by (unfold k, h; split; [apply Z.div_mod; lia|apply Z.mod_pos_bound; lia]).
    assert (0 <= k < n) as Hk by lia.
    assert (1 <= 2 ^ k) by (apply (Z.pow_le_mono_r 2 0 k); lia).
    assert (2 ^ k * 2 <= 2 ^ n) as Hp.
    { replace (2 ^ k * 2) with (2 ^ (k + 1)) by (rewrite Z.pow_add_r by lia; lia). apply Z.pow_le_mono_r; lia. }
    assert (2 ^ n <= 2 ^ 40) by (apply Z.pow_le_mono_r; lia).
    destruct (push_pop_run can_alloc b (131072 * 2 ^ k) h) as (b' & Eq & Hb'); [done|lia|lia|apply Ha; lia|].
    assert ((0 <? 131072 * 2 ^ k / 4) = true) as Hq.
    { apply Z.ltb_lt. replace (131072 * 2 ^ k) with (32768 * 2 ^ k * 4) by lia. rewrite Z.div_mul by lia. lia. }
    rewrite Hq, andb_true_r in Eq, Hb'. eexists. split; [exact Eq|].
    destruct (Z.ltb_spec 65536 (h + 1)) as [Hlast|Hlast].
    + assert ((j + 1) / 65537 = k + 1 /\ (j + 1) mod 65537 = 0) as [-> ->].
      { split; [symmetry; apply Z.div_unique with 0|symmetry; apply Z.mod_unique with (k + 1)]; lia. }
      exists b'. rewrite Z.pow_add_r by lia. split; [f_equal; lia|lia].
    + assert ((j + 1) / 65537 = k /\ (j + 1) mod 65537 = h + 1) as [-> ->].
      { split; [symmetry; apply Z.div_unique with (h + 1)|symmetry; apply Z.mod_unique with k]; lia. }
      by exists b'.
  - exists buf. split; [done|]. done.
  - exists b. rewrite E. f_equal. rewrite Z2Nat.id, Z.add_0_l, Z.div_mul, Z.mod_mul by lia. done.
Qed.

(** ** The server's log *)















Section log_server.
Context (can_alloc : Z -> bool).
Hypothesis alloc_limit : forall n, can_alloc n = true -> n < 2 ^ 60.


Lemma on_rows_oom {A} (m : prog rows A) s P :
  unless_oom (rows_refused can_alloc) m (srv_rows s) P ->
  unless_oom (λ s', rows_refused can_alloc (srv_rows s')) (on_rows m) s (λ a s', exists r, P a r /\ s' = mk_srv (vb s) (srv_q s) r (pkt_idx s)).
Proof.
  intros [(q & E & Hn)|(a & q & E & HP)]; unfold unless_oom, on_rows; rewrite E; [left|right]; eauto 10.
Qed.



End log_server.




(** ** The clients *)

(** The verbs after the polls up to [rest], [t] clock readings and [p] posts. *)
Definition advanced (s : server_state) (rest : list poll) (t p : nat) : server_state :=
  set_vb (mk_verbs rest (clock (vb s)) (t + ticks (vb s)) (posts (vb s)) (p + posted (vb s)) (stop (vb s))) s.

Lemma post_run s : (forall k, posts (vb s) k = true) -> post s = (Ret tt, advanced s (polls (vb s)) 0 1).
Proof. intros Hp. unfold post. by rewrite Hp. Qed.

Lemma await_wc_run a : forall fuel s p rest,
  polls (vb s) = repeat PollEmpty a ++ p :: rest -> p <> PollEmpty -> (a < fuel)%nat ->
  await_wc fuel s = (Ret p, advanced s rest 0 0).
Proof.
  induction a as [|a IH]; intros fuel s p rest Hs Hp Hf; (destruct fuel as [|f]; [lia|]); cbn [await_wc].
  - assert (next_poll s = (Ret (Some p), advanced s rest 0 0)) as E.
    { unfold next_poll. cbn in Hs. by rewrite Hs. }
    rewrite (run_bind _ _ _ _ _ E). by destruct p.
  - assert (next_poll s = (Ret (Some PollEmpty), advanced s (repeat PollEmpty a ++ p :: rest) 0 0)) as E.
    { unfold next_poll. cbn in Hs. by rewrite Hs. }
    rewrite (run_bind _ _ _ _ _ E), (IH f _ p rest); [done|done|done|lia].
Qed.

Lemma expect_ok c op wc s : expect c op wc (Completion true op) s = (Ret (Some op), s).
Proof. unfold expect. rewrite bool_decide_false by (intros Hn; by apply Hn). by rewrite andb_false_r. Qed.

(** One exchange: [a] empty polls, the send's completion, [b] empty polls, the
    reply. *)
Definition exchange (ab : nat * nat) : list poll :=
  repeat PollEmpty ab.1 ++ Completion true IBV_WC_SEND :: repeat PollEmpty ab.2 ++ [Completion true IBV_WC_RECV].

Lemma ping_ts_run fuel a b s rest :
  (forall k, posts (vb s) k = true) -> (a < fuel)%nat -> (b < fuel)%nat ->
  polls (vb s) = exchange (a, b) ++ rest ->
  ping true fuel s
  = (Ret (clock (vb s) (ticks (vb s)), clock (vb s) (S (ticks (vb s)))), advanced s rest 2 1).
Proof.
  intros Hp Ha Hb Hs. unfold ping, exchange in *. cbn [fst snd] in Hs.
  rewrite (run_bind _ _ _ _ _ (run_ret 0 s)).
  rewrite (run_bind _ _ _ _ _ (post_run s Hp)). set (s1 := advanced s _ 0 1).
  assert (polls (vb s1) = repeat PollEmpty a ++ Completion true IBV_WC_SEND ::
    (repeat PollEmpty b ++ Completion true IBV_WC_RECV :: rest)) as Hs1.
  { cbn [s1 advanced set_vb vb polls]. rewrite Hs, <- app_assoc. cbn [app]. by rewrite <- app_assoc. }
  rewrite (run_bind _ _ _ _ _ (await_wc_run a fuel s1 _ _ Hs1 ltac:(done) Ha)).
  rewrite (run_bind _ _ _ _ _ (expect_ok _ _ _ _)).
  rewrite (run_bind nanos _ _ _ _ eq_refl).
  match goal with |- context [bind (await_wc fuel) _ ?x] =>
    rewrite (run_bind _ _ _ _ _ (await_wc_run b fuel x (Completion true IBV_WC_RECV) rest
      eq_refl ltac:(done) Hb)) end.
  by rewrite (run_bind _ _ _ _ _ (expect_ok _ _ _ _)).
Qed.

(** The stamps of [n] exchanges, the clock having been read [t] times. *)
Fixpoint pairs (clk : nat -> Z) (t n : nat) : list (Z * Z) :=
  match n with
  | O => []
  | S n' => (clk t, clk (S t)) :: pairs clk (S (S t)) n'
  end.

Definition time_of (p : Z * Z) : option Z := Some (p.2 - p.1).

Lemma rtt_of_steady clk t : steady clk ->
  rtt_of (clk t) (clk (S t)) = clk (S t) - clk t /\ 0 <= clk (S t) - clk t < 2 ^ 63.
Proof.
  intros Hc. pose proof (Hc t). pose proof (Hc (S t)). unfold rtt_of.
  rewrite (proj2 (Z.leb_le _ _)) by lia. lia.
Qed.

Lemma pairs_range clk n : steady clk -> forall t,
  Forall (λ o, match o with Some x => 0 <= x < 2 ^ 63 | None => True end) (map time_of (pairs clk t n)).
Proof.
  intros Hc. induction n as [|n IH]; intros t; cbn [pairs map]; constructor; [|apply IH].
  by apply rtt_of_steady.
Qed.

Section log_client.
Context (can_alloc : Z -> bool).
Hypothesis alloc_limit : forall n, can_alloc n = true -> n < 2 ^ 60.

Lemma client_ts_loop_run msg fuel abs : forall s i st rest,
  rows_ok (srv_rows s) -> (forall k, posts (vb s) k = true) -> steady (clock (vb s)) ->
  Forall (λ ab : nat * nat, (ab.1 < fuel)%nat /\ (ab.2 < fuel)%nat) abs ->
  polls (vb s) = concat (map exchange abs) ++ rest -> 0 <= i -> i + zlen abs < 2 ^ 64 ->
  let ps := pairs (clock (vb s)) (ticks (vb s)) (length abs) in
  unless_oom (λ s', rows_refused can_alloc (srv_rows s')) (client_ts_loop can_alloc (length abs) fuel i msg st) s (λ st' s',
    st' = foldl add_measured st (map time_of ps) /\
    logged (srv_rows s') = logged (srv_rows s) ++
      imap (λ k '(tx, rx), mk_row (i + Z.of_nat k) (u32 msg) rx tx) ps).
Proof.
  unfold zlen. induction abs as [|[a b] abs IH]; intros s i st rest Hr Hp Hc HF Hs Hi Hb; cbn [length client_ts_loop].
  { apply unless_oom_ret. cbn. by rewrite app_nil_r. }
  apply list.Forall_cons in HF as [[Ha Hb'] HF]. cbn [fst snd] in Ha, Hb'. cbn [length] in Hb.
  cbn [map concat] in Hs. rewrite <- app_assoc in Hs.
  eapply unless_oom_run; [by apply (ping_ts_run fuel a b s _ Hp Ha Hb' Hs)|]. cbv iota beta.
  destruct (rtt_of_steady (clock (vb s)) (ticks (vb s)) Hc) as [Ert _]. rewrite Ert, (u_small 64 i) by lia.
  eapply unless_oom_bind; [apply on_rows_oom, rows_push_run; [done|exact Hr]|].
  intros _ s2 (r & (Hr' & El) & ->).
  eapply unless_oom_run; [apply post_run; exact Hp|]. eapply unless_oom_conseq.
  { apply (IH _ (i + 1) _ rest); [exact Hr'|exact Hp|exact Hc|done|reflexivity|lia|lia]. }
  intros st' s' [-> Elog]. cbn [set_vb vb advanced clock ticks srv_rows Nat.add] in *.
  cbn [pairs map foldl add_measured time_of fst snd]. split; [done|].
  rewrite Elog, El. cbn [srv_rows set_vb advanced]. rewrite <- app_assoc. f_equal. cbn [app imap].
  rewrite Z.add_0_r. f_equal. apply imap_ext. intros k [tx rx] _. cbn. f_equal. lia.
Qed.
End log_client.

(** The client with timestamps: when every round trip reports the completed send
    and then the reply, with empty polls in between, the [k]-th row has the two
    readings of the clock of the [k]-th round trip, and the figures printed are
    those of their differences, unless the next array of rows cannot be allocated. *)
Theorem client_ts_measures can_alloc msg fuel abs rest s :
  (forall n, can_alloc n = true -> n < 2 ^ 60) ->
  srv_rows s = no_rows -> (forall k, posts (vb s) k = true) -> steady (clock (vb s)) ->
  Forall (λ ab : nat * nat, (ab.1 < fuel)%nat /\ (ab.2 < fuel)%nat) abs ->
  polls (vb s) = concat (map exchange abs) ++ rest -> zlen abs < 2 ^ 31 ->
  let ps := pairs (clock (vb s)) (ticks (vb s)) (length abs) in
  let l := omap id (map time_of ps) in
  foldr Z.add 0 l < 2 ^ 64 ->
  (exists s', client_ts_loop can_alloc (length abs) fuel 0 msg no_rtt s = (Exit 2, s') /\
     rows_refused can_alloc (srv_rows s')) \/
  (exists st s', client_ts_loop can_alloc (length abs) fuel 0 msg no_rtt s = (Ret st, s') /\
     rtts_summed (r_min st) (r_max st) (r_sum st) (r_received st) l /\
     logged (srv_rows s') = imap (λ k '(tx, rx), mk_row (Z.of_nat k) (u32 msg) rx tx) ps).
Proof.
  intros Ha Hr Hp Hc HF Hs Hz ps l Hsum.
  assert (rows_ok (srv_rows s)) as Hok by (rewrite Hr; split; [done|cbn; lia|done]).
  destruct (client_ts_loop_run can_alloc Ha msg fuel abs s 0 no_rtt rest Hok Hp Hc HF Hs)
    as [Hx|(st & s' & E & Est & El)]; [lia|unfold zlen in *; lia|by left|].
  right. exists st, s'. split; [exact E|]. split.
  - rewrite Est. apply (add_measured_spec _ no_rtt []); [by split|done|by apply pairs_range|done|exact Hsum].
  - rewrite El, Hr. change (logged no_rows) with (@nil row_t). done.
Qed.

(** Both clients rely on the order of the two completions of a round trip, which
    a shared completion queue does not guarantee: when the reply is reported
    before the completed send, the process exits with status 1. *)
Theorem ping_reordered ts fuel s rest :
  (forall k, posts (vb s) k = true) ->
  polls (vb s) = Completion true IBV_WC_RECV :: Completion true IBV_WC_SEND :: rest ->
  exists s', ping ts (S fuel) s = (Exit 1, s').
Proof.
  intros Hp Hs. unfold ping.
  assert (forall s0, (forall k, posts (vb s0) k = true) ->
    polls (vb s0) = Completion true IBV_WC_RECV :: Completion true IBV_WC_SEND :: rest ->
    forall t, exists s', (post;; p ← await_wc (S fuel); wc ← expect ts IBV_WC_SEND None p;
      t0 ← (if ts then nanos else mret t); p ← await_wc (S fuel); _ ← expect true IBV_WC_RECV wc p;
      t1 ← nanos; mret (t0, t1)) s0 = (Exit 1, s')) as H.
  { intros s0 Hp0 Hs0 t.
    rewrite (run_bind _ _ _ _ _ (post_run s0 Hp0)).
    rewrite (run_bind _ _ _ _ _ (await_wc_run 0 (S fuel) (advanced s0 (polls (vb s0)) 0 1)
      _ _ Hs0 ltac:(done) ltac:(lia))).
    destruct ts.
    - eexists. reflexivity.
    - assert (expect false IBV_WC_SEND None (Completion true IBV_WC_RECV)
        = (mret (Some IBV_WC_RECV) : prog server_state (option opcode))) as -> by done.
      rewrite (run_bind _ _ _ _ _ (run_ret (Some IBV_WC_RECV) _)), (run_bind _ _ _ _ _ (run_ret t _)).
      match goal with |- context [bind (await_wc (S fuel)) _ ?x] =>
        rewrite (run_bind _ _ _ _ _ (await_wc_run 0 (S fuel) x _ _ eq_refl ltac:(done) ltac:(lia))) end.
      eexists. reflexivity. }
  destruct ts.
  - rewrite (run_bind _ _ _ _ _ (run_ret 0 s)). exact (H s Hp Hs 0).
  - rewrite (run_bind nanos _ _ _ _ eq_refl).
    exact (H (advanced s (polls (vb s)) 1 0) Hp Hs (clock (vb s) (ticks (vb s)))).
Qed.

(** ** Examples *)

Definition small_alloc (n : Z) : bool := n <? 100000.
Lemma small_alloc_limit n : small_alloc n = true -> n < 2 ^ 60.
Proof. unfold small_alloc. intros H%Z.ltb_lt. lia. Qed.


Lemma rxq_refines_fifo_witness :
  exists q', rxq_run small_alloc [Push 5; Push 6; Pop; Push 7; Pop; Pop; Pop] rxq_init = (Ret [5; 6; 7], q').
Proof.
  destruct (rxq_refines_fifo small_alloc [Push 5; Push 6; Pop; Push 7; Pop; Pop; Pop] small_alloc_limit)
    as [(q' & E & _)|(q' & E & _)].
  - apply (f_equal (λ r, match r.1 with Exit _ => true | _ => false end)) in E. vm_compute in E. discriminate E.
  - by exists q'.
Defined.

Lemma rxq_capacity_doubles_witness :
  exists buf', for_loop (Z.to_nat (2 * 65537)) 0 (λ _, push_pop (λ _, true)) (mk_rxq (repeat 0 131072) 131072 0 0)
    = (Ret tt, mk_rxq buf' 524288 0 0).
Proof.
  destruct (rxq_capacity_doubles (λ _, true) 2 (repeat 0 131072)) as (buf' & E); [|done|done|].
  - unfold zlen. rewrite repeat_length. reflexivity.
  - exists buf'. exact E.
Defined.


Definition quiet : server_state :=
  mk_srv (mk_verbs (concat (map exchange [(1, 2); (0, 0)]%nat)) (λ t, Z.min (Z.of_nat t * 10) 1000) 0
            (λ _, true) 0 None) rxq_init no_rows 0.

Lemma client_ts_measures_witness :
  exists st s', client_ts_loop small_alloc 2 5 0 64 no_rtt quiet = (Ret st, s') /\
    rtts_summed (r_min st) (r_max st) (r_sum st) (r_received st) [10; 10].
Proof.
  destruct (client_ts_measures small_alloc 64 5 [(1, 2); (0, 0)]%nat [] quiet small_alloc_limit)
    as [(s' & E & _)|(st & s' & E & Hs & _)].
  - done.
  - done.
  - intros j. cbn [quiet vb clock]. lia.
  - repeat (apply list.Forall_cons; split; [cbn; lia|]). done.
  - cbn [quiet vb polls]. by rewrite app_nil_r.
  - done.
  - done.
  - apply (f_equal (λ r, match r.1 with Exit _ => true | _ => false end)) in E. vm_compute in E. discriminate E.
  - exists st, s'. split; [exact E|exact Hs].
Defined.

Lemma ping_reordered_witness :
  exists s', ping true 3 (mk_srv (mk_verbs [Completion true IBV_WC_RECV; Completion true IBV_WC_SEND]
    (λ _, 0) 0 (λ _, true) 0 None) rxq_init no_rows 0) = (Exit 1, s').
Proof. by apply (ping_reordered true 2 _ []). Defined.
